(* ===== verification/_CoqProject ===== *)
-Q . S2P
Prelude.v
Decimal.v
Schema.v
Store.v
Transactions.v
Samples.v
Balance.v
Interleave.v
Utils.v
Ethereum.v
Services.v
Queue.v
QueueSteps.v
QueueTermination.v
QueueClaims.v
Orders.v
OrderClaims.v
Rows.v
Http.v
Provider.v
ProviderClaims.v
Webhooks.v
WebhookClaims.v
Tasks.v
TaskClaims.v
Calm.v
Payments.v
Sender.v
SenderClaims.v
Indexer.v
IndexerClaims.v
Gateway.v
GatewayClaims.v
ChainEvents.v
EvmIndexer.v
ChainEventClaims.v
IndexTasks.v
IndexTaskClaims.v
Polling.v
PollClaims.v
Insight.v
InsightClaims.v
Auth.v
AuthClaims.v
Accounts.v
AccountClaims.v
Profiles.v
ProfileClaims.v
Alchemy.v
AlchemyClaims.v
Public.v
PublicClaims.v
Kyb.v
KybClaims.v
Kyc.v
KycClaims.v
