(* ===== verification/Prelude.v ===== *)
(** * Verification of the stablenode payment aggregator

    stablenode matches on-chain stablecoin orders with liquidity providers that
    pay them out in fiat.  An indexer reads an [OrderCreated] event and stores a
    lock payment order (services/common/order.go); the order is assigned to a
    provider of its provision bucket by walking a Redis queue
    (services/priority_queue.go), which reserves the order's fiat amount on the
    provider's balance (services/balance_management.go); the provider accepts,
    fulfils, declines or cancels it over HTTP (controllers/provider); scheduled
    tasks poll fulfilments, requeue stale orders and refresh balances and rates
    (tasks/tasks.go); and an [OrderSettled] or [OrderRefunded] event ends it.
    Senders are told of each change by a webhook (utils/utils.go).  The rates
    quoted to senders come from the same queues.  On the other side a sender asks
    for a payment order (controllers/sender), which waits for a transfer to its
    receive address; the indexer reads the transfer from the receipt of its
    transaction (services/indexer/evm.go, utils/rpc_events.go), the transfer pays the
    order (services/common/indexer.go), and the order is created in the gateway
    contract (services/order/evm.go).  Events are also reported by thirdweb
    (controllers/index.go).  Transfers that nobody reported are looked for
    by scheduled tasks, and balances are polled (services/polling_service.go).
    Transactions are sent from smart accounts as user operations, or from keys
    (services/alchemy.go).  Users register, log in and keep profiles
    (controllers/accounts); every request passes the middlewares of its route
    (routers/middleware); businesses are reviewed in Slack and wallets identified
    (controllers/index.go).

    ** Files

    - [Prelude]: Go errors and outcomes, the strings operations the code uses,
      generic lemmas and tactics.
    - [Decimal]: the interface of the decimal package ([DecimalOps], its
      documented behaviour [DecimalLaws]) and a concrete instance on which the
      development evaluates.
    - [Schema]: the entities of ent/schema and the payload types of
      types/types.go, field by field.
    - [Store]: the shared state ([World]: Postgres tables, open transactions,
      Redis, failures to come, clock, events) and the monad [M] the handlers are
      written in, with [wp] rules to reason about them.
    - [Transactions]: reasoning about a handler that works inside a transaction.
    - [Samples]: a seeded database for the witnesses.
    - [Balance]: services/balance_management.go, operation by operation, and
      its theorems.
    - [Interleave]: ReserveBalance cut at its external calls, any number of which run
      interleaved ([pool_step]), with the theorems about that.
    - [Utils]: the helpers and rate validation of utils/utils.go, and their
      theorems.
    - [Ethereum]: addresses and hashes of go-ethereum as an interface, with an
      instance.
    - [Services]: what the node reaches outside ([Services], [ServicesLaws]) and
      CallProviderWithHMAC.
    - [Queue]: services/priority_queue.go.  [QueueSteps] has what each step does
      and the invariant rule for the assignment, [QueueTermination] that it
      terminates, [QueueClaims] the theorems.
    - [Orders]: services/common/order.go with the checks of the ent builder it
      depends on; [OrderClaims] has its theorems.
    - [Rows] and [Http]: the updates of order rows with the checks of the ent
      builders; the answers of the API and its pagination.
    - [Provider]: the endpoints of controllers/provider/provider.go;
      [ProviderClaims] has their theorems.
    - [Webhooks]: SendPaymentOrderWebhook of utils/utils.go and
      RetryFailedWebhookNotifications of tasks/tasks.go; [WebhookClaims] has
      their theorems and the instance that discharges [OrderLaws], the interface
      through which [Orders] uses webhooks.
    - [Calm]: the closure of code that writes nothing.  [Payments]: the builder of
      payment orders (ent/paymentorder_create.go) with its checks.
    - [Sender]: the endpoints of controllers/sender/sender.go; [SenderClaims] has
      their theorems.
    - [Indexer]: services/common/indexer.go, what the transfers and gateway events
      read from the chain do; [IndexerClaims] has its theorems.
    - [Gateway]: the EVM order service of services/order/evm.go, an instance of the
      interface [OrderService] of [Tasks]; [GatewayClaims] has its theorems, among
      them that it satisfies what deposits rely on ([frames]).
    - [ChainEvents]: the decoders of utils/rpc_events.go and the reading of events
      from a receipt; [EvmIndexer]: services/indexer/evm.go; [ChainEventClaims] has
      the theorems of both.
    - [IndexTasks]: the tasks of tasks/tasks.go that index the chain, for any indexer
      of the interface [Indexer]; [IndexTaskClaims] has their theorems.
    - [Polling]: services/polling_service.go, with its cache and its loop;
      [PollClaims] has its theorems and those about polling and the tasks together.
    - [Insight]: the receiver of reported chain events and the endpoints that index on
      request (controllers/index.go); [InsightClaims] has its theorems.
    - [Auth]: the middlewares of routers/middleware/auth.go with the tokens and
      signatures of utils/token/token.go and the chains of routers/index.go;
      [AuthClaims] has their theorems.
    - [Accounts]: controllers/accounts/auth.go, services/api_key.go and the hooks and
      cascades of the schema; [AccountClaims] has their theorems.
    - [Profiles]: controllers/accounts/profile.go; [ProfileClaims] has its theorems.
    - [Alchemy]: accounts, user operations and transactions of services/alchemy.go and
      the addresses of services/receive_address.go; [AlchemyClaims] has their theorems
      and the instance that discharges the chain service of [Gateway].
    - [Public]: the endpoints of controllers/index.go that read, and linked addresses;
      [PublicClaims] has their theorems.
    - [Kyb]: the submission of a business and its review in Slack (controllers/index.go,
      services/slack.go); [KybClaims] has their theorems.
    - [Kyc]: the identity checks of wallets (controllers/index.go, services/kyc), whose
      table is passed along; [KycClaims] has their theorems.
    - [Tasks]: the other scheduled tasks of tasks/tasks.go; [TaskClaims] has their
      theorems and an invariant rule for code that only uses the store through
      given writes.

    ** How the code is translated

    A handler is a function to [M A]: it passes the [World] on and ends in a
    value, an error or a panic (nil dereference, division by zero).  The
    notations [let!], [do!], [let?], [do?] are the patterns of Go's error
    handling: return the error, or handle it.  Loops are structural recursions
    over the list they range over; the loops over Redis positions and the mutual
    recursion of the assignment take a bound, and [token_rate_terminates] and
    [assign_terminates] show that a bound larger than the longest queue, and a
    nesting larger than the failures to come plus the queue entries not yet
    excluded, always give the same result.

    Every call that leaves the process takes one entry of [w_faults] and fails
    when it is [true]; a theorem about every world therefore covers every pattern
    of failures, and one with [w_faults w = \[\]] is about a run without
    failures.  A transaction is the function its writes compose to, applied to
    the committed database at the commit; reads inside it see that function's
    result (READ COMMITTED with a single writer).  An error return that neither
    commits nor rolls back leaves the transaction in [w_txs].  Goroutines are
    recorded as events, or are definitions of their own; those that the stale
    order task and an indexed transfer start are step relations ([stale_step],
    [deposit_step]), and so are the loop of the polling service ([poll_step]),
    concurrent reservations ([pool_step]) and the requests of a review ([kyb_step]) and
    of an identity check ([kyc_step]).

    ** What is proved

    - Balances: reserving, releasing, timing out, cancelling and repairing move
      exactly the stated amounts in one row, commit all or nothing, and keep the
      invariant [b_consistent] (nothing negative, available plus reserved within
      the total); the reports add up.
    - Queues: a rebuilt queue implements [queue_spec]; a picked entry satisfies
      every condition of the order; the assignment keeps all balances consistent,
      never calls an excluded provider, offers the order to the first serving
      entry, rotates the queue, and terminates.
    - Rates: an accepted rate belongs to a queue entry that serves the amount;
      entries and bucket keys survive serialisation.
    - Orders: storing an order is atomic; an indexed event changes nothing; a
      settlement settles the order and changes at most one balance row, by the
      settlement of the order's amount; the validity of receive addresses.
    - Provider endpoints: for every input and pattern of failures, the answer and
      the rows after it; which requests change nothing.
    - Sender endpoints: what a created order, its address and its answer are, and
      that any other end leaves the orders as they were; lists and statistics.
    - Transfers: a deposit is recorded in one commit and the order created once, or
      nothing changes; the amount of a paid order; a known transfer changes nothing;
      one transfer can pay two orders of a shared address; transfers to linked
      addresses are lost.
    - The chain: the decoders read back what the contracts encode; a transfer in a
      receipt is indexed with its own addresses and value; creating an order sends
      one batch with the exact amounts, after the message hash is saved, and an
      order that fails after that is never created again, nor is one at all that was paid
      in full, which the trigger of the database refuses; only validated orders are
      settled, to their own provider; a deposit that is reported as a success has
      reached the chain service.
    - Reports of chain events: exactly the signed and recent ones that can be read are
      processed, each event by its handler and in order, and they are acknowledged
      unless a handler panics; a reported transfer pays its order; a settlement is booked as
      often as it is reported.
    - Finding payments: a transfer that nobody reported is recorded by the task that
      resolves missed events, from the history of the address and the bytes of the
      receipt; a cycle of polling, from every state its loop can reach, only raises
      amounts paid, to balances of the order's own address and token that its network's
      node gave no longer ago than the cache allows; which task looks at
      which order; polling and the retry task together submit orders nobody paid.
    - Concurrent reservations: however their calls interleave the committed row stays
      consistent; cut at its calls the method is itself; two that overlap are both
      granted though one is recorded; one after the other they add up.
    - Authentication: a request that reaches a sender or provider handler carries a
      credential of the profile it acts for, when the stored secrets can be read; the
      tokens of a login open the routes until they expire; which requests are admitted
      or panic besides.
    - Accounts and profiles: registration, deletion, passwords and profiles change what
      they say in one commit or nothing; a deletion removes exactly the rows of the user
      and every reference stays intact; a user who registers can log in and act once
      the e-mail address counts as verified.
    - Chain accounts: a batch sends its calls in order; the call data decodes to the
      call; the hash that is signed is that of the operation that is sent; a stored key
      is recovered; which batches cannot be executed.
    - Public endpoints: what the status of an order adds up; they change nothing; whose
      linked account is shown to whom.
    - Reviews: a submission is stored as a whole, and refused while a stored one is
      pending or approved; over every run a user is approved only
      after the dialog of one of its submissions was confirmed; a decided submission is
      never decided again, also after it was sent in again.
    - Identity checks: a request needs the wallet's signature; over every run a wallet is
      verified only by a signed report of success and stays so; the signature of one
      report serves for any other.
    - Webhooks: a notification is posted or scheduled; the recorded attempts are
      bounded in number and delay, the posts of an attempt whose sender is gone are
      not; what the retry task delivers and what blocks it.
    - Tasks: polling fulfilments keeps balances consistent and never releases a
      reservation; market rates stay within the deviation; what a
      refresh of balances forgets; two goroutines settle one order twice.
    - Error paths that do not do what the code means to: each is a theorem that
      exhibits the behaviour (transactions left open, panics, a rate of zero, a
      cancellation that cannot be stored, a repair that is never committed,
      balances that go negative or above the total, an expiry that is never
      notified).

    ** Bounds and abstractions

    Decimal columns are exact (the schema stores them as floats); [Div] is
    specified by its rounding bound; token decimals are not negative.  The clock
    is constant within a handler.  Letter case is ASCII.  One external call
    stands for one ent query with its eager-loaded edges.  Of the JSON metadata
    of transaction logs only what the code reads back is kept.  An optional text
    column that is NULL and one that is empty are the same.  Rows that tie in an
    SQL order come in the order of their keys.  JSON keys match exactly.  Webhook
    attempts are written outside transactions, as in the code.  Block numbers are
    below [2^53], where the conversion to a float is exact.  Row locks, and
    Postgres aborting a transaction after a failed statement, are not modelled,
    nor, the step relations apart, is the interleaving of two handlers.  The set of
    decided reviews, which the code keeps in memory, is passed along: what is said of
    it holds within one run of the server.  Networks and tokens do not change while
    the polling loop runs.  Ratings of providers are rows that no modelled handler
    writes; they only hold up deletions.
    The trigger that the migrations put on payment orders is evaluated by the updates of
    [Gateway] ([check_payment_order_amount]); for the other updates of payment orders a
    rejection is one of the failures of [w_faults].

    Parameters, with the laws that the theorems use stated in their classes: the
    decimal package, the Redis [SCAN], the shuffle, decryption of secrets and of
    recipients, HMAC, provider nodes, the receivers of webhooks, the exchanges,
    the order in which goroutines report, UUID parsing, base58, Tron wallets, the
    service that watches addresses, the AML service, the UUID generator, go-ethereum's text of addresses and its ABI
    encoder, the encryption of recipients, the node, the engine, the services that
    list the transactions of an address, the order in which a map is ranged over, the
    HMAC and the table of the webhooks of thirdweb; and [AuthServices] (JSON, JWT,
    base64, AES-GCM, Cloudflare), [AccountServices] (bcrypt, random keys),
    [ProfileServices] (URLs), [AlchemyServices] (keccak, ECDSA, the bundler),
    [KybServices] (Slack) and [KycServices] (Smile ID).  Each has an instance on which the witnesses evaluate.

    ** Not modelled

    - Generated code (ent, apart from the checks of the builders that the handlers rely
      on, and the contract bindings): it is what the store of the model stands for.
    - The Tron indexer and order service: protobuf, base58 and the Tron SDK around the
      event handlers that the EVM indexer calls too, which are modelled.
    - The clients of Etherscan and Blockscout and of e-mail providers, and
      in services/alchemy.go the receipts, histories and webhooks: requests whose answers
      are passed on; where the modelled code uses them they are parameters.
    - Start-up, configuration, connections, logging and the command line tools. *)

From Stdlib Require Export ZArith QArith Lqa Ascii String.
From stdpp Require Export base tactics option list strings gmap fin_maps.

#[global] Open Scope Z_scope.
#[global] Set Default Goal Selector "!".

(** Reflexive facts about what a step leaves alone. *)
Create HintDb frame.

(** Compute both sides and compare them without reading them back. *)
Ltac vm_refl := lazymatch goal with |- ?a = ?b => exact (@eq_refl _ b <: a = b) end.

Declare Scope go_scope.
Delimit Scope go_scope with go.

(** ** Go values: errors, results, strings *)

(** The error values the handlers build: the [ent] and Redis sentinels that
    the code inspects ([ent.IsNotFound], ["redis: nil"]), an infrastructure
    failure, a fresh message ([fmt.Errorf] without [%w], [%v] included) and a
    wrapped error ([fmt.Errorf("...: %w", err)]). *)
Inductive error : Type :=
  | ENotFound
  | ENotSingular
  | EFault
  | ERedisNil
  | ETxDone
  | EValidation (field : string)
  | EMsg (msg : string)
  | EWrap (msg : string) (e : error).

#[export] Instance error_eq_dec : EqDecision error.
Proof. solve_decision. Defined.

(** [ent.IsNotFound]: unwraps with [errors.As]. *)
Fixpoint IsNotFound (e : error) : bool :=
  match e with
  | ENotFound => true
  | EWrap _ e' => IsNotFound e'
  | _ => false
  end.

(** [strings.Contains(fmt.Sprintf("%v", err), "redis: nil")]. *)
Fixpoint is_redis_nil (e : error) : bool :=
  match e with
  | ERedisNil => true
  | EWrap _ e' => is_redis_nil e'
  | _ => false
  end.

(** The outcome of a Go call: a value with a nil error, a non-nil error, or a
    run-time panic (nil dereference, division by zero). *)
Inductive outcome (A : Type) : Type :=
  | Ret (a : A)
  | Err (e : error)
  | Panic.
Arguments Ret {A} a.
Arguments Err {A} e.
Arguments Panic {A}.

Definition is_ret {A} (o : outcome A) : bool :=
  match o with Ret _ => true | _ => false end.
Definition is_panic {A} (o : outcome A) : bool :=
  match o with Panic => true | _ => false end.

(** ** Characters and strings as the Go standard library treats them *)

(** [strings.Split(s, c)] for a one-character separator. *)
Fixpoint split_on (c : ascii) (s : string) : list string :=
  match s with
  | EmptyString => [EmptyString]
  | String a s' =>
      if Ascii.eqb a c then EmptyString :: split_on c s'
      else match split_on c s' with
           | p :: ps => String a p :: ps
           | [] => [String a EmptyString]
           end
  end.

(** [strings.Join(l, c)]; also [fmt.Sprintf("%s<c>%s...")]. *)
Fixpoint join_with (c : ascii) (l : list string) : string :=
  match l with
  | [] => EmptyString
  | [s] => s
  | s :: l' => s +:+ String c (join_with c l')
  end.

(** Membership of a byte in a string. *)
Fixpoint has_char (c : ascii) (s : string) : bool :=
  match s with
  | EmptyString => false
  | String a s' => Ascii.eqb a c || has_char c s'
  end.

(** [strings.HasPrefix]. *)
Definition HasPrefix (s pre : string) : bool := String.prefix pre s.

(** [strings.Contains]. *)
Fixpoint Contains (s sub : string) : bool :=
  String.prefix sub s ||
  match s with
  | EmptyString => false
  | String _ s' => Contains s' sub
  end.

(** [strings.ToLower] on ASCII letters. *)
Definition lower_ascii (a : ascii) : ascii :=
  let n := Ascii.nat_of_ascii a in
  if ((65 <=? n) && (n <=? 90))%nat then Ascii.ascii_of_nat (n + 32)%nat else a.
Fixpoint ToLower (s : string) : string :=
  match s with
  | EmptyString => EmptyString
  | String a s' => String (lower_ascii a) (ToLower s')
  end.

(** [strings.ToUpper] on ASCII letters. *)
Definition upper_ascii (a : ascii) : ascii :=
  let n := Ascii.nat_of_ascii a in
  if ((97 <=? n) && (n <=? 122))%nat then Ascii.ascii_of_nat (n - 32)%nat else a.
Fixpoint ToUpper (s : string) : string :=
  match s with
  | EmptyString => EmptyString
  | String a s' => String (upper_ascii a) (ToUpper s')
  end.

(** [strings.EqualFold] on ASCII strings (currency codes are ASCII). *)
Definition EqualFold (s t : string) : bool := String.eqb (ToLower s) (ToLower t).

(** ** Generic lemmas *)

Lemma bool_decide_eqb (s t : string) : String.eqb s t = bool_decide (s = t).
Proof.
  destruct (String.eqb_spec s t) as [->|H]; symmetry;
    [by apply bool_decide_eq_true | by apply bool_decide_eq_false].
Qed.

Lemma has_char_app c s t : has_char c (s +:+ t) = has_char c s || has_char c t.
Proof. induction s as [|a s IH]; simpl; [done|]. by rewrite IH, orb_assoc. Qed.

Lemma split_on_nonempty c s : split_on c s <> [].
Proof.
  destruct s as [|a s]; simpl; [done|].
  destruct (Ascii.eqb a c); [done|]. by destruct (split_on c s).
Qed.

(** A string without the separator is one part. *)
Lemma split_on_no_sep c s : has_char c s = false -> split_on c s = [s].
Proof.
  induction s as [|a s IH]; simpl; [done|].
  intros [Ha Hs]%orb_false_elim. rewrite Ha. by rewrite (IH Hs).
Qed.

Lemma split_on_app c s t :
  has_char c s = false -> split_on c (s +:+ String c t) = s :: split_on c t.
Proof.
  induction s as [|a s IH]; simpl; intros H.
  - by rewrite Ascii.eqb_refl.
  - apply orb_false_elim in H as [Ha Hs]. rewrite Ha. by rewrite (IH Hs).
Qed.

(** [Split] undoes [Join] when no part contains the separator. *)
Lemma split_join c l :
  l <> [] -> Forall (fun s => has_char c s = false) l ->
  split_on c (join_with c l) = l.
Proof.
  induction l as [|s l IH]; intros Hne HF; [done|].
  inversion HF as [|? ? Hs Hl]; subst.
  destruct l as [|t l].
  - simpl. by apply split_on_no_sep.
  - change (join_with c (s :: t :: l)) with (s +:+ String c (join_with c (t :: l))).
    rewrite (split_on_app _ _ _ Hs). f_equal. by apply IH.
Qed.

Lemma string_app_assoc (s t u : string) : (s +:+ t) +:+ u = s +:+ (t +:+ u).
Proof.
  induction s as [|a s IH]; [done|].
  change (String a ((s +:+ t) +:+ u) = String a (s +:+ (t +:+ u))). by rewrite IH.
Qed.

Lemma HasPrefix_app s t k : HasPrefix k (s +:+ t) = true -> HasPrefix k s = true.
Proof.
  revert k. induction s as [|a s IH]; intros k; [by destruct k|].
  destruct k as [|b k]; [done|]. change (String a s +:+ t) with (String a (s +:+ t)).
  unfold HasPrefix in *. simpl. destruct (ascii_dec a b); [apply IH|done].
Qed.

Lemma substring_all s : substring 0 (String.length s) s = s.
Proof. induction s as [|a s IH]; [done|]. simpl. by rewrite IH. Qed.
Lemma HasPrefix_append s t : HasPrefix (s +:+ t) s = true.
Proof.
  unfold HasPrefix. induction s as [|a s IH]; [by destruct t|].
  change (String a s +:+ t) with (String a (s +:+ t)). simpl. by destruct (ascii_dec a a).
Qed.

Lemma join_snoc c l x :
  l <> [] -> join_with c l +:+ String c x = join_with c (l ++ [x]).
Proof.
  induction l as [|s l IH]; intros Hne; [done|]. destruct l as [|t l]; [done|].
  change (join_with c (s :: t :: l)) with (s +:+ String c (join_with c (t :: l))).
  change (join_with c ((s :: t :: l) ++ [x])) with (s +:+ String c (join_with c ((t :: l) ++ [x]))).
  rewrite <- IH, string_app_assoc by done. done.
Qed.

Lemma filter_all_false {A} (p : A -> bool) l :
  Forall (fun x => p x = false) l -> List.filter p l = [].
Proof. induction 1 as [|x l Hx _ IH]; simpl; [done|]. by rewrite Hx. Qed.

(** ** Tactics *)

(** Case analysis on every [match] or [if] scrutinee of the goal. *)
Ltac case_matches :=
  repeat (case_match; simplify_eq/=; try done).

(** Split conjunctions of booleans in hypotheses. *)
Ltac bool_hyps :=
  repeat match goal with
  | H : _ && _ = true |- _ => apply andb_true_iff in H as [? ?]
  | H : _ || _ = false |- _ => apply orb_false_iff in H as [? ?]
  | H : negb _ = true |- _ => apply negb_true_iff in H
  | H : negb _ = false |- _ => apply negb_false_iff in H
  end.
