(* ===== verification/Decimal.v ===== *)
(** * The decimal library (github.com/shopspring/decimal) as an interface

    The Go code computes with [decimal.Decimal] values; the package is not part
    of the repository, so it is a parameter: [DecimalOps] lists the operations
    the code calls and [DecimalLaws] what their documentation promises, stated
    through [d_val], the rational number a decimal denotes.  [dec10] is a
    concrete instance (an integer scaled by a power of ten) that satisfies the
    laws; the concrete runs of the development use it. *)

From Stdlib Require Import Qabs Qround DecimalString DecimalPos DecimalZ DecimalFacts.
From S2P Require Import Prelude.

(** ** Banker's rounding *)

(** Round to the nearest integer, ties to the even neighbour. *)
Definition round_half_even (q : Q) : Z :=
  let f := Qfloor q in
  match ((q - inject_Z f) ?= (1 # 2))%Q with
  | Lt => f
  | Gt => f + 1
  | Eq => if Z.even f then f else f + 1
  end.

(** Round to the nearest integer, ties away from zero. *)
Definition round_half_away (q : Q) : Z :=
  if Qle_bool 0 q then Qfloor (q + (1 # 2)) else - Qfloor (- q + (1 # 2)).

(** Towards zero. *)
Definition q_trunc (q : Q) : Z := Z.quot (Qnum q) (Zpos (Qden q)).

Lemma q_trunc_integer q z : (q == inject_Z z)%Q -> q_trunc q = z.
Proof. destruct q as [n d]. unfold q_trunc, Qeq. simpl. intros H. assert (n = z * Zpos d) as -> by lia. by apply Z.quot_mul. Qed.

(** ** The interface *)

Class DecimalOps : Type := {
  dec : Type;
  (** the rational number a decimal stands for *)
  d_val : dec -> Q;
  (** [decimal.Zero], and the zero value [decimal.Decimal{}] *)
  d_zero : dec;
  (** [decimal.NewFromInt] *)
  d_int : Z -> dec;
  d_add : dec -> dec -> dec;
  d_sub : dec -> dec -> dec;
  d_mul : dec -> dec -> dec;
  (** [Div], to [DivisionPrecision] = 16 digits; only called on a non-zero
      divisor ([Div] panics on zero, see [go_div] in Store) *)
  d_div : dec -> dec -> dec;
  d_abs : dec -> dec;
  d_cmp : dec -> dec -> comparison;
  (** [RoundBank(places)] *)
  d_round_bank : dec -> Z -> dec;
  (** [Round(places)] *)
  d_round : dec -> Z -> dec;
  (** [decimal.New(value, exp)], and a literal of [decimal.NewFromFloat] *)
  d_new : Z -> Z -> dec;
  (** [String()] and the [%s] verb *)
  d_string : dec -> string;
  (** [NewFromString] *)
  d_parse : string -> option dec;
  (** [BigInt] *)
  d_bigint : dec -> Z;
  (** [Float64], converted to [uint64] *)
  d_float_uint : dec -> Z
}.

(** The documented behaviour of the package. *)
Class DecimalLaws (O : DecimalOps) : Prop := {
  val_zero : (d_val d_zero == 0)%Q;
  val_int z : (d_val (d_int z) == inject_Z z)%Q;
  val_add a b : (d_val (d_add a b) == d_val a + d_val b)%Q;
  val_sub a b : (d_val (d_sub a b) == d_val a - d_val b)%Q;
  val_mul a b : (d_val (d_mul a b) == d_val a * d_val b)%Q;
  val_div a b : ~ (d_val b == 0)%Q ->
    (Qabs (d_val (d_div a b) - d_val a / d_val b) <= 1 # (2 * 10 ^ 16))%Q;
  val_div_ext a a' b b' : (d_val a == d_val a')%Q -> (d_val b == d_val b')%Q ->
    (d_val (d_div a b) == d_val (d_div a' b'))%Q;
  val_abs a : (d_val (d_abs a) == Qabs (d_val a))%Q;
  val_cmp a b : d_cmp a b = (d_val a ?= d_val b)%Q;
  val_round_bank_places a n : 0 <= n ->
    (d_val (d_round_bank a n) ==
       inject_Z (round_half_even (d_val a * inject_Z (10 ^ n))) / inject_Z (10 ^ n))%Q;
  val_round a n : 0 <= n ->
    (d_val (d_round a n) ==
       inject_Z (round_half_away (d_val a * inject_Z (10 ^ n))) / inject_Z (10 ^ n))%Q;
  val_new v n : 0 <= n -> (d_val (d_new v (- n)) == inject_Z v / inject_Z (10 ^ n))%Q;
  parse_string a : exists b, d_parse (d_string a) = Some b /\ (d_val b == d_val a)%Q;
  string_no_colon a : has_char ":" (d_string a) = false;
  string_no_underscore a : has_char "_" (d_string a) = false;
  string_integer a z : (d_val a == inject_Z z)%Q -> d_string a = NilZero.string_of_int (Z.to_int z);
  val_bigint a : d_bigint a = q_trunc (d_val a);
  (** integers below [2^53] are exact *)
  val_float_uint a z : 0 <= z < 2 ^ 53 -> (d_val a == inject_Z z)%Q -> d_float_uint a = z
}.

Section derived.
Context {O : DecimalOps}.

(** The comparison methods are documented in terms of [Cmp]. *)
Definition d_lt (a b : dec) : bool := match d_cmp a b with Lt => true | _ => false end.
Definition d_le (a b : dec) : bool := match d_cmp a b with Gt => false | _ => true end.
Definition d_gt (a b : dec) : bool := match d_cmp a b with Gt => true | _ => false end.
Definition d_ge (a b : dec) : bool := match d_cmp a b with Lt => false | _ => true end.
Definition d_eqb (a b : dec) : bool := match d_cmp a b with Eq => true | _ => false end.
Definition d_is_zero (a : dec) : bool := d_eqb a d_zero.
(** [decimal.Min(a, b)]. *)
Definition d_min (a b : dec) : dec := if d_lt b a then b else a.

(** Value equality: [1.0] and [1.00] are the same amount. *)
Definition d_eq (a b : dec) : Prop := (d_val a == d_val b)%Q.

#[global] Instance d_eq_equiv : Equivalence d_eq.
Proof. split; unfold d_eq; repeat intro; [reflexivity | by symmetry | by etransitivity; eauto]. Qed.

Context {L : DecimalLaws O}.

Lemma d_lt_spec a b : d_lt a b = true <-> (d_val a < d_val b)%Q.
Proof. unfold d_lt. rewrite val_cmp, Qlt_alt. destruct (_ ?= _)%Q; naive_solver. Qed.
Lemma d_lt_spec_false a b : d_lt a b = false <-> (d_val b <= d_val a)%Q.
Proof. unfold d_lt. rewrite val_cmp, Qle_alt, <- Qcompare_antisym. destruct (_ ?= _)%Q; naive_solver. Qed.
Lemma d_le_spec a b : d_le a b = true <-> (d_val a <= d_val b)%Q.
Proof. unfold d_le. rewrite val_cmp, Qle_alt. destruct (_ ?= _)%Q; naive_solver. Qed.
Lemma d_le_spec_false a b : d_le a b = false <-> (d_val b < d_val a)%Q.
Proof. unfold d_le. rewrite val_cmp, Qlt_alt, <- Qcompare_antisym. destruct (_ ?= _)%Q; naive_solver. Qed.
Lemma d_gt_spec a b : d_gt a b = true <-> (d_val b < d_val a)%Q.
Proof. unfold d_gt. rewrite val_cmp, Qlt_alt, <- Qcompare_antisym. destruct (_ ?= _)%Q; naive_solver. Qed.
Lemma d_gt_spec_false a b : d_gt a b = false <-> (d_val a <= d_val b)%Q.
Proof. unfold d_gt. rewrite val_cmp, Qle_alt. destruct (_ ?= _)%Q; naive_solver. Qed.
Lemma d_ge_spec a b : d_ge a b = true <-> (d_val b <= d_val a)%Q.
Proof. unfold d_ge. rewrite val_cmp, Qle_alt, <- Qcompare_antisym. destruct (_ ?= _)%Q; naive_solver. Qed.
Lemma d_ge_spec_false a b : d_ge a b = false <-> (d_val a < d_val b)%Q.
Proof. unfold d_ge. rewrite val_cmp, Qlt_alt. destruct (_ ?= _)%Q; naive_solver. Qed.
Lemma d_eqb_spec a b : d_eqb a b = true <-> (d_val a == d_val b)%Q.
Proof. unfold d_eqb. rewrite val_cmp, Qeq_alt. destruct (_ ?= _)%Q; naive_solver. Qed.
Lemma d_eqb_spec_false a b : d_eqb a b = false <-> ~ (d_val a == d_val b)%Q.
Proof. unfold d_eqb. rewrite val_cmp, Qeq_alt. destruct (_ ?= _)%Q; naive_solver. Qed.

Lemma d_min_cases a b :
  (d_val a <= d_val b)%Q /\ d_min a b = a \/ (d_val b < d_val a)%Q /\ d_min a b = b.
Proof.
  unfold d_min. destruct (d_lt b a) eqn:E.
  - right. split; [by apply d_lt_spec | done].
  - left. split; [by apply d_lt_spec_false | done].
Qed.

(** The operations respect value equality. *)
#[global] Instance d_add_proper : Proper (d_eq ==> d_eq ==> d_eq) d_add.
Proof. intros a a' Ha b b' Hb. unfold d_eq in *. by rewrite !val_add, Ha, Hb. Qed.
#[global] Instance d_sub_proper : Proper (d_eq ==> d_eq ==> d_eq) d_sub.
Proof. intros a a' Ha b b' Hb. unfold d_eq in *. by rewrite !val_sub, Ha, Hb. Qed.
#[global] Instance d_mul_proper : Proper (d_eq ==> d_eq ==> d_eq) d_mul.
Proof. intros a a' Ha b b' Hb. unfold d_eq in *. by rewrite !val_mul, Ha, Hb. Qed.
#[global] Instance d_div_proper : Proper (d_eq ==> d_eq ==> d_eq) d_div.
Proof. intros a a' Ha b b' Hb. by apply val_div_ext. Qed.
#[global] Instance d_cmp_proper : Proper (d_eq ==> d_eq ==> eq) d_cmp.
Proof. intros a a' Ha b b' Hb. unfold d_eq in *. rewrite !val_cmp. by rewrite Ha, Hb. Qed.
#[global] Instance d_lt_proper : Proper (d_eq ==> d_eq ==> eq) d_lt.
Proof. intros a a' Ha b b' Hb. unfold d_lt. by rewrite Ha, Hb. Qed.
#[global] Instance d_gt_proper : Proper (d_eq ==> d_eq ==> eq) d_gt.
Proof. intros a a' Ha b b' Hb. unfold d_gt. by rewrite Ha, Hb. Qed.

End derived.

(** Turn every decimal comparison of the context into one on rationals and
    every decimal operation into the rational one, then decide with [lra]. *)
Ltac dec_to_q :=
  repeat match goal with
  | H : d_lt _ _ = true |- _ => apply d_lt_spec in H
  | H : d_lt _ _ = false |- _ => apply d_lt_spec_false in H
  | H : d_le _ _ = true |- _ => apply d_le_spec in H
  | H : d_le _ _ = false |- _ => apply d_le_spec_false in H
  | H : d_gt _ _ = true |- _ => apply d_gt_spec in H
  | H : d_gt _ _ = false |- _ => apply d_gt_spec_false in H
  | H : d_ge _ _ = true |- _ => apply d_ge_spec in H
  | H : d_ge _ _ = false |- _ => apply d_ge_spec_false in H
  | H : d_eqb _ _ = true |- _ => apply d_eqb_spec in H
  | H : d_eqb _ _ = false |- _ => apply d_eqb_spec_false in H
  | |- d_lt _ _ = true => apply d_lt_spec
  | |- d_lt _ _ = false => apply d_lt_spec_false
  | |- d_le _ _ = true => apply d_le_spec
  | |- d_le _ _ = false => apply d_le_spec_false
  | |- d_gt _ _ = true => apply d_gt_spec
  | |- d_gt _ _ = false => apply d_gt_spec_false
  | |- d_ge _ _ = true => apply d_ge_spec
  | |- d_ge _ _ = false => apply d_ge_spec_false
  | |- d_eqb _ _ = true => apply d_eqb_spec
  | |- d_eqb _ _ = false => apply d_eqb_spec_false
  end;
  rewrite ?val_add, ?val_sub, ?val_mul, ?val_abs, ?val_zero, ?val_int in *.

Ltac dec_lra := dec_to_q; lra.

(** ** Facts about banker's rounding *)

Lemma round_half_even_bound q :
  (Qabs (inject_Z (round_half_even q) - q) <= 1 # 2)%Q.
Proof.
  unfold round_half_even. pose proof (Qfloor_le q) as Hlo.
  pose proof (Qlt_floor q) as Hhi. rewrite inject_Z_plus in Hhi. change (inject_Z 1) with 1%Q in Hhi.
  destruct ((q - inject_Z (Qfloor q)) ?= (1 # 2))%Q eqn:E;
    [apply Qeq_alt in E | apply Qlt_alt in E | apply Qgt_alt in E];
    try destruct (Z.even _); rewrite ?inject_Z_plus;
    change (inject_Z 1) with 1%Q; apply Qabs_case; intros; lra.
Qed.

Lemma round_half_even_nonneg q : (0 <= q)%Q -> 0 <= round_half_even q.
Proof.
  intros Hq. pose proof (Qfloor_resp_le 0 q Hq) as Hf. change (Qfloor 0) with 0 in Hf.
  unfold round_half_even. destruct (_ ?= _)%Q; try destruct (Z.even _); lia.
Qed.

#[global] Instance round_half_even_proper : Proper (Qeq ==> eq) round_half_even.
Proof. intros p q Hpq. unfold round_half_even. by rewrite (Qfloor_comp _ _ Hpq), Hpq. Qed.

Lemma round_half_away_bound q : (Qabs (inject_Z (round_half_away q) - q) <= 1 # 2)%Q.
Proof.
  unfold round_half_away. destruct (Qle_bool 0 q);
    [pose proof (Qfloor_le (q + (1 # 2))) as Hlo; pose proof (Qlt_floor (q + (1 # 2))) as Hhi
    |pose proof (Qfloor_le (- q + (1 # 2))) as Hlo; pose proof (Qlt_floor (- q + (1 # 2))) as Hhi];
    rewrite inject_Z_plus in Hhi; rewrite ?inject_Z_opp; change (inject_Z 1) with 1%Q in Hhi;
    apply Qabs_case; intros; lra.
Qed.

Section rounding.
Context {O : DecimalOps} {L : DecimalLaws O}.

(** Rounding a non-negative amount keeps it non-negative. *)
Lemma val_round_bank a : (d_val (d_round_bank a 0) == inject_Z (round_half_even (d_val a)))%Q.
Proof.
  rewrite val_round_bank_places by lia. change (inject_Z (10 ^ 0)) with 1%Q.
  rewrite Qmult_1_r. field.
Qed.

Lemma round_bank_nonneg a n : 0 <= n -> (0 <= d_val a)%Q -> (0 <= d_val (d_round_bank a n))%Q.
Proof.
  intros Hn H. rewrite val_round_bank_places by done.
  assert (Hp : (0 < inject_Z (10 ^ n))%Q) by (change 0%Q with (inject_Z 0); rewrite <- Zlt_Qlt; by apply Z.pow_pos_nonneg).
  apply Qle_shift_div_l; [done|]. rewrite Qmult_0_l. change 0%Q with (inject_Z 0).
  rewrite <- Zle_Qle. apply round_half_even_nonneg. apply Qmult_le_0_compat; [done|by apply Qlt_le_weak].
Qed.

Lemma round_bank_bound a : (Qabs (d_val (d_round_bank a 0) - d_val a) <= 1 # 2)%Q.
Proof. rewrite val_round_bank. apply round_half_even_bound. Qed.

(** Rounding to [n] places moves a value by at most half a unit of the last. *)
Lemma round_bound a n : 0 <= n -> (Qabs (d_val (d_round a n) - d_val a) <= 1 # 2 * Z.to_pos (10 ^ n))%Q.
Proof.
  intros Hn. rewrite val_round by done. pose proof (round_half_away_bound (d_val a * inject_Z (10 ^ n))) as H.
  assert (Hp : 0 < 10 ^ n) by (by apply Z.pow_pos_nonneg).
  assert (Hq : (0 < inject_Z (10 ^ n))%Q) by (change 0%Q with (inject_Z 0); by rewrite <- Zlt_Qlt).
  set (r := inject_Z (round_half_away _)) in *. set (t := inject_Z (10 ^ n)) in *.
  assert (E : (1 # 2 * Z.to_pos (10 ^ n) == (1 # 2) / t)%Q).
  { subst t. rewrite <- (Z2Pos.id (10 ^ n)) at 2 by done. unfold Qdiv, Qinv, Qmult, inject_Z, Qeq; simpl. lia. }
  rewrite E. assert (E2 : (r / t - d_val a == (r - d_val a * t) / t)%Q) by (field; lra).
  rewrite E2. unfold Qdiv at 1. rewrite Qabs_Qmult, (Qabs_pos (/ t)) by (apply Qlt_le_weak, Qinv_lt_0_compat; done).
  apply Qmult_le_compat_r; [exact H|]. apply Qlt_le_weak, Qinv_lt_0_compat; done.
Qed.
End rounding.

(** ** A concrete instance: an integer scaled by a power of ten *)

(** [coef * 10^-scale], as the package documents its representation. *)
Record dec10 := D10 { coef : Z; scale : N }.

Definition pow10 (s : N) : positive :=
  match s with N0 => 1%positive | Npos p => Pos.pow 10 p end.

Lemma pow10_add a b : pow10 (a + b) = (pow10 a * pow10 b)%positive.
Proof.
  destruct a as [|a], b as [|b]; simpl; [done|done|by rewrite Pos.mul_1_r|].
  apply Pos2Z.inj. rewrite Pos2Z.inj_mul, !Pos2Z.inj_pow, Pos2Z.inj_add.
  by apply Z.pow_add_r.
Qed.

Lemma pow10_Z n : 0 <= n -> Zpos (pow10 (Z.to_N n)) = 10 ^ n.
Proof. intros Hn. destruct n as [|p|p]; simpl; [done|apply Pos2Z.inj_pow|lia]. Qed.

Definition dec10_val (a : dec10) : Q := coef a # pow10 (scale a).
Definition dec10_div (a b : dec10) : dec10 :=
  D10 (Qfloor (dec10_val a / dec10_val b * (10 ^ 16 # 1) + (1 # 2))) 16.
Definition dec10_round_bank (a : dec10) (places : Z) : dec10 :=
  D10 (round_half_even (dec10_val a * (10 ^ places # 1))) (Z.to_N places).
Definition dec10_round (a : dec10) (places : Z) : dec10 :=
  D10 (round_half_away (dec10_val a * (10 ^ places # 1))) (Z.to_N places).
Definition dec10_new (v e : Z) : dec10 := if 0 <=? e then D10 (v * 10 ^ e) 0 else D10 v (Z.to_N (- e)).
(** An integer prints as one. *)
Definition shrink (a : dec10) : dec10 :=
  if coef a mod Zpos (pow10 (scale a)) =? 0 then D10 (coef a / Zpos (pow10 (scale a))) 0 else a.
Definition dec10_print (a : dec10) : string :=
  let digits z := NilZero.string_of_int (Z.to_int z) in
  match scale a with
  | 0%N => digits (coef a)
  | s => digits (coef a) +:+ String "e" (digits (- Z.of_N s))
  end.
Definition dec10_string (a : dec10) : string := dec10_print (shrink a).
Definition dec10_parse (s : string) : option dec10 :=
  match split_on "e" s with
  | [c] => i ← NilZero.int_of_string c; Some (D10 (Z.of_int i) 0)
  | [c; e] =>
      i ← NilZero.int_of_string c; j ← NilZero.int_of_string e;
      Some (D10 (Z.of_int i) (Z.to_N (- Z.of_int j)))
  | _ => None
  end.

#[global] Instance dec10_ops : DecimalOps := {
  dec := dec10;
  d_val := dec10_val;
  d_zero := D10 0 0;
  d_int z := D10 z 0;
  d_add a b := D10 (coef a * Zpos (pow10 (scale b)) + coef b * Zpos (pow10 (scale a)))
                   (scale a + scale b);
  d_sub a b := D10 (coef a * Zpos (pow10 (scale b)) - coef b * Zpos (pow10 (scale a)))
                   (scale a + scale b);
  d_mul a b := D10 (coef a * coef b) (scale a + scale b);
  d_div := dec10_div;
  d_abs a := D10 (Z.abs (coef a)) (scale a);
  d_cmp a b := (dec10_val a ?= dec10_val b)%Q;
  d_round_bank := dec10_round_bank;
  d_round := dec10_round;
  d_new := dec10_new;
  d_string := dec10_string;
  d_parse := dec10_parse;
  d_bigint a := q_trunc (dec10_val a);
  d_float_uint a := q_trunc (dec10_val a)
}.

Lemma int_string_parse z :
  NilZero.int_of_string (NilZero.string_of_int (Z.to_int z)) = Some (Z.to_int z).
Proof.
  apply NilZero.isi; destruct z as [|p|p]; simpl; try done;
    intros Hx; simplify_eq; by destruct (DecimalPos.Unsigned.to_uint_nonnil p).
Qed.

(** The bytes a signed number prints with. *)
Lemma uint_chars c u :
  Forall (fun a => Ascii.eqb a c = false)
    ["0"; "1"; "2"; "3"; "4"; "5"; "6"; "7"; "8"; "9"]%char ->
  has_char c (NilEmpty.string_of_uint u) = false.
Proof.
  intros HF. rewrite !Forall_cons in HF. destruct_and!.
  induction u; cbn [has_char NilEmpty.string_of_uint]; try rewrite IHu; try done;
    by repeat match goal with H : Ascii.eqb _ _ = false |- _ => rewrite H; clear H end.
Qed.

Lemma int_chars c z :
  Forall (fun a => Ascii.eqb a c = false)
    ["0"; "1"; "2"; "3"; "4"; "5"; "6"; "7"; "8"; "9"]%char ->
  Ascii.eqb "-" c = false ->
  has_char c (NilZero.string_of_int (Z.to_int z)) = false.
Proof.
  intros HF Hm. assert (H0 : has_char c "0" = false).
  { cbn [has_char]. inversion HF as [|? ? E _]. by rewrite E. }
  assert (Hu : forall u, has_char c (NilZero.string_of_uint u) = false).
  { intros u. pose proof (uint_chars c u HF) as Hc. by destruct u. }
  destruct z as [|p|p]; [exact H0 | apply Hu |].
  change (has_char c (String "-" (NilZero.string_of_uint (Pos.to_uint p))) = false).
  cbn [has_char]. rewrite Hm. apply Hu.
Qed.

Lemma shrink_val a : (dec10_val (shrink a) == dec10_val a)%Q.
Proof.
  unfold shrink. destruct (Z.eqb_spec (coef a mod Zpos (pow10 (scale a))) 0) as [E|_]; [|reflexivity].
  unfold dec10_val, Qeq; simpl. pose proof (Z.div_mod (coef a) (Zpos (pow10 (scale a)))). lia.
Qed.

Lemma shrink_integer a z : (dec10_val a == inject_Z z)%Q -> shrink a = D10 z 0.
Proof.
  unfold dec10_val, Qeq, shrink; simpl. intros H. assert (coef a = z * Zpos (pow10 (scale a))) as -> by lia.
  by rewrite Z.mod_mul, Z.div_mul.
Qed.

Lemma dec10_string_no c a :
  Forall (fun a => Ascii.eqb a c = false)
    ["0"; "1"; "2"; "3"; "4"; "5"; "6"; "7"; "8"; "9"]%char ->
  Ascii.eqb "-" c = false -> Ascii.eqb "e" c = false ->
  has_char c (dec10_string a) = false.
Proof.
  intros HF Hm He. unfold dec10_string. generalize (shrink a). clear a. intros a. unfold dec10_print. destruct (scale a) as [|p].
  - by apply int_chars.
  - rewrite has_char_app. cbn [has_char]. rewrite He. by rewrite !int_chars.
Qed.

Lemma dec10_parse_string a : dec10_parse (dec10_string a) = Some (shrink a).
Proof.
  unfold dec10_parse, dec10_string, dec10_print. destruct (shrink a) as [c [|p]]; cbn [scale coef].
  - rewrite split_on_no_sep by (apply int_chars; repeat constructor).
    rewrite int_string_parse; simpl. by rewrite DecimalZ.of_to.
  - rewrite split_on_app by (apply int_chars; repeat constructor).
    rewrite split_on_no_sep by (apply int_chars; repeat constructor).
    rewrite !int_string_parse; cbn [mbind option_bind]. rewrite !DecimalZ.of_to.
    by rewrite Z.opp_involutive, N2Z.id.
Qed.

Lemma dec10_div_bound (x : Q) :
  (Qabs (dec10_val (D10 (Qfloor (x * (10 ^ 16 # 1) + (1 # 2))) 16) - x) <= 1 # (2 * 10 ^ 16))%Q.
Proof.
  set (t := (x * (10 ^ 16 # 1) + (1 # 2))%Q).
  pose proof (Qfloor_le t) as Hlo. pose proof (Qlt_floor t) as Hhi.
  rewrite inject_Z_plus in Hhi. change (inject_Z 1) with 1%Q in Hhi.
  assert (Hv : (dec10_val (D10 (Qfloor t) 16) == inject_Z (Qfloor t) * (1 # 10 ^ 16))%Q).
  { unfold dec10_val, Qeq; simpl. lia. }
  rewrite Hv. subst t. change (1 # 2 * 10 ^ 16)%Q with (1 # 20000000000000000)%Q.
  change (1 # 10 ^ 16)%Q with (1 # 10000000000000000)%Q in *.
  change (10 ^ 16 # 1)%Q with (10000000000000000 # 1)%Q in *.
  apply Qabs_case; intros; lra.
Qed.

Lemma dec10_div_ext a a' b b' :
  (dec10_val a == dec10_val a')%Q -> (dec10_val b == dec10_val b')%Q ->
  (dec10_val (dec10_div a b) == dec10_val (dec10_div a' b'))%Q.
Proof.
  intros Ha Hb. unfold dec10_div.
  assert (E : (dec10_val a / dec10_val b * (10 ^ 16 # 1) + (1 # 2) ==
               dec10_val a' / dec10_val b' * (10 ^ 16 # 1) + (1 # 2))%Q) by (by rewrite Ha, Hb).
  by rewrite (Qfloor_comp _ _ E).
Qed.

#[global] Instance dec10_laws : DecimalLaws dec10_ops.
Proof.
  split; intros; cbn -[Qabs dec10_div dec10_round_bank dec10_round dec10_new].
  - reflexivity.
  - reflexivity.
  - unfold dec10_val, Qplus, Qeq; simpl. by rewrite pow10_add.
  - unfold dec10_val, Qminus, Qplus, Qopp, Qeq; simpl. rewrite pow10_add. lia.
  - unfold dec10_val, Qmult, Qeq; simpl. by rewrite pow10_add.
  - exact (dec10_div_bound (dec10_val a / dec10_val b)).
  - by apply dec10_div_ext.
  - unfold dec10_val, Qabs, Qeq; simpl. reflexivity.
  - done.
  - unfold dec10_round_bank, dec10_val. cbn [coef scale]. change (10 ^ n # 1)%Q with (inject_Z (10 ^ n)).
    rewrite Qmake_Qdiv. by rewrite pow10_Z.
  - unfold dec10_round, dec10_val. cbn [coef scale]. change (10 ^ n # 1)%Q with (inject_Z (10 ^ n)).
    rewrite Qmake_Qdiv. by rewrite pow10_Z.
  - unfold dec10_new. destruct (Z.leb_spec 0 (- n)).
    + assert (n = 0) as -> by lia. unfold dec10_val, Qeq; simpl. lia.
    + unfold dec10_val. cbn [coef scale]. rewrite Qmake_Qdiv, Z.opp_involutive. by rewrite pow10_Z.
  - exists (shrink a). split; [by rewrite dec10_parse_string|apply shrink_val].
  - apply dec10_string_no; repeat constructor.
  - apply dec10_string_no; repeat constructor.
  - unfold dec10_string. by rewrite (shrink_integer a z).
  - done.
  - by apply q_trunc_integer.
Qed.

(** The instance computes: [(1.5 + 2.25) * 4 = 15]. *)
Example dec10_run :
  d_eqb (d_mul (d_add (D10 15 1) (D10 225 2)) (d_int 4)) (d_int 15) = true.
Proof. reflexivity. Qed.
