(* ===== verification/Schema.v ===== *)
(** * Entities of the database (ent/schema) and payload types (types/types.go)

    One record per entity the modelled code reads or writes, with the fields of
    its schema; a required or optional edge to a single row is kept as that
    row's key, a to-many edge as the list of keys.  JSON columns are kept as
    their serialised text.  Times are nanoseconds since the epoch, the zero
    time is 0. *)

From S2P Require Import Prelude Decimal.

(** ** Enumerations *)

(** lockpaymentorder.Status *)
Inductive LockStatus :=
  | LPending | LProcessing | LCancelled | LFulfilled | LValidated | LSettled | LRefunded.
#[export] Instance LockStatus_eq_dec : EqDecision LockStatus.
Proof. solve_decision. Defined.

(** paymentorder.Status *)
Inductive PayStatus :=
  | PInitiated | PProcessing | PPending | PValidated | PExpired | PSettled | PRefunded.
#[export] Instance PayStatus_eq_dec : EqDecision PayStatus.
Proof. solve_decision. Defined.

(** lockorderfulfillment.ValidationStatus *)
Inductive ValidationStatus := VPending | VSuccess | VFailed.
#[export] Instance ValidationStatus_eq_dec : EqDecision ValidationStatus.
Proof. solve_decision. Defined.

(** transactionlog.Status *)
Inductive TxLogStatus :=
  | TOrderInitiated | TCryptoDeposited | TOrderCreated | TOrderProcessing | TOrderFulfilled
  | TOrderValidated | TOrderSettled | TOrderRefunded | TGasPrefunded | TGatewayApproved.
#[export] Instance TxLogStatus_eq_dec : EqDecision TxLogStatus.
Proof. solve_decision. Defined.

(** receiveaddress.Status *)
Inductive AddrStatus :=
  | APoolReady | APoolAssigned | APoolProcessing | APoolCompleted | AUnused | AUsed | AExpired.
#[export] Instance AddrStatus_eq_dec : EqDecision AddrStatus.
Proof. solve_decision. Defined.

(** providerprofile.VisibilityMode and user.KybVerificationStatus *)
Inductive Visibility := VisPrivate | VisPublic.
#[export] Instance Visibility_eq_dec : EqDecision Visibility.
Proof. solve_decision. Defined.
Inductive KybStatus := KNotStarted | KPending | KApproved | KRejected.
#[export] Instance KybStatus_eq_dec : EqDecision KybStatus.
Proof. solve_decision. Defined.

(** providerordertoken.ConversionRateType *)
Inductive RateType := RFixed | RFloating.
#[export] Instance RateType_eq_dec : EqDecision RateType.
Proof. solve_decision. Defined.

(** institution.Type *)
Inductive InstitutionType := IBank | IMobileMoney.
#[export] Instance InstitutionType_eq_dec : EqDecision InstitutionType.
Proof. solve_decision. Defined.

(** webhookretryattempt.Status *)
Inductive AttemptStatus := ASuccess | AFailed | AAttemptExpired.
#[export] Instance AttemptStatus_eq_dec : EqDecision AttemptStatus.
Proof. solve_decision. Defined.

(** ** JSON *)

#[warnings="-register-all"]
Inductive json :=
  | JNull
  | JBool (b : bool)
  | JNum (s : string)
  | JStr (s : string)
  | JArr (l : list json)
  | JObj (fields : list (string * json)).

#[export] Instance json_eq_dec : EqDecision json.
Proof.
  unfold EqDecision, RelDecision. fix dec 1. intros a b.
  destruct a as [|b1|s1|s1|l1|f1], b as [|b2|s2|s2|l2|f2]; try (right; discriminate).
  - by left.
  - destruct (decide (b1 = b2)); [left; congruence|right; congruence].
  - destruct (decide (s1 = s2)); [left; congruence|right; congruence].
  - destruct (decide (s1 = s2)); [left; congruence|right; congruence].
  - destruct (@list_eq_dec _ dec l1 l2); [left; congruence|right; congruence].
  - destruct (@list_eq_dec _ (@prod_eq_dec _ _ _ dec) f1 f2); [left; congruence|right; congruence].
Defined.

(** Indexing a [map\[string\]interface{}]. *)
Fixpoint json_get (k : string) (fields : list (string * json)) : option json :=
  match fields with
  | [] => None
  | (k', v) :: r => if String.eqb k k' then Some v else json_get k r
  end.

Record WebhookRetryAttempt := mkWRA {
  wr_id : Z;
  wr_attempt_number : Z;
  wr_next_retry_time : Z;
  wr_payload : list (string * json);
  wr_signature : string;
  wr_webhook_url : string;
  wr_status : AttemptStatus;
  wr_created_at : Z;
  wr_updated_at : Z
}.

Section entities.
Context {O : DecimalOps}.

(** ** Entities *)

(** A provider's balance in one currency.  The edges to the provider and to the
    currency are the key of the table: the schema has a unique index on them. *)
Record ProviderCurrencies := mkPC {
  pc_available_balance : dec;
  pc_total_balance : dec;
  pc_reserved_balance : dec;
  pc_is_available : bool;
  pc_updated_at : Z
}.

Record ProviderProfile := mkPP {
  pp_id : string;
  pp_trading_name : string;
  pp_host_identifier : string;
  pp_auto_provision : bool;
  pp_is_active : bool;
  pp_is_kyb_verified : bool;
  pp_updated_at : Z;
  pp_visibility_mode : Visibility;
  (** edge user, through the column the queries test *)
  pp_user_kyb_status : KybStatus;
  (** edge api_key: the stored secret *)
  pp_api_key : option string;
  (** edge user, by its unique e-mail *)
  pp_user_email : string
}.

Record FiatCurrency := mkFC {
  fc_id : string;
  fc_code : string;
  fc_short_name : string;
  fc_decimals : Z;
  fc_symbol : string;
  fc_name : string;
  fc_market_rate : dec;
  fc_is_enabled : bool
}.

Record Network := mkNet {
  nw_id : Z;
  nw_chain_id : Z;
  nw_identifier : string;
  nw_rpc_endpoint : string;
  nw_gateway_contract_address : string;
  nw_block_time : dec;
  nw_is_testnet : bool;
  nw_fee : dec
}.

Record Token := mkTok {
  tk_id : Z;
  tk_symbol : string;
  tk_contract_address : string;
  tk_decimals : Z;
  tk_is_enabled : bool;
  tk_base_currency : string;
  (** edge network *)
  tk_network : Network
}.

Record Institution := mkIns {
  in_code : string;
  in_name : string;
  in_type : InstitutionType;
  (** edge fiat_currency, by code *)
  in_fiat_currency : option string
}.

Record ProviderOrderToken := mkPOT {
  pot_fixed_conversion_rate : dec;
  pot_floating_conversion_rate : dec;
  pot_conversion_rate_type : RateType;
  pot_max_order_amount : dec;
  pot_min_order_amount : dec;
  pot_rate_slippage : dec;
  pot_address : string;
  pot_network : string;
  (** edges provider, token, currency (by code) *)
  pot_provider : string;
  pot_token : Token;
  pot_currency : string
}.

Record ProvisionBucket := mkPB {
  pb_id : Z;
  pb_min_amount : dec;
  pb_max_amount : dec;
  pb_created_at : Z;
  (** edge currency (by code) and provider_profiles *)
  pb_currency : string;
  pb_provider_profiles : list string
}.

Record LockPaymentOrder := mkLPO {
  lo_id : string;
  lo_gateway_id : string;
  lo_amount : dec;
  lo_protocol_fee : dec;
  lo_rate : dec;
  lo_order_percent : dec;
  lo_sender : string;
  lo_tx_hash : string;
  lo_status : LockStatus;
  lo_block_number : Z;
  lo_institution : string;
  lo_account_identifier : string;
  lo_account_name : string;
  lo_memo : string;
  lo_metadata : string;
  lo_cancellation_count : Z;
  lo_cancellation_reasons : list string;
  lo_message_hash : string;
  lo_amount_in_usd : dec;
  lo_created_at : Z;
  lo_updated_at : Z;
  (** edges *)
  lo_token : Token;
  lo_provision_bucket : option ProvisionBucket;
  lo_provider : option string;
  lo_transactions : list Z
}.

Record LockOrderFulfillment := mkLOF {
  lf_id : Z;
  lf_tx_id : string;
  lf_psp : string;
  lf_validation_status : ValidationStatus;
  lf_validation_error : string;
  lf_updated_at : Z;
  (** edge order *)
  lf_order : string
}.

Record TransactionLog := mkTL {
  tl_id : Z;
  tl_gateway_id : string;
  tl_status : TxLogStatus;
  tl_network : string;
  tl_tx_hash : string;
  tl_metadata : string;
  tl_created_at : Z
}.

Record ReceiveAddress := mkRA {
  ra_id : Z;
  ra_address : string;
  ra_status : AddrStatus;
  ra_is_deployed : bool;
  ra_network_identifier : string;
  ra_chain_id : Z;
  ra_assigned_at : Z;
  ra_recycled_at : Z;
  ra_times_used : Z;
  ra_last_indexed_block : Z;
  ra_last_used : Z;
  ra_tx_hash : string;
  ra_valid_until : Z;
  ra_salt : string
}.

Record LinkedAddress := mkLA {
  la_id : Z;
  la_address : string;
  la_institution : string;
  la_account_identifier : string;
  la_account_name : string;
  la_metadata : string;
  la_owner_address : string;
  la_last_indexed_block : Z;
  la_tx_hash : string
}.

(** ent.PaymentOrderRecipient *)
Record Recipient := mkRecipient {
  re_institution : string;
  re_account_identifier : string;
  re_account_name : string;
  re_memo : string;
  re_provider_id : string;
  re_metadata : string
}.

Record PaymentOrder := mkPO {
  po_id : string;
  po_amount : dec;
  po_amount_paid : dec;
  po_amount_returned : dec;
  po_percent_settled : dec;
  po_sender_fee : dec;
  po_network_fee : dec;
  po_protocol_fee : dec;
  po_rate : dec;
  po_tx_hash : string;
  po_block_number : Z;
  po_from_address : string;
  po_return_address : string;
  po_receive_address_text : string;
  po_fee_percent : dec;
  po_fee_address : string;
  po_gateway_id : string;
  po_message_hash : string;
  po_reference : string;
  po_status : PayStatus;
  po_amount_in_usd : dec;
  (** edges *)
  po_token : Token;
  po_linked_address : option Z;
  po_receive_address : option Z;
  po_recipient : Recipient;
  po_payment_webhook : option string;
  po_transactions : list Z;
  po_sender_profile : option string;
  po_created_at : Z;
  po_updated_at : Z
}.
Definition po_recipient_memo (o : PaymentOrder) : string := re_memo (po_recipient o).

Record SenderProfile := mkSP {
  sp_id : string;
  sp_webhook_url : string;
  sp_provider_id : string;
  sp_is_partner : bool;
  sp_is_active : bool;
  (** edge user: e-mail and first name *)
  sp_user_email : string;
  sp_user_first_name : string;
  (** edge api_key: the stored secret *)
  sp_api_key : option string;
  sp_domain_whitelist : list string
}.

(** ** Accounts *)

(** ent.User; the edges to the profiles by their keys. *)
Record User := mkUser {
  us_id : string;
  us_first_name : string;
  us_last_name : string;
  us_email : string;
  (** the bcrypt hash *)
  us_password : string;
  us_scope : string;
  us_is_email_verified : bool;
  us_has_early_access : bool;
  us_kyb_verification_status : KybStatus;
  us_sender_profile : option string;
  us_provider_profile : option string
}.

(** ent.APIKey *)
Record APIKey := mkKey {
  ak_id : string;
  (** base64 of the encrypted secret *)
  ak_secret : string;
  ak_sender_profile : option string;
  ak_provider_profile : option string
}.

(** verificationtoken.Scope *)
Inductive TokenScope := SEmailVerification | SResetPassword.
#[export] Instance TokenScope_eq_dec : EqDecision TokenScope.
Proof. solve_decision. Defined.

(** ent.VerificationToken *)
Record VerificationToken := mkVT {
  vt_id : Z;
  vt_token : string;
  vt_scope : TokenScope;
  vt_expiry_at : Z;
  (** edge owner, by the user's id *)
  vt_owner : string
}.

(** ent.BeneficialOwner, without its edge *)
Record BeneficialOwner := mkBO {
  bo_full_name : string;
  bo_residential_address : string;
  bo_proof_of_residential_address_url : string;
  bo_government_issued_id_url : string;
  bo_date_of_birth : string;
  bo_ownership_percentage : Q;
  bo_government_issued_id_type : string
}.
(** ent.KYBProfile; optional columns may be null *)
Record KYBProfile := mkKYB {
  ky_id : string;
  ky_mobile_number : string;
  ky_company_name : string;
  ky_registered_business_address : string;
  ky_certificate_of_incorporation_url : string;
  ky_articles_of_incorporation_url : string;
  ky_business_license_url : option string;
  ky_proof_of_business_address_url : string;
  ky_aml_policy_url : string;
  ky_kyc_policy_url : option string;
  ky_rejection_comment : option string;
  (** edges user and beneficial_owners *)
  ky_user : option string;
  ky_beneficial_owners : list BeneficialOwner
}.

(** ent.ProviderRating; a profile has at most one *)
Record ProviderRating := mkRating {
  rt_trust_score : dec;
  rt_provider_profile : string
}.

Record Accounts := mkAccounts {
  ac_users : gmap string User;
  ac_api_keys : gmap string APIKey;
  ac_tokens : list VerificationToken;
  ac_kyb_profiles : gmap string KYBProfile;
  ac_ratings : list ProviderRating
}.

Record SenderOrderToken := mkSOT {
  so_fee_percent : dec;
  so_fee_address : string;
  so_refund_address : string;
  (** edges *)
  so_sender : string;
  so_token : Z
}.

(** ** Payload and event types (types/types.go) *)

(** A provision bucket as it is handed around: the row and its currency edge,
    which is nil unless the query loaded it. *)
Record BucketRef := mkBucketRef {
  br_row : ProvisionBucket;
  br_currency : option FiatCurrency
}.

Record LockPaymentOrderFields := mkLPOF {
  of_id : string;
  of_token : option Token;
  of_gateway_id : string;
  of_amount : dec;
  of_rate : dec;
  of_protocol_fee : dec;
  of_amount_in_usd : dec;
  of_block_number : Z;
  of_tx_hash : string;
  of_institution : string;
  of_account_identifier : string;
  of_account_name : string;
  of_sender : string;
  of_message_hash : string;
  of_provider_id : string;
  of_memo : string;
  of_metadata : string;
  of_provision_bucket : option BucketRef;
  of_updated_at : Z;
  of_created_at : Z;
  (** whether the network edge of the token is loaded *)
  of_network_loaded : bool
}.

(** One call of a batch: the map with the keys to, data and value. *)
Record TxCall := mkCall {
  tc_to : string;
  tc_data : string;
  tc_value : string
}.

Record TokenTransferEvent := mkTTE {
  tt_block_number : Z;
  tt_tx_hash : string;
  tt_from : string;
  tt_to : string;
  tt_value : dec
}.

Record OrderCreatedEvent := mkOCE {
  oc_block_number : Z;
  oc_tx_hash : string;
  oc_token : string;
  oc_amount : dec;
  oc_protocol_fee : dec;
  oc_order_id : string;
  oc_rate : dec;
  oc_message_hash : string;
  oc_sender : string
}.

Record OrderSettledEvent := mkOSE {
  os_block_number : Z;
  os_tx_hash : string;
  os_split_order_id : string;
  os_order_id : string;
  os_liquidity_provider : string;
  os_settle_percent : dec
}.

Record OrderRefundedEvent := mkORE {
  or_block_number : Z;
  or_tx_hash : string;
  or_fee : dec;
  or_order_id : string
}.

Record PaymentOrderRecipient := mkPOR {
  rc_institution : string;
  rc_account_identifier : string;
  rc_account_name : string;
  rc_memo : string;
  rc_provider_id : string;
  rc_metadata : string;
  rc_currency : string;
  rc_nonce : string
}.

(** config.OrderConfiguration and the server environment, as far as used *)
Record Config := mkConfig {
  cf_order_fulfillment_validity : Z;
  cf_receive_address_validity : Z;
  cf_order_request_validity : Z;
  cf_refund_cancellation_count : Z;
  cf_percent_deviation_from_market_rate : dec;
  cf_environment : string;
  cf_order_refund_timeout : Z;
  cf_percent_deviation_from_external_rate : dec
}.

(** The fiat amount reserved for an order: [Amount.Mul(Rate).RoundBank(0)]. *)
Definition fiat_amount (amount rate : dec) : dec := d_round_bank (d_mul amount rate) 0.

End entities.
