(* ===== verification/Store.v ===== *)
(** * The shared state and the effects of the handlers

    The handlers act on a Postgres database through [ent] (directly, or inside
    a transaction), on Redis, and on remote services.  [World] is that state;
    [M] is the state-and-error monad the handlers are written in.  Every call
    that leaves the process may fail: [w_faults] tells which ones do, so a
    theorem about every [w] covers every pattern of failures.

    A transaction is the function its writes compose to: a read inside it sees
    the committed database with its own writes applied (READ COMMITTED), and
    [commit_tx] applies the writes to the committed database. *)

From S2P Require Import Prelude Decimal Schema.

Section store.
Context {O : DecimalOps}.

(** ** State *)

Record DB := mkDB {
  db_provider_currencies : gmap (string * string) ProviderCurrencies;
  db_providers : gmap string ProviderProfile;
  db_currencies : gmap string FiatCurrency;
  db_order_tokens : list ProviderOrderToken;
  db_buckets : list ProvisionBucket;
  db_lock_orders : gmap string LockPaymentOrder;
  db_fulfillments : list LockOrderFulfillment;
  db_payment_orders : gmap string PaymentOrder;
  db_tx_logs : list TransactionLog;
  db_receive_addresses : gmap Z ReceiveAddress;
  db_tokens : list Token;
  db_institutions : list Institution;
  db_next_id : Z;
  db_networks : list Network;
  db_senders : gmap string SenderProfile;
  db_sender_tokens : list SenderOrderToken;
  db_linked_addresses : list LinkedAddress;
  db_accounts : Accounts
}.

Record Redis := mkRedis {
  r_lists : gmap string (list string);
  r_hashes : gmap string (gmap string string);
  r_expiry : gmap string Z
}.

(** What the process does to the outside world, in order. *)
Inductive Event :=
  (** a request that reached a provider node *)
  | EvProviderCall (provider path : string) (payload : gmap string string)
  (** the goroutine that gives a payment order the chain data of its order *)
  | EvLink (message_hash : string)
  (** a POST that reached the URL of a sender's webhook *)
  | EvPost (url : string) (payload : list (string * json))
  (** e-mail to a sender whose webhook keeps failing *)
  | EvFailureEmail (email firstName : string)
  (** a webhook for transfers to an address, created at the chain service *)
  | EvTransferWebhook (order address : string)
  (** a batch of calls that a chain service took from an account *)
  | EvBatch (chain : Z) (address : string) (calls : list TxCall)
  (** an e-mail to a user: its template, the token it carries, the address *)
  | EvEmail (template token email : string)
  (** a user operation that reached the bundler, and a signed transaction that reached
      a node *)
  | EvUserOperation (chain : Z) (op : gmap string json)
  | EvRawTransaction (chain : Z) (raw : string)
  (** webhook notification to the sender *)
  | EvWebhook (order : string) (st : PayStatus)
  (** goroutines that submit a gateway transaction *)
  | EvSettle (order : string)
  | EvRefund (network gateway_id : string).

Record World := mkWorld {
  w_db : DB;
  (** open transactions *)
  w_txs : gmap nat (DB -> DB);
  w_next_tx : nat;
  w_redis : Redis;
  (** [true]: the next external call fails; an empty list means no more failures *)
  w_faults : list bool;
  w_now : Z;
  w_events : list Event;
  (** the table of webhook retries, which no transaction touches *)
  w_attempts : list WebhookRetryAttempt
}.

Definition set_db (db : DB) (w : World) : World :=
  mkWorld db (w_txs w) (w_next_tx w) (w_redis w) (w_faults w) (w_now w) (w_events w) (w_attempts w).
Definition set_txs (txs : gmap nat (DB -> DB)) (w : World) : World :=
  mkWorld (w_db w) txs (w_next_tx w) (w_redis w) (w_faults w) (w_now w) (w_events w) (w_attempts w).
Definition set_next_tx (n : nat) (w : World) : World :=
  mkWorld (w_db w) (w_txs w) n (w_redis w) (w_faults w) (w_now w) (w_events w) (w_attempts w).
Definition set_redis (r : Redis) (w : World) : World :=
  mkWorld (w_db w) (w_txs w) (w_next_tx w) r (w_faults w) (w_now w) (w_events w) (w_attempts w).
Definition set_faults (fs : list bool) (w : World) : World :=
  mkWorld (w_db w) (w_txs w) (w_next_tx w) (w_redis w) fs (w_now w) (w_events w) (w_attempts w).
Definition set_events (ev : list Event) (w : World) : World :=
  mkWorld (w_db w) (w_txs w) (w_next_tx w) (w_redis w) (w_faults w) (w_now w) ev (w_attempts w).

Definition set_attempts (l : list WebhookRetryAttempt) (w : World) : World :=
  mkWorld (w_db w) (w_txs w) (w_next_tx w) (w_redis w) (w_faults w) (w_now w) (w_events w) l.

Definition set_pcs (m : gmap (string * string) ProviderCurrencies) (d : DB) : DB :=
  mkDB m (db_providers d) (db_currencies d) (db_order_tokens d) (db_buckets d)
    (db_lock_orders d) (db_fulfillments d) (db_payment_orders d) (db_tx_logs d)
    (db_receive_addresses d) (db_tokens d) (db_institutions d) (db_next_id d)
    (db_networks d) (db_senders d) (db_sender_tokens d) (db_linked_addresses d) (db_accounts d).
Definition set_lock_orders (m : gmap string LockPaymentOrder) (d : DB) : DB :=
  mkDB (db_provider_currencies d) (db_providers d) (db_currencies d) (db_order_tokens d)
    (db_buckets d) m (db_fulfillments d) (db_payment_orders d) (db_tx_logs d)
    (db_receive_addresses d) (db_tokens d) (db_institutions d) (db_next_id d)
    (db_networks d) (db_senders d) (db_sender_tokens d) (db_linked_addresses d) (db_accounts d).
Definition set_fulfillments (l : list LockOrderFulfillment) (d : DB) : DB :=
  mkDB (db_provider_currencies d) (db_providers d) (db_currencies d) (db_order_tokens d)
    (db_buckets d) (db_lock_orders d) l (db_payment_orders d) (db_tx_logs d)
    (db_receive_addresses d) (db_tokens d) (db_institutions d) (db_next_id d)
    (db_networks d) (db_senders d) (db_sender_tokens d) (db_linked_addresses d) (db_accounts d).
Definition set_payment_orders (m : gmap string PaymentOrder) (d : DB) : DB :=
  mkDB (db_provider_currencies d) (db_providers d) (db_currencies d) (db_order_tokens d)
    (db_buckets d) (db_lock_orders d) (db_fulfillments d) m (db_tx_logs d)
    (db_receive_addresses d) (db_tokens d) (db_institutions d) (db_next_id d)
    (db_networks d) (db_senders d) (db_sender_tokens d) (db_linked_addresses d) (db_accounts d).
Definition set_tx_logs (l : list TransactionLog) (d : DB) : DB :=
  mkDB (db_provider_currencies d) (db_providers d) (db_currencies d) (db_order_tokens d)
    (db_buckets d) (db_lock_orders d) (db_fulfillments d) (db_payment_orders d) l
    (db_receive_addresses d) (db_tokens d) (db_institutions d) (db_next_id d)
    (db_networks d) (db_senders d) (db_sender_tokens d) (db_linked_addresses d) (db_accounts d).
Definition set_receive_addresses (m : gmap Z ReceiveAddress) (d : DB) : DB :=
  mkDB (db_provider_currencies d) (db_providers d) (db_currencies d) (db_order_tokens d)
    (db_buckets d) (db_lock_orders d) (db_fulfillments d) (db_payment_orders d) (db_tx_logs d)
    m (db_tokens d) (db_institutions d) (db_next_id d)
    (db_networks d) (db_senders d) (db_sender_tokens d) (db_linked_addresses d) (db_accounts d).
Definition set_currencies (m : gmap string FiatCurrency) (d : DB) : DB :=
  mkDB (db_provider_currencies d) (db_providers d) m (db_order_tokens d)
    (db_buckets d) (db_lock_orders d) (db_fulfillments d) (db_payment_orders d) (db_tx_logs d)
    (db_receive_addresses d) (db_tokens d) (db_institutions d) (db_next_id d)
    (db_networks d) (db_senders d) (db_sender_tokens d) (db_linked_addresses d) (db_accounts d).
Definition set_next_id (n : Z) (d : DB) : DB :=
  mkDB (db_provider_currencies d) (db_providers d) (db_currencies d) (db_order_tokens d)
    (db_buckets d) (db_lock_orders d) (db_fulfillments d) (db_payment_orders d) (db_tx_logs d)
    (db_receive_addresses d) (db_tokens d) (db_institutions d) n
    (db_networks d) (db_senders d) (db_sender_tokens d) (db_linked_addresses d) (db_accounts d).

Definition set_linked_addresses (l : list LinkedAddress) (d : DB) : DB :=
  mkDB (db_provider_currencies d) (db_providers d) (db_currencies d) (db_order_tokens d)
    (db_buckets d) (db_lock_orders d) (db_fulfillments d) (db_payment_orders d) (db_tx_logs d)
    (db_receive_addresses d) (db_tokens d) (db_institutions d) (db_next_id d)
    (db_networks d) (db_senders d) (db_sender_tokens d) l (db_accounts d).

Definition set_accounts (a : Accounts) (d : DB) : DB :=
  mkDB (db_provider_currencies d) (db_providers d) (db_currencies d) (db_order_tokens d)
    (db_buckets d) (db_lock_orders d) (db_fulfillments d) (db_payment_orders d) (db_tx_logs d)
    (db_receive_addresses d) (db_tokens d) (db_institutions d) (db_next_id d)
    (db_networks d) (db_senders d) (db_sender_tokens d) (db_linked_addresses d) a.
Definition set_providers (m : gmap string ProviderProfile) (d : DB) : DB :=
  mkDB (db_provider_currencies d) m (db_currencies d) (db_order_tokens d)
    (db_buckets d) (db_lock_orders d) (db_fulfillments d) (db_payment_orders d) (db_tx_logs d)
    (db_receive_addresses d) (db_tokens d) (db_institutions d) (db_next_id d)
    (db_networks d) (db_senders d) (db_sender_tokens d) (db_linked_addresses d) (db_accounts d).
Definition set_order_tokens (l : list ProviderOrderToken) (d : DB) : DB :=
  mkDB (db_provider_currencies d) (db_providers d) (db_currencies d) l
    (db_buckets d) (db_lock_orders d) (db_fulfillments d) (db_payment_orders d) (db_tx_logs d)
    (db_receive_addresses d) (db_tokens d) (db_institutions d) (db_next_id d)
    (db_networks d) (db_senders d) (db_sender_tokens d) (db_linked_addresses d) (db_accounts d).
Definition set_buckets (l : list ProvisionBucket) (d : DB) : DB :=
  mkDB (db_provider_currencies d) (db_providers d) (db_currencies d) (db_order_tokens d)
    l (db_lock_orders d) (db_fulfillments d) (db_payment_orders d) (db_tx_logs d)
    (db_receive_addresses d) (db_tokens d) (db_institutions d) (db_next_id d)
    (db_networks d) (db_senders d) (db_sender_tokens d) (db_linked_addresses d) (db_accounts d).
Definition set_sender_tokens (l : list SenderOrderToken) (d : DB) : DB :=
  mkDB (db_provider_currencies d) (db_providers d) (db_currencies d) (db_order_tokens d)
    (db_buckets d) (db_lock_orders d) (db_fulfillments d) (db_payment_orders d) (db_tx_logs d)
    (db_receive_addresses d) (db_tokens d) (db_institutions d) (db_next_id d)
    (db_networks d) (db_senders d) l (db_linked_addresses d) (db_accounts d).
Definition set_senders (m : gmap string SenderProfile) (d : DB) : DB :=
  mkDB (db_provider_currencies d) (db_providers d) (db_currencies d) (db_order_tokens d)
    (db_buckets d) (db_lock_orders d) (db_fulfillments d) (db_payment_orders d) (db_tx_logs d)
    (db_receive_addresses d) (db_tokens d) (db_institutions d) (db_next_id d)
    (db_networks d) m (db_sender_tokens d) (db_linked_addresses d) (db_accounts d).

(** ** The monad *)

Definition M (A : Type) : Type := World -> outcome A * World.

Definition retM {A} (a : A) : M A := fun w => (Ret a, w).
Definition errM {A} (e : error) : M A := fun w => (Err e, w).
Definition panicM {A} : M A := fun w => (Panic, w).

(** [x, err := m; if err != nil { return err }; k]. *)
Definition bindM {A B} (m : M A) (k : A -> M B) : M B := fun w =>
  match m w with
  | (Ret a, w') => k a w'
  | (Err e, w') => (Err e, w')
  | (Panic, w') => (Panic, w')
  end.

(** [x, err := m; if err != nil { h } else { k }]; a panic is not an error. *)
Definition tryM {A B} (m : M A) (h : error -> M B) (k : A -> M B) : M B := fun w =>
  match m w with
  | (Ret a, w') => k a w'
  | (Err e, w') => h e w'
  | (Panic, w') => (Panic, w')
  end.

(** [x, err := m], both kept. *)
Definition attemptM {A} (m : M A) : M (error + A) :=
  tryM m (fun e => retM (inl e)) (fun a => retM (inr a)).

(** [return fmt.Errorf("msg: %w", err)] on failure. *)
Definition wrapM {A} (msg : string) (m : M A) : M A :=
  tryM m (fun e => errM (EWrap msg e)) retM.

(** [return fmt.Errorf("msg: %v", err)] on failure: a fresh error. *)
Definition msgM {A} (msg : string) (m : M A) : M A :=
  tryM m (fun _ => errM (EMsg msg)) retM.

Definition getM : M World := fun w => (Ret w, w).
Definition ifM (b : bool) (m : M unit) : M unit := if b then m else retM tt.

(** [Div], which panics on a zero divisor. *)
Definition go_div (a b : dec) : M dec :=
  if d_is_zero b then panicM else retM (d_div a b).

(** Dereferencing a pointer. *)
Definition deref {A} (p : option A) : M A :=
  match p with Some a => retM a | None => panicM end.

(** The type assertions on a JSON value, which panic. *)
Definition as_map (v : option json) : M (list (string * json)) :=
  match v with Some (JObj m) => retM m | _ => panicM end.
Definition as_string (v : option json) : M string :=
  match v with Some (JStr s) => retM s | _ => panicM end.
Definition as_list (v : option json) : M (list json) :=
  match v with Some (JArr l) => retM l | _ => panicM end.

(** ** External calls *)

(** One external call: consumes one entry of the failure pattern. *)
Definition ext : M unit := fun w =>
  match w_faults w with
  | [] => (Ret tt, w)
  | false :: fs => (Ret tt, set_faults fs w)
  | true :: fs => (Err EFault, set_faults fs w)
  end.

(** The client a query goes through: the plain client or a transaction. *)
Definition handle : Type := option nat.

Definition view (h : handle) (w : World) : option DB :=
  match h with
  | None => Some (w_db w)
  | Some id => (fun f => f (w_db w)) <$> w_txs w !! id
  end.

Definition read_db (h : handle) : M DB :=
  bindM ext (fun _ w =>
    match view h w with Some d => (Ret d, w) | None => (Err ETxDone, w) end).

Definition write_db (h : handle) (u : DB -> DB) : M unit :=
  bindM ext (fun _ w =>
    match h with
    | None => (Ret tt, set_db (u (w_db w)) w)
    | Some id =>
        match w_txs w !! id with
        | Some f => (Ret tt, set_txs (<[id := fun d => u (f d)]> (w_txs w)) w)
        | None => (Err ETxDone, w)
        end
    end).

(** A statement that reads what it writes: an insert that returns the new row, or
    an update that returns a count; a violated constraint is an error. *)
Definition modify_db {A} (h : handle) (f : DB -> error + (DB * A)) : M A :=
  bindM ext (fun _ w =>
    match view h w with
    | None => (Err ETxDone, w)
    | Some d =>
        match f d with
        | inl e => (Err e, w)
        | inr (_, a) =>
            let u d := match f d with inr (d', _) => d' | inl _ => d end in
            (Ret a, match h with
                    | None => set_db (u (w_db w)) w
                    | Some id => match w_txs w !! id with
                                 | Some g => set_txs (<[id := fun d => u (g d)]> (w_txs w)) w
                                 | None => w
                                 end
                    end)
        end
    end).

(** [client.Tx(ctx)] *)
Definition begin_tx : M nat :=
  bindM ext (fun _ w =>
    let id := w_next_tx w in
    (Ret id, set_next_tx (S id) (set_txs (<[id := fun d => d]> (w_txs w)) w))).

(** [tx.Commit()]: a failed commit ends the transaction without its writes. *)
Definition commit_tx (id : nat) : M unit := fun w =>
  match w_txs w !! id with
  | None => (Err ETxDone, w)
  | Some f =>
      let w' := set_txs (delete id (w_txs w)) w in
      match ext w' with
      | (Ret _, w'') => (Ret tt, set_db (f (w_db w'')) w'')
      | (Err e, w'') => (Err e, w'')
      | (Panic, w'') => (Panic, w'')
      end
  end.

(** [_ = tx.Rollback()]: harmless when the transaction is already done. *)
Definition rollback_tx (id : nat) : M unit := fun w =>
  (Ret tt, set_txs (delete id (w_txs w)) w).

Definition emit (e : Event) : M unit := fun w =>
  (Ret tt, set_events (w_events w ++ [e]) w).

(** [Only]: exactly one row. *)
Definition only {A} (rows : list A) : M A :=
  match rows with
  | [a] => retM a
  | [] => errM ENotFound
  | _ => errM ENotSingular
  end.
(** [First]: the first row. *)
Definition first {A} (rows : list A) : M A :=
  match rows with a :: _ => retM a | [] => errM ENotFound end.

(** ** Redis *)

Definition get_list (key : string) (r : Redis) : list string :=
  default [] (r_lists r !! key).
Definition put_list (key : string) (l : list string) (r : Redis) : Redis :=
  mkRedis (match l with [] => delete key (r_lists r) | _ => <[key := l]> (r_lists r) end)
    (r_hashes r) (r_expiry r).

Definition get_redis : M Redis := bindM ext (fun _ w => (Ret (w_redis w), w)).
Definition put_redis (f : Redis -> Redis) : M unit :=
  bindM ext (fun _ w => (Ret tt, set_redis (f (w_redis w)) w)).

(** [LRange key 0 -1] *)
Definition LRange (key : string) : M (list string) :=
  bindM get_redis (fun r => retM (get_list key r)).
(** The position a Redis index denotes: negative indices count from the end. *)
Definition list_index (l : list string) (i : Z) : option nat :=
  let j := if i <? 0 then Z.of_nat (length l) + i else i in
  if (0 <=? j) && (j <? Z.of_nat (length l)) then Some (Z.to_nat j) else None.
(** [LIndex key i] *)
Definition LIndex (key : string) (i : Z) : M string :=
  bindM get_redis (fun r =>
    let l := get_list key r in
    match list_index l i ≫= fun j => l !! j with
    | Some s => retM s
    | None => errM ERedisNil
    end).
(** [RPush key v] *)
Definition RPush (key : string) (vs : list string) : M unit :=
  put_redis (fun r => put_list key (get_list key r ++ vs) r).
(** [LPop key] *)
Definition LPop (key : string) : M string :=
  bindM get_redis (fun r w =>
    match get_list key r with
    | s :: l => (Ret s, set_redis (put_list key l (w_redis w)) w)
    | [] => (Err ERedisNil, w)
    end).
(** [LSet key i v] *)
Definition LSet (key : string) (i : Z) (v : string) : M unit :=
  bindM get_redis (fun r w =>
    match list_index (get_list key r) i with
    | Some j => (Ret tt, set_redis (put_list key (<[j := v]> (get_list key r)) (w_redis w)) w)
    | None => (Err (EMsg "index out of range"), w)
    end).
(** [LRem key 0 v]: remove every occurrence. *)
Definition LRem (key v : string) : M unit :=
  put_redis (fun r => put_list key (List.filter (fun s => negb (String.eqb s v)) (get_list key r)) r).
(** [Del key] *)
Definition Del (key : string) : M unit :=
  put_redis (fun r => mkRedis (delete key (r_lists r)) (delete key (r_hashes r)) (delete key (r_expiry r))).
(** [HSet key fields] *)
Definition HSet (key : string) (fields : gmap string string) : M unit :=
  put_redis (fun r => mkRedis (r_lists r)
    (<[key := fields ∪ default ∅ (r_hashes r !! key)]> (r_hashes r)) (r_expiry r)).
(** [HGetAll key]: the empty map when the key is missing. *)
Definition HGetAll (key : string) : M (gmap string string) :=
  bindM get_redis (fun r => retM (default ∅ (r_hashes r !! key))).
(** [ExpireAt key t] *)
Definition ExpireAt (key : string) (t : Z) : M unit :=
  put_redis (fun r => mkRedis (r_lists r) (r_hashes r) (<[key := t]> (r_expiry r))).

End store.

Notation "'let!' x ':=' m 'in' k" := (bindM m (fun x => k))
  (at level 10, x name, m at level 100, k at level 200) : go_scope.
Notation "'do!' m 'in' k" := (bindM m (fun _ => k))
  (at level 10, m at level 100, k at level 200) : go_scope.
Notation "'let?' x ':=' m 'orelse' e '=>' h 'in' k" := (tryM m (fun e => h) (fun x => k))
  (at level 10, x name, e name, m at level 100, h at level 100, k at level 200) : go_scope.
Notation "'do?' m 'orelse' e '=>' h 'in' k" := (tryM m (fun e => h) (fun _ => k))
  (at level 10, e name, m at level 100, h at level 100, k at level 200) : go_scope.

(** ** Reasoning: what holds after a handler, whatever fails *)

Section wp.
Context {O : DecimalOps}.

(** [wp m Q w]: running [m] from [w] ends in an outcome and a world that
    satisfy [Q]. *)
Definition wp {A} (m : M A) (Q : outcome A -> World -> Prop) (w : World) : Prop :=
  Q (m w).1 (m w).2.

Lemma wp_mono {A} (m : M A) (P Q : outcome A -> World -> Prop) w :
  wp m P w -> (forall o w', P o w' -> Q o w') -> wp m Q w.
Proof. unfold wp. auto. Qed.

(** The outcome is the one of this run. *)
Lemma wp_this {A} (m : M A) (Q : outcome A -> World -> Prop) w :
  wp m Q w -> wp m (fun o w' => (m w).1 = o /\ Q o w') w.
Proof. done. Qed.

Lemma wp_full {A} (m : M A) (Q : outcome A -> World -> Prop) w :
  wp m Q w -> wp m (fun o w' => m w = (o, w') /\ Q o w') w.
Proof. intros H. unfold wp. split; [by destruct (m w)|exact H]. Qed.

Lemma wp_ret {A} (a : A) Q w : Q (Ret a) w -> wp (retM a) Q w.
Proof. done. Qed.
Lemma wp_err {A} (e : error) (Q : outcome A -> World -> Prop) w : Q (Err e) w -> wp (errM e) Q w.
Proof. done. Qed.
Lemma wp_panic {A} (Q : outcome A -> World -> Prop) w : Q Panic w -> wp panicM Q w.
Proof. done. Qed.

Lemma wp_bind {A B} (m : M A) (k : A -> M B) Q w :
  wp m (fun o w' => match o with
                    | Ret a => wp (k a) Q w'
                    | Err e => Q (Err e) w'
                    | Panic => Q Panic w' end) w ->
  wp (bindM m k) Q w.
Proof. unfold wp, bindM. by destruct (m w) as [[a|e|] w']. Qed.

Lemma wp_try {A B} (m : M A) (h : error -> M B) (k : A -> M B) Q w :
  wp m (fun o w' => match o with
                    | Ret a => wp (k a) Q w'
                    | Err e => wp (h e) Q w'
                    | Panic => Q Panic w' end) w ->
  wp (tryM m h k) Q w.
Proof. unfold wp, tryM. by destruct (m w) as [[a|e|] w']. Qed.

Lemma wp_wrap {A} msg (m : M A) Q w :
  wp m (fun o w' => match o with Err e => Q (Err (EWrap msg e)) w' | _ => Q o w' end) w ->
  wp (wrapM msg m) Q w.
Proof. unfold wp, wrapM, tryM. by destruct (m w) as [[a|e|] w']. Qed.

Lemma wp_msg {A} msg (m : M A) Q w :
  wp m (fun o w' => match o with Err _ => Q (Err (EMsg msg)) w' | _ => Q o w' end) w ->
  wp (msgM msg m) Q w.
Proof. unfold wp, msgM, tryM. by destruct (m w) as [[a|e|] w']. Qed.

Lemma wp_attempt {A} (m : M A) Q w :
  wp m (fun o w' => match o with
                    | Ret a => Q (Ret (inr a)) w'
                    | Err e => Q (Ret (inl e)) w'
                    | Panic => Q Panic w' end) w ->
  wp (attemptM m) Q w.
Proof. unfold wp, attemptM, tryM. by destruct (m w) as [[a|e|] w']. Qed.

Lemma set_faults_id w : set_faults (w_faults w) w = w.
Proof. by destruct w. Qed.

Lemma wp_ext (Q : outcome unit -> World -> Prop) w :
  (forall fs, Q (Ret tt) (set_faults fs w)) ->
  (forall fs, Q (Err EFault) (set_faults fs w)) -> wp ext Q w.
Proof.
  intros Hok Hbad. unfold wp, ext. destruct (w_faults w) as [|[] fs] eqn:E; simpl; auto.
  specialize (Hok (w_faults w)). by rewrite set_faults_id in Hok.
Qed.

(** The same when nothing fails. *)
Lemma wp_ext_ok (Q : outcome unit -> World -> Prop) w :
  w_faults w = [] -> Q (Ret tt) w -> wp ext Q w.
Proof. intros E H. unfold wp, ext. by rewrite E. Qed.

Lemma wp_getM (Q : outcome World -> World -> Prop) w : Q (Ret w) w -> wp getM Q w.
Proof. done. Qed.

Lemma wp_deref {A} (p : option A) Q w :
  match p with Some a => Q (Ret a) w | None => Q Panic w end -> wp (deref p) Q w.
Proof. by destruct p. Qed.

Lemma wp_go_div a b Q w :
  (if d_is_zero b then Q Panic w else Q (Ret (d_div a b)) w) -> wp (go_div a b) Q w.
Proof. unfold go_div. by destruct (d_is_zero b). Qed.

Lemma wp_emit e Q w : Q (Ret tt) (set_events (w_events w ++ [e]) w) -> wp (emit e) Q w.
Proof. done. Qed.

Lemma wp_rollback id (Q : outcome unit -> World -> Prop) w :
  Q (Ret tt) (set_txs (delete id (w_txs w)) w) -> wp (rollback_tx id) Q w.
Proof. done. Qed.

(** A read through a live handle. *)
Lemma wp_read_db h d (Q : outcome DB -> World -> Prop) w :
  view h w = Some d ->
  (forall fs, Q (Ret d) (set_faults fs w)) ->
  (forall fs, Q (Err EFault) (set_faults fs w)) -> wp (read_db h) Q w.
Proof.
  intros Hv Hok Hbad. unfold read_db. apply wp_bind, wp_ext; intros fs; [|done].
  unfold wp. replace (view h (set_faults fs w)) with (view h w) by (by destruct h).
  rewrite Hv. apply Hok.
Qed.

Lemma wp_read_db_ok h d (Q : outcome DB -> World -> Prop) w :
  w_faults w = [] -> view h w = Some d -> Q (Ret d) w -> wp (read_db h) Q w.
Proof.
  intros E Hv Hok. unfold read_db. apply wp_bind, wp_ext_ok; [done|].
  unfold wp. by rewrite Hv.
Qed.

Lemma wp_write_direct u (Q : outcome unit -> World -> Prop) w :
  (forall fs, Q (Ret tt) (set_db (u (w_db w)) (set_faults fs w))) ->
  (forall fs, Q (Err EFault) (set_faults fs w)) -> wp (write_db None u) Q w.
Proof. intros Hok Hbad. unfold write_db. apply wp_bind, wp_ext; intros fs; [apply Hok | done]. Qed.

Lemma wp_write_direct_ok u (Q : outcome unit -> World -> Prop) w :
  w_faults w = [] -> Q (Ret tt) (set_db (u (w_db w)) w) -> wp (write_db None u) Q w.
Proof. intros E Hok. unfold write_db. by apply wp_bind, wp_ext_ok. Qed.

Lemma wp_write_tx id f u (Q : outcome unit -> World -> Prop) w :
  w_txs w !! id = Some f ->
  (forall fs, Q (Ret tt) (set_txs (<[id := fun d => u (f d)]> (w_txs w)) (set_faults fs w))) ->
  (forall fs, Q (Err EFault) (set_faults fs w)) -> wp (write_db (Some id) u) Q w.
Proof.
  intros Hf Hok Hbad. unfold write_db. apply wp_bind, wp_ext; intros fs; [|done].
  unfold wp; simpl. rewrite Hf. apply Hok.
Qed.

Lemma wp_write_tx_ok id f u (Q : outcome unit -> World -> Prop) w :
  w_faults w = [] -> w_txs w !! id = Some f ->
  Q (Ret tt) (set_txs (<[id := fun d => u (f d)]> (w_txs w)) w) -> wp (write_db (Some id) u) Q w.
Proof.
  intros E Hf Hok. unfold write_db. apply wp_bind, wp_ext_ok; [done|].
  unfold wp; simpl. by rewrite Hf.
Qed.

Lemma wp_modify_direct {A} f (Q : outcome A -> World -> Prop) w :
  (forall fs, match f (w_db w) with
              | inl e => Q (Err e) (set_faults fs w)
              | inr (d, a) => Q (Ret a) (set_db d (set_faults fs w)) end) ->
  (forall fs, Q (Err EFault) (set_faults fs w)) -> wp (modify_db None f) Q w.
Proof.
  intros Hok Hbad. unfold modify_db. apply wp_bind, wp_ext; intros fs; [|done].
  specialize (Hok fs). unfold wp; simpl. by destruct (f (w_db w)) as [e|[d a]].
Qed.

Lemma wp_modify_tx {A} id g f (Q : outcome A -> World -> Prop) w :
  w_txs w !! id = Some g ->
  (forall fs, match f (g (w_db w)) with
              | inl e => Q (Err e) (set_faults fs w)
              | inr (_, a) => Q (Ret a) (set_txs (<[id := fun d =>
                  match f (g d) with inr (d', _) => d' | inl _ => g d end]> (w_txs w)) (set_faults fs w)) end) ->
  (forall fs, Q (Err EFault) (set_faults fs w)) -> wp (modify_db (Some id) f) Q w.
Proof.
  intros Hg Hok Hbad. unfold modify_db. apply wp_bind, wp_ext; intros fs; [|done].
  specialize (Hok fs). unfold wp; simpl. rewrite Hg. simpl. by destruct (f (g (w_db w))) as [e|[d a]].
Qed.

(** A fresh transaction has no writes. *)
Lemma wp_begin (Q : outcome nat -> World -> Prop) w :
  (forall fs, Q (Ret (w_next_tx w))
     (set_next_tx (S (w_next_tx w)) (set_txs (<[w_next_tx w := fun d => d]> (w_txs w)) (set_faults fs w)))) ->
  (forall fs, Q (Err EFault) (set_faults fs w)) -> wp begin_tx Q w.
Proof. intros Hok Hbad. unfold begin_tx. apply wp_bind, wp_ext; intros fs; [apply Hok | done]. Qed.

Lemma wp_begin_ok (Q : outcome nat -> World -> Prop) w :
  w_faults w = [] ->
  Q (Ret (w_next_tx w))
    (set_next_tx (S (w_next_tx w)) (set_txs (<[w_next_tx w := fun d => d]> (w_txs w)) w)) ->
  wp begin_tx Q w.
Proof. intros E Hok. unfold begin_tx. by apply wp_bind, wp_ext_ok. Qed.

Lemma wp_commit id f (Q : outcome unit -> World -> Prop) w :
  w_txs w !! id = Some f ->
  (forall fs, Q (Ret tt) (set_db (f (w_db w)) (set_faults fs (set_txs (delete id (w_txs w)) w)))) ->
  (forall fs, Q (Err EFault) (set_faults fs (set_txs (delete id (w_txs w)) w))) ->
  wp (commit_tx id) Q w.
Proof.
  intros Hf Hok Hbad. unfold wp, commit_tx. rewrite Hf.
  pose proof (wp_ext (fun o w' =>
    match o with Ret _ => Q (Ret tt) (set_db (f (w_db w')) w') | Err e => Q (Err e) w' | Panic => Q Panic w' end)
    (set_txs (delete id (w_txs w)) w)) as H.
  unfold wp in H. destruct (ext _) as [[[]|e|] w']; simpl in *; apply H; intros; auto.
Qed.

Lemma wp_commit_ok id f (Q : outcome unit -> World -> Prop) w :
  w_faults w = [] -> w_txs w !! id = Some f ->
  Q (Ret tt) (set_db (f (w_db w)) (set_txs (delete id (w_txs w)) w)) -> wp (commit_tx id) Q w.
Proof.
  intros E Hf Hok. unfold wp, commit_tx. rewrite Hf. unfold ext; simpl. by rewrite E.
Qed.

(** Redis *)
Lemma wp_get_redis (Q : outcome Redis -> World -> Prop) w :
  (forall fs, Q (Ret (w_redis w)) (set_faults fs w)) ->
  (forall fs, Q (Err EFault) (set_faults fs w)) -> wp get_redis Q w.
Proof. intros Hok Hbad. unfold get_redis. apply wp_bind, wp_ext; intros fs; [apply Hok | done]. Qed.

Lemma wp_put_redis f (Q : outcome unit -> World -> Prop) w :
  (forall fs, Q (Ret tt) (set_redis (f (w_redis w)) (set_faults fs w))) ->
  (forall fs, Q (Err EFault) (set_faults fs w)) -> wp (put_redis f) Q w.
Proof. intros Hok Hbad. unfold put_redis. apply wp_bind, wp_ext; intros fs; [apply Hok | done]. Qed.

End wp.

(** One step of symbolic execution; external calls split on whether they fail. *)
Ltac wp_step :=
  lazymatch goal with
  | |- wp (bindM _ _) _ _ => apply wp_bind
  | |- wp (tryM _ _ _) _ _ => apply wp_try
  | |- wp (wrapM _ _) _ _ => apply wp_wrap
  | |- wp (msgM _ _) _ _ => apply wp_msg
  | |- wp (attemptM _) _ _ => apply wp_attempt
  | |- wp (retM _) _ _ => apply wp_ret
  | |- wp (errM _) _ _ => apply wp_err
  | |- wp panicM _ _ => apply wp_panic
  | |- wp getM _ _ => apply wp_getM
  | |- wp (deref _) _ _ => apply wp_deref
  | |- wp (emit _) _ _ => apply wp_emit
  | |- wp (go_div _ _) _ _ => apply wp_go_div
  | |- wp (rollback_tx _) _ _ => apply wp_rollback
  | |- wp begin_tx _ _ => apply wp_begin; intros ?
  | |- wp get_redis _ _ => apply wp_get_redis; intros ?
  | |- wp (put_redis _) _ _ => apply wp_put_redis; intros ?
  | |- wp (write_db None _) _ _ => apply wp_write_direct; intros ?
  | |- wp (ifM ?b _) _ _ => destruct b eqn:?; unfold ifM
  | H : ?x = _ |- wp (match ?x with _ => _ end) _ _ => rewrite H
  | H : ?x = _ |- match ?x with _ => _ end => rewrite H
  | |- wp (let '(_, _) := ?x in _) _ _ => destruct x eqn:?
  | |- wp (match ?x with _ => _ end) _ _ => destruct x eqn:?
  | |- match ?x with _ => _ end => destruct x eqn:?
  end; cbn beta iota.
