(* ===== verification/Transactions.v ===== *)
(** * Reasoning inside a transaction

    A handler that opens a transaction works on two databases: the committed one
    and what the transaction shows.  [in_tx w0 id d w] says that nothing but the
    transaction [id] changed since [w0] and that it shows [d]; the rules follow
    the statements a handler sends.  At the end are the rules for single-row
    queries. *)

From S2P Require Import Prelude Decimal Schema Store.
Local Open Scope go_scope.

Section transactions.
Context {O : DecimalOps}.

Record in_tx (w0 : World) (id : nat) (d : DB) (w : World) : Prop := {
  it_db : w_db w = w_db w0;
  it_now : w_now w = w_now w0;
  it_redis : w_redis w = w_redis w0;
  it_events : w_events w = w_events w0;
  it_attempts : w_attempts w = w_attempts w0;
  it_txs : delete id (w_txs w) = delete id (w_txs w0);
  it_view : view (Some id) w = Some d
}.

Lemma in_tx_faults w0 id d w fs : in_tx w0 id d w -> in_tx w0 id d (set_faults fs w).
Proof. intros []. by split. Qed.

Lemma wp_in_begin (Q : outcome nat -> World -> Prop) w :
  (forall id w', in_tx w id (w_db w) w' -> Q (Ret id) w') ->
  (forall fs, Q (Err EFault) (set_faults fs w)) -> wp begin_tx Q w.
Proof.
  intros Hok Hbad. apply wp_begin; intros fs; [|done]. apply Hok. split; try done; simpl.
  - by rewrite delete_insert_eq.
  - by rewrite lookup_insert_eq.
Qed.

Lemma wp_in_read w0 id d (Q : outcome DB -> World -> Prop) w :
  in_tx w0 id d w -> (forall w', in_tx w0 id d w' -> Q (Ret d) w') ->
  (forall w', in_tx w0 id d w' -> Q (Err EFault) w') -> wp (read_db (Some id)) Q w.
Proof.
  intros H Hok Hbad. eapply wp_read_db; [apply H|..]; intros fs; [apply Hok|apply Hbad]; by apply in_tx_faults.
Qed.

(** The transaction as a function. *)
Lemma in_tx_fun w0 id d w : in_tx w0 id d w -> exists g, w_txs w !! id = Some g /\ g (w_db w) = d.
Proof.
  intros [_ _ _ _ _ _ Hv]. simpl in Hv. destruct (w_txs w !! id) as [g|]; [|done]. injection Hv as <-. eauto.
Qed.

Lemma in_tx_put w0 id d w g d' fs :
  in_tx w0 id d w -> g (w_db w) = d' ->
  in_tx w0 id d' (set_txs (<[id := g]> (w_txs w)) (set_faults fs w)).
Proof.
  intros [] Hg. split; try done; simpl.
  - by rewrite delete_insert_eq.
  - rewrite lookup_insert_eq. simpl. by rewrite Hg.
Qed.

Lemma wp_in_modify {A} w0 id d f (Q : outcome A -> World -> Prop) w :
  in_tx w0 id d w ->
  (match f d with
   | inl e => forall w', in_tx w0 id d w' -> Q (Err e) w'
   | inr (d', a) => forall w', in_tx w0 id d' w' -> Q (Ret a) w' end) ->
  (forall w', in_tx w0 id d w' -> Q (Err EFault) w') -> wp (modify_db (Some id) f) Q w.
Proof.
  intros H Hok Hbad. destruct (in_tx_fun _ _ _ _ H) as (g & Hg & Hd).
  eapply wp_modify_tx; [exact Hg|intros fs|intros fs; apply Hbad; by apply in_tx_faults].
  rewrite Hd. destruct (f d) as [e|[d' a]] eqn:Hf; apply Hok; [by apply in_tx_faults|].
  apply (in_tx_put _ _ d); [done|]. by rewrite Hd, Hf.
Qed.

Lemma wp_in_write w0 id d u (Q : outcome unit -> World -> Prop) w :
  in_tx w0 id d w -> (forall w', in_tx w0 id (u d) w' -> Q (Ret tt) w') ->
  (forall w', in_tx w0 id d w' -> Q (Err EFault) w') -> wp (write_db (Some id) u) Q w.
Proof.
  intros H Hok Hbad. destruct (in_tx_fun _ _ _ _ H) as (g & Hg & Hd).
  eapply wp_write_tx; [exact Hg|intros fs|intros fs; apply Hbad; by apply in_tx_faults].
  apply Hok. apply (in_tx_put _ _ d); [done|]. by rewrite Hd.
Qed.

Lemma wp_in_commit w0 id d (Q : outcome unit -> World -> Prop) w :
  in_tx w0 id d w ->
  (forall w', w_db w' = d -> w_now w' = w_now w0 -> w_redis w' = w_redis w0 -> w_events w' = w_events w0 ->
     Q (Ret tt) w') ->
  (forall w', w_db w' = w_db w0 -> w_now w' = w_now w0 -> w_redis w' = w_redis w0 -> w_events w' = w_events w0 ->
     Q (Err EFault) w') -> wp (commit_tx id) Q w.
Proof.
  intros H Hok Hbad. destruct (in_tx_fun _ _ _ _ H) as (g & Hg & Hd). destruct H.
  eapply wp_commit; [exact Hg|intros fs|intros fs]; [by apply Hok|by apply Hbad].
Qed.

(** The same with what the end of the transaction leaves open. *)
Lemma wp_in_commit_closed w0 id d (Q : outcome unit -> World -> Prop) w :
  in_tx w0 id d w ->
  (forall w', w_db w' = d -> w_now w' = w_now w0 -> w_redis w' = w_redis w0 ->
     w_txs w' = delete id (w_txs w0) -> Q (Ret tt) w') ->
  (forall w', w_db w' = w_db w0 -> w_now w' = w_now w0 -> w_redis w' = w_redis w0 ->
     w_txs w' = delete id (w_txs w0) -> Q (Err EFault) w') -> wp (commit_tx id) Q w.
Proof.
  intros H Hok Hbad. destruct (in_tx_fun _ _ _ _ H) as (g & Hg & Hd). destruct H.
  eapply wp_commit; [exact Hg|intros fs|intros fs]; [by apply Hok|by apply Hbad].
Qed.

(** What happens outside does not touch the transaction. *)
Lemma in_tx_emit w0 id d w e :
  in_tx w0 id d w -> in_tx (set_events (w_events w ++ [e]) w0) id d (set_events (w_events w ++ [e]) w).
Proof. intros []. by split. Qed.

Lemma only_filter {A} (p : A -> bool) (rows : list A) (Q : outcome A -> World -> Prop) w :
  (forall a, a ∈ rows -> p a = true -> Q (Ret a) w) ->
  ((forall a, a ∈ rows -> p a = false) -> Q (Err ENotFound) w) ->
  Q (Err ENotSingular) w ->
  wp (only (List.filter p rows)) Q w.
Proof.
  intros H1 H2 H3. destruct (List.filter p rows) as [|a [|b l]] eqn:E; simpl; [|wp_step|done].
  - apply H2. intros a Ha. destruct (p a) eqn:Hp; [|done]. exfalso.
    assert (Hin : In a (List.filter p rows)) by (apply filter_In; split; [by apply list_elem_of_In|done]).
    by rewrite E in Hin.
  - assert (Hin : In a (List.filter p rows)) by (rewrite E; by left).
    apply filter_In in Hin as [Hin Hp]. apply H1; [by apply list_elem_of_In|done].
Qed.

End transactions.

(** ** Runs without failures *)

Section no_faults.
Context {O : DecimalOps}.

Lemma wp_modify_direct_ok {A} f (Q : outcome A -> World -> Prop) w :
  w_faults w = [] ->
  match f (w_db w) with inl e => Q (Err e) w | inr (d, a) => Q (Ret a) (set_db d w) end ->
  wp (modify_db None f) Q w.
Proof.
  intros E Hok. unfold modify_db. apply wp_bind, wp_ext_ok; [done|]. unfold wp; simpl.
  by destruct (f (w_db w)) as [e|[d a]].
Qed.

Lemma wp_modify_tx_ok {A} id g f (Q : outcome A -> World -> Prop) w :
  w_faults w = [] -> w_txs w !! id = Some g ->
  match f (g (w_db w)) with
  | inl e => Q (Err e) w
  | inr (_, a) => Q (Ret a) (set_txs (<[id := fun d =>
      match f (g d) with inr (d', _) => d' | inl _ => g d end]> (w_txs w)) w) end ->
  wp (modify_db (Some id) f) Q w.
Proof.
  intros E Hg Hok. unfold modify_db. apply wp_bind, wp_ext_ok; [done|]. unfold wp; simpl. rewrite Hg. simpl.
  by destruct (f (g (w_db w))) as [e|[d a]].
Qed.

Lemma wp_get_redis_ok (Q : outcome Redis -> World -> Prop) w :
  w_faults w = [] -> Q (Ret (w_redis w)) w -> wp get_redis Q w.
Proof. intros E Hok. unfold get_redis. by apply wp_bind, wp_ext_ok. Qed.

Lemma wp_put_redis_ok f (Q : outcome unit -> World -> Prop) w :
  w_faults w = [] -> Q (Ret tt) (set_redis (f (w_redis w)) w) -> wp (put_redis f) Q w.
Proof. intros E Hok. unfold put_redis. by apply wp_bind, wp_ext_ok. Qed.

End no_faults.

(** Symbolic execution when nothing fails. *)
Ltac run_ok :=
  first
    [ lazymatch goal with
      | |- wp (read_db _) _ _ =>
          eapply wp_read_db_ok; [simpl; assumption|simpl; rewrite ?lookup_insert_eq; simpl; reflexivity|]
      | |- wp begin_tx _ _ => apply wp_begin_ok; [simpl; assumption|]
      | |- wp (write_db None _) _ _ => apply wp_write_direct_ok; [simpl; assumption|]
      | |- wp (write_db (Some _) _) _ _ =>
          eapply wp_write_tx_ok; [simpl; assumption|simpl; rewrite ?lookup_insert_eq; simpl; reflexivity|]
      | |- wp (commit_tx _) _ _ =>
          eapply wp_commit_ok; [simpl; assumption|simpl; rewrite ?lookup_insert_eq; simpl; reflexivity|]
      | |- wp (modify_db None _) _ _ => apply wp_modify_direct_ok; [simpl; assumption|]
      | |- wp (modify_db (Some _) _) _ _ =>
          eapply wp_modify_tx_ok; [simpl; assumption|simpl; rewrite ?lookup_insert_eq; simpl; reflexivity|]
      | |- wp get_redis _ _ => apply wp_get_redis_ok; [simpl; assumption|]
      | |- wp (put_redis _) _ _ => apply wp_put_redis_ok; [simpl; assumption|]
      | |- wp (match _ !! _ with _ => _ end) _ _ => fail
      | |- _ => wp_step
      end ];
  cbn [w_db w_txs w_now w_next_tx w_redis w_events w_faults set_faults set_txs set_next_tx set_db
       set_redis set_events] in *.

(** Up to the next statement that reads what it writes. *)
Ltac run_to_modify :=
  repeat lazymatch goal with
  | |- wp (modify_db _ _) _ _ => fail
  | |- _ => run_ok
  end.

(** One step, except into a new transaction. *)
Ltac wp_outside :=
  lazymatch goal with
  | |- wp begin_tx _ _ => fail
  | |- _ => wp_step
  end.
