(* ===== verification/Samples.v ===== *)
(** * A small seeded database

    Concrete rows, over the concrete decimals, on which the development
    evaluates its definitions: one provider, one currency, one token on one
    network, one provision bucket and one order. *)

From S2P Require Import Prelude Decimal Schema Store.
Local Open Scope string_scope.
Local Open Scope list_scope.

Definition s_prov : string := "AtGaDPqT".
Definition s_cur : string := "NGN".

Definition s_pc (a r t : Z) : ProviderCurrencies := mkPC (d_int a) (d_int t) (d_int r) true 0.
Definition s_provider : ProviderProfile :=
  mkPP s_prov "Acme" "http://localhost:8105" true true true 0 VisPublic KApproved
    (Some "c2VjcmV0") "acme@example.com".
Definition s_currency : FiatCurrency :=
  mkFC "c1" s_cur "Naira" 2 "N" "Nigerian Naira" (d_int 950) true.
Definition s_network : Network :=
  mkNet 1 8453 "base" "https://rpc.example" "0x01" (d_int 2) false (d_int 0).
Definition s_token : Token := mkTok 1 "USDT" "0xd4" 6 true "USD" s_network.
Definition s_order_token : ProviderOrderToken :=
  mkPOT (d_int 950) (d_int 0) RFixed (d_int 1000) (d_int 1) (d_int 1) "0xaddr" "base"
    s_prov s_token s_cur.
Definition s_bucket : ProvisionBucket :=
  mkPB 1 (d_int 100) (d_int 100000) 0 s_cur [s_prov].
Definition s_lock_order : LockPaymentOrder :=
  mkLPO "o1" "g1" (d_int 2) (d_int 0) (d_int 950) (d_int 100) "0xsender" "0xtx" LProcessing 7
    "ABNGNGLA" "1234567890" "OK" "rent" "{}" 0 [] "mh1" (d_int 2) 0 0
    s_token (Some s_bucket) (Some s_prov) [].
Definition s_fulfillment : LockOrderFulfillment := mkLOF 1 "tx1" "psp1" VPending "" 0 "o1".
Definition s_payment_order : PaymentOrder :=
  mkPO "p1" (d_int 2) (d_int 2) (d_int 0) (d_int 0) (d_int 0) (d_int 0) (d_int 0) (d_int 950)
    "0xtx" 7 "0xfrom" "0xret" "0xrecv" (d_int 0) "" "g1" "mh1" "" PPending (d_int 2)
    s_token None None (mkRecipient "ABNGNGLA" "1234567890" "OK" "rent" "" "{}") None []
    (Some "s1") 0 0.
Definition s_sender : SenderProfile :=
  mkSP "s1" "https://sender.example/hook" "" false true "ada@example.com" "Ada" (Some "c2VjcmV0") [].

Definition s_db (pc : ProviderCurrencies) : DB :=
  mkDB {[ (s_prov, s_cur) := pc ]} {[ s_prov := s_provider ]} {[ s_cur := s_currency ]}
    [s_order_token] [s_bucket] {[ "o1" := s_lock_order ]} [s_fulfillment]
    {[ "p1" := s_payment_order ]} [] ∅ [s_token]
    [mkIns "ABNGNGLA" "Access Bank" IBank (Some s_cur)] 1
    [s_network] {[ "s1" := s_sender ]} [mkSOT (d_int 1) "0xfee" "0xret" "s1" 1] [] (mkAccounts ∅ ∅ [] ∅ []).

Definition s_redis : Redis := mkRedis ∅ ∅ ∅.
Definition s_world (pc : ProviderCurrencies) (faults : list bool) : World :=
  mkWorld (s_db pc) ∅ 0 s_redis faults 1000 [] [].
