(* ===== verification/Balance.v ===== *)
(** * Provider balances (services/balance_management.go)

    The available, reserved and total balance of a provider in a currency, and
    the operations of [BalanceManagementService] on them.  [b_consistent] is
    the property the service itself validates; [ReserveBalance] and the release
    operations move an amount between the available and the reserved part. *)

From S2P Require Import Prelude Decimal Schema Store Samples.
Local Open Scope go_scope.
Local Open Scope string_scope.
Local Open Scope list_scope.

Section balance.
Context {O : DecimalOps}.

(** ** Rows *)

(** [Query().Where(HasProviderWith(..), HasCurrencyWith(..)).Only(ctx)] *)
Definition query_pc (h : handle) (p c : string) : M ProviderCurrencies :=
  let! d := read_db h in
  match db_provider_currencies d !! (p, c) with
  | Some pc => retM pc
  | None => errM ENotFound
  end.

(** [row.Update().Set...().Save(ctx)]: the columns are set to absolute values. *)
Definition update_pc (h : handle) (p c : string)
    (f : ProviderCurrencies -> ProviderCurrencies) : M unit :=
  write_db h (fun d => set_pcs (alter f (p, c) (db_provider_currencies d)) d).

Definition set_available_reserved (a r : dec) (now : Z) (pc : ProviderCurrencies) :=
  mkPC a (pc_total_balance pc) r (pc_is_available pc) now.
Definition set_balances (a t r : dec) (now : Z) (pc : ProviderCurrencies) :=
  mkPC a t r (pc_is_available pc) now.

(** ** Reading and writing *)

Definition UpdateProviderBalance (p c : string) (a t r : dec) : M unit :=
  let? pc := query_pc None p c orelse e => errM (EWrap "provider currency not found" e) in
  let! w := getM in
  wrapM "failed to update balance" (update_pc None p c (set_balances a t r (w_now w))).

Definition GetProviderBalance (p c : string) : M ProviderCurrencies :=
  wrapM "provider currency not found" (query_pc None p c).

Definition GetProviderBalances (p : string) : M (list ((string * string) * ProviderCurrencies)) :=
  wrapM "failed to get provider balances"
    (let! d := read_db None in
     retM (List.filter (fun row => String.eqb (fst (fst row)) p)
             (map_to_list (db_provider_currencies d)))).

Definition CheckBalanceSufficiency (p c : string) (amount : dec) : M bool :=
  let! pc := GetProviderBalance p c in
  retM (d_ge (pc_available_balance pc) amount).

(** ** Validation and repair *)

(** The checks of [ValidateBalanceConsistency], in their order. *)
Definition validate_balances (pc : ProviderCurrencies) : option error :=
  if d_gt (d_add (pc_available_balance pc) (pc_reserved_balance pc)) (pc_total_balance pc)
  then Some (EMsg "balance inconsistency: available + reserved > total")
  else if d_lt (pc_available_balance pc) d_zero then Some (EMsg "negative available balance")
  else if d_lt (pc_reserved_balance pc) d_zero then Some (EMsg "negative reserved balance")
  else if d_lt (pc_total_balance pc) d_zero then Some (EMsg "negative total balance")
  else None.

Definition ValidateBalanceConsistency (p c : string) : M unit :=
  let! pc := GetProviderBalance p c in
  match validate_balances pc with Some e => errM e | None => retM tt end.

(** The same on a loaded row; [prov] and [cur] say whether its edges are loaded. *)
Definition validateBalanceConsistencyInternal (prov cur : bool) (pc : ProviderCurrencies)
    : option error :=
  if negb prov then Some (EMsg "provider edge not loaded for provider currency validation")
  else if negb cur then Some (EMsg "currency edge not loaded for provider currency validation")
  else validate_balances pc.

(** The repaired balances and whether anything was repaired. *)
Definition fixed_balances (pc : ProviderCurrencies) : dec * dec * dec * bool :=
  let a := pc_available_balance pc in
  let r := pc_reserved_balance pc in
  let t := pc_total_balance pc in
  let '(a, u1) := if d_lt a d_zero then (d_zero, true) else (a, false) in
  let '(r, u2) := if d_lt r d_zero then (d_zero, true) else (r, u1) in
  let '(t, u3) := if d_lt t d_zero then (d_zero, true) else (t, u2) in
  if d_gt (d_add a r) t then (a, d_add a r, r, true) else (a, t, r, u3).

Definition FixBalanceInconsistencies (p c : string) : M unit :=
  let! pc := GetProviderBalance p c in
  let '(a, t, r, needs_update) := fixed_balances pc in
  if needs_update then
    wrapM "failed to update balances after fixing inconsistencies" (UpdateProviderBalance p c a t r)
  else retM tt.

(** The row [pc] itself is not changed: [Save] returns the updated row as a new
    value, which the code drops. *)
Definition fixBalanceInconsistenciesInternal (p c : string) (pc : ProviderCurrencies) (tx : nat)
    : M unit :=
  let '(a, t, r, needs_update) := fixed_balances pc in
  if needs_update then
    let! w := getM in
    wrapM "failed to update balances after fixing inconsistencies"
      (update_pc (Some tx) p c (set_balances a t r (w_now w)))
  else retM tt.

(** The deferred rollback runs only when [err] is set: by [Tx] or by the query. *)
Definition ValidateAndFixBalances (p c : string) : M unit :=
  let? tx := begin_tx orelse e =>
    errM (EWrap "failed to start transaction for balance validation" e) in
  let? pc := query_pc (Some tx) p c orelse e =>
    (do! rollback_tx tx in errM (EWrap "failed to get provider balance for validation" e)) in
  let commit :=
    wrapM "failed to commit balance validation transaction" (commit_tx tx) in
  match validateBalanceConsistencyInternal true true pc with
  | Some validationErr =>
      do? fixBalanceInconsistenciesInternal p c pc tx orelse fixErr =>
        errM (EWrap "failed to validate or fix balances" fixErr) in
      match validateBalanceConsistencyInternal true true pc with
      | Some validationErr' =>
          errM (EWrap "balance validation still failed after fixing inconsistencies" validationErr')
      | None => commit
      end
  | None => commit
  end.

(** ** Reserving and releasing *)

(** [tx = None] is the nil transaction: the method opens its own, and its
    deferred rollback tests [txErr], which only [Tx] sets. *)
Definition ReserveBalance (p c : string) (amount : dec) (tx : option nat) : M unit :=
  let body (t : nat) (internalTx : bool) : M unit :=
    let? pc := query_pc (Some t) p c orelse e =>
      errM (EWrap "failed to get provider balance" e) in
    if d_lt (pc_available_balance pc) amount then
      errM (EMsg "insufficient available balance")
    else
      let newAvailableBalance := d_sub (pc_available_balance pc) amount in
      let newReservedBalance := d_add (pc_reserved_balance pc) amount in
      let! w := getM in
      do! wrapM "failed to reserve balance"
            (update_pc (Some t) p c
               (set_available_reserved newAvailableBalance newReservedBalance (w_now w))) in
      if internalTx then wrapM "failed to commit transaction" (commit_tx t) else retM tt in
  match tx with
  | Some t => body t false
  | None =>
      do! wrapM "balance validation failed" (ValidateAndFixBalances p c) in
      let! t := wrapM "failed to start transaction" begin_tx in
      body t true
  end.

(** The deferred rollback of the internal transaction tests [err]: set by [Tx],
    the query and the update, not by the insufficient-balance return nor by the
    (shadowed) commit error. *)
Definition ReleaseReservedBalance (p c : string) (amount : dec) (tx : option nat) : M unit :=
  let body (t : nat) (internalTx : bool) : M unit :=
    let? pc := query_pc (Some t) p c orelse e =>
      (do! ifM internalTx (rollback_tx t) in errM (EWrap "failed to get provider balance" e)) in
    if d_lt (pc_reserved_balance pc) amount && negb (d_eqb (pc_reserved_balance pc) d_zero) then
      errM (EMsg "insufficient reserved balance")
    else
      let newReservedBalance := d_sub (pc_reserved_balance pc) amount in
      let newAvailableBalance := d_add (pc_available_balance pc) amount in
      let! w := getM in
      do? update_pc (Some t) p c
            (set_available_reserved newAvailableBalance newReservedBalance (w_now w))
      orelse e =>
        (do! ifM internalTx (rollback_tx t) in errM (EWrap "failed to release reserved balance" e)) in
      if internalTx then wrapM "failed to commit transaction" (commit_tx t) else retM tt in
  match tx with
  | Some t => body t false
  | None =>
      do! wrapM "balance validation failed" (ValidateAndFixBalances p c) in
      let! t := wrapM "failed to start transaction" begin_tx in
      body t true
  end.

(** Release at most what is reserved, for a timed out order. *)
Definition HandleOrderTimeout (orderID p c : string) (amount : dec) : M unit :=
  let! tx := wrapM "failed to start transaction" begin_tx in
  let? pc := query_pc (Some tx) p c orelse e =>
    (do! rollback_tx tx in errM (EWrap "failed to get provider balance" e)) in
  if d_le (pc_reserved_balance pc) d_zero then
    wrapM "failed to commit timeout transaction" (commit_tx tx)
  else
    let amountToRelease := d_min amount (pc_reserved_balance pc) in
    let newReservedBalance := d_sub (pc_reserved_balance pc) amountToRelease in
    let newAvailableBalance := d_add (pc_available_balance pc) amountToRelease in
    let newReservedBalance :=
      if d_lt newReservedBalance d_zero then d_zero else newReservedBalance in
    let! w := getM in
    do? update_pc (Some tx) p c
          (set_available_reserved newAvailableBalance newReservedBalance (w_now w))
    orelse e => (do! rollback_tx tx in errM (EWrap "failed to update balances" e)) in
    wrapM "failed to commit transaction" (commit_tx tx).

(** The balances after a cancellation: the whole amount becomes available and
    the reserved balance is cut off at zero. *)
Definition cancelled_balances (amount : dec) (pc : ProviderCurrencies) : dec * dec :=
  let newReservedBalance := d_sub (pc_reserved_balance pc) amount in
  let newAvailableBalance := d_add (pc_available_balance pc) amount in
  (newAvailableBalance,
   if d_lt newReservedBalance d_zero then d_zero else newReservedBalance).

Definition CancelOrderAndReleaseBalance (orderID p c : string) (amount : dec) : M unit :=
  let! tx := wrapM "failed to start transaction" begin_tx in
  let? pc := query_pc (Some tx) p c orelse e =>
    (do! rollback_tx tx in errM (EWrap "failed to get provider balance" e)) in
  let '(a, r) := cancelled_balances amount pc in
  let! w := getM in
  do? update_pc (Some tx) p c (set_available_reserved a r (w_now w)) orelse e =>
    (do! rollback_tx tx in errM (EWrap "failed to update balances" e)) in
  wrapM "failed to commit transaction" (commit_tx tx).

Definition CancelOrderAndReleaseBalanceWithinTransaction
    (orderID p c : string) (amount : dec) (tx : nat) : M unit :=
  let! pc := wrapM "failed to get provider balance" (query_pc (Some tx) p c) in
  let '(a, r) := cancelled_balances amount pc in
  let! w := getM in
  wrapM "failed to update balances" (update_pc (Some tx) p c (set_available_reserved a r (w_now w))).

(** The error is logged and returned. *)
Definition SafeReleaseBalance (p c : string) (amount : dec) : M unit :=
  ReleaseReservedBalance p c amount None.

(** ** Bulk cleanup *)

Record FailedOrderInfo := mkFailed {
  fo_order_id : string;
  fo_provider_id : string;
  fo_currency_code : string;
  fo_amount : dec;
  fo_failure_time : Z
}.

Record BulkCleanupReport := mkReport {
  rp_total_orders : Z;
  rp_success_count : Z;
  rp_failure_count : Z;
  rp_total_amount : dec;
  rp_errors : list (string * error);
  rp_success_details : list string;
  rp_failure_details : list (string * error)
}.

Definition cleanup_one (report : BulkCleanupReport) (order : FailedOrderInfo) : M BulkCleanupReport :=
  tryM (SafeReleaseBalance (fo_provider_id order) (fo_currency_code order) (fo_amount order))
    (fun e =>
      retM (mkReport (rp_total_orders report) (rp_success_count report)
              (rp_failure_count report + 1) (rp_total_amount report)
              (rp_errors report ++ [(fo_order_id order, e)])
              (rp_success_details report)
              (rp_failure_details report ++ [(fo_order_id order, e)])))
    (fun _ =>
      retM (mkReport (rp_total_orders report) (rp_success_count report + 1)
              (rp_failure_count report) (d_add (rp_total_amount report) (fo_amount order))
              (rp_errors report)
              (rp_success_details report ++ [fo_order_id order])
              (rp_failure_details report))).

Fixpoint cleanup_loop (report : BulkCleanupReport) (orders : list FailedOrderInfo)
    : M BulkCleanupReport :=
  match orders with
  | [] => retM report
  | order :: rest => let! report' := cleanup_one report order in cleanup_loop report' rest
  end.

Definition BulkCleanupFailedOrders (orders : list FailedOrderInfo) : M BulkCleanupReport :=
  cleanup_loop (mkReport (Z.of_nat (length orders)) 0 0 d_zero [] [] []) orders.

(** ** Health report *)

Record BalanceHealthReport := mkHealth {
  hr_provider_id : string;
  hr_currency_code : string;
  hr_available : dec;
  hr_reserved : dec;
  hr_total : dec;
  hr_last_updated : Z;
  hr_status : string;
  hr_severity : string;
  hr_issues : list string;
  hr_recommendations : list string
}.

(** One check: on [b], an issue with its recommendation, and a new severity. *)
Definition health_check (b : bool) (issue recommendation severity : string)
    (acc : string * list string * list string) : string * list string * list string :=
  let '(sev, issues, recs) := acc in
  if b then (severity, issues ++ [issue], recs ++ [recommendation]) else (sev, issues, recs).

Definition health_findings (pc : ProviderCurrencies) : string * list string * list string :=
  let a := pc_available_balance pc in
  let r := pc_reserved_balance pc in
  let t := pc_total_balance pc in
  let calculatedTotal := d_add a r in
  health_check (d_gt r t)
    ("Reserved balance (" +:+ d_string r +:+ ") exceeds total balance (" +:+ d_string t +:+ ")")
    "Investigate order assignment logic" "HIGH"
  (health_check (d_eqb a d_zero && d_eqb r d_zero && d_eqb t d_zero)
    "All balance fields are zero - may indicate uninitialized provider"
    "Verify provider balance initialization" "LOW"
  (health_check (d_gt calculatedTotal t)
    ("Logical inconsistency: available + reserved (" +:+ d_string calculatedTotal +:+
     ") > total (" +:+ d_string t +:+ ")")
    "Adjust total balance to match available + reserved" "MEDIUM"
  (health_check (d_lt t d_zero)
    ("Negative total balance: " +:+ d_string t) "Reset total balance to zero" "HIGH"
  (health_check (d_lt r d_zero)
    ("Negative reserved balance: " +:+ d_string r) "Reset reserved balance to zero" "HIGH"
  (health_check (d_lt a d_zero)
    ("Negative available balance: " +:+ d_string a) "Reset available balance to zero" "HIGH"
    ("", [], [])))))).

Definition health_report (p c : string) (pc : ProviderCurrencies) : BalanceHealthReport :=
  let '(sev, issues, recs) := health_findings pc in
  let '(status, severity) :=
    match issues with
    | [] => ("HEALTHY", "NONE")
    | _ => if String.eqb sev "HIGH" then ("CRITICAL", sev)
           else if String.eqb sev "MEDIUM" then ("WARNING", sev)
           else ("INFO", sev)
    end in
  mkHealth p c (pc_available_balance pc) (pc_reserved_balance pc) (pc_total_balance pc)
    (pc_updated_at pc) status severity issues recs.

Definition CheckBalanceHealth (p c : string) : M BalanceHealthReport :=
  let! pc := wrapM "failed to get provider balance for health check" (GetProviderBalance p c) in
  retM (health_report p c pc).

End balance.

(** ** Specification *)

Section balance_spec.
Context {O : DecimalOps} {L : DecimalLaws O}.

(** What the service calls consistent: nothing negative, and available plus
    reserved within the total. *)
Record b_consistent (pc : ProviderCurrencies) : Prop := {
  bc_available : (0 <= d_val (pc_available_balance pc))%Q;
  bc_reserved : (0 <= d_val (pc_reserved_balance pc))%Q;
  bc_total : (0 <= d_val (pc_total_balance pc))%Q;
  bc_sum : (d_val (pc_available_balance pc) + d_val (pc_reserved_balance pc)
            <= d_val (pc_total_balance pc))%Q
}.

(** Every committed balance is consistent. *)
Definition db_consistent (d : DB) : Prop :=
  map_Forall (fun _ pc => b_consistent pc) (db_provider_currencies d).

(** The rows after a reservation and after a release of [amount]. *)
Definition reserved_row (amount : dec) (now : Z) (pc : ProviderCurrencies) : ProviderCurrencies :=
  set_available_reserved (d_sub (pc_available_balance pc) amount)
    (d_add (pc_reserved_balance pc) amount) now pc.
Definition released_row (amount : dec) (now : Z) (pc : ProviderCurrencies) : ProviderCurrencies :=
  set_available_reserved (d_add (pc_available_balance pc) amount)
    (d_sub (pc_reserved_balance pc) amount) now pc.
Definition put_pc (k : string * string) (pc : ProviderCurrencies) (d : DB) : DB :=
  set_pcs (<[k := pc]> (db_provider_currencies d)) d.

(** *** Lemmas on rows *)

Lemma validate_balances_spec pc : validate_balances pc = None <-> b_consistent pc.
Proof.
  unfold validate_balances. split.
  - intros H. repeat case_match; simplify_eq. split; dec_lra.
  - intros [Ha Hr Ht Hs]. repeat case_match; try done; exfalso; dec_lra.
Qed.

Lemma validate_balances_error pc : ~ b_consistent pc -> exists e, validate_balances pc = Some e.
Proof.
  intros H. destruct (validate_balances pc) as [e|] eqn:E; [eauto|].
  by apply validate_balances_spec in E.
Qed.

Lemma fixed_balances_consistent pc a t r u now :
  fixed_balances pc = (a, t, r, u) -> b_consistent (set_balances a t r now pc).
Proof.
  unfold fixed_balances. intros H.
  repeat case_match; simplify_eq/=; split; simpl; dec_lra.
Qed.

Lemma fixed_balances_id pc a t r :
  fixed_balances pc = (a, t, r, false) <->
  b_consistent pc /\ a = pc_available_balance pc /\ t = pc_total_balance pc /\ r = pc_reserved_balance pc.
Proof.
  unfold fixed_balances. split.
  - intros H. repeat case_match; simplify_eq/=. split; [split|done]; dec_lra.
  - intros ([Ha Hr Ht Hs] & -> & -> & ->). repeat case_match; simplify_eq/=; try done; exfalso; dec_lra.
Qed.

Lemma reserved_row_consistent amount now pc :
  b_consistent pc -> (0 <= d_val amount)%Q -> (d_val amount <= d_val (pc_available_balance pc))%Q ->
  b_consistent (reserved_row amount now pc).
Proof. intros [Ha Hr Ht Hs] H0 H1. split; simpl; dec_lra. Qed.

Lemma released_row_consistent amount now pc :
  b_consistent pc -> (0 <= d_val amount)%Q -> (d_val amount <= d_val (pc_reserved_balance pc))%Q ->
  b_consistent (released_row amount now pc).
Proof. intros [Ha Hr Ht Hs] H0 H1. split; simpl; dec_lra. Qed.

Lemma db_consistent_put k pc d :
  db_consistent d -> b_consistent pc -> db_consistent (put_pc k pc d).
Proof. intros Hd Hpc. by apply map_Forall_insert_2. Qed.

Lemma alter_is_put (d : DB) p c f pc :
  db_provider_currencies d !! (p, c) = Some pc ->
  set_pcs (alter f (p, c) (db_provider_currencies d)) d = put_pc (p, c) (f pc) d.
Proof.
  intros H. unfold put_pc. f_equal. apply map_eq. intros k.
  rewrite lookup_alter, lookup_insert. case_decide; [subst; by rewrite H | done].
Qed.

(** *** Lemmas on queries *)

Lemma wp_query_pc h d p c Q w :
  view h w = Some d ->
  (forall fs, match db_provider_currencies d !! (p, c) with
              | Some pc => Q (Ret pc) (set_faults fs w)
              | None => Q (Err ENotFound) (set_faults fs w) end) ->
  (forall fs, Q (Err EFault) (set_faults fs w)) ->
  wp (query_pc h p c) Q w.
Proof.
  intros Hv Hok Hbad. unfold query_pc. apply wp_bind, (wp_read_db _ d); [done| |done].
  intros fs. specialize (Hok fs). destruct (_ !! _); by repeat wp_step.
Qed.

Lemma view_begin n w : view (Some n) (set_next_tx (S n) (set_txs (<[n := fun d => d]> (w_txs w)) w)) = Some (w_db w).
Proof. simpl. by rewrite lookup_insert_eq. Qed.

End balance_spec.

(** Symbolic execution of the balance operations. *)
Ltac bal_step :=
  first
    [ wp_step
    | lazymatch goal with
      | |- wp (query_pc _ _ _) _ _ =>
          eapply wp_query_pc; [simpl; by rewrite ?lookup_insert_eq |intros ? |intros ?]
      | |- wp (update_pc (Some _) _ _ _) _ _ =>
          eapply wp_write_tx; [simpl; by rewrite ?lookup_insert_eq |intros ? |intros ?]
      | |- wp (update_pc None _ _ _) _ _ => apply wp_write_direct; intros ?
      | |- wp (commit_tx _) _ _ =>
          eapply wp_commit; [simpl; by rewrite ?lookup_insert_eq |intros ? |intros ?]
      end ]; cbn [w_db w_txs w_now w_next_tx w_redis w_events set_faults set_txs set_next_tx set_db
       set_redis set_events] in *.

Section balance_theorems.
Context {O : DecimalOps} {L : DecimalLaws O}.

(** Reservation inside a caller's transaction: what the transaction sees. *)
Lemma ReserveBalance_tx_wp p c amount t f pc w :
  w_txs w !! t = Some f -> db_provider_currencies (f (w_db w)) !! (p, c) = Some pc ->
  wp (ReserveBalance p c amount (Some t)) (fun o w' =>
    w_db w' = w_db w /\ w_now w' = w_now w /\ w_redis w' = w_redis w /\ w_events w' = w_events w /\
    match o with
    | Ret _ => (d_val amount <= d_val (pc_available_balance pc))%Q /\
        w_txs w' = <[t := fun d => set_pcs (alter (set_available_reserved
            (d_sub (pc_available_balance pc) amount) (d_add (pc_reserved_balance pc) amount) (w_now w))
            (p, c) (db_provider_currencies (f d))) (f d)]> (w_txs w)
    | Err _ => w_txs w' = w_txs w
    | Panic => False
    end) w.
Proof.
  intros Hf Hpc. unfold ReserveBalance. wp_step. eapply wp_query_pc; [simpl; by rewrite Hf| |];
    intros fs; [rewrite Hpc | by repeat wp_step].
  destruct (d_lt (pc_available_balance pc) amount) eqn:Hlt; [by repeat wp_step|].
  wp_step. wp_step. wp_step. wp_step.
  eapply wp_write_tx; [simpl; exact Hf| |]; intros fs'; [|by repeat wp_step].
  wp_step. split_and!; try done. by apply d_lt_spec_false.
Qed.

Lemma dom_reopened (X : gmap nat (DB -> DB)) n g : dom (delete n (<[n := g]> X)) ⊆ dom X.
Proof. rewrite dom_delete_L, dom_insert_L. intros x. rewrite elem_of_difference, elem_of_union, elem_of_singleton. tauto. Qed.

Lemma ValidateAndFixBalances_consistent p c pc w :
  db_provider_currencies (w_db w) !! (p, c) = Some pc -> b_consistent pc ->
  wp (ValidateAndFixBalances p c) (fun o w' =>
    w_db w' = w_db w /\ w_now w' = w_now w /\ w_redis w' = w_redis w /\ w_events w' = w_events w /\
    o <> Panic /\ dom (w_txs w') ⊆ dom (w_txs w)) w.
Proof.
  intros Hpc Hc%validate_balances_spec. unfold ValidateAndFixBalances.
  repeat (bal_step; unfold validateBalanceConsistencyInternal; cbn [negb]); split_and!;
    auto using dom_reopened; done.
Qed.
Hint Resolve dom_reopened : core.

(** An inconsistent row is never repaired. *)
Lemma ValidateAndFixBalances_inconsistent p c pc w :
  db_provider_currencies (w_db w) !! (p, c) = Some pc -> ~ b_consistent pc ->
  wp (ValidateAndFixBalances p c) (fun o w' => (exists e, o = Err e) /\ w_db w' = w_db w) w.
Proof.
  intros Hpc (e & He)%validate_balances_error. unfold ValidateAndFixBalances.
  repeat (bal_step; unfold validateBalanceConsistencyInternal, fixBalanceInconsistenciesInternal;
          cbn [negb]); eauto.
Qed.

(** Reservation with its own transaction, from a consistent row. *)
Lemma ReserveBalance_own_wp p c amount pc w :
  db_provider_currencies (w_db w) !! (p, c) = Some pc -> b_consistent pc ->
  wp (ReserveBalance p c amount None) (fun o w' =>
    match o with
    | Ret _ => (d_val amount <= d_val (pc_available_balance pc))%Q /\
               w_db w' = put_pc (p, c) (reserved_row amount (w_now w) pc) (w_db w)
    | Err _ => w_db w' = w_db w
    | Panic => False
    end) w.
Proof.
  intros Hpc Hc. unfold ReserveBalance. do 2 wp_step.
  eapply wp_mono; [by eapply ValidateAndFixBalances_consistent|].
  intros o w1 (Hdb & Hnow & _ & _ & Hnp & _). destruct o as [[]|e|]; [|done|done].
  rewrite <- Hnow, <- Hdb. rewrite <- Hdb in Hpc. clear Hdb Hnow Hnp.
  repeat bal_step; try done; [split; [by apply d_lt_spec_false|]; exact (alter_is_put _ _ _ (set_available_reserved _ _ _) _ Hpc)].
Qed.

(** Releases. *)
Lemma ReleaseReservedBalance_tx_wp p c amount t f pc w :
  w_txs w !! t = Some f -> db_provider_currencies (f (w_db w)) !! (p, c) = Some pc ->
  wp (ReleaseReservedBalance p c amount (Some t)) (fun o w' =>
    w_db w' = w_db w /\ w_now w' = w_now w /\ w_redis w' = w_redis w /\ w_events w' = w_events w /\
    match o with
    | Ret _ => ((d_val amount <= d_val (pc_reserved_balance pc))%Q \/
                (d_val (pc_reserved_balance pc) == 0)%Q) /\
        w_txs w' = <[t := fun d => set_pcs (alter (set_available_reserved
            (d_add (pc_available_balance pc) amount) (d_sub (pc_reserved_balance pc) amount) (w_now w))
            (p, c) (db_provider_currencies (f d))) (f d)]> (w_txs w)
    | Err _ => w_txs w' = w_txs w
    | Panic => False
    end) w.
Proof.
  intros Hf Hpc. unfold ReleaseReservedBalance. wp_step.
  eapply wp_query_pc; [simpl; by rewrite Hf| |];
    intros fs; [rewrite Hpc | by repeat wp_step].
  wp_step; [by repeat wp_step|].
  assert (Hcases : (d_val amount <= d_val (pc_reserved_balance pc))%Q \/
                   (d_val (pc_reserved_balance pc) == 0)%Q).
  { match goal with H : _ && _ = false |- _ => apply andb_false_iff in H as [H|H] end;
      [left | right; bool_hyps]; dec_to_q; lra. }
  do 3 wp_step. eapply wp_write_tx; [simpl; exact Hf| |]; intros fs'; by repeat wp_step.
Qed.

Lemma ReleaseReservedBalance_own_wp p c amount pc w :
  db_provider_currencies (w_db w) !! (p, c) = Some pc -> b_consistent pc ->
  wp (ReleaseReservedBalance p c amount None) (fun o w' =>
    match o with
    | Ret _ => ((d_val amount <= d_val (pc_reserved_balance pc))%Q \/
                (d_val (pc_reserved_balance pc) == 0)%Q) /\
               w_db w' = put_pc (p, c) (released_row amount (w_now w) pc) (w_db w)
    | Err _ => w_db w' = w_db w
    | Panic => False
    end) w.
Proof.
  intros Hpc Hc. unfold ReleaseReservedBalance. do 2 wp_step.
  eapply wp_mono; [by eapply ValidateAndFixBalances_consistent|].
  intros o w1 (Hdb & Hnow & _ & _ & Hnp & _). destruct o as [[]|e|]; [|done|done].
  rewrite <- Hnow, <- Hdb. rewrite <- Hdb in Hpc. clear Hdb Hnow Hnp.
  repeat bal_step; try done. split; [|exact (alter_is_put _ _ _ (set_available_reserved _ _ _) _ Hpc)].
  match goal with H : _ && _ = false |- _ => apply andb_false_iff in H as [H|H] end;
    [left | right; bool_hyps]; dec_to_q; lra.
Qed.

End balance_theorems.

(** The same symbolic execution when no external call fails. *)
Ltac bal_step_ok :=
  first
    [ lazymatch goal with
      | |- wp begin_tx _ _ => apply wp_begin_ok; [simpl; assumption |]
      | |- wp (query_pc _ _ _) _ _ =>
          unfold query_pc; apply wp_bind;
          eapply wp_read_db_ok; [simpl; assumption | simpl; by rewrite ?lookup_insert_eq |]
      | |- wp (update_pc (Some _) _ _ _) _ _ =>
          eapply wp_write_tx_ok; [simpl; assumption | simpl; by rewrite ?lookup_insert_eq |]
      | |- wp (update_pc None _ _ _) _ _ => apply wp_write_direct_ok; [simpl; assumption |]
      | |- wp (commit_tx _) _ _ =>
          eapply wp_commit_ok; [simpl; assumption | simpl; by rewrite ?lookup_insert_eq |]
      end
    | wp_step ];
  cbn [w_db w_txs w_now w_next_tx w_redis w_events w_faults set_faults set_txs set_next_tx set_db
       set_redis set_events] in *.

Section balance_claims.
Context {O : DecimalOps} {L : DecimalLaws O}.

Lemma ValidateAndFixBalances_ok p c pc w :
  w_faults w = [] -> db_provider_currencies (w_db w) !! (p, c) = Some pc -> b_consistent pc ->
  wp (ValidateAndFixBalances p c) (fun o w' =>
    o = Ret tt /\ w_db w' = w_db w /\ w_now w' = w_now w /\ w_faults w' = []) w.
Proof.
  intros E Hpc Hc%validate_balances_spec. unfold ValidateAndFixBalances.
  repeat (bal_step_ok; unfold validateBalanceConsistencyInternal; cbn [negb]). done.
Qed.

(** Cancellation and timeout leave these balances. *)
Definition cancelled_row (amount : dec) (now : Z) (pc : ProviderCurrencies) : ProviderCurrencies :=
  set_available_reserved (cancelled_balances amount pc).1 (cancelled_balances amount pc).2 now pc.
Definition timed_out_row (amount : dec) (now : Z) (pc : ProviderCurrencies) : ProviderCurrencies :=
  released_row (d_min amount (pc_reserved_balance pc)) now pc.

Lemma timed_out_row_consistent amount now pc :
  b_consistent pc -> (0 <= d_val amount)%Q -> b_consistent (timed_out_row amount now pc).
Proof.
  intros Hc H0. pose proof Hc as [Ha Hr Ht Hs].
  apply released_row_consistent; [done| |];
    destruct (d_min_cases amount (pc_reserved_balance pc)) as [[? ->]|[? ->]]; lra.
Qed.

Lemma HandleOrderTimeout_wp orderID p c amount pc w :
  db_provider_currencies (w_db w) !! (p, c) = Some pc ->
  wp (HandleOrderTimeout orderID p c amount) (fun o w' =>
    match o with
    | Ret _ =>
        if d_le (pc_reserved_balance pc) d_zero then w_db w' = w_db w
        else w_db w' = put_pc (p, c) (timed_out_row amount (w_now w) pc) (w_db w)
    | Err _ => w_db w' = w_db w
    | Panic => False
    end /\ dom (w_txs w') ⊆ dom (w_txs w)) w.
Proof.
  intros Hpc. unfold HandleOrderTimeout.
  assert (Hnn : d_lt (d_sub (pc_reserved_balance pc) (d_min amount (pc_reserved_balance pc))) d_zero = false).
  { destruct (d_min_cases amount (pc_reserved_balance pc)) as [[? ->]|[? ->]]; dec_lra. }
  repeat bal_step; split; rewrite ?insert_insert_eq; auto using dom_reopened.
  rewrite Hnn. exact (alter_is_put _ _ _ (set_available_reserved _ _ _) _ Hpc).
Qed.

Lemma CancelOrderAndReleaseBalance_wp orderID p c amount pc w :
  db_provider_currencies (w_db w) !! (p, c) = Some pc ->
  wp (CancelOrderAndReleaseBalance orderID p c amount) (fun o w' =>
    match o with
    | Ret _ => w_db w' = put_pc (p, c) (cancelled_row amount (w_now w) pc) (w_db w)
    | Err _ => w_db w' = w_db w
    | Panic => False
    end /\ dom (w_txs w') ⊆ dom (w_txs w)) w.
Proof.
  intros Hpc. unfold CancelOrderAndReleaseBalance.
  repeat bal_step; split; rewrite ?insert_insert_eq; auto using dom_reopened.
  unfold cancelled_row. match goal with H : cancelled_balances _ _ = _ |- _ => rewrite H end.
  exact (alter_is_put _ _ _ (set_available_reserved _ _ _) _ Hpc).
Qed.

End balance_claims.

(** ** Claims *)

Section balance_statements.
Context {O : DecimalOps} {L : DecimalLaws O}.

(** C4: [ReserveBalance] with its own transaction.  Whatever external calls
    fail, a successful call has moved exactly [amount] from available to
    reserved in the committed row of that provider and currency and changed
    nothing else, a failed call has changed nothing, and a database whose
    balances are all consistent stays so. *)
Theorem reserve_balance_correct p c amount pc w :
  db_provider_currencies (w_db w) !! (p, c) = Some pc ->
  db_consistent (w_db w) -> (0 <= d_val amount)%Q ->
  wp (ReserveBalance p c amount None) (fun o w' =>
    db_consistent (w_db w') /\
    match o with
    | Ret _ => (d_val amount <= d_val (pc_available_balance pc))%Q /\
               w_db w' = put_pc (p, c) (reserved_row amount (w_now w) pc) (w_db w)
    | Err _ => w_db w' = w_db w
    | Panic => False
    end) w.
Proof.
  intros Hpc Hdb H0. pose proof (Hdb _ _ Hpc) as Hc.
  eapply wp_mono; [by eapply ReserveBalance_own_wp|].
  intros [[]|e|] w' H; [destruct H as [Hle ->]; split_and!; try done|by rewrite H|done].
  apply db_consistent_put, reserved_row_consistent; done.
Qed.

(** [ReserveBalance] inside the caller's transaction touches neither the
    committed database nor Redis; on success the transaction now also moves
    [amount] from available to reserved (so that is what the caller's commit
    publishes), and on an error the transaction is exactly as before. *)
Theorem reserve_in_transaction_correct p c amount t f pc w :
  w_txs w !! t = Some f -> db_provider_currencies (f (w_db w)) !! (p, c) = Some pc ->
  wp (ReserveBalance p c amount (Some t)) (fun o w' =>
    w_db w' = w_db w /\ w_redis w' = w_redis w /\
    match o with
    | Ret _ => (d_val amount <= d_val (pc_available_balance pc))%Q /\
        view (Some t) w' = Some (put_pc (p, c) (reserved_row amount (w_now w) pc) (f (w_db w)))
    | Err _ => w_txs w' = w_txs w
    | Panic => False
    end) w.
Proof.
  intros Hf Hpc. eapply wp_mono; [by eapply ReserveBalance_tx_wp|].
  intros o w' (Hdb & _ & Hr & _ & H). split_and!; [done|done|]. destruct o as [[]|e|]; [|done|done].
  destruct H as [Hle Htx]. split; [done|]. simpl. rewrite Htx, lookup_insert_eq, Hdb. simpl.
  f_equal. exact (alter_is_put _ _ _ (set_available_reserved _ _ _) _ Hpc).
Qed.

(** When nothing fails, a reservation on a consistent row succeeds exactly
    when the available balance covers the amount. *)
Theorem reserve_balance_decides p c amount pc w :
  w_faults w = [] -> db_provider_currencies (w_db w) !! (p, c) = Some pc -> b_consistent pc ->
  (ReserveBalance p c amount None w).1 =
    if d_lt (pc_available_balance pc) amount
    then Err (EMsg "insufficient available balance") else Ret tt.
Proof.
  intros E Hpc Hc. change (wp (ReserveBalance p c amount None) (fun o _ => o =
    if d_lt (pc_available_balance pc) amount
    then Err (EMsg "insufficient available balance") else Ret tt) w).
  unfold ReserveBalance. do 2 wp_step.
  eapply wp_mono; [by eapply ValidateAndFixBalances_ok|]. intros o w1 (-> & Hdb & _ & E1).
  rewrite <- Hdb in Hpc. repeat bal_step_ok; done.
Qed.

(** Releasing at most what is reserved moves exactly that amount back and
    keeps the database consistent; a failed release changes nothing. *)
Theorem release_balance_correct p c amount pc w :
  db_provider_currencies (w_db w) !! (p, c) = Some pc -> db_consistent (w_db w) ->
  (0 <= d_val amount <= d_val (pc_reserved_balance pc))%Q ->
  wp (ReleaseReservedBalance p c amount None) (fun o w' =>
    db_consistent (w_db w') /\
    match o with
    | Ret _ => w_db w' = put_pc (p, c) (released_row amount (w_now w) pc) (w_db w)
    | Err _ => w_db w' = w_db w
    | Panic => False
    end) w.
Proof.
  intros Hpc Hdb [H0 H1]. pose proof (Hdb _ _ Hpc) as Hc.
  eapply wp_mono; [by eapply ReleaseReservedBalance_own_wp|].
  intros [[]|e|] w' H; [destruct H as [Hle ->]; split_and!; try done|by rewrite H|done].
  by apply db_consistent_put, released_row_consistent.
Qed.

(** From a row with nothing reserved, a release of a positive amount that
    succeeds commits a negative reserved balance: the guard against releasing
    more than is reserved is skipped exactly when the reserved balance is zero. *)
Theorem release_from_zero_goes_negative p c amount pc w :
  db_provider_currencies (w_db w) !! (p, c) = Some pc -> b_consistent pc ->
  (d_val (pc_reserved_balance pc) == 0)%Q -> (0 < d_val amount)%Q -> w_faults w = [] ->
  wp (ReleaseReservedBalance p c amount None) (fun o w' =>
    o = Ret tt /\ exists pc', db_provider_currencies (w_db w') !! (p, c) = Some pc' /\
      (d_val (pc_reserved_balance pc') == - d_val amount)%Q /\ ~ b_consistent pc') w.
Proof.
  intros Hpc Hc Hz Hpos E. unfold ReleaseReservedBalance. do 2 wp_step.
  eapply wp_mono; [by eapply ValidateAndFixBalances_ok|]. intros o w1 (-> & Hdb & _ & E1).
  rewrite <- Hdb in Hpc.
  assert (Hz' : d_eqb (pc_reserved_balance pc) d_zero = true) by (dec_to_q; lra).
  repeat (bal_step_ok; try rewrite Hz', andb_false_r).
  split; [done|]. simpl. eexists. split; [by rewrite lookup_alter_eq, Hpc|]. simpl.
  split; [dec_lra|]. intros [_ Hr _ _]. simpl in Hr. dec_lra.
Qed.

(** [ValidateAndFixBalances] never repairs anything: on an inconsistent row
    it returns an error and commits nothing, whatever fails or does not fail
    (it validates the stale row it read before the repair). *)
Theorem validate_and_fix_never_repairs p c pc w :
  db_provider_currencies (w_db w) !! (p, c) = Some pc -> ~ b_consistent pc ->
  wp (ValidateAndFixBalances p c) (fun o w' => (exists e, o = Err e) /\ w_db w' = w_db w) w.
Proof. apply ValidateAndFixBalances_inconsistent. Qed.

(** [FixBalanceInconsistencies] does repair: after a successful call the
    row is consistent, no other row has changed, and a row that was consistent
    already is untouched. *)
Theorem fix_balances_repairs p c pc w :
  db_provider_currencies (w_db w) !! (p, c) = Some pc ->
  wp (FixBalanceInconsistencies p c) (fun o w' =>
    match o with
    | Ret _ => exists pc', w_db w' = put_pc (p, c) pc' (w_db w) /\ b_consistent pc' /\
                 (b_consistent pc -> pc' = pc)
    | Err _ => w_db w' = w_db w
    | Panic => False
    end) w.
Proof.
  intros Hpc. unfold FixBalanceInconsistencies, GetProviderBalance, UpdateProviderBalance.
  destruct (fixed_balances pc) as [[[a t] r] u] eqn:Hfix.
  assert (Hid : u = false -> b_consistent pc) by (intros ->; by apply fixed_balances_id in Hfix as [? _]).
  repeat (bal_step; rewrite ?Hfix; cbn beta iota).
  all: try done.
  - exists (set_balances a t r (w_now w) pc). split_and!.
    + exact (alter_is_put _ _ _ (set_balances _ _ _ _) _ Hpc).
    + by eapply fixed_balances_consistent.
    + intros Hc. exfalso. pose proof (proj2 (fixed_balances_id pc _ _ _) (conj Hc (conj eq_refl (conj eq_refl eq_refl)))).
      congruence.
  - exists pc. split_and!; [|auto|done]. unfold put_pc. rewrite insert_id by done. by destruct (w_db w).
Qed.

(** [HandleOrderTimeout] releases the smaller of [amount] and what is
    reserved, keeps every balance consistent, and never leaves a transaction
    open. *)
Theorem order_timeout_correct orderID p c amount pc w :
  db_provider_currencies (w_db w) !! (p, c) = Some pc -> db_consistent (w_db w) ->
  (0 <= d_val amount)%Q ->
  wp (HandleOrderTimeout orderID p c amount) (fun o w' =>
    db_consistent (w_db w') /\ dom (w_txs w') ⊆ dom (w_txs w) /\
    match o with
    | Ret _ =>
        if d_le (pc_reserved_balance pc) d_zero then w_db w' = w_db w
        else w_db w' = put_pc (p, c) (timed_out_row amount (w_now w) pc) (w_db w)
    | Err _ => w_db w' = w_db w
    | Panic => False
    end) w.
Proof.
  intros Hpc Hdb H0. pose proof (Hdb _ _ Hpc) as Hc.
  eapply wp_mono; [by eapply HandleOrderTimeout_wp|].
  intros [[]|e|] w' [H Ht]; [|by rewrite H|done]. destruct (d_le _ _); rewrite H; split_and!; try done.
  by apply db_consistent_put, timed_out_row_consistent.
Qed.

(** Cancelling an order that reserved no more than is reserved gives the
    amount back and keeps the row consistent; cancelling for more than is
    reserved still makes the whole amount available, so available plus reserved
    grows by the excess. *)
Theorem cancel_order_balances orderID p c amount pc w :
  db_provider_currencies (w_db w) !! (p, c) = Some pc -> b_consistent pc ->
  (0 <= d_val amount)%Q ->
  wp (CancelOrderAndReleaseBalance orderID p c amount) (fun o w' =>
    o <> Ret tt \/ exists pc', db_provider_currencies (w_db w') !! (p, c) = Some pc' /\
      ((d_val amount <= d_val (pc_reserved_balance pc))%Q ->
         b_consistent pc' /\
         (d_val (pc_available_balance pc') + d_val (pc_reserved_balance pc') ==
          d_val (pc_available_balance pc) + d_val (pc_reserved_balance pc))%Q) /\
      ((d_val (pc_reserved_balance pc) < d_val amount)%Q ->
         (d_val (pc_available_balance pc') + d_val (pc_reserved_balance pc') ==
          d_val (pc_available_balance pc) + d_val amount)%Q)) w.
Proof.
  intros Hpc [Ha Hr Ht Hs] H0. eapply wp_mono; [by eapply CancelOrderAndReleaseBalance_wp|].
  intros [[]|e|] w' [H _]; [right | by left | by left]. rewrite H. eexists.
  split; [by apply lookup_insert_eq|]. unfold cancelled_row, cancelled_balances; simpl.
  destruct (d_lt _ _) eqn:E; (split; intros Hle; [split; [split|]|]); simpl; dec_lra.
Qed.


(** A release never panics, whatever the database holds. *)
Lemma ReleaseReservedBalance_no_panic p c amount w :
  wp (ReleaseReservedBalance p c amount None) (fun o _ => o <> Panic) w.
Proof.
  unfold ReleaseReservedBalance, ValidateAndFixBalances, validateBalanceConsistencyInternal,
    fixBalanceInconsistenciesInternal.
  repeat (bal_step; cbn [negb]); done.
Qed.

(** The orders selected by a mask. *)
Definition masked (oks : list bool) (orders : list FailedOrderInfo) (b : bool) : list FailedOrderInfo :=
  map snd (List.filter (fun x => Bool.eqb (fst x) b) (zip oks orders)).
Definition total_of (orders : list FailedOrderInfo) : Q :=
  foldr (fun o acc => (d_val (fo_amount o) + acc)%Q) 0%Q orders.

Lemma masked_lengths oks orders :
  length oks = length orders ->
  (length (masked oks orders true) + length (masked oks orders false) = length orders)%nat.
Proof.
  revert orders. induction oks as [|[] oks IH]; intros [|o orders] [=]; [done| |];
    unfold masked in *; simpl; rewrite <- (IH orders) by done; lia.
Qed.

Definition report_extends (r r' : BulkCleanupReport) (oks : list bool) (orders : list FailedOrderInfo) : Prop :=
  rp_total_orders r' = rp_total_orders r /\
  rp_success_count r' = rp_success_count r + Z.of_nat (length (masked oks orders true)) /\
  rp_failure_count r' = rp_failure_count r + Z.of_nat (length (masked oks orders false)) /\
  (d_val (rp_total_amount r') == d_val (rp_total_amount r) + total_of (masked oks orders true))%Q /\
  rp_success_details r' = (rp_success_details r ++ map fo_order_id (masked oks orders true))%list /\
  map fst (rp_errors r') = (map fst (rp_errors r) ++ map fo_order_id (masked oks orders false))%list.

Lemma report_extends_nil r : report_extends r r [] [].
Proof. unfold report_extends, masked; simpl. rewrite !app_nil_r. split_and!; try lia; try done. lra. Qed.

Lemma report_extends_cons r r1 r' b o oks orders :
  report_extends r r1 [b] [o] -> report_extends r1 r' oks orders ->
  report_extends r r' (b :: oks) (o :: orders).
Proof.
  intros (A1 & A2 & A3 & A4 & A5 & A6) (B1 & B2 & B3 & B4 & B5 & B6).
  unfold report_extends in *. rewrite B1, B2, B3, B5, B6, A1, A2, A3, A5, A6.
  unfold masked in *. destruct b; simpl in *; rewrite <- ?app_assoc; simpl;
    (split_and!; [done|lia|lia|lra|done|done]) || (rewrite ?app_nil_r in *; split_and!; [done|lia|lia|lra|done|done]).
Qed.

Lemma cleanup_one_wp r order w :
  wp (cleanup_one r order) (fun o _ => exists b r', o = Ret r' /\ report_extends r r' [b] [order]) w.
Proof.
  unfold cleanup_one. apply wp_try. eapply wp_mono; [apply ReleaseReservedBalance_no_panic|].
  intros [[]|e|] w' H; [| |done]; apply wp_ret; [exists true | exists false];
    eexists; (split; [done|]); unfold report_extends, masked; simpl;
    rewrite ?map_app, ?app_nil_r; split_and!; simpl; try lia; try done; try dec_lra.
Qed.

Lemma cleanup_loop_wp orders : forall r w,
  wp (cleanup_loop r orders) (fun o _ => exists oks r', o = Ret r' /\
    length oks = length orders /\ report_extends r r' oks orders) w.
Proof.
  induction orders as [|order orders IH]; intros r w; simpl.
  - apply wp_ret. exists [], r. split_and!; [done|done|apply report_extends_nil].
  - apply wp_bind. eapply wp_mono; [apply cleanup_one_wp|]. intros o w1 (b & r1 & -> & H1). simpl.
    eapply wp_mono; [apply IH|]. intros o w2 (oks & r2 & -> & Hlen & H2).
    exists (b :: oks), r2. split_and!; [done|by simpl; rewrite Hlen|by eapply report_extends_cons].
Qed.

(** [BulkCleanupFailedOrders] always returns a report, and the report
    accounts for every order: the successes and the failures split the given
    orders, their counts add up to the total, and the total amount is the sum of
    the amounts of the successes. *)
Theorem bulk_cleanup_accounts orders w :
  wp (BulkCleanupFailedOrders orders) (fun o _ => exists oks r, o = Ret r /\
    length oks = length orders /\
    rp_success_count r + rp_failure_count r = rp_total_orders r /\
    rp_total_orders r = Z.of_nat (length orders) /\
    rp_success_details r = map fo_order_id (masked oks orders true) /\
    map fst (rp_errors r) = map fo_order_id (masked oks orders false) /\
    (d_val (rp_total_amount r) == total_of (masked oks orders true))%Q) w.
Proof.
  unfold BulkCleanupFailedOrders. eapply wp_mono; [apply cleanup_loop_wp|].
  intros o w' (oks & r & -> & Hlen & H1 & H2 & H3 & H4 & H5 & H6). exists oks, r.
  pose proof (masked_lengths oks orders Hlen) as Hsplit. simpl in *. split_and!; try done; [rewrite H2, H3, H1; lia | rewrite H4; dec_lra].
Qed.

(** The health report says HEALTHY exactly for a consistent row that is
    not all zero. *)
Theorem health_report_healthy p c pc :
  hr_status (health_report p c pc) = "HEALTHY" <->
  b_consistent pc /\
  ~ ((d_val (pc_available_balance pc) == 0)%Q /\ (d_val (pc_reserved_balance pc) == 0)%Q /\
     (d_val (pc_total_balance pc) == 0)%Q).
Proof.
  unfold health_report, health_findings, health_check. split.
  - intros H. repeat (case_match; simplify_eq/=); bool_hyps;
      try (exfalso; by match goal with H : _ ++ [_] = [] |- _ => by apply app_nil in H as [_ ?] end).
    split; [split; dec_lra|]. intros (Z1 & Z2 & Z3).
    match goal with H : _ && _ = false |- _ => apply andb_false_iff in H as [[H|H]%andb_false_iff|H] end; dec_lra.
  - intros [[Ha Hr Ht Hs] Hnz].
    destruct (d_lt (pc_available_balance pc) d_zero) eqn:E1; [exfalso; dec_lra|].
    destruct (d_lt (pc_reserved_balance pc) d_zero) eqn:E2; [exfalso; dec_lra|].
    destruct (d_lt (pc_total_balance pc) d_zero) eqn:E3; [exfalso; dec_lra|].
    destruct (d_gt (d_add _ _) _) eqn:E4; [exfalso; dec_lra|].
    destruct (_ && _ && _) eqn:E5; [exfalso; bool_hyps; apply Hnz; dec_to_q; auto|].
    destruct (d_gt (pc_reserved_balance pc) (pc_total_balance pc)) eqn:E6; [exfalso; dec_lra | done].
Qed.

(** A negative reserved balance whose row is also logically inconsistent is
    reported only as WARNING: the later MEDIUM check overwrites the severity HIGH
    that the negative balance had set. *)
Theorem health_report_downgrades_negative p c pc :
  (d_val (pc_reserved_balance pc) < 0)%Q -> (0 <= d_val (pc_total_balance pc))%Q ->
  (d_val (pc_total_balance pc) < d_val (pc_available_balance pc) + d_val (pc_reserved_balance pc))%Q ->
  hr_status (health_report p c pc) = "WARNING" /\ hr_severity (health_report p c pc) = "MEDIUM".
Proof.
  intros Hr Ht Hs. unfold health_report, health_findings, health_check.
  destruct (d_lt (pc_available_balance pc) d_zero) eqn:E1; [exfalso; dec_lra|].
  destruct (d_lt (pc_reserved_balance pc) d_zero) eqn:E2; [|exfalso; dec_lra].
  destruct (d_lt (pc_total_balance pc) d_zero) eqn:E3; [exfalso; dec_lra|].
  destruct (d_gt (d_add _ _) _) eqn:E4; [|exfalso; dec_lra].
  destruct (_ && _ && _) eqn:E5; [exfalso; bool_hyps; dec_lra|].
  destruct (d_gt (pc_reserved_balance pc) (pc_total_balance pc)) eqn:E6; [exfalso; dec_lra | done].
Qed.

End balance_statements.

(** ** Concrete runs *)

Lemma s_pc_consistent a r t :
  0 <= a -> 0 <= r -> a + r <= t -> b_consistent (s_pc a r t).
Proof. intros. split; unfold Qle; simpl; lia. Qed.

Lemma s_db_consistent pc : b_consistent pc -> db_consistent (s_db pc).
Proof. intros H. by apply map_Forall_singleton. Qed.

(** A reservation of 60 out of 100. *)
Lemma reserve_balance_correct_witness :
  db_consistent (w_db (ReserveBalance s_prov s_cur (d_int 60) None (s_world (s_pc 100 0 100) [])).2) /\
  (ReserveBalance s_prov s_cur (d_int 60) None (s_world (s_pc 100 0 100) [])).1 = Ret tt.
Proof.
  split; [|reflexivity].
  refine (proj1 (reserve_balance_correct s_prov s_cur (d_int 60) (s_pc 100 0 100) _ _ _ _)).
  - reflexivity.
  - apply s_db_consistent, s_pc_consistent; lia.
  - vm_compute. discriminate.
Defined.

Lemma reserve_in_transaction_correct_witness :
  let w := set_txs {[ 3%nat := fun d => d ]} (s_world (s_pc 100 0 100) [false; true]) in
  w_db (ReserveBalance s_prov s_cur (d_int 60) (Some 3%nat) w).2 = w_db w.
Proof.
  refine (proj1 (reserve_in_transaction_correct s_prov s_cur (d_int 60) 3%nat (fun d => d)
            (s_pc 100 0 100) _ _ _)); reflexivity.
Defined.

Lemma reserve_balance_decides_witness :
  (ReserveBalance s_prov s_cur (d_int 160) None (s_world (s_pc 100 0 100) [])).1 =
  Err (EMsg "insufficient available balance").
Proof.
  refine (reserve_balance_decides s_prov s_cur (d_int 160) (s_pc 100 0 100) _ _ _ _).
  - reflexivity.
  - reflexivity.
  - apply s_pc_consistent; lia.
Defined.

Lemma release_balance_correct_witness :
  db_consistent (w_db (ReleaseReservedBalance s_prov s_cur (d_int 60) None (s_world (s_pc 40 60 100) [])).2).
Proof.
  refine (proj1 (release_balance_correct s_prov s_cur (d_int 60) (s_pc 40 60 100) _ _ _ _)).
  - reflexivity.
  - apply s_db_consistent, s_pc_consistent; lia.
  - split; vm_compute; discriminate.
Defined.

Lemma release_from_zero_goes_negative_witness :
  (ReleaseReservedBalance s_prov s_cur (d_int 60) None (s_world (s_pc 40 0 100) [])).1 = Ret tt.
Proof.
  refine (proj1 (release_from_zero_goes_negative s_prov s_cur (d_int 60) (s_pc 40 0 100) _ _ _ _ _ _)).
  - reflexivity.
  - apply s_pc_consistent; lia.
  - reflexivity.
  - reflexivity.
  - reflexivity.
Defined.

(** Available 100 in a total of 40: the repair is left in an open transaction. *)
Lemma validate_and_fix_never_repairs_witness :
  w_db (ValidateAndFixBalances s_prov s_cur (s_world (s_pc 100 0 40) [])).2 = s_db (s_pc 100 0 40).
Proof.
  refine (proj2 (validate_and_fix_never_repairs s_prov s_cur (s_pc 100 0 40) _ _ _)).
  - reflexivity.
  - intros [_ _ _ H]. by vm_compute in H.
Defined.

Lemma fix_balances_repairs_witness :
  match (FixBalanceInconsistencies s_prov s_cur (s_world (s_pc 100 0 40) [])).1 with
  | Ret _ => True | _ => False end /\
  wp (FixBalanceInconsistencies s_prov s_cur) (fun o w' =>
    match o with
    | Ret _ => exists pc', w_db w' = put_pc (s_prov, s_cur) pc' (s_db (s_pc 100 0 40)) /\
                 b_consistent pc' /\ (b_consistent (s_pc 100 0 40) -> pc' = s_pc 100 0 40)
    | Err _ => w_db w' = s_db (s_pc 100 0 40)
    | Panic => False
    end) (s_world (s_pc 100 0 40) []).
Proof. split; [exact I|]. exact (fix_balances_repairs s_prov s_cur (s_pc 100 0 40) (s_world (s_pc 100 0 40) []) eq_refl). Defined.

Lemma order_timeout_correct_witness :
  db_consistent (w_db (HandleOrderTimeout "o1" s_prov s_cur (d_int 80) (s_world (s_pc 40 60 100) [])).2).
Proof.
  refine (proj1 (order_timeout_correct "o1" s_prov s_cur (d_int 80) (s_pc 40 60 100) _ _ _ _)).
  - reflexivity.
  - apply s_db_consistent, s_pc_consistent; lia.
  - vm_compute. discriminate.
Defined.

(** Cancelling 80 with 60 reserved: available becomes 120 out of 100. *)
Lemma cancel_order_balances_witness :
  wp (CancelOrderAndReleaseBalance "o1" s_prov s_cur (d_int 80)) (fun o w' =>
    o <> Ret tt \/ exists pc', db_provider_currencies (w_db w') !! (s_prov, s_cur) = Some pc' /\
      (d_val (pc_available_balance pc') + d_val (pc_reserved_balance pc') == 120)%Q)
    (s_world (s_pc 40 60 100) []).
Proof.
  assert (H : b_consistent (s_pc 40 60 100)) by (apply s_pc_consistent; lia).
  pose proof (cancel_order_balances "o1" s_prov s_cur (d_int 80) (s_pc 40 60 100)
    (s_world (s_pc 40 60 100) []) eq_refl H ltac:(vm_compute; discriminate)) as T.
  destruct T as [T|(pc' & Hl & _ & T)]; [by left|right]. exists pc'. split; [exact Hl|].
  apply T. reflexivity.
Defined.

Lemma health_report_downgrades_negative_witness :
  hr_status (health_report s_prov s_cur (s_pc 60 (-10) 40)) = "WARNING".
Proof.
  refine (proj1 (health_report_downgrades_negative s_prov s_cur (s_pc 60 (-10) 40) _ _ _)).
  - reflexivity.
  - vm_compute. discriminate.
  - reflexivity.
Defined.

(** [bulk_cleanup_accounts] and [health_report_healthy] over the concrete decimals. *)
Lemma bulk_cleanup_accounts_witness :
  wp (BulkCleanupFailedOrders [mkFailed "o1" s_prov s_cur (d_int 60) 0]) (fun o _ => exists (oks : list bool) r, o = Ret r /\
    length oks = 1%nat /\ rp_success_count r + rp_failure_count r = rp_total_orders r)
    (s_world (s_pc 40 60 100) []).
Proof.
  destruct (bulk_cleanup_accounts [mkFailed "o1" s_prov s_cur (d_int 60) 0] (s_world (s_pc 40 60 100) []))
    as (oks & r & H & Hl & Hs & _). exists oks, r. by split_and!.
Defined.

Lemma health_report_healthy_witness :
  hr_status (health_report s_prov s_cur (s_pc 40 60 100)) = "HEALTHY".
Proof.
  apply (health_report_healthy s_prov s_cur (s_pc 40 60 100)). split.
  - apply s_pc_consistent; lia.
  - intros [H _]. by vm_compute in H.
Defined.
