(* ===== verification/Interleave.v ===== *)
(** * Reservations that overlap (services/balance_management.go)

    The server handles requests concurrently, and Postgres runs their
    transactions at READ COMMITTED: a read sees what is committed at that
    moment, and nothing keeps the row it read from changing before the write.
    Here [ReserveBalance] is cut at its external calls into a program [prog]
    ([reserve_prog], proved to be [ReserveBalance] when it runs alone), and
    [pool_step] lets any of several programs make its next call.

    The relation allows every order of the calls, also those in which the row
    lock of Postgres would make an update wait, so what holds after every run of
    it holds in the server.  The run that loses an update
    ([overlapping_reservations_overcommit]) updates only when the other
    transaction is done, as the row lock has it. *)

From S2P Require Import Prelude Decimal Schema Store Samples Balance.
From stdpp Require Import relations.
Local Open Scope go_scope.
Local Open Scope string_scope.
Local Open Scope list_scope.

Section prog.
Context {O : DecimalOps}.

(** ** Programs cut at their calls *)

Inductive prog : Type :=
  | Done (o : outcome unit)
  | Call (A : Type) (m : M A) (k : outcome A -> prog).
Arguments Call {A} m k.

(** The program alone, without interference. *)
Fixpoint run (pr : prog) (w : World) : outcome unit * World :=
  match pr with
  | Done o => (o, w)
  | Call m k => run (k (m w).1) (m w).2
  end.

(** [err != nil] and [err == nil] after a call; a panic ends the program. *)
Definition on {A} (m : M A) (h : error -> prog) (k : A -> prog) : prog :=
  Call m (fun o => match o with Ret a => k a | Err e => h e | Panic => Done Panic end).

Definition fail (msg : string) (e : error) : prog := Done (Err (EWrap msg e)).

(** ** The calls of a reservation *)

(** [ValidateAndFixBalances], then [k] when it succeeds and [h] when it does not. *)
Definition validate_prog (p c : string) (h : error -> prog) (k : prog) : prog :=
  on begin_tx (fun e => h (EWrap "failed to start transaction for balance validation" e)) (fun tx =>
  on (query_pc (Some tx) p c)
    (fun e => on (rollback_tx tx) h (fun _ =>
       h (EWrap "failed to get provider balance for validation" e))) (fun pc =>
  let commit :=
    on (commit_tx tx) (fun e => h (EWrap "failed to commit balance validation transaction" e))
      (fun _ => k) in
  match validateBalanceConsistencyInternal true true pc with
  | Some _ =>
      on (fixBalanceInconsistenciesInternal p c pc tx)
        (fun e => h (EWrap "failed to validate or fix balances" e)) (fun _ =>
      match validateBalanceConsistencyInternal true true pc with
      | Some e => h (EWrap "balance validation still failed after fixing inconsistencies" e)
      | None => commit
      end)
  | None => commit
  end)).

(** The rest of [ReserveBalance], in the transaction [t] it opens: the write of
    absolute balances computed from the row [pc] it read, and before it the read. *)
Definition reserve_write_prog (p c : string) (amount : dec) (t : nat) (pc : ProviderCurrencies) : prog :=
  on (let! w := getM in
      update_pc (Some t) p c
        (set_available_reserved (d_sub (pc_available_balance pc) amount)
           (d_add (pc_reserved_balance pc) amount) (w_now w)))
    (fail "failed to reserve balance") (fun _ =>
  on (commit_tx t) (fail "failed to commit transaction") (fun _ => Done (Ret tt))).
Definition reserve_in_prog (p c : string) (amount : dec) (t : nat) : prog :=
  on (query_pc (Some t) p c) (fail "failed to get provider balance") (fun pc =>
  if d_lt (pc_available_balance pc) amount then Done (Err (EMsg "insufficient available balance"))
  else reserve_write_prog p c amount t pc).

Definition reserve_prog (p c : string) (amount : dec) : prog :=
  validate_prog p c (fail "balance validation failed")
    (on begin_tx (fail "failed to start transaction") (reserve_in_prog p c amount)).

(** ** Several programs at once *)

(** One of the programs makes its next call. *)
Inductive pool_step : list prog * World -> list prog * World -> Prop :=
  | pool_call (i : nat) ps A (m : M A) k w :
      ps !! i = Some (Call m k) ->
      pool_step (ps, w) (<[i := k (m w).1]> ps, (m w).2).

(** The run in which the programs move in a given order; a program that is done,
    or an index that is none, does nothing. *)
Definition move (i : nat) (s : list prog * World) : list prog * World :=
  match s.1 !! i with
  | Some (Call m k) => (<[i := k (m s.2).1]> s.1, (m s.2).2)
  | _ => s
  end.
Definition schedule (order : list nat) (s : list prog * World) : list prog * World :=
  fold_left (fun s i => move i s) order s.

(** ** One after the other *)

(** The reservations one after the other, each with its result. *)
Fixpoint serial (p c : string) (amounts : list dec) (w : World) : list (dec * outcome unit) * World :=
  match amounts with
  | [] => ([], w)
  | a :: amounts =>
      let '(o, w) := ReserveBalance p c a None w in
      let '(rs, w) := serial p c amounts w in
      ((a, o) :: rs, w)
  end.

(** What the successful ones promised. *)
Definition granted (rs : list (dec * outcome unit)) : Q :=
  foldr (fun r q => match r.2 with Ret _ => (d_val r.1 + q)%Q | _ => q end) 0%Q rs.

End prog.
Arguments Call {O A} m k.

(** ** Programs that keep an invariant under any interference *)

Section rely.
Context {O : DecimalOps}.
Variable Inv : World -> Prop.

Fixpoint safe (pr : prog) : Prop :=
  match pr with
  | Done _ => True
  | Call m k => forall w, Inv w -> Inv (m w).2 /\ safe (k (m w).1)
  end.

Lemma safe_on {A} (m : M A) h k :
  (forall w, Inv w -> wp m (fun o w' => Inv w' /\
     match o with Ret a => safe (k a) | Err e => safe (h e) | Panic => True end) w) ->
  safe (on m h k).
Proof.
  intros H w Hw. destruct (H w Hw) as [Hi Hk]. split; [done|]. by destruct ((m w).1).
Qed.

Lemma pool_step_safe s s' :
  pool_step s s' -> Forall safe s.1 -> Inv s.2 -> Forall safe s'.1 /\ Inv s'.2.
Proof.
  intros [i ps A m k w Hi] Hps Hw. simpl in *.
  destruct (Forall_lookup_1 _ _ _ _ Hps Hi w Hw) as [Hi' Hk].
  split; [by apply Forall_insert|done].
Qed.

Lemma pool_steps_safe s s' :
  rtc pool_step s s' -> Forall safe s.1 -> Inv s.2 -> Forall safe s'.1 /\ Inv s'.2.
Proof.
  induction 1 as [|s s1 s2 H1 _ IH]; [done|]. intros Hps Hw.
  destruct (pool_step_safe _ _ H1 Hps Hw). auto.
Qed.

End rely.

(** A schedule is a run of the relation. *)
Lemma schedule_steps `{DecimalOps} order s : rtc pool_step s (schedule order s).
Proof.
  revert s. induction order as [|i order IH]; intros [ps w]; [done|]. simpl.
  destruct (ps !! i) as [[o|A m k]|] eqn:E; unfold move at 1; simpl; rewrite E; [apply IH| |apply IH].
  eapply rtc_l; [by apply (pool_call i)|apply IH].
Qed.

(** ** What reservations keep *)

Section reservations.
Context {O : DecimalOps} {L : DecimalLaws O}.
Variables (p c : string) (d0 : DB) (pc0 : ProviderCurrencies).
Hypothesis pc0_consistent : b_consistent pc0.

(** The row may move money between available and reserved, and nothing else. *)
Definition row_kept (pc : ProviderCurrencies) : Prop :=
  b_consistent pc /\
  (d_val (pc_available_balance pc) + d_val (pc_reserved_balance pc) ==
   d_val (pc_available_balance pc0) + d_val (pc_reserved_balance pc0))%Q /\
  pc_total_balance pc = pc_total_balance pc0 /\ pc_is_available pc = pc_is_available pc0.
Definition db_kept (d : DB) : Prop := exists pc, d = put_pc (p, c) pc d0 /\ row_kept pc.
(** Committed or about to be. *)
Definition kept (w : World) : Prop :=
  db_kept (w_db w) /\ map_Forall (fun _ f => forall d, db_kept d -> db_kept (f d)) (w_txs w).

Lemma put_pc_lookup k pc d : db_provider_currencies (put_pc k pc d) !! k = Some pc.
Proof. apply lookup_insert_eq. Qed.
Lemma put_pc_twice k pc pc' d : put_pc k pc' (put_pc k pc d) = put_pc k pc' d.
Proof. unfold put_pc. simpl. by rewrite insert_insert_eq. Qed.

Lemma kept_faults fs w : kept w -> kept (set_faults fs w).
Proof. done. Qed.

Lemma kept_begin w : kept w ->
  wp begin_tx (fun o w' => kept w' /\ o <> Panic) w.
Proof.
  intros [Hd Ht]. apply wp_begin; intros fs; [|done]. split; [|done]. split; [done|].
  by apply map_Forall_insert_2.
Qed.

Lemma kept_delete t w : kept w -> kept (set_txs (delete t (w_txs w)) w).
Proof. intros [Hd Ht]. split; [done|]. simpl. by apply map_Forall_delete. Qed.

Lemma kept_commit t w : kept w -> wp (commit_tx t) (fun o w' => kept w' /\ o <> Panic) w.
Proof.
  intros Hk. pose proof Hk as [Hd Ht]. destruct (w_txs w !! t) as [f|] eqn:E.
  - eapply wp_commit; [done| |]; intros fs; split; try done; [|by apply kept_delete].
    split; simpl; [by eapply Ht|by apply map_Forall_delete].
  - unfold wp, commit_tx. rewrite E. done.
Qed.

Lemma kept_query t w : kept w ->
  wp (query_pc (Some t) p c) (fun o w' => kept w' /\
    match o with Ret pc => row_kept pc | Err _ => True | Panic => False end) w.
Proof.
  intros Hk. pose proof Hk as [Hd Ht]. destruct (w_txs w !! t) as [f|] eqn:E.
  - destruct (Ht _ _ E _ Hd) as (pc & Hf & Hpc).
    eapply wp_query_pc; [simpl; by rewrite E| |by intros]. intros fs. rewrite Hf, put_pc_lookup. done.
  - apply wp_bind. unfold read_db. apply wp_bind, wp_ext; intros fs; unfold wp; simpl; by rewrite ?E.
Qed.

Lemma row_kept_reserved pc pc' amount now :
  row_kept pc -> row_kept pc' -> (0 <= d_val amount)%Q ->
  d_lt (pc_available_balance pc) amount = false ->
  row_kept (set_available_reserved (d_sub (pc_available_balance pc) amount)
              (d_add (pc_reserved_balance pc) amount) now pc').
Proof.
  intros ([Ha Hr Ht Hs] & Hsum & Htot & _) ([Ha' Hr' Ht' Hs'] & Hsum' & Htot' & Hav) H0 Hle.
  split_and!; simpl; try done; [split; simpl|]; rewrite ?Htot' in *; dec_lra.
Qed.

Lemma kept_update t pc amount w :
  kept w -> row_kept pc -> (0 <= d_val amount)%Q -> d_lt (pc_available_balance pc) amount = false ->
  wp (let! w := getM in
      update_pc (Some t) p c
        (set_available_reserved (d_sub (pc_available_balance pc) amount)
           (d_add (pc_reserved_balance pc) amount) (w_now w)))
    (fun o w' => kept w' /\ o <> Panic) w.
Proof.
  intros Hk Hpc H0 Hle. pose proof Hk as [Hd Ht]. wp_step. wp_step. unfold update_pc.
  destruct (w_txs w !! t) as [f|] eqn:E.
  - eapply wp_write_tx; [done| |]; intros fs; split; try done. split; [done|]. simpl.
    apply map_Forall_insert_2; [|done]. intros d Hdk.
    destruct (Ht _ _ E _ Hdk) as (pc' & -> & Hpc').
    erewrite alter_is_put by apply put_pc_lookup. rewrite put_pc_twice.
    eexists. split; [done|]. by apply row_kept_reserved.
  - unfold write_db. apply wp_bind, wp_ext; intros fs; unfold wp; simpl; by rewrite ?E.
Qed.

Lemma validate_safe h k :
  (forall e, safe kept (h e)) -> safe kept k -> safe kept (validate_prog p c h k).
Proof.
  intros Hh Hk. apply safe_on. intros w Hw.
  eapply wp_mono; [by apply kept_begin|]. intros [tx|e|] w1 [Hw1 ?]; split; try done.
  apply safe_on. clear w Hw w1 Hw1. intros w Hw.
  eapply wp_mono; [by apply kept_query|]. intros [pc|e|] w1 [Hw1 Hpc]; split; try done.
  - replace (validateBalanceConsistencyInternal true true pc) with (@None error)
      by (symmetry; by apply validate_balances_spec, Hpc).
    apply safe_on. clear w Hw w1 Hw1. intros w Hw.
    eapply wp_mono; [by apply kept_commit|]. by intros [[]|e|] w1 [Hw1 ?].
  - apply safe_on. clear w Hw w1 Hw1. intros w Hw. split; [by apply kept_delete|apply Hh].
Qed.

Lemma reserve_safe amount : (0 <= d_val amount)%Q -> safe kept (reserve_prog p c amount).
Proof.
  intros H0. apply validate_safe; [done|]. apply safe_on. intros w Hw.
  eapply wp_mono; [by apply kept_begin|]. intros [tx|e|] w1 [Hw1 ?]; split; try done.
  apply safe_on. clear w Hw w1 Hw1. intros w Hw.
  eapply wp_mono; [by apply kept_query|]. intros [pc|e|] w1 [Hw1 Hpc]; split; try done.
  destruct (d_lt _ _) eqn:Hle; [done|]. apply safe_on. clear w Hw w1 Hw1. intros w Hw.
  eapply wp_mono; [by apply kept_update|]. intros [[]|e|] w1 [Hw1 ?]; split; try done.
  apply safe_on. clear w Hw w1 Hw1. intros w Hw.
  eapply wp_mono; [by apply kept_commit|]. by intros [[]|e|] w1 [Hw1 ?].
Qed.

End reservations.

(** ** A program alone *)

Section alone.
Context {O : DecimalOps}.

Lemma run_on {A} (m : M A) h k w :
  run (on m h k) w =
  match m w with
  | (Ret a, w') => run (k a) w'
  | (Err e, w') => run (h e) w'
  | (Panic, w') => (Panic, w')
  end.
Proof. unfold on. simpl. by destruct (m w) as [[a|e|] w']. Qed.

(** Evaluate the next call on both sides. *)
Ltac run_call :=
  rewrite run_on; unfold wrapM, tryM, bindM, getM, retM, errM; cbv beta iota zeta;
  lazymatch goal with
  | |- context [match ?m ?w with pair _ _ => _ end] => destruct (m w) as [[?|?|] ?]
  end; cbv beta iota zeta; try done.

Lemma run_validate p c h k w :
  run (validate_prog p c h k) w =
  match ValidateAndFixBalances p c w with
  | (Ret _, w') => run k w'
  | (Err e, w') => run (h e) w'
  | (Panic, w') => (Panic, w')
  end.
Proof.
  unfold validate_prog, ValidateAndFixBalances. run_call. run_call.
  unfold validateBalanceConsistencyInternal. simpl.
  destruct (validate_balances _) as [e|]; run_call.
Qed.

Lemma run_reserve_in p c amount t w :
  run (reserve_in_prog p c amount t) w =
  (let? pc := query_pc (Some t) p c orelse e => errM (EWrap "failed to get provider balance" e) in
   if d_lt (pc_available_balance pc) amount then errM (EMsg "insufficient available balance")
   else
     let! w := getM in
     do! wrapM "failed to reserve balance"
           (update_pc (Some t) p c
              (set_available_reserved (d_sub (pc_available_balance pc) amount)
                 (d_add (pc_reserved_balance pc) amount) (w_now w))) in
     wrapM "failed to commit transaction" (commit_tx t)) w.
Proof.
  unfold reserve_in_prog, reserve_write_prog. run_call. destruct (d_lt _ _); [done|].
  run_call. run_call. by destruct a1.
Qed.

Lemma run_reserve p c amount w :
  run (reserve_prog p c amount) w = ReserveBalance p c amount None w.
Proof.
  unfold reserve_prog, ReserveBalance. rewrite run_validate. unfold wrapM at 1, tryM at 1, bindM at 1.
  destruct (ValidateAndFixBalances p c w) as [[[]|e|] w1]; [|done|done].
  cbv beta iota zeta. rewrite run_on. unfold wrapM at 1, tryM at 1, bindM at 1, retM at 1, errM at 1.
  destruct (begin_tx w1) as [[t|e|] w2]; [|done|done]. apply run_reserve_in.
Qed.

End alone.

(** ** Phases of a run in which nothing fails *)

Section phases.
Context {O : DecimalOps} {L : DecimalLaws O}.

Lemma step_on i ps {A} (m : M A) h k a w w1 s :
  ps !! i = Some (on m h k) -> m w = (Ret a, w1) ->
  rtc pool_step (<[i := k a]> ps, w1) s -> rtc pool_step (ps, w) s.
Proof.
  intros Hi Hm Hs. eapply rtc_l; [|exact Hs].
  pose proof (pool_call i ps A m _ w Hi) as H. by rewrite Hm in H.
Qed.

Lemma begin_ok w : w_faults w = [] ->
  begin_tx w = (Ret (w_next_tx w),
    set_next_tx (S (w_next_tx w)) (set_txs (<[w_next_tx w := fun d => d]> (w_txs w)) w)).
Proof. intros E. unfold begin_tx, bindM, ext. by rewrite E. Qed.

Lemma query_ok t p c f pc w :
  w_faults w = [] -> w_txs w !! t = Some f -> db_provider_currencies (f (w_db w)) !! (p, c) = Some pc ->
  query_pc (Some t) p c w = (Ret pc, w).
Proof.
  intros E Ht Hpc. unfold query_pc, read_db, bindM, ext. rewrite E. simpl. by rewrite Ht; simpl; rewrite Hpc.
Qed.

Lemma commit_ok t f w : w_faults w = [] -> w_txs w !! t = Some f ->
  commit_tx t w = (Ret tt, set_db (f (w_db w)) (set_txs (delete t (w_txs w)) w)).
Proof. intros E Ht. unfold commit_tx, ext. rewrite Ht. simpl. by rewrite E. Qed.

(** Validation and read: the transaction is open and has no writes. *)
Lemma reserve_reads i ps p c amount pc w s :
  ps !! i = Some (reserve_prog p c amount) -> w_faults w = [] ->
  db_provider_currencies (w_db w) !! (p, c) = Some pc -> b_consistent pc ->
  d_lt (pc_available_balance pc) amount = false ->
  let n := w_next_tx w in
  rtc pool_step (<[i := reserve_write_prog p c amount (S n) pc]> ps,
    set_next_tx (S (S n)) (set_txs (<[S n := fun d => d]> (delete n (<[n := fun d => d]> (w_txs w)))) w)) s ->
  rtc pool_step (ps, w) s.
Proof.
  intros Hi E Hpc Hc%validate_balances_spec Hle n Hs. pose proof (lookup_lt_Some _ _ _ Hi) as Hlt.
  eapply step_on; [exact Hi|by apply begin_ok|].
  eapply step_on; [by apply list_lookup_insert_eq|eapply query_ok; [done|by apply lookup_insert_eq|done]|].
  unfold validateBalanceConsistencyInternal. simpl. rewrite Hc, list_insert_insert_eq.
  eapply step_on; [by apply list_lookup_insert_eq|eapply commit_ok; [done|by apply lookup_insert_eq]|].
  rewrite list_insert_insert_eq.
  eapply step_on; [by apply list_lookup_insert_eq|by apply begin_ok|]. rewrite list_insert_insert_eq.
  eapply step_on; [by apply list_lookup_insert_eq|eapply query_ok; [done|by apply lookup_insert_eq|done]|].
  rewrite list_insert_insert_eq, Hle. exact Hs.
Qed.

(** Write and commit of what was read. *)
Lemma reserve_writes i ps p c amount t pc pc' w s :
  ps !! i = Some (reserve_write_prog p c amount t pc) -> w_faults w = [] ->
  w_txs w !! t = Some (fun d => d) -> db_provider_currencies (w_db w) !! (p, c) = Some pc' ->
  rtc pool_step (<[i := Done (Ret tt)]> ps,
    set_db (put_pc (p, c) (set_available_reserved (d_sub (pc_available_balance pc) amount)
                             (d_add (pc_reserved_balance pc) amount) (w_now w) pc') (w_db w))
      (set_txs (delete t (w_txs w)) w)) s ->
  rtc pool_step (ps, w) s.
Proof.
  intros Hi E Ht Hpc Hs. pose proof (lookup_lt_Some _ _ _ Hi) as Hlt.
  eapply step_on; [exact Hi|unfold update_pc, write_db, bindM, getM, ext; rewrite E, Ht; reflexivity|].
  eapply step_on; [by apply list_lookup_insert_eq|eapply commit_ok; [done|by apply lookup_insert_eq]|].
  rewrite list_insert_insert_eq. cbn [w_db w_txs set_txs set_faults set_db].
  rewrite delete_insert_eq. erewrite alter_is_put by done. exact Hs.
Qed.

End phases.

(** ** Claims *)

Section interleave_claims.
Context {O : DecimalOps} {L : DecimalLaws O}.

(** [reserve_prog] is [ReserveBalance] cut at its calls: run without
    interference it has the same outcome and leaves the same world. *)
Theorem reserve_prog_alone p c amount w :
  run (reserve_prog p c amount) w = ReserveBalance p c amount None w.
Proof. apply run_reserve. Qed.

(** C14: any number of reservations from a provider's balance at once, in any order
    of their calls and whatever calls fail: at every moment the committed row is
    consistent, available plus reserved and the total are what they were, and
    nothing else in the database has changed. *)
Theorem overlapping_reservations_consistent p c amounts pc w ps w' :
  db_provider_currencies (w_db w) !! (p, c) = Some pc -> b_consistent pc -> w_txs w = ∅ ->
  Forall (fun a => 0 <= d_val a)%Q amounts ->
  rtc pool_step (map (reserve_prog p c) amounts, w) (ps, w') ->
  exists pc', w_db w' = put_pc (p, c) pc' (w_db w) /\ b_consistent pc' /\
    (d_val (pc_available_balance pc') + d_val (pc_reserved_balance pc') ==
     d_val (pc_available_balance pc) + d_val (pc_reserved_balance pc))%Q /\
    pc_total_balance pc' = pc_total_balance pc.
Proof.
  intros Hpc Hc Htx Ham Hrun.
  destruct (pool_steps_safe (kept p c (w_db w) pc) _ _ Hrun) as [_ [(pc' & Hdb & H) _]].
  - apply Forall_map. eapply Forall_impl; [exact Ham|]. intros a Ha. by apply reserve_safe.
  - split; [|simpl; rewrite Htx; apply map_Forall_empty]. exists pc. split; [|by split_and!].
    simpl. unfold put_pc. rewrite insert_id by done. by destruct (w_db w).
  - exists pc'. split; [done|]. destruct H as (? & ? & ? & _). by split_and!.
Qed.

(** C15: two reservations that both read before either writes: both succeed although
    together they exceed the available balance, and the row records only the
    second.  The method reads the row in its transaction without locking it
    ("Use database transaction to prevent race conditions") and writes absolute
    values. *)
Theorem overlapping_reservations_overcommit p c a1 a2 pc w :
  db_provider_currencies (w_db w) !! (p, c) = Some pc -> b_consistent pc ->
  w_txs w = ∅ -> w_faults w = [] ->
  d_lt (pc_available_balance pc) a1 = false -> d_lt (pc_available_balance pc) a2 = false ->
  exists w',
    rtc pool_step ([reserve_prog p c a1; reserve_prog p c a2], w) ([Done (Ret tt); Done (Ret tt)], w') /\
    w_db w' = put_pc (p, c) (reserved_row a2 (w_now w) pc) (w_db w).
Proof.
  intros Hpc Hc Htx Hf H1 H2. eexists. split.
  - eapply (reserve_reads 0); [done|done|exact Hpc|done|exact H1|]. cbv zeta.
    eapply (reserve_reads 1); [done|done|exact Hpc|done|exact H2|]. cbv zeta.
    eapply (reserve_writes 0); [done|done| |exact Hpc|].
    { simpl. rewrite lookup_insert_ne, lookup_delete_ne, lookup_insert_ne, lookup_insert_eq by lia. done. }
    eapply (reserve_writes 1); [done|done| |apply put_pc_lookup|apply rtc_refl].
    simpl. rewrite lookup_delete_ne, lookup_insert_eq by lia. done.
  - simpl. by rewrite put_pc_twice.
Qed.

(** One after the other, the reservations that succeed are all in the reserved
    balance, and together they never exceed what was available. *)
Theorem serial_reservations_account p c amounts pc w :
  db_provider_currencies (w_db w) !! (p, c) = Some pc -> b_consistent pc ->
  Forall (fun a => 0 <= d_val a)%Q amounts ->
  let '(rs, w') := serial p c amounts w in
  exists pc', db_provider_currencies (w_db w') !! (p, c) = Some pc' /\ b_consistent pc' /\
    (d_val (pc_reserved_balance pc') == d_val (pc_reserved_balance pc) + granted rs)%Q /\
    (granted rs <= d_val (pc_available_balance pc))%Q.
Proof.
  intros Hpc Hc Ham. revert pc w Hpc Hc. induction Ham as [|a amounts Ha Ham IH]; intros pc w Hpc Hc; cbn [serial].
  - exists pc. simpl. split_and!; try done; [lra|apply Hc].
  - pose proof (ReserveBalance_own_wp p c a pc w Hpc Hc) as H. unfold wp in H.
    destruct (ReserveBalance p c a None w) as [[[]|e|] w1]; simpl in H; [|rewrite <- H in Hpc|done].
    + destruct H as [Hle Hdb].
      specialize (IH (reserved_row a (w_now w) pc) w1). rewrite Hdb in IH.
      specialize (IH (put_pc_lookup _ _ _) (reserved_row_consistent _ _ _ Hc Ha Hle)).
      revert IH. destruct (serial p c amounts w1) as [rs w2]. intros (pc' & ? & ? & Hr & Hg).
      exists pc'. simpl in *. split_and!; try done; dec_lra.
    + specialize (IH pc w1 Hpc Hc). revert IH. by destruct (serial p c amounts w1) as [rs w2].
Qed.
End interleave_claims.

(** ** Concrete runs *)

(** Two reservations of 60 out of 100, the calls in turn. *)
Lemma overlapping_reservations_consistent_witness :
  let s := schedule [0;1;0;1;0;1;0;1;0;1;0;0;1;1]%nat
             (map (reserve_prog s_prov s_cur) [d_int 60; d_int 60], s_world (s_pc 100 0 100) []) in
  exists pc', w_db s.2 = put_pc (s_prov, s_cur) pc' (s_db (s_pc 100 0 100)) /\ b_consistent pc'.
Proof.
  cbv zeta.
  destruct (overlapping_reservations_consistent s_prov s_cur [d_int 60; d_int 60] (s_pc 100 0 100)
    (s_world (s_pc 100 0 100) [])
    (schedule [0;1;0;1;0;1;0;1;0;1;0;0;1;1]%nat
       (map (reserve_prog s_prov s_cur) [d_int 60; d_int 60], s_world (s_pc 100 0 100) [])).1
    (schedule [0;1;0;1;0;1;0;1;0;1;0;0;1;1]%nat
       (map (reserve_prog s_prov s_cur) [d_int 60; d_int 60], s_world (s_pc 100 0 100) [])).2)
    as (pc' & H1 & H2 & _).
  - reflexivity.
  - apply s_pc_consistent; lia.
  - reflexivity.
  - repeat constructor; vm_compute; discriminate.
  - rewrite <- surjective_pairing. apply schedule_steps.
  - exists pc'. split; [exact H1|exact H2].
Defined.

(** Both get their 60, and 60 are reserved. *)
Lemma overlapping_reservations_overcommit_witness :
  exists w',
    rtc pool_step ([reserve_prog s_prov s_cur (d_int 60); reserve_prog s_prov s_cur (d_int 60)],
                   s_world (s_pc 100 0 100) []) ([Done (Ret tt); Done (Ret tt)], w') /\
    (exists pc', db_provider_currencies (w_db w') !! (s_prov, s_cur) = Some pc' /\
       d_eqb (pc_reserved_balance pc') (d_int 60) = true /\
       d_eqb (pc_available_balance pc') (d_int 40) = true).
Proof.
  destruct (overlapping_reservations_overcommit s_prov s_cur (d_int 60) (d_int 60) (s_pc 100 0 100)
    (s_world (s_pc 100 0 100) [])) as (w' & Hrun & Hdb).
  - reflexivity.
  - apply s_pc_consistent; lia.
  - reflexivity.
  - reflexivity.
  - reflexivity.
  - reflexivity.
  - exists w'. split; [exact Hrun|]. rewrite Hdb. eexists. split; [apply put_pc_lookup|].
    split; reflexivity.
Defined.

(** The same two one after the other: the second is refused. *)
Lemma serial_reservations_account_witness :
  map snd (serial s_prov s_cur [d_int 60; d_int 60] (s_world (s_pc 100 0 100) [])).1 =
    [Ret tt; Err (EMsg "insufficient available balance")] /\
  (granted (serial s_prov s_cur [d_int 60; d_int 60] (s_world (s_pc 100 0 100) [])).1 <= 100)%Q.
Proof.
  split; [reflexivity|].
  pose proof (serial_reservations_account s_prov s_cur [d_int 60; d_int 60] (s_pc 100 0 100)
    (s_world (s_pc 100 0 100) []) eq_refl) as H.
  assert (Hc : b_consistent (s_pc 100 0 100)) by (apply s_pc_consistent; lia).
  assert (Ha : Forall (fun a => 0 <= d_val a)%Q [d_int 60; d_int 60])
    by (repeat constructor; vm_compute; discriminate).
  specialize (H Hc Ha).
  destruct (serial s_prov s_cur [d_int 60; d_int 60] (s_world (s_pc 100 0 100) [])) as [rs w'].
  destruct H as (pc' & _ & _ & _ & H). exact H.
Defined.
