(* ===== verification/Utils.v ===== *)
(** * Helper functions and rate validation (utils/utils.go)

    The pure helpers ([ContainsString], [Difference], [Median], the
    [\[32\]byte] conversions, address and phone number patterns, topic
    parsing), the serialised queue entries and bucket keys, and the functions
    that look a rate up in the Redis queues and validate it. *)

From Stdlib Require Import Permutation Sorted DecimalString DecimalZ.
From stdpp Require Import sorting.
From S2P Require Import Prelude Decimal Schema Store Samples Balance.
Local Open Scope go_scope.
Local Open Scope string_scope.
Local Open Scope list_scope.

(** ** Pure helpers *)

Fixpoint ContainsString (slice : list string) (item : string) : bool :=
  match slice with
  | [] => false
  | s :: rest => if String.eqb s item then true else ContainsString rest item
  end.

(** [setB] is the map built from [b]. *)
Definition Difference (a b : list string) : list string :=
  let setB : gset string := list_to_set b in
  List.filter (fun x => negb (bool_decide (x ∈ setB))) a.

Definition BigMin (x y : Z) : Z := if (x <? y)%Z then x else y.

(** [\[32\]byte] is a list of 32 bytes. *)
Definition StringToByte32 (s : string) : list ascii :=
  let b := take 32 (String.list_ascii_of_string s) in
  b ++ replicate (32 - length b) Ascii.zero.

(** Up to the first null byte. *)
Fixpoint take_until_null (b : list ascii) : list ascii :=
  match b with
  | [] => []
  | x :: rest => if Ascii.eqb x Ascii.zero then [] else x :: take_until_null rest
  end.
Definition Byte32ToString (b : list ascii) : string :=
  String.string_of_list_ascii (take_until_null b).

(** [fn] is run at most [attempts] times; the last error is returned, nil when
    there was no attempt. *)
Fixpoint Retry {O : DecimalOps} (attempts : nat) (fn : M unit) : M unit :=
  match attempts with
  | 0%nat => retM tt
  | S n =>
      do? fn orelse e => (match n with 0%nat => errM e | _ => Retry n fn end) in
      retM tt
  end.

(** The patterns [^\+?\[1-9\]\d{1,14}$] and [^0x\[a-fA-F0-9\]{40}$]. *)
Definition in_range (lo hi : ascii) (a : ascii) : bool :=
  (Ascii.nat_of_ascii lo <=? Ascii.nat_of_ascii a)%nat &&
  (Ascii.nat_of_ascii a <=? Ascii.nat_of_ascii hi)%nat.
Definition is_digit : ascii -> bool := in_range "0" "9".
Definition is_hex (a : ascii) : bool :=
  in_range "a" "f" a || in_range "A" "F" a || in_range "0" "9" a.
Definition IsValidMobileNumber (number : string) : bool :=
  let l := String.list_ascii_of_string number in
  let l := match l with a :: r => if Ascii.eqb a "+" then r else l | [] => [] end in
  match l with
  | a :: r => in_range "1" "9" a && forallb is_digit r &&
              (1 <=? length r)%nat && (length r <=? 14)%nat
  | [] => false
  end.
Definition IsValidEthereumAddress (address : string) : bool :=
  match String.list_ascii_of_string address with
  | "0"%char :: "x"%char :: r => forallb is_hex r && (length r =? 40)%nat
  | _ => false
  end.

(** [hex.DecodeString]. *)
Definition hex_digit (a : ascii) : option Z :=
  let n := Z.of_nat (Ascii.nat_of_ascii a) in
  if in_range "0" "9" a then Some (n - 48)
  else if in_range "a" "f" a then Some (n - 87)
  else if in_range "A" "F" a then Some (n - 55)
  else None.
Fixpoint hex_decode (l : list ascii) : option (list Z) :=
  match l with
  | [] => Some []
  | a :: b :: r => x ← hex_digit a; y ← hex_digit b; t ← hex_decode r; Some (16 * x + y :: t)
  | [_] => None
  end.
(** [new(big.Int).SetBytes]: big endian. *)
Definition set_bytes (b : list Z) : Z := foldl (fun acc x => acc * 256 + x) 0 b.

(** nil ([None]) on a decoding error. *)
Definition ParseTopicToBigInt (paddedHexString : string) : option Z :=
  set_bytes <$> hex_decode (String.list_ascii_of_string paddedHexString).

(** The zero array on a decoding error; the conversion of a shorter slice to an
    array panics, a longer one is cut. *)
Definition ParseTopicToByte32 (paddedHexString : string) : outcome (list Z) :=
  match hex_decode (String.list_ascii_of_string paddedHexString) with
  | None => Ret (replicate 32 0)
  | Some b => if (length b <? 32)%nat then Panic else Ret (take 32 b)
  end.

(** [string(b)] of bytes. *)
Definition string_of_bytes (b : list Z) : string :=
  String.string_of_list_ascii (map (fun x => Ascii.ascii_of_nat (Z.to_nat x)) b).

Section utils.
Context {O : DecimalOps}.

(** The amount in subunits.  [SetString] leaves the integer undefined when the text
    is not one; [undefined] is what it leaves. *)
Definition ToSubunit (undefined : string -> Z) (amount : dec) (decimals : Z) : Z :=
  let subunit := d_string (d_mul amount (d_int (10 ^ decimals))) in
  match NilZero.int_of_string subunit with
  | Some i => Z.of_int i
  | None => undefined subunit
  end.

(** ** Numbers *)

(** [sort.Slice] by [LessThan]. *)
Fixpoint insert_sorted (x : dec) (l : list dec) : list dec :=
  match l with
  | [] => [x]
  | y :: r => if d_lt y x then y :: insert_sorted x r else x :: y :: r
  end.
Fixpoint sort_dec (l : list dec) : list dec :=
  match l with [] => [] | x :: r => insert_sorted x (sort_dec r) end.

Definition Median (data : list dec) : dec :=
  match data with
  | [] => d_zero
  | _ =>
      let l := length data in
      let data := sort_dec data in
      let middle := (l / 2)%nat in
      let result := default d_zero (data !! middle) in
      if (l mod 2 =? 0)%nat then
        d_div (d_add result (default d_zero (data !! (middle - 1)%nat))) (d_int 2)
      else result
  end.

Definition AbsPercentageDeviation (trueValue measuredValue : dec) : dec :=
  if d_is_zero trueValue then d_zero
  else d_abs (d_mul (d_div (d_sub measuredValue trueValue) trueValue) (d_int 100)).

(** [currency] is the institution's currency edge, loaded on demand; [None] when
    the lookup fails. *)
Definition CalculatePaymentOrderAmountInUSD (amount : dec) (token : option Token)
    (institution : option Institution) (currency : option FiatCurrency) : dec :=
  match token, institution, currency with
  | Some tk, Some _, Some fc =>
      if String.eqb (tk_base_currency tk) (fc_code fc) && negb (d_is_zero (fc_market_rate fc))
      then d_div amount (fc_market_rate fc) else amount
  | _, _, _ => amount
  end.

(** ** Queue entries and bucket keys *)

(** "providerID:token:rate:minAmount:maxAmount" *)
Definition queue_entry (provider symbol : string) (rate min max : dec) : string :=
  join_with ":" [provider; symbol; d_string rate; d_string min; d_string max].

Record Entry := mkEntry {
  en_provider : string; en_symbol : string;
  en_rate : string; en_min : string; en_max : string
}.
(** [parts := strings.Split(data, ":"); len(parts) == 5] *)
Definition parse_entry (data : string) : option Entry :=
  match split_on ":" data with
  | [p; s; r; mn; mx] => Some (mkEntry p s r mn mx)
  | _ => None
  end.

(** "bucket_{currency}_{minAmount}_{maxAmount}" *)
Definition bucket_key (code : string) (min max : dec) : string :=
  join_with "_" ["bucket"; code; d_string min; d_string max].

Record BucketData := mkBucketData { bd_currency : string; bd_min : dec; bd_max : dec }.

Definition parseBucketKey (key : string) : error + BucketData :=
  match split_on "_" key with
  | pre :: currency :: mn :: mx :: rest =>
      match rest with
      | [] | [_] =>
          if negb (String.eqb pre "bucket") then inl (EMsg "invalid bucket key prefix")
          else if String.eqb currency "" then inl (EMsg "empty currency in bucket key")
          else match d_parse mn, d_parse mx with
               | None, _ => inl (EMsg "invalid min amount")
               | Some _, None => inl (EMsg "invalid max amount")
               | Some minAmount, Some maxAmount =>
                   if d_ge minAmount maxAmount then inl (EMsg "min amount must be less than max amount")
                   else inr (mkBucketData currency minAmount maxAmount)
               end
      | _ => inl (EMsg "invalid bucket key format")
      end
  | _ => inl (EMsg "invalid bucket key format")
  end.

(** The amount is within the provider's order limits; [None] when they do not
    parse.  Min is parsed before max. *)
Definition within_limits (en : Entry) (amount : dec) : option bool :=
  mn ← d_parse (en_min en); mx ← d_parse (en_max en);
  Some (negb (d_lt amount mn || d_gt amount mx)).

(** ** Lookups in the database *)

(** [HasProviderCurrenciesWith(HasCurrencyWith(CodeEQ(c)), IsAvailableEQ(true))] *)
Definition has_available_currency (d : DB) (p c : string) : bool :=
  match db_provider_currencies d !! (p, c) with
  | Some pc => pc_is_available pc
  | None => false
  end.

(** The order-token query of [findSuitableProviderRate]. *)
Definition token_on_network (d : DB) (p symbol c network : string) (t : ProviderOrderToken) : bool :=
  String.eqb (pot_provider t) p && has_available_currency d p c &&
  String.eqb (tk_symbol (pot_token t)) symbol && String.eqb (pot_currency t) c &&
  String.eqb (pot_network t) network && negb (String.eqb (pot_address t) "").

(** The balance query: an available row with more than [amount] available. *)
Definition query_sufficient (p c : string) (amount : dec) : M unit :=
  let! d := read_db None in
  match db_provider_currencies d !! (p, c) with
  | Some pc => if d_gt (pc_available_balance pc) amount && pc_is_available pc
               then retM tt else errM ENotFound
  | None => errM ENotFound
  end.

(** ** Rates from the queues *)

(** The loop of [findSuitableProviderRate] from an entry on, with the best rate
    seen so far. *)
Fixpoint findSuitableProviderRate_loop (providers : list string) (symbol network : string)
    (amount : dec) (bd : BucketData) (best : dec) : M (dec * bool) :=
  match providers with
  | [] => retM (best, false)
  | data :: rest =>
      let continue b := findSuitableProviderRate_loop rest symbol network amount bd b in
      match parse_entry data with
      | None => continue best
      | Some en =>
          if negb (String.eqb (en_symbol en) symbol) then continue best
          else
            do? (if String.eqb network "" then retM tt
                 else let! d := read_db None in
                      let! t := only (List.filter (token_on_network d (en_provider en) (en_symbol en)
                                        (bd_currency bd) network) (db_order_tokens d)) in
                      retM tt)
            orelse e => (continue best) in
            match within_limits en amount with
            | None | Some false => continue best
            | Some true =>
                match d_parse (en_rate en) with
                | None => continue best
                | Some rate =>
                    let best := if d_gt rate best then rate else best in
                    let fiatAmount := d_mul amount rate in
                    if d_ge fiatAmount (bd_min bd) && d_le fiatAmount (bd_max bd)
                    then retM (rate, true)
                    else
                      do? query_sufficient (en_provider en) (bd_currency bd) fiatAmount
                      orelse e => (if IsNotFound e then continue best else retM (d_zero, false)) in
                      continue best
                end
            end
      end
  end.

Definition findSuitableProviderRate (providers : list string) (symbol network : string)
    (amount : dec) (bd : BucketData) : M (dec * bool) :=
  findSuitableProviderRate_loop providers symbol network amount bd d_zero.

(** [keys]: the keys the [SCAN] of "bucket_{currency}_*_*" returned. *)
Fixpoint validateBucketRate_loop (keys : list string) (symbol network : string) (amount best : dec)
    : M (dec * bool) :=
  match keys with
  | [] => retM (best, false)
  | key :: rest =>
      match parseBucketKey key with
      | inl _ => validateBucketRate_loop rest symbol network amount best
      | inr bd =>
          let? providers := LRange key orelse e =>
            (validateBucketRate_loop rest symbol network amount best) in
          let! res := findSuitableProviderRate providers symbol network amount bd in
          if snd res then retM (fst res, true)
          else validateBucketRate_loop rest symbol network amount
                 (if d_gt (fst res) best then fst res else best)
      end
  end.

Definition validateBucketRate (scan : M (list string)) (symbol network : string) (amount : dec)
    : M dec :=
  let? keys := scan orelse e => (errM (EMsg "internal server error")) in
  let! res := validateBucketRate_loop keys symbol network amount d_zero in
  if snd res then retM (fst res) else errM (EMsg "no provider available").

(** The entry of the provider that a queue holds, with its parsed rate, when the
    amount is within its limits. *)
Fixpoint provider_rate_in (providers : list string) (p symbol : string) (amount : dec) : option dec :=
  match providers with
  | [] => None
  | data :: rest =>
      match parse_entry data with
      | Some en =>
          if String.eqb (en_provider en) p && String.eqb (en_symbol en) symbol then
            match d_parse (en_rate en), d_parse (en_min en), d_parse (en_max en) with
            | Some rate, Some mn, Some mx =>
                if d_ge amount mn && d_le amount mx then Some rate
                else provider_rate_in rest p symbol amount
            | _, _, _ => provider_rate_in rest p symbol amount
            end
          else provider_rate_in rest p symbol amount
      | None => provider_rate_in rest p symbol amount
      end
  end.

Fixpoint provider_rate_in_buckets (keys : list string) (p symbol : string) (amount : dec)
    : M (option dec) :=
  match keys with
  | [] => retM None
  | key :: rest =>
      match parseBucketKey key with
      | inl _ => provider_rate_in_buckets rest p symbol amount
      | inr _ =>
          let? providers := LRange key orelse e => (provider_rate_in_buckets rest p symbol amount) in
          match provider_rate_in providers p symbol amount with
          | Some rate => retM (Some rate)
          | None => provider_rate_in_buckets rest p symbol amount
          end
      end
  end.

Definition getProviderRateFromRedis (scan : M (list string)) (p symbol : string) (amount : dec)
    : M (option dec) :=
  let? keys := scan orelse e => (retM None) in
  provider_rate_in_buckets keys p symbol amount.

(** The order token of a provider for a token and a currency, on one network
    when the filter is not empty. *)
Definition provider_token_matches (p : string) (tk : Token) (c network : string)
    (t : ProviderOrderToken) : bool :=
  String.eqb (pot_provider t) p && (tk_id (pot_token t) =? tk_id tk)%Z &&
  String.eqb (pot_currency t) c && (String.eqb network "" || String.eqb (pot_network t) network).

Definition validateProviderRate (scan : M (list string)) (tk : Token) (fc : FiatCurrency)
    (amount : dec) (p network : string) : M dec :=
  let internal {A} (e : error) (msg : string) : M A :=
    if IsNotFound e then errM (EMsg msg) else errM (EMsg "internal server error") in
  let? d := read_db None orelse e => (internal e "provider not found") in
  match db_providers d !! p with
  | None => errM (EMsg "provider not found")
  | Some _ =>
      let? t := (let! d := read_db None in
                 first (List.filter (provider_token_matches p tk (fc_code fc) network) (db_order_tokens d)))
      orelse e => (internal e "provider does not support this token/currency combination") in
      if d_lt amount (pot_min_order_amount t) || d_gt amount (pot_max_order_amount t)
      then errM (EMsg "amount must be between min and max for this provider")
      else
        let! redisRate := getProviderRateFromRedis scan p (tk_symbol tk) amount in
        let rateResponse :=
          match redisRate with
          | Some rate => rate
          | None =>
              match pot_conversion_rate_type t with
              | RFixed => pot_fixed_conversion_rate t
              | RFloating => d_add (fc_market_rate fc) (pot_floating_conversion_rate t)
              end
          end in
        do? query_sufficient p (fc_code fc) (d_mul amount rateResponse)
        orelse e => (internal e "provider has insufficient liquidity") in
        retM rateResponse
  end.

Definition ValidateRate (scan : M (list string)) (tk : Token) (fc : FiatCurrency)
    (amount : dec) (p network : string) : M dec :=
  if EqualFold (tk_base_currency tk) (fc_code fc) then retM (d_int 1)
  else if negb (String.eqb p "") then validateProviderRate scan tk fc amount p network
  else validateBucketRate scan (tk_symbol tk) network amount.

(** *** [GetTokenRateFromQueue] *)

(** The inner loop over the positions of one queue.  [fuel] bounds the number of
    positions read; [LIndex] fails past the end, which ends the loop. *)
Fixpoint token_rate_in_queue (fuel : nat) (index : Z) (key symbol : string)
    (amount minAmount maxAmount : dec) (acc : dec * dec) : M (dec * dec) :=
  match fuel with
  | 0%nat => retM acc
  | S fuel' =>
      let continue acc := token_rate_in_queue fuel' (index + 1)%Z key symbol amount minAmount maxAmount acc in
      let? data := LIndex key index orelse e => (retM acc) in
      match parse_entry data with
      | None => continue acc
      | Some en =>
          if negb (String.eqb (en_symbol en) symbol) then continue acc
          else match within_limits en amount with
               | None | Some false => continue acc
               | Some true =>
                   let rate := default d_zero (d_parse (en_rate en)) in
                   let fiatAmount := d_mul amount rate in
                   if d_ge fiatAmount minAmount && d_le fiatAmount maxAmount
                   then retM (rate, snd acc)
                   else if d_gt maxAmount (snd acc) then continue (rate, maxAmount)
                   else continue acc
               end
      end
  end.

(** [acc] is the rate found so far and [highestMaxAmount]; [fuel_of] bounds the
    length of each queue. *)
Fixpoint token_rate_in_keys (fuel : nat) (keys : list string) (symbol : string) (amount : dec)
    (acc : dec * dec) : M (dec * dec) :=
  match keys with
  | [] => retM acc
  | key :: rest =>
      match split_on "_" key with
      | _ :: _ :: mn :: mx :: _ =>
          let! acc := token_rate_in_queue fuel 0 key symbol amount
                        (default d_zero (d_parse mn)) (default d_zero (d_parse mx)) acc in
          token_rate_in_keys fuel rest symbol amount acc
      | _ => panicM
      end
  end.

Definition GetTokenRateFromQueue (fuel : nat) (scan : M (list string)) (symbol : string)
    (amount marketRate : dec) : M dec :=
  let! keys := scan in
  let! acc := token_rate_in_keys fuel keys symbol amount (marketRate, d_int 0) in
  retM (fst acc).

End utils.

(** ** Specification *)

Section utils_spec.
Context {O : DecimalOps} {L : DecimalLaws O}.

(** A queue entry that serves [amount] of [symbol] in the bucket at [rate]. *)
Definition suitable_entry (symbol : string) (amount : dec) (bd : BucketData)
    (data : string) (rate : dec) : Prop :=
  exists en mn mx, parse_entry data = Some en /\ en_symbol en = symbol /\
    d_parse (en_min en) = Some mn /\ d_parse (en_max en) = Some mx /\
    d_parse (en_rate en) = Some rate /\
    (d_val mn <= d_val amount <= d_val mx)%Q /\
    (d_val (bd_min bd) <= d_val amount * d_val rate <= d_val (bd_max bd))%Q.

Lemma within_limits_true en amount :
  within_limits en amount = Some true <->
  exists mn mx, d_parse (en_min en) = Some mn /\ d_parse (en_max en) = Some mx /\
    (d_val mn <= d_val amount <= d_val mx)%Q.
Proof.
  unfold within_limits. destruct (d_parse (en_min en)) as [mn|]; simpl; [|split; [done|by intros (?&?&[=]&_)]].
  destruct (d_parse (en_max en)) as [mx|]; simpl; [|split; [done|by intros (?&?&_&[=]&_)]]. split.
  - intros [= H]. bool_hyps. exists mn, mx. split_and!; [done|done|dec_lra|dec_lra].
  - intros (? & ? & [= <-] & [= <-] & H1 & H2). f_equal. apply negb_true_iff, orb_false_iff.
    split; dec_lra.
Qed.

Lemma in_bucket_true amount rate bd :
  d_ge (d_mul amount rate) (bd_min bd) && d_le (d_mul amount rate) (bd_max bd) = true <->
  (d_val (bd_min bd) <= d_val amount * d_val rate <= d_val (bd_max bd))%Q.
Proof.
  rewrite andb_true_iff. split; [intros [H1 H2]; dec_to_q; lra|].
  intros [H1 H2]. split; dec_lra.
Qed.

(** The database and Redis are only read. *)
Definition reads_only (w w' : World) : Prop :=
  w_db w' = w_db w /\ w_redis w' = w_redis w /\ w_txs w' = w_txs w /\ w_events w' = w_events w /\
  w_now w' = w_now w /\ w_next_tx w' = w_next_tx w /\ w_attempts w' = w_attempts w.
Lemma reads_only_refl w : reads_only w w.
Proof. done. Qed.
Lemma reads_only_faults fs w w' : reads_only (set_faults fs w) w' -> reads_only w w'.
Proof. done. Qed.
Lemma reads_only_trans w1 w2 w3 : reads_only w1 w2 -> reads_only w2 w3 -> reads_only w1 w3.
Proof. unfold reads_only. intros (?&?&?&?&?&?&?) (?&?&?&?&?&?&?). split_and!; congruence. Qed.

Lemma wp_only {A} (rows : list A) Q w :
  (forall a, rows = [a] -> Q (Ret a) w) -> (forall e, Q (Err e) w) -> wp (only rows) Q w.
Proof. intros H1 H2. destruct rows as [|a [|]]; simpl; [apply H2 | by apply H1 | apply H2]. Qed.

Lemma wp_query_sufficient p c amount (Q : outcome unit -> World -> Prop) w :
  (forall o fs, o <> Panic -> Q o (set_faults fs w)) -> wp (query_sufficient p c amount) Q w.
Proof.
  intros H. unfold query_sufficient. apply wp_bind, (wp_read_db _ (w_db w)); [done| |].
  - intros fs. repeat case_match; by apply H.
  - intros fs. by apply H.
Qed.

End utils_spec.
#[export] Hint Resolve reads_only_refl : frame.

(** Symbolic execution of code that only reads. *)
Ltac ro_step :=
  first
    [ lazymatch goal with
      | |- wp (read_db None) _ _ => eapply wp_read_db; [reflexivity | intros ? | intros ?]
      | |- wp (only _) _ _ => apply wp_only; intros
      | |- wp (query_sufficient _ _ _) _ _ =>
          apply wp_query_sufficient; intros [[]|?|] ? ?; [| |done]
      | |- wp (LRange _) _ _ => unfold LRange
      | |- wp (LIndex _ _) _ _ => unfold LIndex
      end
    | wp_step ]; cbn beta iota zeta.

Section utils_sound.
Context {O : DecimalOps} {L : DecimalLaws O}.

Lemma findSuitable_loop_sound symbol network amount bd w0 providers : forall best w,
  reads_only w0 w ->
  wp (findSuitableProviderRate_loop providers symbol network amount bd best) (fun o w' =>
    reads_only w0 w' /\ o <> Panic /\
    forall r, o = Ret (r, true) -> exists data, data ∈ providers /\ suitable_entry symbol amount bd data r) w.
Proof.
  induction providers as [|data rest IH]; intros best w Hw; simpl.
  { apply wp_ret. split_and!; [done|done|]. by intros r [=]. }
  match goal with |- wp _ ?P _ => set (Q := P) end.
  assert (Hcont : forall b w', reads_only w0 w' ->
    wp (findSuitableProviderRate_loop rest symbol network amount bd b) Q w').
  { intros b w' Hw'. eapply wp_mono; [by apply IH|]. intros o w2 (H1 & H2 & H3). split_and!; [done|done|].
    intros r (d & Hd & Hs)%H3. exists d. split; [by right|done]. }
  assert (Hmiss : forall w', reads_only w0 w' -> Q (Ret (d_zero, false)) w').
  { intros w' Hw'. split_and!; [done|done|]. by intros r [=]. }
  repeat (ro_step; auto);
    (split_and!; [done|done|]; intros r [= <-]; exists data; split; [left|]);
  match goal with H : within_limits _ _ = _ |- _ => apply within_limits_true in H as (mn & mx & H1 & H2 & ? & ?) end;
  match goal with H : _ && _ = true |- _ => apply in_bucket_true in H as [? ?] end;
  match goal with H : negb _ = false |- _ => apply negb_false_iff, String.eqb_eq in H end;
  eexists _, mn, mx; by split_and!.
Qed.


(** A rate that the bucket scan returns comes from an entry of one of the
    scanned queues that serves the amount within that bucket. *)
Lemma validateBucketRate_loop_sound symbol network amount w0 keys : forall best w,
  reads_only w0 w ->
  wp (validateBucketRate_loop keys symbol network amount best) (fun o w' =>
    reads_only w0 w' /\ o <> Panic /\
    forall r, o = Ret (r, true) -> exists key bd data, key ∈ keys /\ parseBucketKey key = inr bd /\
      data ∈ get_list key (w_redis w0) /\ suitable_entry symbol amount bd data r) w.
Proof.
  induction keys as [|key rest IH]; intros best w Hw; simpl.
  { apply wp_ret. split_and!; [done|done|]. by intros r [=]. }
  match goal with |- wp _ ?P _ => set (Q := P) end.
  assert (Hcont : forall b w', reads_only w0 w' ->
    wp (validateBucketRate_loop rest symbol network amount b) Q w').
  { intros b w' Hw'. eapply wp_mono; [by apply IH|]. intros o w2 (H1 & H2 & H3). split_and!; [done|done|].
    intros r (k & bd & d & Hk & Hd)%H3. exists k, bd, d. split; [by right|done]. }
  destruct (parseBucketKey key) as [e|bd] eqn:Hbd; [by apply Hcont|].
  repeat (ro_step; auto).
  eapply wp_mono; [by apply (findSuitable_loop_sound _ _ _ _ w0)|].
  intros [[r []]|e|] w2 (H1 & H2 & H3); [|by apply Hcont | by split_and! | done].
  split_and!; [done|done|]. intros r' [= <-]. destruct (H3 r eq_refl) as (d & Hd & Hs).
  exists key, bd, d. split_and!; [left|done| |done].
  by destruct Hw as (_ & <- & _).
Qed.

(** Entries and keys survive serialisation. *)
Lemma parse_queue_entry p s rate mn mx :
  has_char ":" p = false -> has_char ":" s = false ->
  parse_entry (queue_entry p s rate mn mx) =
    Some (mkEntry p s (d_string rate) (d_string mn) (d_string mx)).
Proof.
  intros Hp Hs. unfold parse_entry, queue_entry.
  rewrite split_join; [done|done|]. repeat constructor; auto using string_no_colon.
Qed.

Lemma parse_bucket_parts code mn mx rest :
  code <> "" -> (d_val mn < d_val mx)%Q -> (rest = [] \/ exists x, rest = [x]) ->
  forall key, split_on "_" key = "bucket" :: code :: d_string mn :: d_string mx :: rest ->
  exists bd, parseBucketKey key = inr bd /\ bd_currency bd = code /\
    d_eq (bd_min bd) mn /\ d_eq (bd_max bd) mx.
Proof.
  intros Hc Hlt Hrest key Hk. unfold parseBucketKey. rewrite Hk.
  destruct (parse_string mn) as (mn' & Emn & Hmn), (parse_string mx) as (mx' & Emx & Hmx).
  assert (Hcode : String.eqb code "" = false) by (by apply String.eqb_neq).
  assert (Hge : d_ge mn' mx' = false) by (apply d_ge_spec_false; rewrite Hmn, Hmx; done).
  exists (mkBucketData code mn' mx').
  destruct Hrest as [->|[x ->]]; cbn [negb String.eqb Ascii.eqb Bool.eqb]; rewrite Hcode, Emn, Emx, Hge;
    by split_and!.
Qed.
End utils_sound.

(** *** The median *)

Section median.
Context {O : DecimalOps} {L : DecimalLaws O}.

(** The canonical value of a decimal. *)
Definition d_canon (a : dec) : Q := Qred (d_val a).

Lemma d_canon_eq a b : d_canon a = d_canon b <-> d_eq a b.
Proof.
  unfold d_canon, d_eq. split; [|apply Qred_complete].
  intros H. by rewrite <- (Qred_correct (d_val a)), H, Qred_correct.
Qed.

Lemma insert_sorted_perm x l : insert_sorted x l ≡ₚ x :: l.
Proof.
  induction l as [|y l IH]; simpl; [done|]. destruct (d_lt y x); [|done].
  by rewrite IH, Permutation_swap.
Qed.
Lemma sort_dec_perm l : sort_dec l ≡ₚ l.
Proof. induction l as [|x l IH]; simpl; [done|]. by rewrite insert_sorted_perm, IH. Qed.

Definition val_sorted : list dec -> Prop := StronglySorted (fun a b => d_val a <= d_val b)%Q.

Lemma insert_sorted_sorted x l : val_sorted l -> val_sorted (insert_sorted x l).
Proof.
  induction 1 as [|y l Hl IH Hy]; simpl; [repeat constructor|].
  destruct (d_lt y x) eqn:E; dec_to_q.
  - constructor; [done|]. rewrite insert_sorted_perm. constructor; [lra|done].
  - constructor; [by constructor|]. constructor; [done|].
    eapply Forall_impl; [done|]. simpl. intros z Hz. lra.
Qed.
Lemma sort_dec_sorted l : val_sorted (sort_dec l).
Proof. induction l as [|x l IH]; simpl; [constructor | by apply insert_sorted_sorted]. Qed.

Lemma canon_sorted l : val_sorted l -> StronglySorted Qle (map d_canon l).
Proof.
  induction 1 as [|y l Hl IH Hy]; simpl; constructor; [done|].
  apply Forall_map. eapply Forall_impl; [done|]. intros z Hz. simpl.
  unfold d_canon. by rewrite !Qred_correct.
Qed.

(** Sorting two permutations of the same values gives the same values. *)
Lemma sort_dec_canonical l l' :
  l ≡ₚ l' -> map d_canon (sort_dec l) = map d_canon (sort_dec l').
Proof.
  intros Hp. apply (StronglySorted_unique_strong Qle).
  - intros x y Hx Hy H1 H2. apply list_elem_of_In in Hx, Hy.
    apply in_map_iff in Hx as (a & <- & _), Hy as (b & <- & _).
    unfold d_canon in *. rewrite !Qred_correct in H1, H2. apply Qred_complete. by apply Qle_antisym.
  - apply canon_sorted, sort_dec_sorted.
  - apply canon_sorted, sort_dec_sorted.
  - apply Permutation_map. by rewrite !sort_dec_perm.
Qed.

Lemma sort_dec_nth l l' i :
  l ≡ₚ l' -> d_eq (default d_zero (sort_dec l !! i)) (default d_zero (sort_dec l' !! i)).
Proof.
  intros Hp%sort_dec_canonical. apply (f_equal (fun m => m !! i)) in Hp.
  change (@map dec Q) with (@fmap list _ dec Q) in Hp. rewrite !list_lookup_fmap in Hp.
  destruct (sort_dec l !! i), (sort_dec l' !! i); simplify_eq/=; [|done]. by apply d_canon_eq.
Qed.

Lemma sort_dec_elem l i x : sort_dec l !! i = Some x -> x ∈ l.
Proof. intros H%list_elem_of_lookup_2. by rewrite sort_dec_perm in H. Qed.
Lemma sort_dec_length l : length (sort_dec l) = length l.
Proof. by rewrite sort_dec_perm. Qed.

(** [Median] depends only on which values it is given, not on their order. *)
Lemma median_order_irrelevant data data' :
  data ≡ₚ data' -> d_eq (Median data) (Median data').
Proof.
  intros Hp. pose proof (Permutation_length Hp) as Hl. unfold Median.
  destruct data as [|x data], data' as [|x' data']; try done. rewrite <- Hl.
  set (n := length (x :: data)). pose proof (fun i => sort_dec_nth _ _ i Hp) as Hn.
  case_match; [|apply Hn]. by rewrite !Hn.
Qed.

(** [Median] of a non-empty list lies between every lower and every upper
    bound of the data, up to the rounding of [Div]. *)
Theorem median_within_bounds data lo hi :
  data <> [] -> (forall x, x ∈ data -> lo <= d_val x <= hi)%Q ->
  (lo - (1 # 2 * 10 ^ 16) <= d_val (Median data) <= hi + (1 # 2 * 10 ^ 16))%Q.
Proof.
  intros Hne Hb. unfold Median. destruct data as [|x0 data0] eqn:Hd; [done|]. rewrite <- Hd in *.
  set (n := length data). assert (Hn : (0 < n)%nat) by (subst n; rewrite Hd; simpl; lia).
  assert (Hat : forall i, (i < n)%nat -> (lo <= d_val (default d_zero (sort_dec data !! i)) <= hi)%Q).
  { intros i Hi. destruct (lookup_lt_is_Some_2 (sort_dec data) i) as [x Hx]; [by rewrite sort_dec_length|].
    rewrite Hx. by apply Hb, (sort_dec_elem _ i). }
  pose proof (Nat.div_lt n 2 Hn ltac:(lia)) as Hm. pose proof (Hat _ Hm) as H1.
  case_match.
  - assert (Hm' : (n / 2 - 1 < n)%nat) by lia. pose proof (Hat _ Hm') as H2.
    set (s := d_add _ _). assert (Hs : (d_val s == d_val (default d_zero (sort_dec data !! (n / 2)%nat)) +
      d_val (default d_zero (sort_dec data !! (n / 2 - 1)%nat)))%Q) by (apply val_add).
    assert (Hnz : ~ (d_val (d_int 2) == 0)%Q) by (rewrite val_int; by intros [=]).
    pose proof (val_div s (d_int 2) Hnz) as Hdiv. rewrite val_int in Hdiv.
    apply Qabs.Qabs_Qle_condition in Hdiv as [Hlo Hhi].
    assert (Hq : (d_val s / inject_Z 2 == d_val s * (1 # 2))%Q) by (unfold Qdiv; by rewrite <- Qinv_mult_distr || reflexivity).
    rewrite Hq in Hlo, Hhi. change (1 # 2 * 10 ^ 16)%Q with (1 # 20000000000000000)%Q in *. lra.
  - change (1 # 2 * 10 ^ 16)%Q with (1 # 20000000000000000)%Q. lra.
Qed.
End median.

(** *** Bytes *)

Lemma take_until_null_app l k :
  Forall (fun a => Ascii.eqb a Ascii.zero = false) l ->
  take_until_null (l ++ replicate k Ascii.zero) = l.
Proof.
  induction 1 as [|a l Ha _ IH]; simpl; [by destruct k|]. by rewrite Ha, IH.
Qed.

Lemma length_bytes s : length (String.list_ascii_of_string s) = String.length s.
Proof. by induction s as [|a s IH]; simpl; [|rewrite IH]. Qed.

Lemma no_null_bytes s :
  has_char Ascii.zero s = false ->
  Forall (fun a => Ascii.eqb a Ascii.zero = false) (String.list_ascii_of_string s).
Proof.
  induction s as [|a s IH]; simpl; [constructor|]. intros [Ha Hs]%orb_false_elim.
  constructor; [done|by apply IH].
Qed.

(** A string of at most 32 bytes without a null byte survives the
    conversion to [\[32\]byte] and back; a longer one is cut to its first 32
    bytes. *)
Theorem byte32_roundtrip s :
  has_char Ascii.zero s = false ->
  length (StringToByte32 s) = 32%nat /\
  Byte32ToString (StringToByte32 s) =
    String.string_of_list_ascii (take 32 (String.list_ascii_of_string s)) /\
  ((String.length s <= 32)%nat -> Byte32ToString (StringToByte32 s) = s).
Proof.
  intros Hs. unfold StringToByte32, Byte32ToString.
  rewrite take_until_null_app by (by apply Forall_take, no_null_bytes).
  split_and!; [|done|].
  - rewrite length_app, length_replicate, length_take. lia.
  - intros Hlen. rewrite take_ge; [apply String.string_of_list_ascii_of_string|].
    by rewrite length_bytes.
Qed.

Lemma hex_digit_range a x : hex_digit a = Some x -> 0 <= x < 16.
Proof.
  destruct a as [[] [] [] [] [] [] [] []]; vm_compute; intros [= <-]; by split.
Qed.

Lemma hex_decode_range n : forall l b,
  (length l <= n)%nat -> hex_decode l = Some b ->
  Forall (fun x => 0 <= x < 256) b /\ (2 * length b = length l)%nat.
Proof.
  induction n as [|n IH]; intros [|a [|a' l]] b Hn; simpl; intros H; simplify_eq/=; try lia;
    try (split; [constructor|done]).
  destruct (hex_digit a) as [x|] eqn:E1; simplify_eq/=.
  destruct (hex_digit a') as [y|] eqn:E2; simplify_eq/=.
  destruct (hex_decode l) as [t|] eqn:E3; simplify_eq/=.
  apply hex_digit_range in E1, E2. destruct (IH l t) as [H1 H2]; [lia|done|].
  split; [constructor; [lia|done]|]. simpl. lia.
Qed.

Lemma set_bytes_acc b : forall acc,
  Forall (fun x => 0 <= x < 256) b -> 0 <= acc ->
  0 <= foldl (fun a x => a * 256 + x) acc b < (acc + 1) * 256 ^ Z.of_nat (length b).
Proof.
  induction b as [|x b IH]; intros acc HF Hacc; simpl.
  - rewrite Z.mul_1_r. lia.
  - inversion HF; subst. destruct (IH (acc * 256 + x)) as [H3 H4]; [done|nia|]. split; [lia|].
    eapply Z.lt_le_trans; [exact H4|].
    rewrite Nat2Z.inj_succ, Z.pow_succ_r by lia. rewrite Z.mul_assoc.
    apply Z.mul_le_mono_nonneg_r; [apply Z.pow_nonneg; lia|lia].
Qed.

(** A 32-byte topic (64 hex digits) parses to an unsigned 256-bit integer,
    and its conversion to [\[32\]byte] does not panic. *)
Theorem parse_topic_bounds s v :
  String.length s = 64%nat -> ParseTopicToBigInt s = Some v ->
  0 <= v < 2 ^ 256 /\ ParseTopicToByte32 s <> Panic.
Proof.
  intros Hlen. unfold ParseTopicToBigInt, ParseTopicToByte32.
  destruct (hex_decode _) as [b|] eqn:E; simpl; [|done]. intros [= <-].
  assert (Hl : length (String.list_ascii_of_string s) = 64%nat).
  { by rewrite length_bytes. }
  destruct (hex_decode_range 64 (String.list_ascii_of_string s) b) as [HF H2]; [lia|done|].
  assert (Hb : length b = 32%nat) by lia.
  pose proof (set_bytes_acc b 0 HF ltac:(lia)) as [H3 H4]. rewrite Hb in *. split; [|done].
  split; [done|]. exact H4.
Qed.

Section utils_claims.
Context {O : DecimalOps} {L : DecimalLaws O}.

(** A queue entry written by the queue builder is read back with the same
    provider, symbol, rate and limits, when provider and symbol contain no
    colon. *)
Theorem queue_entry_roundtrip p s rate mn mx :
  has_char ":" p = false -> has_char ":" s = false ->
  exists en r' mn' mx', parse_entry (queue_entry p s rate mn mx) = Some en /\
    en_provider en = p /\ en_symbol en = s /\
    d_parse (en_rate en) = Some r' /\ d_parse (en_min en) = Some mn' /\ d_parse (en_max en) = Some mx' /\
    d_eq r' rate /\ d_eq mn' mn /\ d_eq mx' mx.
Proof.
  intros Hp Hs. rewrite parse_queue_entry by done.
  destruct (parse_string rate) as (r' & Er & Hr), (parse_string mn) as (mn' & Emn & Hmn),
    (parse_string mx) as (mx' & Emx & Hmx).
  eexists _, r', mn', mx'. by split_and!.
Qed.

(** The key of a bucket parses back to the bucket's currency and range, and
    so does the key of its previous queue (with the suffix "_prev"), which the
    scans of the current buckets therefore also accept. *)
Theorem bucket_key_roundtrip code mn mx :
  code <> "" -> has_char "_" code = false -> (d_val mn < d_val mx)%Q ->
  forall key, key = bucket_key code mn mx \/ key = bucket_key code mn mx +:+ "_prev" ->
  exists bd, parseBucketKey key = inr bd /\ bd_currency bd = code /\
    d_eq (bd_min bd) mn /\ d_eq (bd_max bd) mx.
Proof.
  intros Hc Hu Hlt key Hkey.
  assert (Hparts : forall rest, Forall (fun s => has_char "_" s = false) rest ->
    Forall (fun s => has_char "_" s = false) ("bucket" :: code :: d_string mn :: d_string mx :: rest)).
  { intros rest Hrest. repeat constructor; auto using string_no_underscore. }
  destruct Hkey as [->| ->].
  - apply (parse_bucket_parts code mn mx []); auto. apply split_join; [done|]. by apply Hparts.
  - apply (parse_bucket_parts code mn mx ["prev"]); eauto.
    rewrite <- (split_join "_" ("bucket" :: code :: d_string mn :: d_string mx :: ["prev"]))
      by (done || by apply Hparts; repeat constructor).
    f_equal. exact (join_snoc "_" ["bucket"; code; d_string mn; d_string mx] "prev" ltac:(done)).
Qed.
End utils_claims.

Section rate_claims.
Context {O : DecimalOps} {L : DecimalLaws O}.

(** What the handlers rely on from the Redis [SCAN]: it reads. *)
Definition scan_reads (scan : M (list string)) : Prop :=
  forall w, wp scan (fun o w' => reads_only w w' /\ o <> Panic) w.

(** A rate accepted for an amount without a fixed provider is the rate of an
    entry in one of the bucket queues for that token, whose order limits contain
    the amount and for which the fiat equivalent lies in the bucket's range;
    nothing is written and nothing panics, whatever external calls fail. *)
Theorem validate_bucket_rate_sound scan symbol network amount w :
  scan_reads scan ->
  wp (validateBucketRate scan symbol network amount) (fun o w' =>
    reads_only w w' /\ o <> Panic /\
    forall r, o = Ret r -> exists key bd data, parseBucketKey key = inr bd /\
      data ∈ get_list key (w_redis w) /\ suitable_entry symbol amount bd data r) w.
Proof.
  intros Hscan. unfold validateBucketRate. apply wp_try. eapply wp_mono; [apply Hscan|].
  intros [keys|e|] w1 [Hw1 Hp]; [|by split_and!|done].
  apply wp_bind. eapply wp_mono; [by apply (validateBucketRate_loop_sound _ _ _ w)|].
  intros [[r []]|e|] w2 (H1 & H2 & H3); [|by split_and!|by split_and!|done].
  split_and!; [done|done|]. intros r' [= <-].
  destruct (H3 r eq_refl) as (key & bd & d & _ & H). by exists key, bd, d.
Qed.

Lemma query_sufficient_ok p c amount w :
  w_faults w = [] ->
  query_sufficient p c amount w = (Ret tt, w) \/ query_sufficient p c amount w = (Err ENotFound, w).
Proof.
  intros E. unfold query_sufficient, read_db, bindM, ext. rewrite E. simpl.
  repeat case_match; auto.
Qed.

(** Without a network filter the rate found in a queue does not depend on the
    database at all: the balance query of the loop only runs for entries that
    do not match, so a provider without any balance is offered all the same. *)
Theorem find_rate_ignores_balance providers symbol amount bd w d :
  w_faults w = [] ->
  fst (findSuitableProviderRate providers symbol "" amount bd (set_db d w)) =
  fst (findSuitableProviderRate providers symbol "" amount bd w).
Proof.
  intros E. unfold findSuitableProviderRate. generalize d_zero.
  induction providers as [|data rest IH]; intros best; [done|]. simpl.
  destruct (parse_entry data) as [en|]; [|apply IH].
  destruct (negb _); [apply IH|]. unfold tryM at 1 3. simpl.
  destruct (within_limits en amount) as [[]|]; [|apply IH|apply IH].
  destruct (d_parse (en_rate en)) as [rate|]; [|apply IH].
  destruct (d_ge _ _ && d_le _ _); [done|]. unfold tryM.
  destruct (query_sufficient_ok (en_provider en) (bd_currency bd) (d_mul amount rate) w E) as [-> | ->],
    (query_sufficient_ok (en_provider en) (bd_currency bd) (d_mul amount rate) (set_db d w) E) as [-> | ->];
    apply IH.
Qed.

Lemma list_index_nat l i : (list_index l (Z.of_nat i) ≫= fun j => l !! j) = l !! i.
Proof.
  unfold list_index. assert ((Z.of_nat i <? 0)%Z = false) as -> by (apply Z.ltb_ge; lia).
  destruct (_ && _)%bool eqn:E; simpl; [by rewrite Nat2Z.id|].
  symmetry. apply lookup_ge_None_2. apply andb_false_iff in E as [E%Z.leb_gt|E%Z.ltb_ge]; lia.
Qed.

Lemma LIndex_lt key i data w w1 :
  LIndex key (Z.of_nat i) w = (Ret data, w1) ->
  (i < length (get_list key (w_redis w)))%nat /\ w_redis w1 = w_redis w.
Proof.
  unfold LIndex, get_redis, ext, bindM.
  destruct (w_faults w) as [|[] ?]; simpl; [|done|]; rewrite list_index_nat;
    (destruct (_ !! i) as [s|] eqn:El; [|done]); unfold retM; intros [= <- <-];
    (split; [by eapply lookup_lt_Some|done]).
Qed.

(** Reading one queue does not depend on the fuel once it exceeds the number of
    positions left. *)
Lemma token_rate_in_queue_fuel key symbol amount mn mx n : forall fuel fuel' i acc w,
  length (get_list key (w_redis w)) = n -> (i <= n < i + fuel)%nat -> (n < i + fuel')%nat ->
  token_rate_in_queue fuel (Z.of_nat i) key symbol amount mn mx acc w =
  token_rate_in_queue fuel' (Z.of_nat i) key symbol amount mn mx acc w.
Proof.
  induction fuel as [|fuel IH]; intros [|fuel'] i acc w Hn Hi Hi'; try lia. simpl.
  unfold tryM. destruct (LIndex key (Z.of_nat i) w) as [[data|e|] w1] eqn:E; try done.
  assert (Hstep : (i < n)%nat /\ w_redis w1 = w_redis w).
  { subst n. by apply (LIndex_lt _ _ data). }
  destruct Hstep as [Hlt Hr].
  assert (Hnext : forall acc', token_rate_in_queue fuel (Z.of_nat i + 1) key symbol amount mn mx acc' w1 =
    token_rate_in_queue fuel' (Z.of_nat i + 1) key symbol amount mn mx acc' w1).
  { intros acc'. replace (Z.of_nat i + 1) with (Z.of_nat (S i)) by lia. apply IH; [by rewrite Hr|lia|lia]. }
  repeat (case_match; try done); apply Hnext.
Qed.

Lemma token_rate_in_queue_reads key symbol amount mn mx w0 : forall fuel i acc w,
  reads_only w0 w ->
  wp (token_rate_in_queue fuel i key symbol amount mn mx acc)
    (fun o w' => reads_only w0 w' /\ o <> Panic) w.
Proof.
  induction fuel as [|fuel IH]; intros i acc w Hw; simpl; [by split|].
  repeat (ro_step; auto); done.
Qed.

Lemma token_rate_in_keys_reads symbol amount w0 fuel keys : forall acc w,
  reads_only w0 w ->
  wp (token_rate_in_keys fuel keys symbol amount acc) (fun _ w' => reads_only w0 w') w.
Proof.
  induction keys as [|key rest IH]; intros acc w Hw; simpl; [done|].
  repeat (case_match; try done). apply wp_bind.
  eapply wp_mono; [by apply token_rate_in_queue_reads|]. intros [a|e|] w1 [? _]; [by apply IH|done|done].
Qed.

Lemma token_rate_in_keys_fuel symbol amount fuel fuel' keys : forall acc w,
  Forall (fun key => (length (get_list key (w_redis w)) < fuel)%nat) keys -> (fuel <= fuel')%nat ->
  token_rate_in_keys fuel keys symbol amount acc w = token_rate_in_keys fuel' keys symbol amount acc w.
Proof.
  induction keys as [|key rest IH]; intros acc w Hlen Hle; simpl; [done|].
  inversion Hlen as [|? ? Hkey Hrest]; subst.
  repeat (case_match; try done). unfold bindM.
  rewrite (token_rate_in_queue_fuel key symbol amount _ _ _ fuel fuel' 0 acc w eq_refl) by lia.
  match goal with |- context [token_rate_in_queue fuel' (Z.of_nat 0) ?k ?s ?a ?x ?y acc] =>
    pose proof (token_rate_in_queue_reads k s a x y w fuel' (Z.of_nat 0) acc w (reads_only_refl w)) as [Hr _] end.
  destruct (token_rate_in_queue fuel' _ _ _ _ _ _ _ w) as [[a|e|] w1]; try done.
  apply IH; [|done]. destruct Hr as (_ & Hr & _). simpl in Hr. by rewrite Hr.
Qed.

Lemma GetTokenRateFromQueue_fuel scan symbol amount marketRate fuel fuel' w :
  scan_reads scan ->
  (forall keys w', scan w = (Ret keys, w') ->
     Forall (fun key => (length (get_list key (w_redis w)) < fuel)%nat) keys) ->
  (fuel <= fuel')%nat ->
  GetTokenRateFromQueue fuel scan symbol amount marketRate w =
  GetTokenRateFromQueue fuel' scan symbol amount marketRate w.
Proof.
  intros Hscan Hlen Hle. unfold GetTokenRateFromQueue, bindM.
  pose proof (Hscan w) as [Hr _]. destruct (scan w) as [[keys|e|] w1] eqn:E; try done.
  specialize (Hlen _ _ eq_refl). simpl in Hr. destruct Hr as (_ & Hr & _).
  by rewrite (token_rate_in_keys_fuel symbol amount fuel fuel') by (rewrite ?Hr; done).
Qed.

Lemma GetTokenRateFromQueue_reads scan symbol amount marketRate fuel w0 w :
  scan_reads scan -> reads_only w0 w ->
  wp (GetTokenRateFromQueue fuel scan symbol amount marketRate) (fun _ w' => reads_only w0 w') w.
Proof.
  intros Hscan Hw. unfold GetTokenRateFromQueue. apply wp_bind. eapply wp_mono; [apply Hscan|].
  intros o w1 [H1 Hp]. pose proof (reads_only_trans _ _ _ Hw H1). destruct o as [keys|e|]; [|done|done].
  apply wp_bind. eapply wp_mono; [by apply token_rate_in_keys_reads|]. by intros [acc|e|] w2 H2.
Qed.

(** The search for a token rate reads at most one position past the end of
    each queue: any bound larger than every queue gives the same result, so
    the loop over the positions terminates. *)
Theorem token_rate_terminates scan symbol amount marketRate fuel fuel' w :
  scan_reads scan ->
  (forall key, (length (get_list key (w_redis w)) < fuel)%nat) -> (fuel <= fuel')%nat ->
  GetTokenRateFromQueue fuel scan symbol amount marketRate w =
  GetTokenRateFromQueue fuel' scan symbol amount marketRate w.
Proof.
  intros Hscan Hlen Hle. apply GetTokenRateFromQueue_fuel; [done| |done].
  intros keys w' _. by apply Forall_forall.
Qed.

End rate_claims.

(** ** Witnesses on the seeded database *)

Definition s_key : string := bucket_key s_cur (d_int 100) (d_int 100000).
Definition s_entry : string := queue_entry s_prov "USDT" (d_int 950) (d_int 1) (d_int 1000).
Definition s_queue_redis : Redis := mkRedis {[ s_key := [s_entry] ]} ∅ ∅.
Definition s_queue_world (pc : ProviderCurrencies) : World :=
  set_redis s_queue_redis (s_world pc []).
Definition s_scan : M (list string) := retM [s_key].

Lemma s_scan_reads : scan_reads s_scan.
Proof. intros w. by split. Defined.

Lemma s_queue_bound key : (length (get_list key (w_redis (s_queue_world (s_pc 0 0 0)))) < 2)%nat.
Proof.
  unfold get_list. simpl. rewrite lookup_singleton. case_decide; simpl; lia.
Defined.

Lemma median_order_irrelevant_witness :
  d_eq (Median [d_int 3; d_int 1; d_int 2]) (Median [d_int 1; d_int 2; d_int 3]).
Proof.
  apply median_order_irrelevant.
  exact (Permutation_cons_append [d_int 1; d_int 2] (d_int 3)).
Defined.

Lemma median_within_bounds_witness :
  (1 - (1 # 2 * 10 ^ 16) <= d_val (Median [d_int 3; d_int 1]) <= 3 + (1 # 2 * 10 ^ 16))%Q.
Proof.
  apply median_within_bounds; [done|].
  intros x [-> | [-> | []%not_elem_of_nil]%elem_of_cons]%elem_of_cons; vm_compute; split; discriminate.
Defined.

Lemma byte32_roundtrip_witness : Byte32ToString (StringToByte32 "USDT") = "USDT".
Proof. apply (byte32_roundtrip "USDT"); vm_compute; [reflexivity|lia]. Defined.

Definition s_topic : string := "000000000000000000000000000000000000000000000000000000000000ff10".
Lemma parse_topic_bounds_witness : ParseTopicToBigInt s_topic = Some 65296 /\ 0 <= 65296 < 2 ^ 256.
Proof.
  split; [vm_compute; reflexivity|].
  apply (parse_topic_bounds s_topic 65296); vm_compute; reflexivity.
Defined.

Lemma queue_entry_roundtrip_witness :
  exists en, parse_entry s_entry = Some en /\ en_provider en = s_prov.
Proof.
  destruct (queue_entry_roundtrip s_prov "USDT" (d_int 950) (d_int 1) (d_int 1000))
    as (en & r & mn & mx & H1 & H2 & _); [reflexivity|reflexivity|]. by exists en.
Defined.

Lemma bucket_key_roundtrip_witness :
  exists bd, parseBucketKey (s_key +:+ "_prev") = inr bd /\ bd_currency bd = s_cur.
Proof.
  destruct (bucket_key_roundtrip s_cur (d_int 100) (d_int 100000)) with (key := s_key +:+ "_prev")
    as (bd & H1 & H2 & _); [done|reflexivity|reflexivity|by right|]. by exists bd.
Defined.

Lemma validate_bucket_rate_sound_witness :
  fst (validateBucketRate s_scan "USDT" "" (d_int 2) (s_queue_world (s_pc 0 0 0))) = Ret (d_int 950) /\
  exists key bd data, parseBucketKey key = inr bd /\
    data ∈ get_list key s_queue_redis /\ suitable_entry "USDT" (d_int 2) bd data (d_int 950).
Proof.
  assert (H : fst (validateBucketRate s_scan "USDT" "" (d_int 2) (s_queue_world (s_pc 0 0 0)))
    = Ret (d_int 950)) by (vm_compute; reflexivity).
  split; [exact H|].
  destruct (validate_bucket_rate_sound s_scan "USDT" "" (d_int 2) (s_queue_world (s_pc 0 0 0))
    s_scan_reads) as (_ & _ & Hr).
  exact (Hr (d_int 950) H).
Defined.

Lemma find_rate_ignores_balance_witness :
  fst (findSuitableProviderRate [s_entry] "USDT" "" (d_int 2) (mkBucketData s_cur (d_int 100) (d_int 100000))
    (set_db (s_db (s_pc 0 0 0)) (s_world (s_pc 5000 0 5000) []))) = Ret (d_int 950, true).
Proof.
  rewrite (find_rate_ignores_balance [s_entry] "USDT" (d_int 2)
    (mkBucketData s_cur (d_int 100) (d_int 100000)) (s_world (s_pc 5000 0 5000) [])
    (s_db (s_pc 0 0 0)) eq_refl). vm_compute. reflexivity.
Defined.

Lemma token_rate_terminates_witness :
  fst (GetTokenRateFromQueue 40 s_scan "USDT" (d_int 2) (d_int 900) (s_queue_world (s_pc 0 0 0))) =
  Ret (d_int 950).
Proof.
  rewrite <- (token_rate_terminates s_scan "USDT" (d_int 2) (d_int 900) 2 40
    (s_queue_world (s_pc 0 0 0)) s_scan_reads s_queue_bound ltac:(lia)).
  vm_compute. reflexivity.
Defined.
