(* ===== verification/Ethereum.v ===== *)
(** * The go-ethereum common package (github.com/ethereum/go-ethereum/common)

    Addresses and hashes as text.  The package is not part of the repository:
    [EthCommon] lists what the code calls and [EthLaws] what its documentation
    promises.  [eth_common] is a concrete instance that satisfies the laws.  Bytes are
    integers below 256. *)

From S2P Require Import Prelude Decimal Schema Store Samples Balance Utils.
Local Open Scope string_scope.
Local Open Scope list_scope.

Definition byte (x : Z) : Prop := 0 <= x < 256.
(** A value of 32 bytes, and one of 20. *)
Definition is_word (b : list Z) : Prop := Forall byte b /\ length b = 32%nat.
Definition is_address (b : list Z) : Prop := Forall byte b /\ length b = 20%nat.

(** [fmt.Sprintf("0x%x", data)] and [Hash.Hex]: two lower-case digits per byte. *)
Definition nibble (z : Z) : string :=
  String (Ascii.ascii_of_nat (Z.to_nat (if (z <? 10)%Z then 48 + z else 87 + z))) "".
Definition hex_string (data : list Z) : string :=
  "0x" +:+ foldr (fun b s => nibble (b / 16) +:+ nibble (b mod 16) +:+ s) "" data.

Class EthCommon := {
  HexToAddress : string -> list Z;
  HexToHash : string -> list Z;
  (** [Address.Hex]: EIP-55 capitals *)
  address_hex : list Z -> string;
  Hex2Bytes : string -> list Z
}.

(** Text that is too long is cropped from the left; the text of an address is its
    digits, letter case aside, and is read back. *)
Class EthLaws (E : EthCommon) : Prop := {
  hash_text : forall h, is_word h -> HexToHash (hex_string h) = h;
  address_of_hash : forall h, is_word h -> HexToAddress (hex_string h) = drop 12 h;
  address_text : forall a, is_address a -> HexToAddress (address_hex a) = a;
  address_hex_lower : forall a, is_address a -> ToLower (address_hex a) = hex_string a;
  (** an address has 20 bytes *)
  address_bytes : forall s, is_address (HexToAddress s);
  hex_bytes : forall s, Forall byte (Hex2Bytes s);
  (** digits without a prefix, of either case *)
  bytes_text : forall b s, Forall byte b -> ToLower ("0x" +:+ s) = hex_string b -> Hex2Bytes s = b
}.

(** ** A concrete instance: lower-case text *)

(** The bytes that [hex.DecodeString] returns, also with an error: those before it. *)
Fixpoint hex_prefix (l : list ascii) : list Z :=
  match l with
  | a :: b :: r =>
      match hex_digit a, hex_digit b with Some x, Some y => 16 * x + y :: hex_prefix r | _, _ => [] end
  | _ => []
  end.

(** [common.FromHex] *)
Definition FromHex (s : string) : list Z :=
  let l := match String.list_ascii_of_string s with
           | "0"%char :: c :: r => if Ascii.eqb c "x" || Ascii.eqb c "X" then r else "0"%char :: c :: r
           | l => l
           end in
  hex_prefix (if Nat.odd (length l) then "0"%char :: l else l).

(** The last [n] bytes, with zeros before them. *)
Definition set_length (n : nat) (b : list Z) : list Z :=
  if (n <? length b)%nat then drop (length b - n) b else replicate (n - length b) 0 ++ b.
Definition hex_address (s : string) : list Z := set_length 20 (FromHex s).
Definition hex_hash (s : string) : list Z := set_length 32 (FromHex s).

(** *** Its laws *)

Definition lower_digit (x : Z) : ascii := Ascii.ascii_of_nat (Z.to_nat (if (x <? 10)%Z then 48 + x else 87 + x)).
Definition digits (data : list Z) : list ascii := concat (map (fun b => [lower_digit (b / 16); lower_digit (b mod 16)]) data).

Lemma hex_string_digits data : String.list_ascii_of_string (hex_string data) = "0"%char :: "x"%char :: digits data.
Proof.
  unfold hex_string. simpl. do 2 f_equal. induction data as [|b data IH]; [done|]. simpl. by rewrite IH.
Qed.

Lemma hex_digit_lower x : 0 <= x < 16 -> hex_digit (lower_digit x) = Some x.
Proof.
  intros H. assert (Hx : x ∈ [0; 1; 2; 3; 4; 5; 6; 7; 8; 9; 10; 11; 12; 13; 14; 15]) by (rewrite !elem_of_cons; lia).
  repeat (apply elem_of_cons in Hx as [->|Hx]; [vm_compute; reflexivity|]). by apply elem_of_nil in Hx.
Qed.

Lemma hex_prefix_digits data : Forall byte data -> hex_prefix (digits data) = data.
Proof.
  induction 1 as [|b data Hb _ IH]; [done|]. unfold digits in *. cbn [map concat app hex_prefix].
  pose proof (Z.div_mod b 16 ltac:(lia)). unfold byte in Hb.
  rewrite hex_digit_lower by (split; [apply Z.div_pos; lia|apply Z.div_lt_upper_bound; lia]).
  rewrite hex_digit_lower by (apply Z.mod_pos_bound; lia). rewrite IH. f_equal. lia.
Qed.

Lemma digits_even data : Nat.odd (length (digits data)) = false.
Proof. unfold digits. induction data as [|b data IH]; [done|]. exact IH. Qed.

Lemma from_hex_string data : Forall byte data -> FromHex (hex_string data) = data.
Proof.
  intros H. unfold FromHex. rewrite hex_string_digits. cbn [Ascii.eqb Bool.eqb orb]. rewrite digits_even. by apply hex_prefix_digits.
Qed.

Lemma set_length_id n b : length b = n -> set_length n b = b.
Proof. intros <-. unfold set_length. rewrite Nat.ltb_irrefl, Nat.sub_diag. done. Qed.
Lemma set_length_drop n b : (n <= length b)%nat -> set_length n b = drop (length b - n) b.
Proof.
  intros H. unfold set_length. destruct (Nat.ltb_spec n (length b)); [done|]. assert (length b = n) as <- by lia.
  by rewrite Nat.sub_diag.
Qed.

Lemma set_length_length n b : length (set_length n b) = n.
Proof.
  unfold set_length. destruct (Nat.ltb_spec n (length b)); [rewrite length_drop|rewrite length_app, length_replicate]; lia.
Qed.
Lemma set_length_byte n b : Forall byte b -> Forall byte (set_length n b).
Proof.
  intros H. unfold set_length. destruct (n <? length b)%nat; [by apply Forall_drop|].
  apply Forall_app. split; [by apply Forall_replicate; unfold byte; lia|done].
Qed.
Lemma hex_prefix_byte : forall l, Forall byte (hex_prefix l).
Proof.
  fix IH 1. intros [|a [|b l]]; [constructor|constructor|]. cbn [hex_prefix].
  destruct (hex_digit a) as [x|] eqn:Ea; [|constructor]. destruct (hex_digit b) as [y|] eqn:Eb; [|constructor].
  apply hex_digit_range in Ea. apply hex_digit_range in Eb. constructor; [unfold byte; lia|apply IH].
Qed.

Lemma nibble_lower x : 0 <= x < 16 -> ToLower (nibble x) = nibble x.
Proof.
  intros H. assert (Hx : x ∈ [0; 1; 2; 3; 4; 5; 6; 7; 8; 9; 10; 11; 12; 13; 14; 15]) by (rewrite !elem_of_cons; lia).
  repeat (apply elem_of_cons in Hx as [->|Hx]; [vm_compute; reflexivity|]). by apply elem_of_nil in Hx.
Qed.
Lemma lower_app s t : ToLower (s +:+ t) = ToLower s +:+ ToLower t.
Proof. induction s as [|c s IH]; [done|]. simpl. by rewrite IH. Qed.

Lemma hex_string_lower a : Forall byte a -> ToLower (hex_string a) = hex_string a.
Proof.
  intros Ha. unfold hex_string. rewrite lower_app. f_equal.
  induction Ha as [|b a Hb _ IH]; [done|]. cbn [foldr]. rewrite !lower_app, IH. unfold byte in Hb.
  rewrite nibble_lower by (split; [apply Z.div_pos; lia|apply Z.div_lt_upper_bound; lia]).
  by rewrite nibble_lower by (apply Z.mod_pos_bound; lia).
Qed.

Lemma hex_digit_case c : hex_digit (lower_ascii c) = hex_digit c.
Proof. destruct c as [[] [] [] [] [] [] [] []]; reflexivity. Qed.
Lemma hex_prefix_case l : hex_prefix (map lower_ascii l) = hex_prefix l.
Proof.
  revert l. fix IH 1. intros [|a [|b l]]; [done|done|]. cbn [map hex_prefix]. by rewrite !hex_digit_case, IH.
Qed.
Lemma lower_list s : String.list_ascii_of_string (ToLower s) = map lower_ascii (String.list_ascii_of_string s).
Proof. induction s as [|c s IH]; [done|]. simpl. by rewrite IH. Qed.

#[export] Instance eth_common : EthCommon := {|
  HexToAddress := hex_address;
  HexToHash := hex_hash;
  address_hex := hex_string;
  Hex2Bytes s := hex_prefix (String.list_ascii_of_string s)
|}.
#[export] Instance eth_common_laws : EthLaws eth_common.
Proof.
  split; cbn; [intros h [Hb Hl]|intros h [Hb Hl]|intros a [Hb Hl]|intros a [Hb Hl]|intros s|intros s|intros b s Hb Hs];
    unfold hex_hash, hex_address; try (rewrite from_hex_string by done).
  - by apply set_length_id.
  - rewrite set_length_drop by lia. by rewrite Hl.
  - by apply set_length_id.
  - by apply hex_string_lower.
  - split; [apply set_length_byte, hex_prefix_byte|apply set_length_length].
  - apply hex_prefix_byte.
  - apply (f_equal String.list_ascii_of_string) in Hs. rewrite lower_list, hex_string_digits in Hs. simpl in Hs.
    injection Hs as Hs. rewrite <- hex_prefix_case. etransitivity; [apply f_equal, Hs|by apply hex_prefix_digits].
Qed.
