(* ===== verification/Services.v ===== *)
(** * The services the handlers call

    What the node reaches outside its database and Redis, as one interface:
    the [SCAN] of bucket keys, the shuffle of the queue builder, the decryption
    of a provider's secret and the answer of a provider node.  The handlers'
    theorems are proved against [ServicesLaws]; [sample_services] discharges it.
    [CallProviderWithHMAC] (utils/utils.go) and [ParseJSONResponse]
    (utils/http.go) are the code on this side of the calls. *)

From S2P Require Import Prelude Decimal Schema Store Samples Balance Utils.
Local Open Scope go_scope.
Local Open Scope string_scope.
Local Open Scope list_scope.

(** ** HTTP answers *)

(** A response body: a JSON object, text that [json.Unmarshal] rejects with
    "invalid character", or text that it rejects otherwise (the map stays nil). *)
Inductive Body := BObject (fields : list (string * json)) | BInvalid | BOther.
Record HttpResponse := mkResp { hr_status : Z; hr_body : Body }.

(** The body and the error; both may be set. *)
Definition ParseJSONResponse (res : HttpResponse) : option error * list (string * json) :=
  match hr_body res with
  | BInvalid => (Some (EMsg "received non-JSON response"), [])
  | b =>
      let body := match b with BObject f => f | _ => [] end in
      if (500 <=? hr_status res)%Z then (Some (EMsg "status"), body)
      else if (400 <=? hr_status res)%Z then (Some (EMsg "status"), body)
      else (None, body)
  end.

(** ** The interface *)

Class Services `{O : DecimalOps} := {
  (** [SCAN 0 MATCH bucket_{currency}_*_* COUNT 100] *)
  scan_buckets : string -> M (list string);
  (** [rand.Shuffle] *)
  shuffle : list string -> list string;
  (** base64 decoding and AES decryption of an API key's secret *)
  decrypt_secret : string -> option string;
  (** what a provider node answers; it may depend on anything *)
  provider_answer : World -> string -> string -> gmap string string -> HttpResponse
}.

Class ServicesLaws `{O : DecimalOps} (SV : Services) : Prop := {
  scan_buckets_reads : forall c, scan_reads (scan_buckets c);
  scan_buckets_prefix : forall c w keys w', scan_buckets c w = (Ret keys, w') ->
    Forall (fun k => HasPrefix k "bucket_" = true) keys;
  scan_buckets_faults : forall c w,
    (length (w_faults (scan_buckets c w).2) <= length (w_faults w))%nat;
  shuffle_perm : forall l, shuffle l ≡ₚ l
}.

Section provider_call.
Context `{SV : Services}.

Definition CallProviderWithHMAC (providerID method path : string) (payload : gmap string string)
    : M (list (string * json)) :=
  let? d := read_db None orelse e => (errM (EMsg "failed to get provider")) in
  match db_providers d !! providerID with
  | None => errM (EMsg "failed to get provider")
  | Some provider =>
      if String.eqb (pp_host_identifier provider) "" then errM (EMsg "provider has no host identifier")
      else
        match pp_api_key provider with
        | None => errM (EMsg "provider has no API key")
        | Some secret =>
            match decrypt_secret secret with
            | None => errM (EMsg "failed to decrypt API key secret")
            | Some _ =>
                if negb (String.eqb method "GET" || String.eqb method "POST")
                then errM (EMsg "unsupported HTTP method")
                else
                  do? ext orelse e => (errM (EMsg "failed to make HTTP request")) in
                  let! w := getM in
                  do! emit (EvProviderCall providerID path payload) in
                  match ParseJSONResponse (provider_answer w providerID path payload) with
                  | (Some _, _) => errM (EMsg "failed to parse response")
                  | (None, data) => retM data
                  end
            end
        end
  end.

End provider_call.

(** ** A concrete instance *)

(** A node that accepts every request, and a [SCAN] that returns the keys of the
    currency's bucket lists. *)
Definition sample_scan (c : string) : M (list string) :=
  let! r := get_redis in
  retM (List.filter (fun k => HasPrefix k ("bucket_" +:+ c +:+ "_")) (map fst (map_to_list (r_lists r)))).

#[export] Instance sample_services : Services := {|
  scan_buckets := sample_scan;
  shuffle l := l;
  decrypt_secret s := Some s;
  provider_answer _ _ _ _ := mkResp 200 (BObject [])
|}.

#[export] Instance sample_services_laws : ServicesLaws sample_services.
Proof.
  split; [| | |done].
  - intros c w. unfold scan_buckets, sample_services, sample_scan. repeat (ro_step; try done).
  - intros c w keys w'. unfold scan_buckets, sample_services, sample_scan, get_redis, ext, bindM, retM.
    intros H. repeat case_match; simplify_eq/=; apply Forall_forall;
      intros k [_ Hk]%list_elem_of_In%filter_In; by eapply HasPrefix_app.
  - intros c w. unfold scan_buckets, sample_services, sample_scan, get_redis, ext, bindM, retM.
    by destruct (w_faults w) as [|[]] eqn:E; simpl; rewrite ?E; simpl; lia.
Qed.
