(* ===== verification/Queue.v ===== *)
(** * The priority queues (services/priority_queue.go)

    The providers of each provision bucket are kept as a Redis list that is
    rebuilt periodically; an order is assigned by walking the list.  A match at
    the head rotates the list.  [AssignLockPaymentOrder] and [matchRate] call
    each other; [depth] bounds the nesting and [qfuel] the positions read of a
    queue: [assign_terminates] gives bounds that are always enough. *)

From S2P Require Import Prelude Decimal Schema Store Samples Balance Utils Services.
Local Open Scope go_scope.
Local Open Scope string_scope.
Local Open Scope list_scope.

(** [x, err := m] where [err] is only logged. *)
Definition logged {O : DecimalOps} (m : M unit) : M unit := do? m orelse _e => (retM tt) in retM tt.

Section queue.
Context `{SV : Services}.
Variable conf : Config.

(** ** Building the queues *)

(** A bucket with its loaded edges. *)
Record BucketJob := mkJob {
  bj_row : ProvisionBucket;
  bj_currency : FiatCurrency;
  bj_providers : list string
}.

(** The conditions on a provider of a bucket. *)
Definition available_for_bucket (d : DB) (minAmount : dec) (code p : string) : bool :=
  match db_providers d !! p with
  | Some pp =>
      pp_is_active pp && bool_decide (pp_user_kyb_status pp = KApproved) &&
      bool_decide (pp_visibility_mode pp = VisPublic) &&
      match db_provider_currencies d !! (p, code) with
      | Some pc => d_gt (pc_available_balance pc) minAmount && pc_is_available pc
      | None => false
      end
  | None => false
  end.

(** A failed query leaves the bucket without providers. *)
Fixpoint load_providers (buckets : list (ProvisionBucket * option FiatCurrency)) : M (list BucketJob) :=
  match buckets with
  | [] => retM []
  | (b, c) :: rest =>
      let! fc := deref c in
      let! r := attemptM (read_db None) in
      let ps := match r with
                | inl _ => []
                | inr d => List.filter (available_for_bucket d (pb_min_amount b) (fc_code fc))
                             (pb_provider_profiles b)
                end in
      let! jobs := load_providers rest in
      retM (mkJob b fc ps :: jobs)
  end.

Definition GetProvisionBuckets : M (list BucketJob) :=
  let! d := read_db None in
  load_providers (map (fun b => (b, db_currencies d !! pb_currency b)) (db_buckets d)).

(** The buckets for which a builder is spawned. *)
Definition ProcessBucketQueues : M (list BucketJob) :=
  wrapM "ProcessBucketQueues.GetProvisionBuckets" GetProvisionBuckets.

Definition rate_config_matches (p symbol currency : string) (t : ProviderOrderToken) : bool :=
  String.eqb (pot_provider t) p && String.eqb (tk_symbol (pot_token t)) symbol &&
  String.eqb (pot_currency t) currency.

Definition GetProviderRate (p symbol currency : string) : M dec :=
  let! d := read_db None in
  let! tokenConfig := first (List.filter (rate_config_matches p symbol currency) (db_order_tokens d)) in
  match pot_conversion_rate_type tokenConfig with
  | RFixed => retM (pot_fixed_conversion_rate tokenConfig)
  | RFloating =>
      let! fc := deref (db_currencies d !! pot_currency tokenConfig) in
      retM (d_round_bank (d_add (fc_market_rate fc) (pot_floating_conversion_rate tokenConfig)) 2)
  end.

Definition deleteQueue (key : string) : M unit := Del key.

(** A rate that enters the queue of the currency. *)
Definition acceptable_rate (fc : FiatCurrency) (symbol : string) (rate : dec) : bool :=
  let percentDeviation := AbsPercentageDeviation (fc_market_rate fc) rate in
  let isLocalStablecoin := Contains symbol (fc_code fc) && negb (Contains symbol "USD") in
  negb (d_is_zero rate) &&
  negb (String.eqb (cf_environment conf) "production" &&
        d_gt percentDeviation (cf_percent_deviation_from_market_rate conf) && negb isLocalStablecoin).

(** The loop over the order tokens of a provider. *)
Fixpoint enqueue_tokens (key p : string) (fc : FiatCurrency) (tokenSymbols : list string)
    (orderTokens : list ProviderOrderToken) : M unit :=
  match orderTokens with
  | [] => retM tt
  | t :: rest =>
      let symbol := tk_symbol (pot_token t) in
      if ContainsString tokenSymbols symbol then enqueue_tokens key p fc tokenSymbols rest
      else
        let tokenSymbols := tokenSymbols ++ [symbol] in
        let? rate := GetProviderRate p symbol (fc_code fc)
        orelse e => (enqueue_tokens key p fc tokenSymbols rest) in
        do! (if acceptable_rate fc symbol rate
             then logged (RPush key [queue_entry p symbol rate (pot_min_order_amount t)
                                       (pot_max_order_amount t)])
             else retM tt) in
        enqueue_tokens key p fc tokenSymbols rest
  end.

Definition queue_token_matches (p code : string) (t : ProviderOrderToken) : bool :=
  String.eqb (pot_provider t) p && String.eqb (pot_currency t) code && negb (String.eqb (pot_address t) "").

Definition enqueue_provider (key : string) (fc : FiatCurrency) (p : string) : M unit :=
  let? d := read_db None orelse e => (retM tt) in
  match db_provider_currencies d !! (p, fc_code fc) with
  | None => retM tt
  | Some _ =>
      let? d := read_db None orelse e => (retM tt) in
      enqueue_tokens key p fc []
        (List.filter (queue_token_matches p (fc_code fc)) (db_order_tokens d))
  end.

Fixpoint enqueue_providers (key : string) (fc : FiatCurrency) (providers : list string) : M unit :=
  match providers with
  | [] => retM tt
  | p :: rest => do! enqueue_provider key fc p in enqueue_providers key fc rest
  end.

Definition job_key (b : BucketJob) : string :=
  bucket_key (fc_code (bj_currency b)) (pb_min_amount (bj_row b)) (pb_max_amount (bj_row b)).

Definition CreatePriorityQueueForBucket (b : BucketJob) : M unit :=
  let providers := shuffle (bj_providers b) in
  let redisKey := job_key b in
  let prevRedisKey := redisKey +:+ "_prev" in
  do! logged (deleteQueue prevRedisKey) in
  let! prev := attemptM (LRange redisKey) in
  let prevValues := match prev with inl _ => [] | inr l => l end in
  do! ifM (0 <? length prevValues)%nat (logged (RPush prevRedisKey prevValues)) in
  do! logged (deleteQueue redisKey) in
  enqueue_providers redisKey (bj_currency b) providers.

(** ** Assigning an order *)

Definition with_provider (p : string) (o : LockPaymentOrderFields) : LockPaymentOrderFields :=
  mkLPOF (of_id o) (of_token o) (of_gateway_id o) (of_amount o) (of_rate o) (of_protocol_fee o)
    (of_amount_in_usd o) (of_block_number o) (of_tx_hash o) (of_institution o)
    (of_account_identifier o) (of_account_name o) (of_sender o) (of_message_hash o) p
    (of_memo o) (of_metadata o) (of_provision_bucket o) (of_updated_at o) (of_created_at o)
    (of_network_loaded o).
Definition with_rate (r : dec) (o : LockPaymentOrderFields) : LockPaymentOrderFields :=
  mkLPOF (of_id o) (of_token o) (of_gateway_id o) (of_amount o) r (of_protocol_fee o)
    (of_amount_in_usd o) (of_block_number o) (of_tx_hash o) (of_institution o)
    (of_account_identifier o) (of_account_name o) (of_sender o) (of_message_hash o)
    (of_provider_id o) (of_memo o) (of_metadata o) (of_provision_bucket o) (of_updated_at o)
    (of_created_at o) (of_network_loaded o).

Definition request_key (order : LockPaymentOrderFields) : string := "order_request_" +:+ of_id order.
Definition exclude_key (order : LockPaymentOrderFields) : string := "order_exclude_list_" +:+ of_id order.

(** [notifyProvider]: the provider is taken out of the payload. *)
Definition notifyProvider (orderRequestData : gmap string string) : M unit :=
  match orderRequestData !! "providerId" with
  | None => panicM
  | Some p =>
      do! CallProviderWithHMAC p "POST" "/new_order" (delete "providerId" orderRequestData) in
      retM tt
  end.

Definition request_data (order : LockPaymentOrderFields) (currency : string) : gmap string string :=
  {[ "amount" := d_string (fiat_amount (of_amount order) (of_rate order));
     "institution" := of_institution order;
     "currency" := currency;
     "providerId" := of_provider_id order ]}.

(** The deferred function rolls back when the outer [err] is set: by
    [ReserveBalance] and by [ExpireAt].  The errors of [HSet], [notifyProvider]
    and [Commit] are bound by an inner [err]. *)
Definition sendOrderRequest (order : LockPaymentOrderFields) : M unit :=
  let! bucket := deref (of_provision_bucket order) in
  let! fc := deref (br_currency bucket) in
  let currency := fc_code fc in
  let amount := fiat_amount (of_amount order) (of_rate order) in
  let? tx := begin_tx orelse e => (errM (EWrap "failed to start transaction" e)) in
  do? ReserveBalance (of_provider_id order) currency amount (Some tx)
  orelse e => (do! rollback_tx tx in errM e) in
  let orderKey := request_key order in
  let data := request_data order currency in
  do? HSet orderKey data orelse e => (errM e) in
  let! w := getM in
  let! expired := attemptM (ExpireAt orderKey (w_now w + cf_order_request_validity conf)%Z) in
  let deferred := ifM (match expired with inl _ => true | inr _ => false end) (rollback_tx tx) in
  do? notifyProvider (<["orderId" := of_id order]> data)
  orelse e => (do! deferred in errM e) in
  do? commit_tx tx orelse e => (do! deferred in errM (EWrap "failed to commit transaction" e)) in
  deferred.

Definition order_token_matches (d : DB) (p : string) (tk : Token) (code network : string)
    (t : ProviderOrderToken) : bool :=
  String.eqb (pot_network t) network && String.eqb (pot_provider t) p &&
  has_available_currency d p code && (tk_id (pot_token t) =? tk_id tk)%Z &&
  String.eqb (pot_currency t) code && negb (String.eqb (pot_address t) "").

(** The amount compared with the provider's limits. *)
Definition normalized_amount (qfuel : nat) (order : LockPaymentOrderFields) (tk : Token) (fc : FiatCurrency)
    : M dec :=
  if EqualFold (tk_base_currency tk) (fc_code fc) && negb (String.eqb (tk_base_currency tk) "USD") then
    let! rateResponse := GetTokenRateFromQueue qfuel (scan_buckets (fc_code fc)) "USDT" (of_amount order)
                           (fc_market_rate fc) in
    go_div (of_amount order) rateResponse
  else retM (of_amount order).

(** The checks of one entry that do not act: [Some rate] when the entry serves
    the order.  Every failure skips the entry. *)
Definition entry_serves (qfuel : nat) (excludeList : list string) (order : LockPaymentOrderFields)
    (data : string) : M (option string) :=
  let skip : M (option string) := retM None in
  match parse_entry data with
  | None => skip
  | Some en =>
      if ContainsString excludeList (en_provider en) then skip
      else
        let! tk := deref (of_token order) in
        if negb (String.eqb (en_symbol en) (tk_symbol tk)) then skip
        else
          match d_parse (en_min en), d_parse (en_max en) with
          | Some minOrderAmount, Some maxOrderAmount =>
              let! bucket := deref (of_provision_bucket order) in
              let? fc := (match br_currency bucket with
                          | Some fc => retM fc
                          | None => let! d := read_db None in
                                    match db_currencies d !! pb_currency (br_row bucket) with
                                    | Some fc => retM fc
                                    | None => errM ENotFound
                                    end
                          end) orelse e => skip in
              let? amount := normalized_amount qfuel order tk fc orelse e => skip in
              if d_lt amount minOrderAmount || d_gt amount maxOrderAmount then skip
              else
                match d_parse (en_rate en) with
                | None => skip
                | Some rate =>
                    do? (if of_network_loaded order then retM tt
                         else let! d := read_db None in retM tt) orelse e => skip in
                    let? providerToken :=
                      (let! d := read_db None in
                       first (List.filter (order_token_matches d (en_provider en) tk (fc_code fc)
                                             (nw_identifier (tk_network tk))) (db_order_tokens d)))
                    orelse e => skip in
                    let allowedDeviation :=
                      d_mul (of_rate order) (d_div (pot_rate_slippage providerToken) (d_int 100)) in
                    if negb (d_le (d_abs (d_sub rate (of_rate order))) allowedDeviation) then skip
                    else
                      let? hasSufficientBalance :=
                        CheckBalanceSufficiency (en_provider en) (fc_code fc)
                          (fiat_amount (of_amount order) (of_rate order)) orelse e => skip in
                      if negb hasSufficientBalance then skip else retM (Some (en_provider en))
                end
          | _, _ => skip
          end
  end.

(** [matchRate] from position [index] on; [again] is [AssignLockPaymentOrder]. *)
Fixpoint matchRate (qfuel fuel : nat) (again : LockPaymentOrderFields -> M unit) (redisKey : string)
    (order : LockPaymentOrderFields) (excludeList : list string) (index : nat) : M unit :=
  match fuel with
  | 0%nat => panicM
  | S fuel' =>
      let! providerData := LIndex redisKey (Z.of_nat index) in
      let! hit := entry_serves qfuel excludeList order providerData in
      match hit with
      | None => matchRate qfuel fuel' again redisKey order excludeList (S index)
      | Some p =>
          let order := with_provider p order in
          do! ifM (index =? 0)%nat
                (let! data := LPop redisKey in RPush redisKey [data]) in
          do? sendOrderRequest order
          orelse e =>
            (do! logged (RPush (exclude_key order) [p]) in again order) in
          retM tt
      end
  end.

Definition set_po_rate (now : Z) (r : dec) (o : PaymentOrder) : PaymentOrder :=
  mkPO (po_id o) (po_amount o) (po_amount_paid o) (po_amount_returned o) (po_percent_settled o)
    (po_sender_fee o) (po_network_fee o) (po_protocol_fee o) r (po_tx_hash o) (po_block_number o)
    (po_from_address o) (po_return_address o) (po_receive_address_text o) (po_fee_percent o)
    (po_fee_address o) (po_gateway_id o) (po_message_hash o) (po_reference o) (po_status o)
    (po_amount_in_usd o) (po_token o) (po_linked_address o) (po_receive_address o)
    (po_recipient o) (po_payment_webhook o) (po_transactions o) (po_sender_profile o)
    (po_created_at o) now.

Definition ten_minutes : Z := 600000000000.

(** A request to the provider named in the order; [true] when it was sent.  A
    failed rate lookup leaves the zero rate. *)
Definition assign_directly (order : LockPaymentOrderFields) : M (bool * LockPaymentOrderFields) :=
  let! w := getM in
  let! order :=
    (if (of_updated_at order <? w_now w - ten_minutes)%Z then
       let! tk := deref (of_token order) in
       let! bucket := deref (of_provision_bucket order) in
       let! fc := deref (br_currency bucket) in
       let! r := attemptM (GetProviderRate (of_provider_id order) (tk_symbol tk) (fc_code fc)) in
       let order := with_rate (match r with inl _ => d_zero | inr rate => rate end) order in
       do! logged (write_db None (fun d =>
             set_payment_orders (alter (set_po_rate (w_now w) (of_rate order)) (of_id order) (db_payment_orders d)) d)) in
       retM order
     else retM order) in
  do? sendOrderRequest order orelse e => (retM (false, order)) in
  retM (true, order).

(** The search in the current queue of the bucket and, when that fails, in the
    previous one. *)
Definition assign_from_queue (qfuel : nat) (again : LockPaymentOrderFields -> M unit)
    (excludeList : list string) (order : LockPaymentOrderFields) : M unit :=
  let! bucket := deref (of_provision_bucket order) in
  let! fc := deref (br_currency bucket) in
  let redisKey := bucket_key (fc_code fc) (pb_min_amount (br_row bucket)) (pb_max_amount (br_row bucket)) in
  do? matchRate qfuel qfuel again redisKey order excludeList 0 orelse e =>
    (do? matchRate qfuel qfuel again (redisKey +:+ "_prev") order excludeList 0 orelse e' =>
       (if is_redis_nil e' then retM tt else errM e') in
     retM tt) in
  retM tt.

(** [provider] is nil when its query fails, and is dereferenced after it. *)
Fixpoint AssignLockPaymentOrder (qfuel depth : nat) (order : LockPaymentOrderFields) : M unit :=
  match depth with
  | 0%nat => panicM
  | S depth' =>
      let! excludeList := LRange (exclude_key order) in
      if negb (String.eqb (of_provider_id order) "") &&
         negb (ContainsString excludeList (of_provider_id order)) then
        let! r := attemptM (let! d := read_db None in
                            match db_providers d !! of_provider_id order with
                            | Some pp => retM pp | None => errM ENotFound end) in
        match r with
        | inl _ => panicM
        | inr pp =>
            let! res := assign_directly order in
            if fst res then retM tt
            else if bool_decide (pp_visibility_mode pp = VisPrivate) then retM tt
            else assign_from_queue qfuel (AssignLockPaymentOrder qfuel depth') excludeList (snd res)
        end
      else assign_from_queue qfuel (AssignLockPaymentOrder qfuel depth') excludeList order
  end.

End queue.
