(* ===== verification/QueueSteps.v ===== *)
(** * What the steps of the assignment do

    Each operation of [Queue] as a lemma about every pattern of failures: an
    order request ([send_wp]), the choice of an entry ([entry_serves_wp]), the
    rotation of a queue ([rotate_wp]); the invariant rule for the mutually
    recursive assignment ([assign_invariant]); and that no operation adds
    failures ([fault_mono]). *)

From S2P Require Import Prelude Decimal Schema Store Samples Balance Utils Services Queue.
Local Open Scope go_scope.
Local Open Scope string_scope.
Local Open Scope list_scope.

(** ** What each step does *)

Section queue_wp.
Context {O : DecimalOps} {L : DecimalLaws O} {SV : Services}.

(** Only provider calls to [p] are added to the events. *)
Definition calls_only (p : string) (evs : list Event) : Prop :=
  Forall (fun ev => exists path payload, ev = EvProviderCall p path payload) evs.

Lemma CallProvider_wp p meth path payload w :
  wp (CallProviderWithHMAC p meth path payload) (fun o w' =>
    o <> Panic /\ exists evs fs, w' = set_events (w_events w ++ evs) (set_faults fs w) /\
      calls_only p evs /\ (is_ret o = true -> evs = [EvProviderCall p path payload])) w.
Proof.
  assert (Hnone : forall e fs, (@Err (list (string * json)) e <> Panic /\ exists evs fs',
    set_faults fs w = set_events (w_events w ++ evs) (set_faults fs' w) /\
    calls_only p evs /\ (is_ret (@Err (list (string * json)) e) = true -> evs = [EvProviderCall p path payload]))).
  { intros e fs. split; [done|]. exists [], fs. split_and!; [|constructor|done].
    rewrite app_nil_r. by destruct w. }
  assert (Hsome : forall (o : outcome (list (string * json))) fs, o <> Panic -> (o <> Panic /\ exists evs fs',
    set_events (w_events w ++ [EvProviderCall p path payload]) (set_faults fs w) =
      set_events (w_events w ++ evs) (set_faults fs' w) /\
    calls_only p evs /\ (is_ret o = true -> evs = [EvProviderCall p path payload]))).
  { intros o fs Ho. split; [done|]. exists [EvProviderCall p path payload], fs.
    split_and!; [done| |done]. repeat constructor. by eexists _, _. }
  unfold CallProviderWithHMAC. wp_step.
  eapply wp_read_db; [reflexivity|intros fs|intros fs]; [|repeat wp_step; apply Hnone].
  repeat (wp_step; [..|try apply Hnone]); try apply Hnone.
  apply wp_ext; intros fs'; repeat wp_step; try apply Hnone; by apply (Hsome _ fs').
Qed.

Lemma notify_wp data p w :
  data !! "providerId" = Some p ->
  wp (notifyProvider data) (fun o w' =>
    o <> Panic /\ exists evs fs, w' = set_events (w_events w ++ evs) (set_faults fs w) /\
      calls_only p evs /\ (is_ret o = true -> evs = [EvProviderCall p "/new_order" (delete "providerId" data)])) w.
Proof.
  intros Hp. unfold notifyProvider. rewrite Hp. apply wp_bind. eapply wp_mono; [apply CallProvider_wp|].
  intros [a|e|] w1 (H1 & evs & fs & -> & H2 & H3); [|split; [done|]; by exists evs, fs|done].
  wp_step. split; [done|]. by exists evs, fs.
Qed.

Definition same_lists (w w' : World) : Prop := r_lists (w_redis w') = r_lists (w_redis w).

Lemma get_list_same k w w' : same_lists w w' -> get_list k (w_redis w') = get_list k (w_redis w).
Proof. unfold same_lists, get_list. by intros ->. Qed.

Lemma delete_reopened (X : gmap nat (DB -> DB)) n g h :
  delete n (<[n := h]> (<[n := g]> X)) = delete n X.
Proof. by rewrite insert_insert_eq, delete_insert_eq. Qed.


Lemma ReserveBalance_tx_missing p c amount t f w :
  w_txs w !! t = Some f -> db_provider_currencies (f (w_db w)) !! (p, c) = None ->
  wp (ReserveBalance p c amount (Some t)) (fun o w' =>
    (exists e, o = Err e) /\ exists fs, w' = set_faults fs w) w.
Proof.
  intros Hf Hpc. unfold ReserveBalance. wp_step.
  eapply wp_query_pc; [simpl; by rewrite Hf| |]; intros fs; [rewrite Hpc|];
    repeat wp_step; eauto.
Qed.

(** What [sendOrderRequest] changes, whatever fails. *)
Record sent (order : LockPaymentOrderFields) (code : string) (o : outcome unit) (w w' : World) : Prop := {
  st_lists : same_lists w w';
  st_now : w_now w' = w_now w;
  st_events : exists evs, w_events w' = w_events w ++ evs /\ calls_only (of_provider_id order) evs /\
    (is_ret o = true -> evs = [EvProviderCall (of_provider_id order) "/new_order"
       (delete "providerId" (<["orderId" := of_id order]> (request_data order code)))]);
  st_outcome : match o with
    | Ret _ => exists pc, db_provider_currencies (w_db w) !! (of_provider_id order, code) = Some pc /\
        (d_val (fiat_amount (of_amount order) (of_rate order)) <= d_val (pc_available_balance pc))%Q /\
        w_db w' = put_pc (of_provider_id order, code)
          (reserved_row (fiat_amount (of_amount order) (of_rate order)) (w_now w) pc) (w_db w) /\
        w_txs w' = delete (w_next_tx w) (w_txs w) /\
        r_hashes (w_redis w') !! request_key order =
          Some (request_data order code ∪ default ∅ (r_hashes (w_redis w) !! request_key order))
    | Err _ => w_db w' = w_db w
    | Panic => False
    end
}.

Lemma sent_nothing order code e w w' :
  same_lists w w' -> w_now w' = w_now w -> w_events w' = w_events w -> w_db w' = w_db w ->
  sent order code (Err e) w w'.
Proof.
  intros H1 H2 H3 H4. split; [done|done| |done]. exists []. rewrite app_nil_r. split_and!; [done|constructor|done].
Qed.

Lemma send_wp conf order br fc w :
  of_provision_bucket order = Some br -> br_currency br = Some fc ->
  wp (sendOrderRequest conf order) (fun o w' => sent order (fc_code fc) o w w') w.
Proof.
  intros Hb Hfc. unfold sendOrderRequest. rewrite Hb. do 2 wp_step. rewrite Hfc. do 2 wp_step.
  wp_step. wp_step; [|wp_step; by apply sent_nothing].
  destruct (db_provider_currencies (w_db w) !! (of_provider_id order, fc_code fc)) as [pc|] eqn:Hpc.
  2:{ wp_step. eapply wp_mono; [eapply ReserveBalance_tx_missing; [apply lookup_insert_eq|done]|].
      intros o w1 ([e ->] & fs1 & ->). repeat wp_step. by apply sent_nothing. }
  wp_step. eapply wp_mono; [eapply ReserveBalance_tx_wp; [apply lookup_insert_eq|done]|].
  intros o w1 (Hdb1 & Hnow1 & Hred1 & Hev1 & Hout). cbn in Hdb1, Hnow1, Hred1, Hev1.
  assert (Hno : forall e w2, same_lists w1 w2 -> w_now w2 = w_now w1 -> w_events w2 = w_events w1 ->
    w_db w2 = w_db w1 -> sent order (fc_code fc) (Err e) w w2).
  { intros e w2 H1 H2 H3 H4. apply sent_nothing; congruence. }
  destruct o as [[]|e|]; [|repeat wp_step; by apply Hno|done].
  destruct Hout as [Hle Htx1]. cbn in Hle, Htx1. rewrite insert_insert_eq in Htx1.
  wp_step. unfold HSet. wp_step; [|wp_step; by apply Hno].
  wp_step. wp_step. wp_step. wp_step.
  eapply (wp_mono _ (fun o w2 => o <> Panic /\ exists fs ex, w2 = set_redis (mkRedis (r_lists (w_redis w))
    (<[request_key order := request_data order (fc_code fc) ∪ default ∅ (r_hashes (w_redis w) !! request_key order)]>
       (r_hashes (w_redis w))) ex) (set_faults fs w1))).
  { unfold ExpireAt. apply wp_put_redis; intros fs2; (split; [done|]); exists fs2; eexists; by rewrite <- ?Hred1. }
  intros [[]|e|] w2 (Hp & fs2 & ex & ->); [| |done];
  (wp_step; eapply wp_mono; [apply (notify_wp _ (of_provider_id order));
     by rewrite lookup_insert_ne by done|];
   intros o3 w3 (Hp3 & evs & fs3 & -> & Hcalls & Hevs);
   destruct o3 as [data|e3|]; [wp_step; eapply wp_commit; [simpl; rewrite Htx1; apply lookup_insert_eq|intros fs4|intros fs4]| |done];
   repeat wp_step);
  try discriminate;
  (split; [by unfold same_lists | done | exists evs; simpl; rewrite Hev1; split_and!; [done|done|first [done | intros _; by apply Hevs]] |]);
  simpl; try done; exists pc; rewrite ?Hdb1, ?Htx1, ?delete_insert_eq, ?delete_delete_eq, ?lookup_insert_eq;
  (split_and!; [done|done|exact (alter_is_put _ _ _ (set_available_reserved _ _ _) _ Hpc)|done|done]).
Qed.
End queue_wp.

Section queue_match.
Context {O : DecimalOps} {L : DecimalLaws O} {SV : Services} {SL : ServicesLaws SV}.

(** The base currency of the token is the currency of the bucket, and is not
    the dollar. *)
Definition local_token (tk : Token) (fc : FiatCurrency) : bool :=
  EqualFold (tk_base_currency tk) (fc_code fc) && negb (String.eqb (tk_base_currency tk) "USD").

(** What a matched queue entry guarantees of the provider [p]. *)
Record entry_ok (d : DB) (excludeList : list string) (order : LockPaymentOrderFields)
    (tk : Token) (fc : FiatCurrency) (data p : string) : Prop := {
  eo_excluded : ContainsString excludeList p = false;
  eo_entry : exists en mn mx rate amount, parse_entry data = Some en /\
    en_provider en = p /\ en_symbol en = tk_symbol tk /\
    d_parse (en_min en) = Some mn /\ d_parse (en_max en) = Some mx /\ d_parse (en_rate en) = Some rate /\
    (d_val mn <= d_val amount <= d_val mx)%Q /\
    (local_token tk fc = false -> amount = of_amount order) /\
    exists t, t ∈ db_order_tokens d /\
      order_token_matches d p tk (fc_code fc) (nw_identifier (tk_network tk)) t = true /\
      (Qabs.Qabs (d_val rate - d_val (of_rate order)) <=
         d_val (of_rate order) * d_val (d_div (pot_rate_slippage t) (d_int 100)))%Q;
  eo_balance : exists pc, db_provider_currencies d !! (p, fc_code fc) = Some pc /\
    (d_val (fiat_amount (of_amount order) (of_rate order)) <= d_val (pc_available_balance pc))%Q
}.

Lemma normalized_amount_wp qfuel order tk fc w0 w :
  reads_only w0 w ->
  wp (normalized_amount qfuel order tk fc) (fun o w' => reads_only w0 w' /\
    forall a, o = Ret a -> local_token tk fc = false -> a = of_amount order) w.
Proof.
  intros Hw. unfold normalized_amount, local_token. case_match; [|wp_step; by split_and!; [|intros a [= <-]]].
  wp_step. eapply wp_mono; [apply GetTokenRateFromQueue_reads; [apply scan_buckets_reads|exact Hw]|].
  intros [r|e|] w1 H1; repeat wp_step; by split_and!.
Qed.

Lemma wp_first_filter {A} (p : A -> bool) (rows : list A) (Q : outcome A -> World -> Prop) w :
  (forall a, a ∈ rows -> p a = true -> Q (Ret a) w) -> Q (Err ENotFound) w ->
  wp (first (List.filter p rows)) Q w.
Proof.
  intros H1 H2. destruct (List.filter p rows) as [|a l] eqn:E; [done|].
  assert (Ha : In a (List.filter p rows)) by (rewrite E; by left).
  apply filter_In in Ha as [Ha Hp]. by apply H1; [apply list_elem_of_In|].
Qed.

Lemma CheckBalance_wp p c amount w0 w (Q : outcome bool -> World -> Prop) :
  reads_only w0 w ->
  (forall w' b, reads_only w0 w' -> (b = true -> exists pc, db_provider_currencies (w_db w0) !! (p, c) = Some pc /\
     (d_val amount <= d_val (pc_available_balance pc))%Q) -> Q (Ret b) w') ->
  (forall w' e, reads_only w0 w' -> Q (Err e) w') ->
  wp (CheckBalanceSufficiency p c amount) Q w.
Proof.
  intros Hw Hok Hbad. unfold CheckBalanceSufficiency, GetProviderBalance. do 2 wp_step.
  eapply wp_query_pc; [reflexivity|intros fs|intros fs]; [|by apply Hbad].
  destruct Hw as (Hdb & ?). case_match; [wp_step|by apply Hbad].
  apply Hok; [done|]. intros Hge. exists p0. split; [by rewrite <- Hdb|]. by apply d_ge_spec.
Qed.

Lemma entry_serves_wp qfuel excl order data tk br fc w0 w :
  of_token order = Some tk -> of_provision_bucket order = Some br -> br_currency br = Some fc ->
  reads_only w0 w ->
  wp (entry_serves qfuel excl order data) (fun o w' => reads_only w0 w' /\
    forall p, o = Ret (Some p) -> entry_ok (w_db w0) excl order tk fc data p) w.
Proof.
  intros Htk Hb Hfc Hw. unfold entry_serves.
  assert (Hskip : forall w', reads_only w0 w' -> reads_only w0 w' /\
    (forall p, @Ret (option string) None = Ret (Some p) -> entry_ok (w_db w0) excl order tk fc data p)) by done.
  destruct (parse_entry data) as [en|] eqn:Hen; [|by apply Hskip].
  destruct (ContainsString excl (en_provider en)) eqn:Hex; [by apply Hskip|].
  rewrite Htk. do 2 wp_step. destruct (negb _) eqn:Hsym; [by apply Hskip|].
  destruct (d_parse (en_min en)) as [mn|] eqn:Hmn; [|by apply Hskip].
  destruct (d_parse (en_max en)) as [mx|] eqn:Hmx; [|by apply Hskip].
  rewrite Hb. do 2 wp_step. rewrite Hfc. do 2 wp_step.
  wp_step. eapply wp_mono; [by apply normalized_amount_wp|].
  intros [amount|e|] w1 [H1 Hamount]; [|by apply Hskip|done].
  destruct (_ || _) eqn:Hlim; [by apply Hskip|]. apply orb_false_iff in Hlim as [Hlo Hhi].
  destruct (d_parse (en_rate en)) as [rate|] eqn:Hrate; [|by apply Hskip].
  wp_step. eapply (wp_mono _ (fun o w' => reads_only w0 w' /\ o <> Panic)).
  { case_match; [by wp_step|]. wp_step. by eapply wp_read_db; [reflexivity|intros fs; wp_step|intros fs]. }
  intros [[]|e|] w2 [H2 Hp2]; [|by apply Hskip|done].
  do 2 wp_step. eapply wp_read_db; [reflexivity|intros fs|intros fs]; [|by apply Hskip].
  apply wp_first_filter; [intros t Ht Hmatch|by apply Hskip].
  destruct (negb (d_le _ _)) eqn:Hdev; [by apply Hskip|]. apply negb_false_iff in Hdev.
  wp_step. apply (CheckBalance_wp _ _ _ w0); [done| |by intros; apply Hskip].
  intros w3 b H3 Hbal. destruct b; cbn [negb]; [|by apply Hskip]. wp_step. split; [done|]. intros p [= <-].
  assert (Hdb2 : w_db w2 = w_db w0) by apply H2.
  split; [done| |by apply Hbal].
  exists en, mn, mx, rate, amount. apply negb_false_iff, String.eqb_eq in Hsym.
  split_and!; try done; [dec_lra|dec_lra|by apply Hamount|].
  exists t. rewrite <- Hdb2. split_and!; [done|done|].
  apply d_le_spec in Hdev. rewrite val_abs, val_mul, val_sub in Hdev. done.
Qed.

End queue_match.

(** ** An invariant rule for the assignment

    To show that [AssignLockPaymentOrder] maintains a property of the world it
    is enough to show it for the reads, for one order request, for the rotation
    of a queue, for the growth of the exclude list and for the rate update. *)

Section assign_rule.
Context {O : DecimalOps} {L : DecimalLaws O} {SV : Services} {SL : ServicesLaws SV}.
Variable conf : Config.
Variable order0 : LockPaymentOrderFields.
Variables (tk : Token) (br : BucketRef) (fc : FiatCurrency).
Hypothesis Htk : of_token order0 = Some tk.
Hypothesis Hbr : of_provision_bucket order0 = Some br.
Hypothesis Hfc : br_currency br = Some fc.

Definition order_bucket_key : string :=
  bucket_key (fc_code fc) (pb_min_amount (br_row br)) (pb_max_amount (br_row br)).

Variable I : World -> Prop.
Variable okp : string -> Prop.
Variable okr : dec -> Prop.
Hypothesis I_reads : forall w w', I w -> reads_only w w' -> I w'.
Hypothesis I_excluded : forall w p,
  I w -> ContainsString (get_list (exclude_key order0) (w_redis w)) p = false -> okp p.
Hypothesis I_send : forall p r w, okp p -> okr r -> I w ->
  wp (sendOrderRequest conf (with_provider p (with_rate r order0))) (fun _ w' => I w') w.
Hypothesis I_rotate : forall key w, key = order_bucket_key \/ key = order_bucket_key +:+ "_prev" -> I w ->
  wp (let! data := LPop key in RPush key [data])%go (fun _ w' => I w') w.
Hypothesis I_exclude : forall p w, okp p -> I w ->
  wp (RPush (exclude_key order0) [p]) (fun _ w' => I w') w.
Hypothesis I_rate : forall w r now, I w -> okr r ->
  I (set_db (set_payment_orders (alter (set_po_rate now r) (of_id order0) (db_payment_orders (w_db w))) (w_db w)) w).
Hypothesis I_provider_rate : forall p symbol w, I w ->
  wp (GetProviderRate p symbol (fc_code fc)) (fun o _ => forall r, o = Ret r -> okr r) w.
Hypothesis okr_zero : okr d_zero.

(** The orders that the assignment passes on. *)
Definition variant (o : LockPaymentOrderFields) : Prop :=
  exists p r, o = with_provider p (with_rate r order0) /\ okr r.

Lemma GetProviderRate_reads p symbol c w :
  wp (GetProviderRate p symbol c) (fun _ w' => reads_only w w') w.
Proof.
  unfold GetProviderRate. wp_step. eapply wp_read_db; [reflexivity|intros fs|by intros fs].
  wp_step. apply wp_first_filter; [intros t Ht Hm|done]. by repeat wp_step.
Qed.

Lemma wp_conj {A} (m : M A) P Q w : wp m P w -> wp m Q w -> wp m (fun o w' => P o w' /\ Q o w') w.
Proof. by split. Qed.

Lemma logged_wp m (J : World -> Prop) w :
  wp m (fun _ w' => J w') w -> wp (logged m) (fun o w' => J w') w.
Proof. intros H. unfold logged. wp_step. eapply wp_mono; [exact H|]. by intros [?|?|] w'. Qed.

Lemma matchRate_invariant qfuel again key p0 r excl fuel : forall index w,
  okr r -> (forall p, ContainsString excl p = false -> okp p) ->
  (key = order_bucket_key \/ key = order_bucket_key +:+ "_prev") ->
  (forall o w, variant o -> I w -> wp (again o) (fun _ w' => I w') w) ->
  I w ->
  wp (matchRate conf qfuel fuel again key (with_provider p0 (with_rate r order0)) excl index)
    (fun _ w' => I w') w.
Proof.
  induction fuel as [|fuel IH]; intros index w Hr Hexcl Hkey Hagain HI; [done|].
  cbn [matchRate]. wp_step. unfold LIndex. wp_step. wp_step; [|by eapply I_reads].
  repeat case_match; [wp_step|by eapply I_reads].
  assert (HI1 : I (set_faults fs w)) by (by eapply I_reads).
  wp_step. eapply wp_mono; [by apply (entry_serves_wp _ _ _ _ tk br fc (set_faults fs w))|].
  intros [[p|]|e|] w1 [H1 Hok]; try (by eapply I_reads); [|apply IH; auto; by eapply I_reads].
  assert (Hp : okp p) by (by apply Hexcl, (Hok p eq_refl)).
  assert (HI2 : I w1) by (by eapply I_reads).
  wp_step. eapply (wp_mono _ (fun o w' => I w')).
  { unfold ifM. case_match; [by apply I_rotate|done]. }
  intros [[]|e|] w2 HI3; [|done|done].
  wp_step. eapply wp_mono; [by apply I_send|].
  intros [[]|e|] w3 HI4; [done| |done].
  wp_step. eapply wp_mono; [apply logged_wp; by apply I_exclude|].
  intros [[]|e'|] w4 HI5; [|done|done]. apply Hagain; [|done]. by exists p, r.
Qed.

Lemma assign_directly_invariant p r w :
  okp p -> okr r -> I w ->
  wp (assign_directly conf (with_provider p (with_rate r order0))) (fun o w' => I w' /\
    forall b o', o = Ret (b, o') -> exists r', o' = with_provider p (with_rate r' order0) /\ okr r') w.
Proof.
  intros Hp Hr HI. unfold assign_directly. do 2 wp_step. wp_step.
  eapply (wp_mono _ (fun o w' => I w' /\ forall o', o = Ret o' ->
    exists r', o' = with_provider p (with_rate r' order0) /\ okr r')).
  { case_match; [|wp_step; split; [done|]; intros o' [= <-]; eauto].
    cbn [with_provider with_rate of_token of_provision_bucket of_provider_id]. rewrite Htk, Hbr.
    do 4 wp_step. rewrite Hfc. do 2 wp_step. wp_step. wp_step.
    eapply wp_mono; [apply wp_conj; [apply GetProviderRate_reads|by apply I_provider_rate]|].
    intros o w1 [Hreads Hrate].
    assert (HI1 : I w1) by (by eapply I_reads).
    destruct o as [rate|e|]; [| |by split].
    all: wp_step; (eapply wp_mono;
      [apply (logged_wp _ I); wp_step;
        [eapply (I_rate (set_faults _ w1)); [by eapply I_reads|auto]|by eapply I_reads]|]);
      (intros [[]|e'|] w2 HI2; [wp_step|by split|by split]); (split; [done|]);
      intros o' [= <-]; eexists; (split; [reflexivity|auto]). }
  intros [o'|e|] w1 [HI1 Ho]; [|by split|by split]. destruct (Ho o' eq_refl) as (r' & -> & Hr').
  wp_step. eapply wp_mono; [by apply I_send|].
  intros [[]|e|] w2 HI2; try wp_step; (split; [done|]); intros b o' [= <- <-]; eauto.
Qed.

(** The rule. *)
Lemma assign_invariant qfuel depth : forall o w,
  variant o -> I w -> wp (AssignLockPaymentOrder conf qfuel depth o) (fun _ w' => I w') w.
Proof.
  induction depth as [|depth IH]; intros o w (p & r & -> & Hr) HI; [done|].
  cbn [AssignLockPaymentOrder]. wp_step. unfold LRange. wp_step. wp_step; [|by eapply I_reads]. wp_step.
  set (excl := get_list _ _).
  assert (HI1 : I (set_faults fs w)) by (by eapply I_reads).
  assert (Hexcl : forall q, ContainsString excl q = false -> okp q) by (intros q Hq; by apply (I_excluded w)).
  assert (Hfq : forall p' r' w', okr r' -> I w' ->
    wp (assign_from_queue conf qfuel (AssignLockPaymentOrder conf qfuel depth) excl
          (with_provider p' (with_rate r' order0))) (fun _ w' => I w') w').
  { intros p' r' w' Hr' HI'. unfold assign_from_queue. cbn [with_provider with_rate of_provision_bucket]. rewrite Hbr.
    do 2 wp_step. rewrite Hfc. do 2 wp_step. wp_step.
    eapply wp_mono; [apply matchRate_invariant; eauto; by left|].
    intros [[]|e|] w2 HI2; [done| |done]. wp_step.
    eapply wp_mono; [apply matchRate_invariant; eauto; by right|].
    intros [[]|e'|] w3 HI3; [done| |done]. by case_match. }
  cbn [with_provider with_rate of_provider_id].
  destruct (_ && _) eqn:Hcond; [|by apply Hfq].
  apply andb_true_iff in Hcond as [_ Hnot%negb_true_iff].
  wp_step. wp_step. wp_step. eapply wp_read_db; [reflexivity|intros fs1|intros fs1]; [|by wp_step; eapply I_reads].
  assert (HI2 : I (set_faults fs1 (set_faults fs w))) by (by eapply I_reads).
  case_match; wp_step; [|by wp_step]. wp_step.
  eapply wp_mono; [apply assign_directly_invariant; auto|].
  intros [[b o']|e|] w2 [HI3 Ho]; [|done|done]. destruct (Ho b o' eq_refl) as (r' & -> & Hr').
  simpl. destruct b; [done|]. case_match; [done|]. by apply Hfq.
Qed.

End assign_rule.

(** ** Redis lists *)

Section queue_lists.
Context {O : DecimalOps}.

Lemma get_put_list k k' l r :
  get_list k (put_list k' l r) = if decide (k = k') then l else get_list k r.
Proof.
  unfold get_list, put_list; simpl. destruct l as [|x l]; case_decide; subst;
    by rewrite ?lookup_delete_eq, ?lookup_insert_eq, ?lookup_delete_ne, ?lookup_insert_ne.
Qed.

Lemma wp_ext_false fs (Q : outcome unit -> World -> Prop) w :
  w_faults w = false :: fs -> Q (Ret tt) (set_faults fs w) -> wp ext Q w.
Proof. intros E H. unfold wp, ext. by rewrite E. Qed.
Lemma wp_ext_true fs (Q : outcome unit -> World -> Prop) w :
  w_faults w = true :: fs -> Q (Err EFault) (set_faults fs w) -> wp ext Q w.
Proof. intros E H. unfold wp, ext. by rewrite E. Qed.

(** The rotation of a queue, whatever fails. *)
Inductive rotated (key : string) (w : World) : outcome unit -> World -> Prop :=
  | rot_none e fs : rotated key w (Err e) (set_faults fs w)
  | rot_lost e fs s l : get_list key (w_redis w) = s :: l ->
      rotated key w (Err e) (set_redis (put_list key l (w_redis w)) (set_faults fs w))
  | rot_done fs s l r : get_list key (w_redis w) = s :: l ->
      (forall k, get_list k r = get_list k (put_list key (l ++ [s]) (w_redis w))) ->
      r_hashes r = r_hashes (w_redis w) ->
      rotated key w (Ret tt) (set_redis r (set_faults fs w)).

Lemma rotate_wp key w : wp (let! data := LPop key in RPush key [data])%go (rotated key w) w.
Proof.
  unfold LPop. do 2 wp_step. wp_step; [|apply rot_none]. unfold wp.
  destruct (get_list key (w_redis w)) as [|s l] eqn:E; [apply rot_none|].
  change (wp (RPush key [s]) (rotated key w) (set_redis (put_list key l (w_redis w)) (set_faults fs w))).
  unfold RPush. apply wp_put_redis; intros fs'; [|by apply (rot_lost _ _ _ fs' s)].
  refine (rot_done key w fs' s l
    (put_list key (get_list key (put_list key l (w_redis w)) ++ [s]) (put_list key l (w_redis w))) E _ _);
    [|done].
  intros k. simpl. rewrite !get_put_list. by case_decide; rewrite ?decide_True by done.
Qed.
End queue_lists.


(** Symbolic execution when the failure pattern is known. *)
Ltac known_step :=
  lazymatch goal with
  | |- wp ext _ ?w =>
      first [ eapply wp_ext_false; [cbn; eassumption || reflexivity|] | eapply wp_ext_true; [cbn; eassumption || reflexivity|] ]
  | |- wp (fun _ => _) _ _ => unfold wp at 1; cbn; rewrite ?lookup_insert_eq; cbn
  | _ => wp_step
  end.


(** ** Failures are consumed *)

Section faults.
Context {O : DecimalOps} {L : DecimalLaws O} {SV : Services} {SL : ServicesLaws SV}.

(** A computation never adds failures to the pattern. *)
Definition fault_mono {A} (m : M A) : Prop :=
  forall w, (length (w_faults (m w).2) <= length (w_faults w))%nat.

Lemma fm_same {A} (f : World -> outcome A * World) : (forall w, w_faults (f w).2 = w_faults w) -> fault_mono f.
Proof. intros H w. by rewrite H. Qed.
Lemma fm_ret {A} (a : A) : fault_mono (retM a).
Proof. by apply fm_same. Qed.
Lemma fm_err {A} e : fault_mono (@errM O A e).
Proof. by apply fm_same. Qed.
Lemma fm_panic {A} : fault_mono (@panicM O A).
Proof. by apply fm_same. Qed.
Lemma fm_get : fault_mono getM.
Proof. by apply fm_same. Qed.
Lemma fm_emit e : fault_mono (emit e).
Proof. by apply fm_same. Qed.
Lemma fm_rollback t : fault_mono (rollback_tx t).
Proof. by apply fm_same. Qed.
Lemma fm_ext : fault_mono ext.
Proof. intros w. unfold ext. destruct (w_faults w) as [|[] ?] eqn:E; simpl; rewrite ?E; simpl; lia. Qed.
Lemma fm_bind {A B} (m : M A) (k : A -> M B) :
  fault_mono m -> (forall a, fault_mono (k a)) -> fault_mono (bindM m k).
Proof.
  intros Hm Hk w. unfold bindM. specialize (Hm w). destruct (m w) as [[a|e|] w1]; simpl in *; [|done|done].
  specialize (Hk a w1). lia.
Qed.
Lemma fm_try {A B} (m : M A) (h : error -> M B) (k : A -> M B) :
  fault_mono m -> (forall e, fault_mono (h e)) -> (forall a, fault_mono (k a)) -> fault_mono (tryM m h k).
Proof.
  intros Hm Hh Hk w. unfold tryM. specialize (Hm w). destruct (m w) as [[a|e|] w1]; simpl in *; [| |done].
  - specialize (Hk a w1). lia.
  - specialize (Hh e w1). lia.
Qed.
Lemma fm_commit t : fault_mono (commit_tx t).
Proof.
  intros w. unfold commit_tx. destruct (w_txs w !! t) as [f|]; [|done].
  pose proof (fm_ext (set_txs (delete t (w_txs w)) w)) as H.
  destruct (ext _) as [[[]|e|] w1]; exact H.
Qed.
Lemma fm_scan c : fault_mono (scan_buckets c).
Proof. intros w. apply scan_buckets_faults. Qed.
End faults.

Create HintDb faults.
#[export] Hint Resolve fm_ret fm_err fm_panic fm_get fm_emit fm_rollback fm_commit fm_ext : faults.

(** One step of a proof of [fault_mono]: a known computation, a combinator, or
    the definition of the operation. *)
Ltac fm_step :=
  first [ solve [auto 1 with faults nocore] |
  lazymatch goal with
  | |- fault_mono (scan_buckets _) => apply fm_scan
  | |- fault_mono (bindM _ _) => apply fm_bind; [|intros ?]
  | |- fault_mono (tryM _ _ _) => apply fm_try; [|intros ?|intros ?]
  | |- fault_mono (wrapM _ _) => unfold wrapM
  | |- fault_mono (attemptM _) => unfold attemptM
  | |- fault_mono (logged _) => unfold logged
  | |- fault_mono (ifM _ _) => unfold ifM
  | |- fault_mono (deref _) => unfold deref
  | |- fault_mono (go_div _ _) => unfold go_div
  | |- fault_mono (first _) => unfold first
  | |- fault_mono (match ?x with _ => _ end) => destruct x
  | |- fault_mono (let '(_, _) := ?x in _) => destruct x
  | |- fault_mono (fun _ => _) => apply fm_same; intros ?; cbn; repeat case_match; done
  | |- fault_mono (?f _ _ _ _ _ _ _ _) => unfold f
  | |- fault_mono (?f _ _ _ _ _ _ _) => unfold f
  | |- fault_mono (?f _ _ _ _ _ _) => unfold f
  | |- fault_mono (?f _ _ _ _ _) => unfold f
  | |- fault_mono (?f _ _ _ _) => unfold f
  | |- fault_mono (?f _ _ _) => unfold f
  | |- fault_mono (?f _ _) => unfold f
  | |- fault_mono (?f _) => unfold f
  end; cbn beta zeta ].

Section faults_queue.
Context {O : DecimalOps} {L : DecimalLaws O} {SV : Services} {SL : ServicesLaws SV}.
Variable conf : Config.

Lemma fm_token_rate_in_queue key symbol amount mn mx : forall fuel i acc,
  fault_mono (token_rate_in_queue fuel i key symbol amount mn mx acc).
Proof. induction fuel as [|fuel IH]; intros i acc; simpl; repeat (fm_step || apply IH). Qed.
#[local] Hint Resolve fm_token_rate_in_queue : faults.
Lemma fm_token_rate_in_keys symbol amount fuel keys : forall acc,
  fault_mono (token_rate_in_keys fuel keys symbol amount acc).
Proof.
  induction keys as [|key rest IH]; intros acc; simpl; repeat (apply IH || fm_step).
Qed.
#[local] Hint Resolve fm_token_rate_in_keys : faults.
Lemma fm_entry_serves qfuel excl order data : fault_mono (entry_serves qfuel excl order data).
Proof. unfold entry_serves. cbn beta zeta. repeat fm_step. Qed.
Lemma fm_sendOrderRequest order : fault_mono (sendOrderRequest conf order).
Proof. unfold sendOrderRequest. cbn beta zeta. repeat fm_step. Qed.
#[local] Hint Resolve fm_entry_serves fm_sendOrderRequest : faults.
Lemma fm_assign_directly order : fault_mono (assign_directly conf order).
Proof. unfold assign_directly. cbn beta zeta. repeat fm_step. Qed.
#[local] Hint Resolve fm_assign_directly : faults.
Lemma fm_matchRate qfuel again key order excl : (forall o, fault_mono (again o)) ->
  forall fuel index, fault_mono (matchRate conf qfuel fuel again key order excl index).
Proof.
  intros Hagain. induction fuel as [|fuel IH]; intros index; simpl;
    repeat (apply IH || apply Hagain || fm_step).
Qed.
Lemma fm_assign qfuel depth : forall order, fault_mono (AssignLockPaymentOrder conf qfuel depth order).
Proof.
  induction depth as [|depth IH]; intros order; cbn [AssignLockPaymentOrder]; unfold assign_from_queue;
    cbn beta zeta; repeat ((apply fm_matchRate; intros ?; apply IH) || fm_step).
Qed.
End faults_queue.
#[export] Hint Resolve fm_entry_serves fm_sendOrderRequest fm_assign_directly fm_assign : faults.

(** ** Shared lemmas *)

Section queue_shared.
Context {O : DecimalOps}.

Lemma order_variant o : o = with_provider (of_provider_id o) (with_rate (of_rate o) o).
Proof. by destruct o. Qed.

Lemma ContainsString_elem l x : ContainsString l x = true <-> x ∈ l.
Proof.
  induction l as [|y l IH]; simpl; [split; [done|by intros ?%not_elem_of_nil]|].
  rewrite elem_of_cons. destruct (String.eqb_spec y x) as [->|Hne]; [by split; [left|]|].
  rewrite IH. split; [by right|]. by intros [->|].
Qed.
Lemma ContainsString_not_elem l x : ContainsString l x = false <-> x ∉ l.
Proof. rewrite <- ContainsString_elem. by destruct (ContainsString l x). Qed.

Lemma wp_run {A} (m : M A) Q w o w' : wp m Q w -> m w = (o, w') -> Q o w'.
Proof. unfold wp. intros H E. by rewrite E in H. Qed.
Lemma fm_run {A} (m : M A) w o w' :
  fault_mono m -> m w = (o, w') -> (length (w_faults w') <= length (w_faults w))%nat.
Proof. intros H E. specialize (H w). by rewrite E in H. Qed.

Lemma bind_ret {A B} (a : A) (k : A -> M B) : bindM (retM a) k = k a.
Proof. done. Qed.
Lemma try_ret {A B} (a : A) (h : error -> M B) (k : A -> M B) : tryM (retM a) h k = k a.
Proof. done. Qed.

End queue_shared.
