(* ===== verification/QueueTermination.v ===== *)
(** * Termination of the assignment

    [AssignLockPaymentOrder] and [matchRate] call each other without a bound in
    the code.  The work left is the failures still to come plus the queue
    entries whose provider is not yet excluded; every reassignment decreases it. *)

From S2P Require Import Prelude Decimal Schema Store Samples Balance Utils Services Queue QueueSteps.
Local Open Scope go_scope.
Local Open Scope string_scope.
Local Open Scope list_scope.

(** ** Termination *)

Section termination.
Context {O : DecimalOps} {L : DecimalLaws O} {SV : Services} {SL : ServicesLaws SV}.
Variable conf : Config.
Variable order0 : LockPaymentOrderFields.
Variables (tk : Token) (br : BucketRef) (fc : FiatCurrency).
Hypothesis Htk : of_token order0 = Some tk.
Hypothesis Hbr : of_provision_bucket order0 = Some br.
Hypothesis Hfc : br_currency br = Some fc.

#[local] Abbreviation qkey := (order_bucket_key br fc).
#[local] Abbreviation pkey := (order_bucket_key br fc +:+ "_prev").
Definition excluded (w : World) : list string := get_list (exclude_key order0) (w_redis w).

(** An entry whose provider is not excluded. *)
Definition live_entry (excl : list string) (data : string) : bool :=
  match parse_entry data with
  | Some en => negb (ContainsString excl (en_provider en))
  | None => false
  end.
(** The entries of the two queues that may still be tried. *)
Definition pending (w : World) : nat :=
  length (List.filter (live_entry (excluded w)) (get_list qkey (w_redis w) ++ get_list pkey (w_redis w))).
(** Each reassignment excludes one more provider or consumes a failure. *)
Definition work (w : World) : nat := (length (w_faults w) + pending w)%nat.

Definition bucket_lists_below (q : nat) (w : World) : Prop :=
  forall k, HasPrefix k "bucket_" = true -> (length (get_list k (w_redis w)) < q)%nat.

(** Queues only lose entries and the exclude list only grows. *)
Definition shrinks (w w' : World) : Prop :=
  (forall k, HasPrefix k "bucket_" = true -> get_list k (w_redis w') ⊆+ get_list k (w_redis w)) /\
  excluded w `prefix_of` excluded w'.

Lemma shrinks_refl w : shrinks w w.
Proof. by split. Qed.
Lemma shrinks_trans w1 w2 w3 : shrinks w1 w2 -> shrinks w2 w3 -> shrinks w1 w3.
Proof.
  intros [H1 H2] [H3 H4]. split; [|by etrans]. intros k Hk. etrans; [by apply H3|by apply H1].
Qed.
Lemma shrinks_same w w' : w_redis w' = w_redis w -> shrinks w w'.
Proof. unfold shrinks, excluded. by intros ->. Qed.
Lemma shrinks_lists w w' : same_lists w w' -> shrinks w w'.
Proof.
  intros H. split; [intros k _|unfold excluded]; by rewrite (get_list_same _ _ _ H).
Qed.
#[local] Hint Resolve shrinks_refl shrinks_same shrinks_lists : frame.
Lemma shrinks_below q w w' : shrinks w w' -> bucket_lists_below q w -> bucket_lists_below q w'.
Proof.
  intros [H _] Hb k Hk. specialize (Hb k Hk). specialize (H k Hk). apply submseteq_length in H. lia.
Qed.

Lemma live_entry_mono excl excl' data :
  excl `prefix_of` excl' -> live_entry excl' data = true -> live_entry excl data = true.
Proof.
  unfold live_entry. destruct (parse_entry data); [|done]. intros [l ->] H%negb_true_iff.
  apply negb_true_iff. apply ContainsString_not_elem in H. apply ContainsString_not_elem. set_solver.
Qed.

Lemma filter_length_submseteq (P : string -> bool) l l' :
  l ⊆+ l' -> (length (List.filter P l) <= length (List.filter P l'))%nat.
Proof.
  induction 1; simpl; repeat case_match; simpl; lia.
Qed.
Lemma filter_length_impl (P P' : string -> bool) l :
  (forall x, P x = true -> P' x = true) -> (length (List.filter P l) <= length (List.filter P' l))%nat.
Proof.
  intros H. induction l as [|x l IH]; simpl; [done|].
  destruct (P x) eqn:E; [rewrite (H _ E); simpl; lia|]. case_match; simpl; lia.
Qed.
Lemma filter_length_strict (P P' : string -> bool) l y :
  (forall x, P x = true -> P' x = true) -> y ∈ l -> P y = false -> P' y = true ->
  (length (List.filter P l) < length (List.filter P' l))%nat.
Proof.
  intros H Hy HP HP'. induction l as [|x l IH]; simpl; [by apply not_elem_of_nil in Hy|].
  pose proof (filter_length_impl P P' l H) as Hle. apply elem_of_cons in Hy as [<-|Hy].
  - rewrite HP, HP'. simpl. lia.
  - specialize (IH Hy). destruct (P x) eqn:E; [rewrite (H _ E); simpl; lia|]. case_match; simpl; lia.
Qed.

Lemma qkey_prefix : HasPrefix qkey "bucket_" = true.
Proof. exact (HasPrefix_append "bucket_" _). Qed.
Lemma pkey_prefix : HasPrefix pkey "bucket_" = true.
Proof. exact (HasPrefix_append "bucket_" _). Qed.
Lemma exclude_no_prefix : HasPrefix (exclude_key order0) "bucket_" = false.
Proof. done. Qed.

Lemma pending_mono w w' : shrinks w w' -> (pending w' <= pending w)%nat.
Proof.
  intros [H1 H2]. unfold pending.
  etrans; [apply filter_length_impl; intros x; by apply live_entry_mono|].
  apply filter_length_submseteq, submseteq_app; apply H1; [apply qkey_prefix|apply pkey_prefix].
Qed.

(** Excluding the provider of a queued entry leaves less to try. *)
Lemma pending_exclude w w' data en :
  data ∈ get_list qkey (w_redis w) ++ get_list pkey (w_redis w) ->
  parse_entry data = Some en -> en_provider en ∉ excluded w -> en_provider en ∈ excluded w' ->
  shrinks w w' -> (pending w' < pending w)%nat.
Proof.
  intros Hin Hen Hnot Hnow [H1 H2]. unfold pending.
  eapply Nat.le_lt_trans; [apply filter_length_submseteq, submseteq_app; apply H1; [apply qkey_prefix|apply pkey_prefix]|].
  apply (filter_length_strict _ _ _ data); [intros x; by apply live_entry_mono|done|..]; unfold live_entry; rewrite Hen.
  - apply negb_false_iff. by apply ContainsString_elem.
  - apply negb_true_iff. by apply ContainsString_not_elem.
Qed.

Lemma rotated_shrinks key w o w' :
  HasPrefix key "bucket_" = true -> rotated key w o w' -> shrinks w w' /\ excluded w' = excluded w.
Proof.
  intros Hkey Hrot. assert (Hne : exclude_key order0 <> key) by (by intros <-).
  destruct Hrot as [e fs|e fs s l Hs|fs s l r Hs Hr _].
  - split; [by apply shrinks_same|done].
  - assert (He : excluded (set_redis (put_list key l (w_redis w)) (set_faults fs w)) = excluded w).
    { unfold excluded; simpl. by rewrite get_put_list, decide_False by done. }
    split; [|done]. split; [|by rewrite He]. intros k Hk. simpl. rewrite get_put_list. case_decide as Hd; [subst; rewrite Hs|done].
    by apply submseteq_cons.
  - assert (He : excluded (set_redis r (set_faults fs w)) = excluded w).
    { unfold excluded; simpl. by rewrite Hr, get_put_list, decide_False by done. }
    split; [|done]. split; [|by rewrite He]. intros k Hk. simpl. rewrite Hr, get_put_list. case_decide as Hd; [subst; rewrite Hs|done].
    by rewrite <- Permutation_cons_append.
Qed.

Lemma push_excluded p w fs :
  let w' := set_redis (put_list (exclude_key order0) (excluded w ++ [p]) (w_redis w)) (set_faults fs w) in
  shrinks w w' /\ p ∈ excluded w'.
Proof.
  intros w'. assert (He : excluded w' = excluded w ++ [p]).
  { unfold excluded, w'; simpl. by rewrite get_put_list, decide_True by done. }
  split; [split; [|by rewrite He; apply prefix_app_r]|rewrite He; set_solver].
  intros k Hk. unfold w'; simpl. rewrite get_put_list. case_decide as Hd; [by subst|done].
Qed.

Lemma assign_shrinks qfuel depth o w :
  variant order0 (fun _ => True) o ->
  wp (AssignLockPaymentOrder conf qfuel depth o) (fun _ w' => shrinks w w') w.
Proof.
  intros Ho.
  eapply (assign_invariant conf order0 tk br fc Htk Hbr Hfc (shrinks w) (fun _ => True) (fun _ => True)); try done.
  - intros w1 w2 H (_ & Hr & _). eapply shrinks_trans; [done|by apply shrinks_same].
  - intros p r w1 _ _ HI. eapply wp_mono; [by apply (send_wp _ _ br fc)|].
    intros o' w2 [Hl _ _ _]. eapply shrinks_trans; [done|by apply shrinks_lists].
  - intros k w1 Hk HI. eapply wp_mono; [apply rotate_wp|]. intros o' w2 Hrot.
    eapply shrinks_trans; [done|]. eapply rotated_shrinks; [|exact Hrot].
    destruct Hk as [->| ->]; [apply qkey_prefix|apply pkey_prefix].
  - intros p w1 _ HI. unfold RPush. apply wp_put_redis; intros fs.
    + eapply shrinks_trans; [done|apply push_excluded].
    + eapply shrinks_trans; [done|by apply shrinks_same].
Qed.

Lemma work_mono w w' :
  shrinks w w' -> (length (w_faults w') <= length (w_faults w))%nat -> (work w' <= work w)%nat.
Proof. intros H%pending_mono Hf. unfold work. lia. Qed.

Lemma entry_serves_fuel q q' excl p r data w :
  bucket_lists_below q w -> (q <= q')%nat ->
  entry_serves q excl (with_provider p (with_rate r order0)) data w =
  entry_serves q' excl (with_provider p (with_rate r order0)) data w.
Proof.
  intros Hb Hq.
  assert (Hn : normalized_amount q (with_provider p (with_rate r order0)) tk fc w =
               normalized_amount q' (with_provider p (with_rate r order0)) tk fc w).
  { unfold normalized_amount. case_match; [|done]. unfold bindM.
    rewrite (GetTokenRateFromQueue_fuel _ _ _ _ q q'); [done|apply scan_buckets_reads| |done].
    intros keys w' Hk%scan_buckets_prefix. eapply Forall_impl; [exact Hk|]. intros k Hpk. by apply Hb. }
  unfold entry_serves. destruct (parse_entry data) as [en|]; [|done]. case_match; [done|].
  cbn [with_provider with_rate of_token of_provision_bucket]. rewrite Htk, Hbr. unfold deref.
  rewrite !bind_ret. case_match; [done|]. do 2 (case_match; [|done]). rewrite !bind_ret, Hfc, !try_ret.
  unfold tryM at 1. symmetry. unfold tryM at 1. symmetry. cbn beta. by rewrite Hn.
Qed.

Lemma LIndex_run key i w data w' :
  LIndex key (Z.of_nat i) w = (Ret data, w') ->
  get_list key (w_redis w) !! i = Some data /\ w_redis w' = w_redis w.
Proof.
  unfold LIndex, get_redis, ext, bindM.
  destruct (w_faults w) as [|[] ?]; simpl; [|done|]; rewrite list_index_nat;
    (destruct (_ !! i) as [s|] eqn:El; [|done]); unfold retM; by intros [= <- <-].
Qed.

(** The push to the exclude list either succeeds or consumes a failure. *)
Lemma push_run p w o w' :
  logged (RPush (exclude_key order0) [p]) w = (o, w') ->
  shrinks w w' /\ (length (w_faults w') <= length (w_faults w))%nat /\ o = Ret tt /\
  (p ∈ excluded w' \/ (length (w_faults w') < length (w_faults w))%nat).
Proof.
  unfold logged, RPush, put_redis, tryM, bindM, ext.
  destruct (w_faults w) as [|[] fs] eqn:E; simpl; unfold retM; intros [= <- <-]; simpl; rewrite ?E.
  - pose proof (push_excluded p w (w_faults w)) as [H1 H2]. rewrite set_faults_id in H1, H2. split_and!; [done|done|done|by left].
  - split_and!; [by apply shrinks_same|simpl; lia|done|right; simpl; lia].
  - pose proof (push_excluded p w fs) as [H1 H2]. split_and!; [done|simpl; lia|done|by left].
Qed.

(** A failed request: afterwards there is less work left. *)
Lemma hit_work q excl p0 r index key data p w w0 w1 w2 e w3 o4 w4 :
  key = qkey \/ key = pkey ->
  LIndex key (Z.of_nat index) w = (Ret data, w0) ->
  entry_serves q excl (with_provider p0 (with_rate r order0)) data w0 = (Ret (Some p), w1) ->
  ifM (index =? 0)%nat (let! data := LPop key in RPush key [data])%go w1 = (Ret tt, w2) ->
  sendOrderRequest conf (with_provider p (with_rate r order0)) w2 = (Err e, w3) ->
  logged (RPush (exclude_key order0) [p]) w3 = (o4, w4) ->
  shrinks w w4 /\ (work w4 <= work w)%nat /\ (excl = excluded w -> (work w4 < work w)%nat) /\ o4 = Ret tt.
Proof.
  intros Hkey E0 E1 E2 E3 E4.
  assert (Hpre : HasPrefix key "bucket_" = true) by (destruct Hkey as [->| ->]; [apply qkey_prefix|apply pkey_prefix]).
  pose proof (LIndex_run _ _ _ _ _ E0) as [Hdata Hr0].
  assert (F0 : (length (w_faults w0) <= length (w_faults w))%nat) by (by eapply fm_run; [|exact E0]; repeat fm_step).
  pose proof (fm_run _ _ _ _ (fm_entry_serves _ _ _ _) E1) as F1.
  pose proof (wp_run _ _ _ _ _ (entry_serves_wp q excl (with_provider p0 (with_rate r order0)) data
    tk br fc w0 w0 Htk Hbr Hfc (reads_only_refl _)) E1) as [(_ & Hr1 & _) Hok].
  destruct (Hok p eq_refl) as [Hex (en & mn & mx & rate & a & Hen & Hp & _) _].
  assert (F2 : (length (w_faults w2) <= length (w_faults w1))%nat) by (by eapply fm_run; [|exact E2]; repeat fm_step).
  pose proof (fm_run _ _ _ _ (fm_sendOrderRequest _ _) E3) as F3.
  pose proof (wp_run _ _ _ _ _ (send_wp conf (with_provider p (with_rate r order0)) br fc w2 Hbr Hfc) E3) as [Hl3 _ _ _].
  apply push_run in E4 as (S4 & F4 & Ho4 & H4).
  assert (H2 : shrinks w1 w2 /\ excluded w2 = excluded w1 /\ (data ∈ get_list key (w_redis w2))).
  { revert E2. unfold ifM. case_match eqn:Ei.
    - intros E2. pose proof (wp_run _ _ _ _ _ (rotate_wp key w1) E2) as Hrot.
      pose proof (rotated_shrinks _ _ _ _ Hpre Hrot) as [Hs He]. split_and!; [done|done|].
      apply Nat.eqb_eq in Ei as ->. inversion Hrot as [| |fs s l rr Hs1 Hrr _]; subst. simpl. rewrite Hrr, get_put_list, decide_True by done.
      rewrite Hr1, Hr0 in Hs1. rewrite Hs1 in Hdata. injection Hdata as ->.
      apply elem_of_app. right. left.
    - intros [= <-]. split_and!; [apply shrinks_refl|done|]. rewrite Hr1, Hr0. by eapply list_elem_of_lookup_2. }
  destruct H2 as (S2 & X2 & D2).
  assert (S3 : shrinks w2 w3) by (by apply shrinks_lists).
  assert (S02 : shrinks w w2) by (eapply shrinks_trans; [|exact S2]; apply shrinks_same; congruence).
  assert (S04 : shrinks w w4) by (eapply shrinks_trans; [eapply shrinks_trans; [exact S02|exact S3]|exact S4]).
  assert (P4 : (pending w4 <= pending w)%nat) by (by apply pending_mono).
  split_and!; [done|unfold work; lia| |done].
  intros Hexcl. unfold work. destruct H4 as [Hin|Hlt]; [|lia].
  assert (pending w4 < pending w2)%nat; [|pose proof (pending_mono _ _ S02); lia].
  apply (pending_exclude _ _ data en); [|done|..].
  - apply elem_of_app. destruct Hkey as [->| ->]; [by left|by right].
  - rewrite Hp, X2. apply ContainsString_not_elem. replace (excluded w1) with excl; [done|].
    rewrite Hexcl. unfold excluded. by rewrite Hr1, Hr0.
  - by rewrite Hp.
  - by eapply shrinks_trans.
Qed.

#[local] Abbreviation ord p r := (with_provider p (with_rate r order0)) (only parsing).

(** Two walks with enough fuel, whose continuations agree on worlds with less
    work, agree. *)
Lemma matchRate_agrees q q' key p0 r excl N again again' :
  key = qkey \/ key = pkey -> (q <= q')%nat -> forall fuel fuel' index w n,
  bucket_lists_below q w -> length (get_list key (w_redis w)) = n ->
  (index <= n < index + fuel)%nat -> (n < index + fuel')%nat ->
  (work w <= N)%nat -> (excl = excluded w \/ (work w < N)%nat) ->
  (forall p w', shrinks w w' -> (work w' < N)%nat -> again (ord p r) w' = again' (ord p r) w') ->
  matchRate conf q fuel again key (ord p0 r) excl index w =
  matchRate conf q' fuel' again' key (ord p0 r) excl index w.
Proof.
  intros Hkey Hq. induction fuel as [|fuel IH]; intros [|fuel'] index w n Hb Hn Hi Hi' HN Hcase Hag; try lia.
  cbn [matchRate]. unfold bindM at 1. symmetry. unfold bindM at 1. symmetry.
  destruct (LIndex key (Z.of_nat index) w) as [[data|e|] w0] eqn:E0; [|done|done].
  pose proof (LIndex_run _ _ _ _ _ E0) as [Hdata Hr0].
  assert (Hlt : (index < n)%nat) by (subst n; by eapply lookup_lt_Some).
  assert (F0 : (length (w_faults w0) <= length (w_faults w))%nat) by (by eapply fm_run; [|exact E0]; repeat fm_step).
  assert (Hb0 : bucket_lists_below q w0) by (eapply shrinks_below; [by apply shrinks_same|done]).
  unfold bindM at 1. symmetry. unfold bindM at 1. symmetry.
  rewrite (entry_serves_fuel q q' excl p0 r data w0 Hb0 Hq).
  destruct (entry_serves q' excl (ord p0 r) data w0) as [[[p|]|e|] w1] eqn:E1; [| |done|done].
  2:{ pose proof (wp_run _ _ _ _ _ (entry_serves_wp q' excl (ord p0 r) data tk br fc w0 w0 Htk Hbr Hfc (reads_only_refl _)) E1) as [(_ & Hr1 & _) _].
      pose proof (fm_run _ _ _ _ (fm_entry_serves _ _ _ _) E1) as F1.
      assert (S1 : shrinks w w1) by (apply shrinks_same; congruence).
      assert (W1 : (work w1 <= work w)%nat) by (apply work_mono; [done|lia]).
      apply (IH fuel' (S index) w1 n); [by eapply shrinks_below|by rewrite Hr1, Hr0|lia|lia|lia| |].
      - destruct Hcase as [->|Hw]; [left; unfold excluded; by rewrite Hr1, Hr0|right; lia].
      - intros p w' S Hw. apply Hag; [by eapply shrinks_trans|done]. }
  unfold bindM at 1. symmetry. unfold bindM at 1. symmetry.
  destruct (ifM _ _ w1) as [[[]|e|] w2] eqn:E2; [|done|done].
  change (with_provider p (ord p0 r)) with (ord p r). unfold tryM at 1. symmetry. unfold tryM at 1. symmetry.
  destruct (sendOrderRequest conf (ord p r) w2) as [[[]|e|] w3] eqn:E3; [done| |done].
  change (exclude_key (ord p r)) with (exclude_key order0).
  unfold bindM at 1. symmetry. unfold bindM at 1. symmetry.
  destruct (logged (RPush (exclude_key order0) [p]) w3) as [o4 w4] eqn:E4.
  pose proof (hit_work q' excl p0 r index key data p w w0 w1 w2 e w3 o4 w4 Hkey E0 E1 E2 E3 E4) as (S4 & W4 & X4 & ->).
  apply Hag; [done|]. destruct Hcase as [->|Hw]; [specialize (X4 eq_refl); lia|lia].
Qed.

(** After a failed walk either the exclude list is as it was, or work was done. *)
Lemma matchRate_progress q key p0 r again :
  key = qkey \/ key = pkey ->
  (forall p w, wp (again (ord p r)) (fun _ w' => shrinks w w') w) ->
  (forall p, fault_mono (again (ord p r))) ->
  forall fuel index w o w',
  matchRate conf q fuel again key (ord p0 r) (excluded w) index w = (o, w') ->
  shrinks w w' /\ (excluded w' = excluded w \/ (work w' < work w)%nat).
Proof.
  intros Hkey Hag Hfm. induction fuel as [|fuel IH]; intros index w o w'; [intros [= <- <-]; split; [apply shrinks_refl|by left]|].
  assert (Hpre : HasPrefix key "bucket_" = true) by (destruct Hkey as [->| ->]; [apply qkey_prefix|apply pkey_prefix]).
  cbn [matchRate]. unfold bindM at 1.
  destruct (LIndex key (Z.of_nat index) w) as [o0 w0] eqn:E0.
  assert (Hr0 : w_redis w0 = w_redis w).
  { revert E0. unfold LIndex, get_redis, ext, bindM, retM, errM.
    destruct (w_faults w) as [|[] ?]; simpl; intros E0; repeat case_match; by simplify_eq/=. }
  assert (F0 : (length (w_faults w0) <= length (w_faults w))%nat) by (by eapply fm_run; [|exact E0]; repeat fm_step).
  assert (S0 : shrinks w w0) by (by apply shrinks_same).
  assert (Hstop : forall w5, shrinks w w5 -> excluded w5 = excluded w -> shrinks w w5 /\ (excluded w5 = excluded w \/ (work w5 < work w)%nat)) by auto.
  assert (X0 : excluded w0 = excluded w) by (unfold excluded; by rewrite Hr0).
  destruct o0 as [data|e|]; [|intros [= <- <-]; by apply Hstop|intros [= <- <-]; by apply Hstop].
  unfold bindM at 1. destruct (entry_serves q _ (ord p0 r) data w0) as [o1 w1] eqn:E1.
  pose proof (wp_run _ _ _ _ _ (entry_serves_wp q (excluded w) (ord p0 r) data tk br fc w0 w0 Htk Hbr Hfc (reads_only_refl _)) E1) as [(_ & Hr1 & _) _].
  pose proof (fm_run _ _ _ _ (fm_entry_serves _ _ _ _) E1) as F1.
  assert (S1 : shrinks w w1) by (apply shrinks_same; congruence).
  assert (X1 : excluded w1 = excluded w) by (unfold excluded; by rewrite Hr1, Hr0).
  destruct o1 as [[p|]|e|]; [| |intros [= <- <-]; by apply Hstop|intros [= <- <-]; by apply Hstop].
  2:{ rewrite <- X1. intros [H1 H2]%IH. split; [by eapply shrinks_trans|].
      pose proof (work_mono w w1 S1 ltac:(lia)). destruct H2 as [H2|H2]; [left; congruence|right; lia]. }
  unfold bindM at 1. destruct (ifM _ _ w1) as [o2 w2] eqn:E2.
  assert (S2 : shrinks w1 w2 /\ excluded w2 = excluded w1).
  { revert E2. unfold ifM. case_match; [|intros [= <- <-]; split; [apply shrinks_refl|done]].
    intros E2. by eapply rotated_shrinks, (wp_run _ _ _ _ _ (rotate_wp key w1) E2). }
  destruct S2 as [S2 X2]. assert (S02 : shrinks w w2) by (by eapply shrinks_trans).
  destruct o2 as [[]|e|]; [|intros [= <- <-]; by apply Hstop; [|congruence]|intros [= <- <-]; by apply Hstop; [|congruence]].
  unfold tryM. change (with_provider p (ord p0 r)) with (ord p r).
  destruct (sendOrderRequest conf (ord p r) w2) as [o3 w3] eqn:E3.
  pose proof (wp_run _ _ _ _ _ (send_wp conf (ord p r) br fc w2 Hbr Hfc) E3) as [Hl3 _ _ _].
  assert (S3 : shrinks w w3) by (eapply shrinks_trans; [exact S02|by apply shrinks_lists]).
  assert (X3 : excluded w3 = excluded w) by (unfold excluded in *; rewrite (get_list_same _ _ _ Hl3); congruence).
  destruct o3 as [[]|e|]; [intros [= <- <-]; by apply Hstop| |intros [= <- <-]; by apply Hstop].
  change (exclude_key (ord p r)) with (exclude_key order0). unfold bindM.
  destruct (logged (RPush (exclude_key order0) [p]) w3) as [o4 w4] eqn:E4.
  pose proof (hit_work q (excluded w) p0 r index key data p w w0 w1 w2 e w3 o4 w4 Hkey E0 E1 E2 E3 E4) as (S4 & W4 & X4 & ->).
  intros E5. pose proof (wp_run _ _ _ _ _ (Hag p w4) E5) as S5. pose proof (fm_run _ _ _ _ (Hfm p) E5) as F5.
  split; [by eapply shrinks_trans|]. right. pose proof (work_mono w4 w' S5 F5). specialize (X4 eq_refl). lia.
Qed.

Lemma assign_from_queue_agrees q q' p r N again again' w :
  (q <= q')%nat -> bucket_lists_below q w -> (work w <= N)%nat ->
  (forall p r w, wp (again (ord p r)) (fun _ w' => shrinks w w') w) ->
  (forall o, fault_mono (again o)) ->
  (forall p r w', bucket_lists_below q w' -> (work w' < N)%nat -> again (ord p r) w' = again' (ord p r) w') ->
  assign_from_queue conf q again (excluded w) (ord p r) w =
  assign_from_queue conf q' again' (excluded w) (ord p r) w.
Proof.
  intros Hq Hb HN Hsh Hfm Hag. unfold assign_from_queue.
  cbn [with_provider with_rate of_provision_bucket]. rewrite Hbr. unfold deref. rewrite !bind_ret, Hfc, !bind_ret.
  pose proof (Hb _ qkey_prefix) as Hbq.
  assert (Hagree : forall key p' excl w1, key = qkey \/ key = pkey -> shrinks w w1 -> (work w1 <= N)%nat ->
    (excl = excluded w1 \/ (work w1 < N)%nat) ->
    matchRate conf q q again key (ord p' r) excl 0 w1 = matchRate conf q' q' again' key (ord p' r) excl 0 w1).
  { intros key p' excl w1 Hkey S1 HN1 Hc. assert (Hb1 : bucket_lists_below q w1) by (by eapply shrinks_below).
    assert (Hlen : (length (get_list key (w_redis w1)) < q)%nat)
      by (apply Hb1; destruct Hkey as [->| ->]; [apply qkey_prefix|apply pkey_prefix]).
    eapply matchRate_agrees; eauto; [lia|lia|]. intros p'' w' S' Hw'. apply Hag; [by eapply shrinks_below|done]. }
  unfold tryM at 1. symmetry. unfold tryM at 1. symmetry. cbn beta. fold (order_bucket_key br fc).
  rewrite <- (Hagree qkey p (excluded w) w) by (auto with frame).
  destruct (matchRate conf q q again qkey (ord p r) (excluded w) 0 w) as [[[]|e|] w1] eqn:E1; [done| |done].
  pose proof (fm_run _ _ _ _ (fm_matchRate conf q again qkey (ord p r) (excluded w) Hfm q 0%nat) E1) as F1.
  pose proof (matchRate_progress q qkey p r again (or_introl eq_refl) (fun p => Hsh p r) (fun p => Hfm (ord p r)) _ _ _ _ _ E1) as [S1 X1].
  pose proof (work_mono w w1 S1 F1) as W1.
  unfold tryM at 1. symmetry. unfold tryM at 1. symmetry. cbn beta.
  rewrite (Hagree pkey p (excluded w) w1); [done|by right|done|lia|].
  destruct X1 as [X1|X1]; [by left|right; lia].
Qed.

Lemma assign_directly_lists p r w :
  wp (assign_directly conf (ord p r)) (fun o w' => same_lists w w' /\
    forall b o', o = Ret (b, o') -> exists r', o' = ord p r') w.
Proof.
  eapply wp_mono; [eapply (assign_directly_invariant conf order0 tk br fc Htk Hbr Hfc (same_lists w) (fun _ => True) (fun _ => True)); try done|].
  - intros w1 w2 H (_ & Hr & _). unfold same_lists in *. by rewrite Hr.
  - intros p' r' w1 _ _ H. eapply wp_mono; [by apply (send_wp _ _ br fc)|]. intros o w2 [Hl _ _ _].
    unfold same_lists in *. congruence.
  - intros o w' [H1 H2]. split; [done|]. intros b o' (r' & Hr & _)%H2. by exists r'.
Qed.

Lemma assign_agrees q q' : (q <= q')%nat -> forall N depth depth' p r w,
  bucket_lists_below q w -> (work w <= N)%nat -> (N < depth)%nat -> (N < depth')%nat ->
  AssignLockPaymentOrder conf q depth (ord p r) w = AssignLockPaymentOrder conf q' depth' (ord p r) w.
Proof.
  intros Hq. induction N as [N IH] using lt_wf_ind. intros [|depth] [|depth'] p r w Hb HN Hd Hd'; try lia.
  cbn [AssignLockPaymentOrder]. unfold bindM at 1. symmetry. unfold bindM at 1. symmetry.
  destruct (LRange (exclude_key (ord p r)) w) as [[excl|e|] w0] eqn:E0; [|done|done].
  assert (H0 : excl = excluded w0 /\ shrinks w w0 /\ (length (w_faults w0) <= length (w_faults w))%nat).
  { split_and!; [..|by eapply fm_run; [|exact E0]; repeat fm_step];
    revert E0; unfold LRange, get_redis, ext, bindM, retM; destruct (w_faults w) as [|[] ?]; simpl; intros E0; simplify_eq/=;
      [done|done|by apply shrinks_same|by apply shrinks_same]. }
  destruct H0 as (-> & S0 & F0).
  assert (Hfq : forall w1 r', same_lists w0 w1 -> (length (w_faults w1) <= length (w_faults w0))%nat ->
    assign_from_queue conf q (AssignLockPaymentOrder conf q depth) (excluded w0) (ord p r') w1 =
    assign_from_queue conf q' (AssignLockPaymentOrder conf q' depth') (excluded w0) (ord p r') w1).
  { intros w1 r' Hl F1. assert (S1 : shrinks w w1) by (eapply shrinks_trans; [done|by apply shrinks_lists]).
    pose proof (work_mono w w1 S1 ltac:(lia)) as W1.
    replace (excluded w0) with (excluded w1) by (unfold excluded; by rewrite (get_list_same _ _ _ Hl)).
    apply (assign_from_queue_agrees q q' p r' N); [done|by eapply shrinks_below|lia| | |].
    - intros p1 r1 w2. apply assign_shrinks. by exists p1, r1.
    - intros o. apply fm_assign.
    - intros p1 r1 w2 Hb2 HW2. apply (IH (work w2)); [lia|done|lia|lia|lia]. }
  case_match; [|by apply Hfq].
  unfold bindM at 1. symmetry. unfold bindM at 1. symmetry.
  destruct (attemptM _ w0) as [[[e|pp]|e|] w1] eqn:E1; [done| |done|done].
  assert (H1 : same_lists w0 w1 /\ (length (w_faults w1) <= length (w_faults w0))%nat).
  { split; [|by eapply fm_run; [|exact E1]; repeat fm_step].
    revert E1. unfold attemptM, tryM, read_db, ext, bindM, retM, errM.
    destruct (w_faults w0) as [|[] ?]; simpl; intros E1; repeat case_match; by simplify_eq/=. }
  destruct H1 as [L1 F1].
  unfold bindM at 1. symmetry. unfold bindM at 1. symmetry.
  destruct (assign_directly conf (ord p r) w1) as [[[b o']|e|] w2] eqn:E2; [|done|done].
  pose proof (fm_run _ _ _ _ (fm_assign_directly _ _) E2) as F2.
  pose proof (wp_run _ _ _ _ _ (assign_directly_lists p r w1) E2) as [L2 Ho]. destruct (Ho b o' eq_refl) as [r' ->].
  simpl. destruct b; [done|]. case_match; [done|]. apply Hfq; [|lia]. unfold same_lists in *. congruence.
Qed.
End termination.

Section termination_claim.
Context {O : DecimalOps} {L : DecimalLaws O} {SV : Services} {SL : ServicesLaws SV}.
Variable conf : Config.

(** C2: the assignment terminates.  Every reassignment either excludes one more
    queued provider or has consumed a failure, so the nesting is bounded by the
    failures that remain and the queue entries not yet excluded, and a walk by
    the length of the longest bucket queue: larger bounds give the same result. *)
Theorem assign_terminates order tk br fc q q' depth depth' w :
  of_token order = Some tk -> of_provision_bucket order = Some br -> br_currency br = Some fc ->
  bucket_lists_below q w -> (work order br fc w < depth)%nat -> (q <= q')%nat -> (depth <= depth')%nat ->
  AssignLockPaymentOrder conf q depth order w = AssignLockPaymentOrder conf q' depth' order w.
Proof.
  intros Htk Hbr Hfc Hb Hd Hq Hdd. rewrite (order_variant order) at 1 2.
  eapply (assign_agrees conf order tk br fc Htk Hbr Hfc q q' Hq (work order br fc w)); [done|done|lia|lia].
Qed.
End termination_claim.
