(* ===== verification/QueueClaims.v ===== *)
(** * The queues: claims

    Order requests, the invariants of the assignment, the rebuilding of a queue
    against its specification [queue_spec], the choice of the first serving
    entry, and the error paths that panic, leave a transaction open or send at
    rate zero; with their witnesses. *)

From S2P Require Import Prelude Decimal Schema Store Samples Balance Utils Services Queue QueueSteps QueueTermination.
Local Open Scope go_scope.
Local Open Scope string_scope.
Local Open Scope list_scope.

Section queue_claims.
Context {O : DecimalOps} {L : DecimalLaws O} {SV : Services} {SL : ServicesLaws SV}.
Variable conf : Config.

(** C5: sending an order request.  Whatever fails, a successful call has
    committed exactly one change to the database, the reservation of the order's
    fiat amount on the provider's row (which covered it), has stored the request
    in Redis and has called the provider's node exactly once; a failed call has
    changed no committed row. *)
Theorem send_order_request_correct order br fc w :
  of_provision_bucket order = Some br -> br_currency br = Some fc ->
  wp (sendOrderRequest conf order) (fun o w' => sent order (fc_code fc) o w w') w.
Proof. apply send_wp. Qed.

Definition rates_nonneg (d : DB) : Prop :=
  forall t fc, t ∈ db_order_tokens d -> (0 <= d_val (pot_fixed_conversion_rate t))%Q /\
    (db_currencies d !! pot_currency t = Some fc ->
       0 <= d_val (fc_market_rate fc) + d_val (pot_floating_conversion_rate t))%Q.

Lemma GetProviderRate_nonneg p symbol c w :
  rates_nonneg (w_db w) ->
  wp (GetProviderRate p symbol c) (fun o _ => forall r, o = Ret r -> (0 <= d_val r)%Q) w.
Proof.
  intros Hr. unfold GetProviderRate. wp_step. eapply wp_read_db; [reflexivity|intros fs|by intros fs].
  wp_step. apply wp_first_filter; [intros t Ht Hm|done].
  repeat wp_step; intros r [= <-].
  - destruct (Hr t (mkFC "" "" "" 0 "" "" d_zero true) Ht). done.
  - apply round_bank_nonneg; [lia|]. destruct (Hr t f Ht) as [_ H]. rewrite val_add. by apply H.
Qed.

Lemma fiat_amount_nonneg a r : (0 <= d_val a)%Q -> (0 <= d_val r)%Q -> (0 <= d_val (fiat_amount a r))%Q.
Proof. intros Ha Hr. apply round_bank_nonneg; [lia|]. rewrite val_mul. by apply Qmult_le_0_compat. Qed.

(** C1: assigning an order, through any sequence of queue walks, failed requests
    and reassignments and whatever fails on the way, keeps every provider
    balance consistent: nothing negative, available plus reserved within the
    total. *)
Theorem assign_preserves_consistency order tk br fc qfuel depth w :
  of_token order = Some tk -> of_provision_bucket order = Some br -> br_currency br = Some fc ->
  (0 <= d_val (of_amount order))%Q -> (0 <= d_val (of_rate order))%Q ->
  rates_nonneg (w_db w) -> db_consistent (w_db w) ->
  wp (AssignLockPaymentOrder conf qfuel depth order) (fun _ w' => db_consistent (w_db w')) w.
Proof.
  intros Htk Hbr Hfc Ha Hr Hrates Hdb.
  eapply wp_mono; [eapply (assign_invariant conf order tk br fc Htk Hbr Hfc
    (fun w => rates_nonneg (w_db w) /\ db_consistent (w_db w)) (fun _ => True) (fun r => 0 <= d_val r)%Q)|].
  - by intros w1 w2 H (-> & _).
  - done.
  - intros p r w1 _ Hr1 [H1 H2]. eapply wp_mono; [by apply (send_wp _ _ br fc)|].
    intros o w2 [_ _ _ Hout]. destruct o as [[]|e|]; [|by rewrite Hout|done].
    destruct Hout as (pc & Hpc & Hle & -> & _). split; [exact H1|].
    apply db_consistent_put; [done|]. apply reserved_row_consistent; [by apply (H2 _ _ Hpc)| |done].
    by apply fiat_amount_nonneg.
  - intros key w1 _ HI. eapply wp_mono; [apply rotate_wp|]. by intros o w2 [].
  - intros p w1 _ HI. unfold RPush. by repeat wp_step.
  - done.
  - intros p s w1 [H1 _]. by apply GetProviderRate_nonneg.
  - by rewrite val_zero.
  - exists (of_provider_id order), (of_rate order). split; [apply order_variant|done].
  - done.
  - by intros o w' [_ H].
Qed.

(** A provider on the order's exclude list is never asked to take the order:
    whatever the queues hold and whatever fails, every call the assignment makes
    goes to a provider that was not excluded when it started, and the exclude
    list is only ever extended. *)
Theorem assign_respects_exclusions order tk br fc qfuel depth w :
  of_token order = Some tk -> of_provision_bucket order = Some br -> br_currency br = Some fc ->
  wp (AssignLockPaymentOrder conf qfuel depth order) (fun _ w' =>
    get_list (exclude_key order) (w_redis w) `prefix_of` get_list (exclude_key order) (w_redis w') /\
    exists evs, w_events w' = w_events w ++ evs /\
      Forall (fun ev => exists p path payload, ev = EvProviderCall p path payload /\
                p ∉ get_list (exclude_key order) (w_redis w)) evs) w.
Proof.
  intros Htk Hbr Hfc. set (key := exclude_key order). set (old := get_list key (w_redis w)).
  eapply (assign_invariant conf order tk br fc Htk Hbr Hfc
    (fun w' => old `prefix_of` get_list key (w_redis w') /\ exists evs, w_events w' = w_events w ++ evs /\
      Forall (fun ev => exists p path payload, ev = EvProviderCall p path payload /\ p ∉ old) evs)
    (fun p => p ∉ old) (fun _ => True)); try done.
  - intros w1 w2 H (_ & -> & _ & -> & _). done.
  - intros w1 p [[l Hl] _] Hp%ContainsString_not_elem Hin. apply Hp. fold key. rewrite Hl. set_solver.
  - intros p r w1 Hp _ [Hpre (evs & Hevs & Hall)]. eapply wp_mono; [by apply (send_wp _ _ br fc)|].
    intros o w2 [Hl _ (evs' & Hevs' & Hcalls & _) _]. rewrite (get_list_same _ _ _ Hl). split; [done|].
    exists (evs ++ evs'). rewrite Hevs', Hevs, app_assoc. split; [done|]. apply Forall_app. split; [done|].
    eapply Forall_impl; [exact Hcalls|]. intros ev (path & payload & ->). by exists p, path, payload.
  - intros k w1 Hk [Hpre Hev]. assert (Hne : key <> k) by (by destruct Hk as [->| ->]).
    eapply wp_mono; [apply rotate_wp|]. intros o w2 [e fs|e fs s l Hs|fs s l r Hs Hr _]; simpl.
    + done.
    + by rewrite get_put_list, decide_False by done.
    + by rewrite Hr, get_put_list, decide_False by done.
  - intros p w1 _ [Hpre Hev]. unfold RPush. apply wp_put_redis; intros fs; [|done]. simpl.
    fold key. rewrite get_put_list, decide_True by done. split; [by apply prefix_app_r|done].
  - exists (of_provider_id order), (of_rate order). split; [apply order_variant|done].
  - split; [done|]. exists []. by rewrite app_nil_r.
Qed.

(** An entry that the walk of a queue picks satisfies every condition the
    order puts on it: the provider is not excluded, sells the order's token, the
    amount is within the entry's limits, the provider has an order token for the
    order's token, network and currency whose slippage covers the difference of
    the rates, and its available balance covers the order. *)
Theorem match_rate_sound qfuel excludeList order data tk br fc w :
  of_token order = Some tk -> of_provision_bucket order = Some br -> br_currency br = Some fc ->
  wp (entry_serves qfuel excludeList order data) (fun o w' => reads_only w w' /\
    forall p, o = Ret (Some p) -> entry_ok (w_db w) excludeList order tk fc data p) w.
Proof. intros. by eapply entry_serves_wp. Qed.

(** An order that names a provider the database does not have makes the
    assignment panic: the failed lookup is only logged, and the nil provider is
    dereferenced for its visibility mode right after. *)
Theorem assign_unknown_provider_panics order qfuel depth w :
  of_provider_id order <> "" ->
  of_provider_id order ∉ get_list (exclude_key order) (w_redis w) ->
  db_providers (w_db w) !! of_provider_id order = None ->
  w_faults w = [] ->
  (AssignLockPaymentOrder conf qfuel (S depth) order w).1 = Panic.
Proof.
  intros Hp Hex Hdb Hf. apply ContainsString_not_elem in Hex.
  assert (Hne : String.eqb (of_provider_id order) "" = false) by (by apply String.eqb_neq).
  cbn [AssignLockPaymentOrder]. unfold LRange, get_redis, bindM at 1 2 3, ext. rewrite Hf. simpl.
  rewrite Hne, Hex. simpl. unfold read_db, attemptM, tryM, bindM, ext. rewrite Hf. simpl. by rewrite Hdb.
Qed.

(** When the request cannot be stored in Redis after the balance was reserved,
    the call fails but its transaction stays open with the reservation in it: it
    is neither committed nor rolled back. *)
Theorem send_failure_leaves_transaction order br fc pc rest w :
  of_provision_bucket order = Some br -> br_currency br = Some fc ->
  db_provider_currencies (w_db w) !! (of_provider_id order, fc_code fc) = Some pc ->
  (d_val (fiat_amount (of_amount order) (of_rate order)) <= d_val (pc_available_balance pc))%Q ->
  w_faults w = [false; false; false; true] ++ rest ->
  let res := sendOrderRequest conf order w in
  res.1 = Err EFault /\ w_db res.2 = w_db w /\
  view (Some (w_next_tx w)) res.2 = Some (put_pc (of_provider_id order, fc_code fc)
    (reserved_row (fiat_amount (of_amount order) (of_rate order)) (w_now w) pc) (w_db w)).
Proof.
  intros Hb Hfc Hpc Hle Hf res.
  assert (Hlt : d_lt (pc_available_balance pc) (fiat_amount (of_amount order) (of_rate order)) = false)
    by (by apply d_lt_spec_false).
  change (wp (sendOrderRequest conf order) (fun o w' => o = Err EFault /\ w_db w' = w_db w /\
    view (Some (w_next_tx w)) w' = Some (put_pc (of_provider_id order, fc_code fc)
      (reserved_row (fiat_amount (of_amount order) (of_rate order)) (w_now w) pc) (w_db w))) w).
  clear res. unfold sendOrderRequest, ReserveBalance, query_pc, update_pc, read_db, write_db, begin_tx, HSet, put_redis.
  repeat known_step. split_and!; [done|done|]. simpl. rewrite lookup_insert_eq. simpl. f_equal.
  exact (alter_is_put _ _ _ (set_available_reserved _ _ _) _ Hpc).
Qed.
End queue_claims.

(** ** Building a queue *)

Section create_queue.
Context {O : DecimalOps} {L : DecimalLaws O} {SV : Services} {SL : ServicesLaws SV}.
Variable conf : Config.

(** The rate a provider quotes for a token and a currency. *)
Definition quoted_rate (d : DB) (p symbol c : string) : option dec :=
  match List.filter (rate_config_matches p symbol c) (db_order_tokens d) with
  | [] => None
  | t :: _ =>
      match pot_conversion_rate_type t with
      | RFixed => Some (pot_fixed_conversion_rate t)
      | RFloating =>
          fc ← db_currencies d !! pot_currency t;
          Some (d_round_bank (d_add (fc_market_rate fc) (pot_floating_conversion_rate t)) 2)
      end
  end.

(** The first order token of each symbol. *)
Fixpoint first_per_symbol (seen : list string) (l : list ProviderOrderToken) : list ProviderOrderToken :=
  match l with
  | [] => []
  | t :: r =>
      if bool_decide (tk_symbol (pot_token t) ∈ seen) then first_per_symbol seen r
      else t :: first_per_symbol (seen ++ [tk_symbol (pot_token t)]) r
  end.

(** The entry of a provider for one of its order tokens. *)
Definition token_entry (d : DB) (fc : FiatCurrency) (p : string) (t : ProviderOrderToken) : option string :=
  rate ← quoted_rate d p (tk_symbol (pot_token t)) (fc_code fc);
  if acceptable_rate conf fc (tk_symbol (pot_token t)) rate
  then Some (queue_entry p (tk_symbol (pot_token t)) rate (pot_min_order_amount t) (pot_max_order_amount t))
  else None.

Definition provider_entries (d : DB) (fc : FiatCurrency) (p : string) : list string :=
  match db_provider_currencies d !! (p, fc_code fc) with
  | None => []
  | Some _ => omap (token_entry d fc p)
      (first_per_symbol [] (List.filter (queue_token_matches p (fc_code fc)) (db_order_tokens d)))
  end.

(** [w'] is [w] with entries of [spec] appended to the list at [key], in order;
    all of them when nothing fails. *)
Definition appends (key : string) (spec : list string) (w w' : World) : Prop :=
  exists r fs added, w' = set_redis r (set_faults fs w) /\
    (forall k, get_list k r = if decide (k = key) then get_list key (w_redis w) ++ added else get_list k (w_redis w)) /\
    added `sublist_of` spec /\ (w_faults w = [] -> fs = [] /\ added = spec).

Lemma appends_nothing key spec w fs :
  (w_faults w = [] -> fs = [] /\ spec = []) -> appends key spec w (set_faults fs w).
Proof.
  intros H. exists (w_redis w), fs, []. split_and!; [by destruct w| |apply sublist_nil_l|].
  - intros k. case_decide; subst; by rewrite ?app_nil_r.
  - intros E. destruct (H E). by subst.
Qed.
Lemma appends_trans key s1 s2 w1 w2 w3 :
  appends key s1 w1 w2 -> appends key s2 w2 w3 -> appends key (s1 ++ s2) w1 w3.
Proof.
  intros (r1 & fs1 & a1 & -> & H1 & H2 & H3) (r2 & fs2 & a2 & -> & H4 & H5 & H6).
  exists r2, fs2, (a1 ++ a2). split_and!; [done| |by apply sublist_app|].
  - intros k. rewrite H4. simpl. rewrite !H1. case_decide; [|done]. rewrite decide_True by done. by rewrite app_assoc.
  - intros [-> ->]%H3. destruct (H6 eq_refl) as [-> ->]. done.
Qed.
Lemma appends_one key x w fs :
  (w_faults w = [] -> fs = []) ->
  appends key [x] w (set_redis (put_list key (get_list key (w_redis w) ++ [x]) (w_redis w)) (set_faults fs w)).
Proof.
  intros H. eexists _, fs, [x]. split_and!; [reflexivity| |done|auto].
  intros k. rewrite get_put_list. done.
Qed.

Lemma wp_ext_info (Q : outcome unit -> World -> Prop) w :
  (forall fs, (w_faults w = [] -> fs = []) -> Q (Ret tt) (set_faults fs w)) ->
  (forall fs, w_faults w <> [] -> Q (Err EFault) (set_faults fs w)) -> wp ext Q w.
Proof.
  intros Hok Hbad. unfold wp, ext. destruct (w_faults w) as [|[] fs] eqn:E; simpl.
  - specialize (Hok [] (fun _ => eq_refl)). rewrite <- E in Hok. by rewrite set_faults_id in Hok.
  - by apply Hbad.
  - by apply Hok.
Qed.

(** One query, knowing whether something can fail. *)
Lemma wp_read_info (Q : outcome DB -> World -> Prop) w :
  (forall fs, (w_faults w = [] -> fs = []) -> Q (Ret (w_db w)) (set_faults fs w)) ->
  (forall fs, w_faults w <> [] -> Q (Err EFault) (set_faults fs w)) -> wp (read_db None) Q w.
Proof. intros Hok Hbad. unfold read_db. apply wp_bind, wp_ext_info; intros fs Hf; [by apply Hok|by apply Hbad]. Qed.

Lemma wp_put_info f (Q : outcome unit -> World -> Prop) w :
  (forall fs, (w_faults w = [] -> fs = []) -> Q (Ret tt) (set_redis (f (w_redis w)) (set_faults fs w))) ->
  (forall fs, w_faults w <> [] -> Q (Err EFault) (set_faults fs w)) -> wp (put_redis f) Q w.
Proof. intros Hok Hbad. unfold put_redis. apply wp_bind, wp_ext_info; intros fs Hf; [by apply Hok|by apply Hbad]. Qed.

Lemma GetProviderRate_quotes p s c w :
  is_Some (db_currencies (w_db w) !! c) ->
  wp (GetProviderRate p s c) (fun o w' => exists fs, w' = set_faults fs w /\ (w_faults w = [] -> fs = []) /\
    match o with
    | Ret r => quoted_rate (w_db w) p s c = Some r
    | Err e => w_faults w = [] -> quoted_rate (w_db w) p s c = None
    | Panic => False
    end) w.
Proof.
  intros [fc Hc]. unfold GetProviderRate, quoted_rate. wp_step.
  apply wp_read_info; intros fs Hfs; [|exists fs; by split_and!].
  wp_step. destruct (List.filter _ _) as [|t l] eqn:E; [by exists fs|].
  assert (Ht : In t (t :: l)) by (by left). rewrite <- E in Ht. apply filter_In in Ht as [_ Ht].
  unfold rate_config_matches in Ht. apply andb_true_iff in Ht as [_ Ht%String.eqb_eq].
  cbn [first]. wp_step. case_match; [wp_step; by exists fs|]. rewrite Ht, Hc. repeat wp_step. by exists fs.
Qed.

Lemma enqueue_tokens_wp key p fc : forall toks seen w,
  is_Some (db_currencies (w_db w) !! fc_code fc) ->
  wp (enqueue_tokens conf key p fc seen toks) (fun o w' => o = Ret tt /\
    appends key (omap (token_entry (w_db w) fc p) (first_per_symbol seen toks)) w w') w.
Proof.
  induction toks as [|t rest IH]; intros seen w Hc; simpl.
  { wp_step. split; [done|]. rewrite <- (set_faults_id w) at 2. by apply appends_nothing. }
  replace (ContainsString seen (tk_symbol (pot_token t))) with (bool_decide (tk_symbol (pot_token t) ∈ seen)).
  2:{ case_bool_decide as E; symmetry; [by apply ContainsString_elem|by apply ContainsString_not_elem]. }
  case_bool_decide; [by apply IH|]. cbn [omap list_omap].
  set (s := tk_symbol (pot_token t)) in *. set (rest' := first_per_symbol _ rest).
  wp_step. eapply wp_mono; [by apply GetProviderRate_quotes|].
  assert (Hnext : forall w1 s1, appends key s1 w w1 -> w_db w1 = w_db w ->
    wp (enqueue_tokens conf key p fc (seen ++ [s]) rest) (fun o w' => o = Ret tt /\
      appends key (s1 ++ omap (token_entry (w_db w) fc p) rest') w w') w1).
  { intros w1 s1 H1 Hdb. eapply wp_mono; [apply IH; by rewrite Hdb|]. intros o w' [-> H2]. split; [done|].
    rewrite Hdb in H2. by eapply appends_trans. }
  intros [rate|e|] w1 (fs & -> & Hfs & Hq); [| |done].
  - unfold token_entry at 1. fold s. rewrite Hq. simpl. wp_step. destruct (acceptable_rate conf fc s rate).
    + unfold logged. wp_step. unfold RPush.
      apply wp_put_info; intros fs' Hfs'; wp_step.
      * refine (Hnext _ [_] _ _); [|done].
        apply (appends_one key _ w fs'). intros E. apply Hfs'. simpl. auto.
      * refine (Hnext _ [_] _ _); [|done]. apply (appends_nothing key _ w fs').
        intros E. exfalso. apply Hfs'. simpl. auto.
    + wp_step. refine (Hnext _ [] _ _); [|done]. apply appends_nothing. auto.
  - assert (Hnone : w_faults w = [] -> token_entry (w_db w) fc p t = None)
      by (intros E; unfold token_entry; fold s; by rewrite Hq).
    destruct (token_entry (w_db w) fc p t) as [x|].
    + refine (Hnext _ [x] _ _); [|done]. apply appends_nothing. intros E. by specialize (Hnone E).
    + refine (Hnext _ [] _ _); [|done]. apply appends_nothing. auto.
Qed.

Lemma enqueue_provider_wp key p fc w :
  is_Some (db_currencies (w_db w) !! fc_code fc) ->
  wp (enqueue_provider conf key fc p) (fun o w' => o = Ret tt /\
    appends key (provider_entries (w_db w) fc p) w w') w.
Proof.
  intros Hc. unfold enqueue_provider, provider_entries. wp_step.
  apply wp_read_info; intros fs Hfs; [|wp_step; split; [done|by apply appends_nothing]].
  case_match; [|wp_step; split; [done|apply appends_nothing; auto]].
  wp_step. apply wp_read_info; intros fs' Hfs'.
  2:{ wp_step. split; [done|]. apply (appends_nothing key _ w fs'). intros E. exfalso. apply Hfs'. simpl. auto. }
  eapply wp_mono; [by apply enqueue_tokens_wp|]. intros o w' [-> H2]. split; [done|].
  eapply (appends_trans key []); [|exact H2]. apply (appends_nothing key [] w fs'). intros E. split; [|done].
  apply Hfs'. simpl. auto.
Qed.

Lemma enqueue_providers_wp key fc : forall ps w,
  is_Some (db_currencies (w_db w) !! fc_code fc) ->
  wp (enqueue_providers conf key fc ps) (fun o w' => o = Ret tt /\
    appends key (concat (map (provider_entries (w_db w) fc) ps)) w w') w.
Proof.
  induction ps as [|p ps IH]; intros w Hc; simpl.
  { wp_step. split; [done|]. rewrite <- (set_faults_id w) at 2. by apply appends_nothing. }
  wp_step. eapply wp_mono; [by apply enqueue_provider_wp|]. intros o w1 [-> H1].
  assert (Hdb : w_db w1 = w_db w) by (by destruct H1 as (r & fs & a & -> & _)).
  eapply wp_mono; [apply IH; by rewrite Hdb|]. intros o w2 [-> H2]. split; [done|].
  rewrite Hdb in H2. by eapply appends_trans.
Qed.

(** The queue that the bucket should have. *)
Definition queue_spec (d : DB) (b : BucketJob) : list string :=
  concat (map (provider_entries d (bj_currency b)) (shuffle (bj_providers b))).

Lemma get_list_del k key r :
  get_list k (mkRedis (delete key (r_lists r)) (delete key (r_hashes r)) (delete key (r_expiry r))) =
  if decide (k = key) then [] else get_list k r.
Proof. unfold get_list; simpl. case_decide; subst; by rewrite ?lookup_delete_eq, ?lookup_delete_ne. Qed.

Lemma prev_key_ne key : key <> key +:+ "_prev".
Proof.
  induction key as [|a key IH]; [done|]. change (String a key +:+ "_prev") with (String a (key +:+ "_prev")).
  by intros [= H].
Qed.

(** What one step of the preparation does to the two lists: [cur] and [prev] as
    functions of the ones before. *)
Definition prepared (key : string) (cur prev : list string) (w w' : World) : Prop :=
  exists r fs, w' = set_redis r (set_faults fs w) /\ (w_faults w = [] -> fs = []) /\
    get_list key r = cur /\ get_list (key +:+ "_prev") r = prev /\
    forall k, k <> key -> k <> key +:+ "_prev" -> get_list k r = get_list k (w_redis w).

Lemma prepared_start key w :
  prepared key (get_list key (w_redis w)) (get_list (key +:+ "_prev") (w_redis w)) w w.
Proof. exists (w_redis w), (w_faults w). split_and!; try done. by destruct w. Qed.

Lemma prepared_lists key cur prev w w' :
  prepared key cur prev w w' ->
  get_list key (w_redis w') = cur /\ get_list (key +:+ "_prev") (w_redis w') = prev.
Proof. by intros (r & fs & -> & _ & H1 & H2 & _). Qed.

(** A logged write, from a prepared world. *)
Lemma prepared_step key cur prev cur' prev' f w w1 :
  prepared key cur prev w w1 ->
  (get_list key (f (w_redis w1)) = cur') -> (get_list (key +:+ "_prev") (f (w_redis w1)) = prev') ->
  (forall k, k <> key -> k <> key +:+ "_prev" -> get_list k (f (w_redis w1)) = get_list k (w_redis w1)) ->
  wp (logged (put_redis f)) (fun o w2 => o = Ret tt /\
    (prepared key cur' prev' w w2 \/ w_faults w <> [] /\ prepared key cur prev w w2)) w1.
Proof.
  intros (r & fs & -> & Hfs & Hc & Hp & Hk) Hc' Hp' Hk'. unfold logged. wp_step.
  apply wp_put_info; intros fs' Hfs'; wp_step; (split; [done|]).
  - left. eexists _, fs'. split_and!; [reflexivity|auto|done|done|].
    intros k H1 H2. rewrite (Hk' k H1 H2). by apply Hk.
  - right. split; [intros E; apply Hfs'; simpl; auto|]. exists r, fs'. split_and!; try done.
    intros E. exfalso. apply Hfs'. simpl. auto.
Qed.

Definition prepare (key : string) : M unit :=
  (do! logged (deleteQueue (key +:+ "_prev")) in
   let! prev := attemptM (LRange key) in
   let prevValues := match prev with inl _ => [] | inr l => l end in
   do! ifM (0 <? length prevValues)%nat (logged (RPush (key +:+ "_prev") prevValues)) in
   logged (deleteQueue key))%go.

Lemma prepare_wp key w :
  wp (prepare key)
    (fun o w' => o = Ret tt /\ exists cur prev, prepared key cur prev w w' /\
       (cur = [] \/ cur = get_list key (w_redis w)) /\
       (w_faults w = [] -> cur = [] /\ prev = get_list key (w_redis w))) w.
Proof.
  pose proof (prev_key_ne key) as Hne. set (cur := get_list key (w_redis w)). unfold prepare.
  wp_step. eapply wp_mono.
  { eapply (prepared_step key); [apply prepared_start|by rewrite get_list_del, decide_False|
      by rewrite get_list_del, decide_True|intros k _ H; by rewrite get_list_del, decide_False]. }
  intros o w1 [-> H1].
  assert (P1 : exists prev, prepared key cur prev w w1 /\ (w_faults w = [] -> prev = []))
    by (destruct H1 as [H1|[Hf H1]]; eexists; split; [exact H1|done|exact H1|done]). clear H1.
  destruct P1 as (prev & P1 & Hprev).
  wp_step. wp_step. unfold LRange. wp_step.
  assert (Hrest : forall vs w2, prepared key cur prev w w2 -> (w_faults w = [] -> vs = cur) ->
    wp (do! ifM (0 <? length vs)%nat (logged (RPush (key +:+ "_prev") vs)) in logged (deleteQueue key))%go
    (fun o w' => o = Ret tt /\ exists cur0 prev0, prepared key cur0 prev0 w w' /\
       (cur0 = [] \/ cur0 = cur) /\ (w_faults w = [] -> cur0 = [] /\ prev0 = cur)) w2).
  { intros vs w2 P2 Hvs. wp_step.
    eapply (wp_mono _ (fun o w3 => o = Ret tt /\ exists prev3, prepared key cur prev3 w w3 /\ (w_faults w = [] -> prev3 = cur))).
    - unfold ifM. destruct vs as [|v vs]; simpl.
      + wp_step. split; [done|]. exists prev. split; [done|]. intros E. rewrite (Hprev E), <- (Hvs E). done.
      + destruct (prepared_lists _ _ _ _ _ P2) as [Hc2 Hp2].
        eapply wp_mono; [apply (prepared_step key cur prev cur (prev ++ v :: vs)); [done|..]|].
        * by rewrite get_put_list, decide_False.
        * by rewrite get_put_list, decide_True, Hp2.
        * intros k _ H. by rewrite get_put_list, decide_False.
        * intros o w3 [-> [P3|[Hf P3]]]; (split; [done|]); eexists; (split; [exact P3|]); [|done].
          intros E. by rewrite (Hprev E), <- (Hvs E).
    - intros o w3 (-> & prev3 & P3 & Hp3). destruct (prepared_lists _ _ _ _ _ P3) as [Hc3 Hq3].
      eapply wp_mono; [apply (prepared_step key cur prev3 [] prev3); [done|..]|].
      + by rewrite get_list_del, decide_True.
      + by rewrite get_list_del, decide_False.
      + intros k H _. by rewrite get_list_del, decide_False.
      + intros o w4 [-> [P4|[Hf P4]]]; (split; [done|]).
        * exists [], prev3. split_and!; [done|by left|auto].
        * exists cur, prev3. split_and!; [done|by right|done]. }
  destruct P1 as (r1 & fs1 & -> & Hf1 & Hc1 & Hp1 & Hk1).
  unfold get_redis. wp_step. apply wp_ext_info; intros fs2 Hf2; [unfold wp at 1; simpl|];
    apply Hrest.
  - exists r1, fs2. split_and!; try done. auto.
  - done.
  - exists r1, fs2. split_and!; try done. intros E. exfalso. apply Hf2. simpl. auto.
  - intros E. exfalso. apply Hf2. simpl. auto.
Qed.

Lemma create_is_prepare b w :
  CreatePriorityQueueForBucket conf b w =
  (do! prepare (job_key b) in
   enqueue_providers conf (job_key b) (bj_currency b) (shuffle (bj_providers b)))%go w.
Proof.
  unfold CreatePriorityQueueForBucket, prepare, bindM.
  destruct (logged _ w) as [[[]|e|] w1]; [|done|done].
  destruct (attemptM _ w1) as [[l|e|] w2]; [|done|done].
  destruct (ifM _ _ w2) as [[[]|e|] w3]; done.
Qed.

(** C6: rebuilding the queue of a bucket.  The database is only read and no other
    list changes.  What is appended to the queue is always a selection, in
    order, of the entries the bucket should have (one per provider and token
    symbol, with a non-zero rate that in production is near the market rate);
    when nothing fails the new queue is exactly that, and the previous queue is
    the one that was current. *)
Theorem create_queue_correct b w :
  is_Some (db_currencies (w_db w) !! fc_code (bj_currency b)) ->
  wp (CreatePriorityQueueForBucket conf b) (fun o w' => o = Ret tt /\ w_db w' = w_db w /\
    (exists kept added, get_list (job_key b) (w_redis w') = kept ++ added /\
       (kept = [] \/ kept = get_list (job_key b) (w_redis w)) /\ added `sublist_of` queue_spec (w_db w) b) /\
    (forall k, k <> job_key b -> k <> job_key b +:+ "_prev" ->
       get_list k (w_redis w') = get_list k (w_redis w)) /\
    (w_faults w = [] -> get_list (job_key b) (w_redis w') = queue_spec (w_db w) b /\
       get_list (job_key b +:+ "_prev") (w_redis w') = get_list (job_key b) (w_redis w))) w.
Proof.
  intros Hc. pose proof (prev_key_ne (job_key b)) as Hne.
  unfold wp. rewrite create_is_prepare. apply wp_bind. eapply wp_mono; [apply prepare_wp|].
  intros o w1 (-> & cur & prev & (r & fs & -> & Hfs & Hcur & Hprev & Hk) & Hcase & Hok).
  eapply wp_mono; [by apply enqueue_providers_wp|].
  intros o w2 (-> & r2 & fs2 & added & -> & Hl & Hsub & Hadd). simpl in *.
  split_and!; [done|done| | |].
  - exists cur, added. rewrite Hl, decide_True, Hcur by done. done.
  - intros k H1 H2. rewrite Hl, decide_False by done. by apply Hk.
  - intros E. destruct (Hok E) as [-> ->]. destruct (Hadd (Hfs E)) as [-> ->].
    rewrite !Hl, decide_True, decide_False, Hcur by done. done.
Qed.
End create_queue.

Section assign_claims.
Context {O : DecimalOps} {L : DecimalLaws O} {SV : Services} {SL : ServicesLaws SV}.
Variable conf : Config.

Lemma first_per_symbol_sub l : forall seen, first_per_symbol seen l `sublist_of` l.
Proof.
  induction l as [|t l IH]; intros seen; simpl; [done|]. case_bool_decide; [by apply sublist_cons|by apply sublist_skip].
Qed.

(** Every entry of a built queue is for a provider of the bucket, for one of
    its order tokens in the bucket's currency with a settlement address, and
    quotes a non-zero rate; in production that rate deviates from the market
    rate by no more than the configured percentage, unless the token is a local
    stablecoin. *)
Theorem queue_entries_sound d b data :
  data ∈ queue_spec conf d b ->
  exists p t rate, p ∈ bj_providers b /\ t ∈ db_order_tokens d /\
    queue_token_matches p (fc_code (bj_currency b)) t = true /\
    data = queue_entry p (tk_symbol (pot_token t)) rate (pot_min_order_amount t) (pot_max_order_amount t) /\
    quoted_rate d p (tk_symbol (pot_token t)) (fc_code (bj_currency b)) = Some rate /\
    ~ (d_val rate == 0)%Q /\
    (cf_environment conf = "production" ->
       Contains (tk_symbol (pot_token t)) (fc_code (bj_currency b)) = false ->
       (d_val (AbsPercentageDeviation (fc_market_rate (bj_currency b)) rate) <=
          d_val (cf_percent_deviation_from_market_rate conf))%Q).
Proof.
  unfold queue_spec. intros Hin. apply list_elem_of_In, in_concat in Hin as (l & Hl & Hd).
  apply in_map_iff in Hl as (p & <- & Hp). apply list_elem_of_In in Hp, Hd. rewrite shuffle_perm in Hp.
  unfold provider_entries in Hd. case_match; [|by apply not_elem_of_nil in Hd].
  apply list_elem_of_omap in Hd as (t & Ht & He).
  pose proof (elem_of_sublist _ _ t Ht (first_per_symbol_sub _ _)) as Ht'.
  apply list_elem_of_In, filter_In in Ht' as [Ht1 Ht2].
  unfold token_entry in He. destruct (quoted_rate _ _ _ _) as [rate|] eqn:Hq; [|done]. simpl in He.
  destruct (acceptable_rate conf _ _ rate) eqn:Ha; [|done]. injection He as <-.
  exists p, t, rate. unfold acceptable_rate in Ha. apply andb_true_iff in Ha as [Hz Hdev].
  split_and!; try done.
  - by apply list_elem_of_In.
  - apply negb_true_iff in Hz. intros Hv. apply d_eqb_spec_false in Hz. by rewrite val_zero in Hz.
  - intros Hprod Hloc. rewrite Hprod, Hloc in Hdev. simpl in Hdev. rewrite andb_true_r in Hdev.
    apply negb_true_iff, d_gt_spec_false in Hdev. done.
Qed.

Lemma quiet_same w w' :
  reads_only w w' -> w_faults w = [] -> (length (w_faults w') <= length (w_faults w))%nat -> w' = w.
Proof.
  intros (H1 & H2 & H3 & H4 & H5 & H6 & H7) E Hf. rewrite E in Hf. destruct w, w'; simpl in *; subst.
  destruct w_faults0; [done|simpl in Hf; lia].
Qed.

Lemma LIndex_ok key i w :
  w_faults w = [] -> LIndex key (Z.of_nat i) w =
    (match get_list key (w_redis w) !! i with Some s => Ret s | None => Err ERedisNil end, w).
Proof.
  intros E. unfold LIndex, get_redis, ext, bindM. rewrite E. simpl. rewrite list_index_nat.
  by destruct (_ !! i).
Qed.

Lemma entry_serves_ok q excl order data tk br fc w :
  of_token order = Some tk -> of_provision_bucket order = Some br -> br_currency br = Some fc ->
  w_faults w = [] -> entry_serves q excl order data w = ((entry_serves q excl order data w).1, w).
Proof.
  intros Htk Hbr Hfc E. destruct (entry_serves q excl order data w) as [o w'] eqn:Es.
  pose proof (wp_run _ _ _ _ _ (entry_serves_wp q excl order data tk br fc w w Htk Hbr Hfc (reads_only_refl w)) Es) as [Hr _].
  pose proof (fm_run _ _ _ _ (fm_entry_serves _ _ _ _) Es) as Hf. by rewrite (quiet_same _ _ Hr E Hf).
Qed.

(** The world in which the request is sent: the queue is rotated when the match
    is at its head. *)
Definition after_match (key : string) (index : nat) (w : World) : World :=
  (ifM (index =? 0)%nat (let! data := LPop key in RPush key [data])%go w).2.

Lemma matchRate_first q again key excl order tk br fc w p data :
  of_token order = Some tk -> of_provision_bucket order = Some br -> br_currency br = Some fc ->
  w_faults w = [] ->
  (entry_serves q excl order data w).1 = Ret (Some p) ->
  forall pre fuel index, (length pre < fuel)%nat ->
  drop index (get_list key (w_redis w)) = pre ++ data :: drop (S (index + length pre)) (get_list key (w_redis w)) ->
  Forall (fun d => (entry_serves q excl order d w).1 = Ret None) pre ->
  (sendOrderRequest conf (with_provider p order) (after_match key (index + length pre) w)).1 = Ret tt ->
  matchRate conf q fuel again key order excl index w =
    sendOrderRequest conf (with_provider p order) (after_match key (index + length pre) w).
Proof.
  intros Htk Hbr Hfc E Hhit. induction pre as [|d pre IH]; intros [|fuel] index Hfuel Hq Hskip Hsend; simpl in Hfuel; try lia.
  - rewrite Nat.add_0_r in *. cbn [matchRate]. unfold bindM at 1. rewrite LIndex_ok by done.
    assert (Hat : get_list key (w_redis w) !! index = Some data).
    { rewrite <- (Nat.add_0_r index). rewrite <- lookup_drop, Hq. done. }
    rewrite Hat. unfold bindM at 1. rewrite (entry_serves_ok q excl order data tk br fc) by done. rewrite Hhit.
    unfold bindM at 1. unfold after_match in *.
    destruct (ifM (index =? 0)%nat _ w) as [o w2] eqn:Er.
    assert (Ho : o = Ret tt).
    { revert Er. unfold ifM. case_match eqn:Ei; [|by intros [= <- <-]]. apply Nat.eqb_eq in Ei as ->.
      unfold LPop, RPush, put_redis, get_redis, bindM, ext. rewrite E. simpl.
      destruct (get_list key (w_redis w)) as [|x l]; [done|]. simpl. rewrite E. by intros [= <- <-]. }
    subst o. simpl in *. unfold tryM. destruct (sendOrderRequest conf _ w2) as [[[]|e|] w3]; done.
  - inversion Hskip as [|? ? Hd Hpre]; subst. cbn [matchRate]. unfold bindM at 1. rewrite LIndex_ok by done.
    assert (Hat : get_list key (w_redis w) !! index = Some d).
    { rewrite <- (Nat.add_0_r index). rewrite <- lookup_drop, Hq. done. }
    rewrite Hat. unfold bindM at 1. rewrite (entry_serves_ok q excl order d tk br fc) by done. rewrite Hd.
    cbn [length] in *. replace (index + S (length pre))%nat with (S index + length pre)%nat in * by lia.
    apply IH; [lia| |done|done].
    apply (f_equal (drop 1)) in Hq. rewrite drop_drop in Hq. simpl in Hq.
    replace (index + 1)%nat with (S index) in Hq by lia. rewrite Hq. done.
Qed.

(** C11: assigning an order that names no provider, when nothing fails.  The order
    goes to the provider of the first entry of the bucket's queue that serves
    it; when that entry is the head of the queue, the queue is rotated, so the
    next order is offered to the next provider, and otherwise the queue stays. *)
Theorem assign_picks_first order tk br fc q depth pre data post p w :
  of_token order = Some tk -> of_provision_bucket order = Some br -> br_currency br = Some fc ->
  w_faults w = [] -> of_provider_id order = "" ->
  let key := order_bucket_key br fc in
  let excl := get_list (exclude_key order) (w_redis w) in
  get_list key (w_redis w) = pre ++ data :: post -> (length pre < q)%nat ->
  Forall (fun d => (entry_serves q excl order d w).1 = Ret None) pre ->
  (entry_serves q excl order data w).1 = Ret (Some p) ->
  let res := sendOrderRequest conf (with_provider p order) (after_match key (length pre) w) in
  res.1 = Ret tt ->
  AssignLockPaymentOrder conf q (S depth) order w = res /\
  get_list key (w_redis res.2) = match pre with [] => post ++ [data] | _ => pre ++ data :: post end.
Proof.
  intros Htk Hbr Hfc E Hp key excl Hqueue Hlen Hskip Hhit res Hres. split.
  - cbn [AssignLockPaymentOrder]. unfold bindM at 1, LRange, bindM at 1, get_redis, bindM at 1, ext. rewrite E. simpl.
    rewrite Hp. simpl. unfold assign_from_queue. rewrite Hbr. unfold deref. rewrite bind_ret, Hfc, bind_ret.
    unfold tryM at 1. fold (order_bucket_key br fc). fold key excl.
    rewrite (matchRate_first q _ key excl order tk br fc w p data Htk Hbr Hfc E Hhit pre); try done.
    + change (0 + length pre)%nat with (length pre). fold res. destruct res as [[[]|e|] w3]; done.
    + simpl. rewrite drop_0, Hqueue. f_equal. f_equal.
      rewrite drop_app_ge by lia. by replace (S (length pre) - length pre)%nat with 1%nat by lia.
  - assert (Hl : same_lists (after_match key (length pre) w) res.2).
    { pose proof (send_wp conf (with_provider p order) br fc (after_match key (length pre) w) Hbr Hfc) as [Hs _ _ _]. exact Hs. }
    rewrite (get_list_same _ _ _ Hl). unfold after_match, ifM. destruct pre as [|x pre]; [|done].
    unfold LPop, RPush, put_redis, get_redis, bindM, ext. simpl. rewrite E. simpl. rewrite Hqueue. simpl. rewrite E. simpl.
    by rewrite !get_put_list, !decide_True by done.
Qed.

Lemma GetProviderRate_missing p s c w :
  w_faults w = [] -> quoted_rate (w_db w) p s c = None -> is_Some (db_currencies (w_db w) !! c) ->
  exists e, GetProviderRate p s c w = (Err e, w).
Proof.
  intros E Hq Hc. destruct (GetProviderRate p s c w) as [o w'] eqn:Eg.
  pose proof (wp_run _ _ _ _ _ (GetProviderRate_quotes p s c w Hc) Eg) as (fs & -> & Hfs & Ho).
  assert (Hw : set_faults fs w = w) by (rewrite (Hfs E), <- E; apply set_faults_id).
  rewrite Hw. destruct o as [r|e|]; [congruence|by exists e|done].
Qed.

(** An order that names its provider and was last updated more than ten
    minutes ago gets a fresh rate, and when that lookup fails (here because the
    provider has no order token for it) the error is only logged: the payment
    order's rate becomes zero and the request is sent at rate zero, that is, for
    the fiat amount zero. *)
Theorem stale_order_sent_at_zero order tk br fc w :
  of_token order = Some tk -> of_provision_bucket order = Some br -> br_currency br = Some fc ->
  w_faults w = [] -> (of_updated_at order < w_now w - ten_minutes)%Z ->
  is_Some (db_currencies (w_db w) !! fc_code fc) ->
  quoted_rate (w_db w) (of_provider_id order) (tk_symbol tk) (fc_code fc) = None ->
  (d_val (fiat_amount (of_amount order) (of_rate (with_rate d_zero order))) == 0)%Q /\
  assign_directly conf order w =
    (do? sendOrderRequest conf (with_rate d_zero order)
     orelse _e => (retM (false, with_rate d_zero order)) in retM (true, with_rate d_zero order))%go
    (set_db (set_payment_orders (alter (set_po_rate (w_now w) d_zero) (of_id order) (db_payment_orders (w_db w))) (w_db w)) w).
Proof.
  intros Htk Hbr Hfc E Hstale Hc Hq. split.
  - unfold fiat_amount. rewrite val_round_bank.
    assert (H0 : (d_val (d_mul (of_amount order) d_zero) == 0)%Q) by (rewrite val_mul, val_zero; ring).
    simpl. by rewrite H0.
  - apply Z.ltb_lt in Hstale. destruct (GetProviderRate_missing _ _ _ _ E Hq Hc) as [e He].
    unfold assign_directly. unfold bindM at 1, getM. unfold bindM at 1. rewrite Hstale, Htk, Hbr. unfold deref.
    rewrite !bind_ret, Hfc, !bind_ret. unfold bindM at 1, attemptM, tryM at 1. rewrite He. unfold retM at 1. cbn beta iota.
    unfold bindM at 1, logged, tryM at 1, write_db, bindM at 1, ext at 1. rewrite E. reflexivity.
Qed.
End assign_claims.

(** ** Witnesses on the seeded database *)

Definition s_conf : Config := mkConfig 60 60 60 3 (d_int 5) "production" 300 (d_int 1).
Definition s_bref : BucketRef := mkBucketRef s_bucket (Some s_currency).
(** An order of 2 USDT at 950, created at time 0. *)
Definition s_order (provider : string) : LockPaymentOrderFields :=
  mkLPOF "o2" (Some s_token) "g2" (d_int 2) (d_int 950) (d_int 0) (d_int 2) 7 "0xtx" "ABNGNGLA"
    "1234567890" "OK" "0xsender" "mh" provider "rent" "{}" (Some s_bref) 0 0 true.
Definition s_job : BucketJob := mkJob s_bucket s_currency [s_prov].
Definition s_late (w : World) : World :=
  mkWorld (w_db w) (w_txs w) (w_next_tx w) (w_redis w) (w_faults w) (2 * ten_minutes) (w_events w) (w_attempts w).

Lemma s_rates_nonneg pc : rates_nonneg (s_db pc).
Proof.
  intros t fc [-> | []%not_elem_of_nil]%elem_of_cons. simpl. split; [vm_compute; discriminate|].
  intros [_ <-]%lookup_singleton_Some. vm_compute. discriminate.
Defined.
Lemma s_lists_below pc : bucket_lists_below 2 (s_queue_world pc).
Proof. intros k _. apply s_queue_bound. Defined.

Lemma send_order_request_correct_witness :
  (sendOrderRequest s_conf (s_order s_prov) (s_queue_world (s_pc 5000 0 5000))).1 = Ret tt /\
  exists pc, db_provider_currencies (s_db (s_pc 5000 0 5000)) !! (s_prov, s_cur) = Some pc.
Proof.
  pose proof (send_order_request_correct s_conf (s_order s_prov) s_bref s_currency
    (s_queue_world (s_pc 5000 0 5000)) eq_refl eq_refl) as [_ _ _ H].
  replace (sendOrderRequest s_conf (s_order s_prov) (s_queue_world (s_pc 5000 0 5000))).1 with (@Ret unit tt) in *
    by (vm_compute; reflexivity).
  split; [reflexivity|]. destruct H as (pc & Hpc & _). by exists pc.
Defined.

Lemma assign_preserves_consistency_witness :
  wp (AssignLockPaymentOrder s_conf 2 3 (s_order "")) (fun _ w' => db_consistent (w_db w'))
    (s_queue_world (s_pc 5000 0 5000)).
Proof.
  apply (assign_preserves_consistency s_conf (s_order "") s_token s_bref s_currency 2 3 (s_queue_world (s_pc 5000 0 5000)));
    [reflexivity|reflexivity|reflexivity|vm_compute; discriminate|vm_compute; discriminate|apply s_rates_nonneg|].
  apply s_db_consistent, s_pc_consistent; lia.
Defined.

Lemma assign_respects_exclusions_witness :
  exists evs, w_events (AssignLockPaymentOrder s_conf 2 3 (s_order "") (s_queue_world (s_pc 5000 0 5000))).2 = [] ++ evs.
Proof.
  destruct (assign_respects_exclusions s_conf (s_order "") s_token s_bref s_currency 2 3
    (s_queue_world (s_pc 5000 0 5000)) eq_refl eq_refl eq_refl) as [_ (evs & H & _)].
  exists evs. exact H.
Defined.

Lemma match_rate_sound_witness :
  (entry_serves 2 [] (s_order "") s_entry (s_queue_world (s_pc 5000 0 5000))).1 = Ret (Some s_prov) /\
  entry_ok (s_db (s_pc 5000 0 5000)) [] (s_order "") s_token s_currency s_entry s_prov.
Proof.
  assert (H : (entry_serves 2 [] (s_order "") s_entry (s_queue_world (s_pc 5000 0 5000))).1 = Ret (Some s_prov))
    by (vm_compute; reflexivity).
  split; [exact H|].
  destruct (match_rate_sound 2 [] (s_order "") s_entry s_token s_bref s_currency
    (s_queue_world (s_pc 5000 0 5000)) eq_refl eq_refl eq_refl) as [_ Hp]. exact (Hp s_prov H).
Defined.

Lemma assign_unknown_provider_panics_witness :
  (AssignLockPaymentOrder s_conf 2 1 (s_order "nobody") (s_queue_world (s_pc 5000 0 5000))).1 = Panic.
Proof.
  apply (assign_unknown_provider_panics s_conf (s_order "nobody") 2 0);
    [done|apply ContainsString_not_elem; reflexivity|reflexivity|reflexivity].
Defined.

Lemma send_failure_leaves_transaction_witness :
  (sendOrderRequest s_conf (s_order s_prov) (s_world (s_pc 5000 0 5000) [false; false; false; true])).1 = Err EFault.
Proof.
  apply (send_failure_leaves_transaction s_conf (s_order s_prov) s_bref s_currency (s_pc 5000 0 5000) []);
    [reflexivity|reflexivity|reflexivity|vm_compute; discriminate|reflexivity].
Defined.

Lemma assign_terminates_witness :
  AssignLockPaymentOrder s_conf 2 5 (s_order "") (s_queue_world (s_pc 5000 0 5000)) =
  AssignLockPaymentOrder s_conf 9 9 (s_order "") (s_queue_world (s_pc 5000 0 5000)).
Proof.
  apply (assign_terminates s_conf (s_order "") s_token s_bref s_currency);
    [reflexivity|reflexivity|reflexivity|apply s_lists_below|vm_compute; lia|lia|lia].
Defined.

Lemma create_queue_correct_witness :
  get_list s_key (w_redis (CreatePriorityQueueForBucket s_conf s_job (s_world (s_pc 5000 0 5000) [])).2) = [s_entry].
Proof.
  destruct (create_queue_correct s_conf s_job (s_world (s_pc 5000 0 5000) [])) as (_ & _ & _ & _ & H);
    [by eexists|]. destruct (H eq_refl) as [H1 _]. etransitivity; [exact H1|]. vm_compute. reflexivity.
Defined.

Lemma queue_entries_sound_witness :
  exists p t rate, p ∈ [s_prov] /\ t ∈ [s_order_token] /\
    s_entry = queue_entry p (tk_symbol (pot_token t)) rate (pot_min_order_amount t) (pot_max_order_amount t).
Proof.
  destruct (queue_entries_sound s_conf (s_db (s_pc 5000 0 5000)) s_job s_entry) as (p & t & rate & H1 & H2 & _ & H3 & _).
  { replace (queue_spec s_conf (s_db (s_pc 5000 0 5000)) s_job) with [s_entry] by (vm_compute; reflexivity). left. }
  by exists p, t, rate.
Defined.

Lemma assign_picks_first_witness :
  get_list s_key (w_redis (AssignLockPaymentOrder s_conf 2 1 (s_order "") (s_queue_world (s_pc 5000 0 5000))).2) = [s_entry].
Proof.
  destruct (assign_picks_first s_conf (s_order "") s_token s_bref s_currency 2 0 [] s_entry [] s_prov
    (s_queue_world (s_pc 5000 0 5000))) as [H1 H2];
    [reflexivity|reflexivity|reflexivity|reflexivity|reflexivity|vm_compute; reflexivity|simpl; lia|constructor|
     vm_compute; reflexivity|vm_compute; reflexivity|].
  rewrite H1. exact H2.
Defined.

Lemma stale_order_sent_at_zero_witness :
  quoted_rate (s_db (s_pc 5000 0 5000)) "p2" "USDT" s_cur = None /\
  (d_val (fiat_amount (d_int 2) d_zero) == 0)%Q.
Proof.
  split; [vm_compute; reflexivity|].
  apply (stale_order_sent_at_zero s_conf (s_order "p2") s_token s_bref s_currency
    (s_late (s_queue_world (s_pc 5000 0 5000))));
    [reflexivity|reflexivity|reflexivity|reflexivity|vm_compute; reflexivity|by eexists|vm_compute; reflexivity].
Defined.
