(* ===== verification/Orders.v ===== *)
(** * The life of an on-chain order (services/common/order.go)

    What the indexers do on an [OrderCreated], [OrderSettled] or [OrderRefunded]
    event, the cancellation of an order, the choice of its provision bucket, the
    AML check and the expiry of receive addresses.  The functions [refundOrder]
    and [assignLockPaymentOrder] are arguments, as in the code. *)

From S2P Require Import Prelude Decimal Schema Store Samples Balance Utils Services.
Local Open Scope go_scope.
Local Open Scope string_scope.
Local Open Scope list_scope.

(** What these functions reach beyond the database. *)
Class OrderServices `{O : DecimalOps} := {
  (** [uuid.New] *)
  new_uuid : World -> string;
  (** decryption of the recipient from the message hash *)
  recipient_of : string -> option PaymentOrderRecipient;
  (** [uuid.Parse(string(FromHex(id)))] *)
  parse_split_id : string -> option string;
  (** [BuildRPCURL] *)
  build_rpc_url : string -> string;
  (** the decision in the answer of [eth_backfillTransaction]; [None] when it is
      not JSON of the expected form *)
  aml_answer : World -> string -> string -> option string;
  (** [SendPaymentOrderWebhook] *)
  send_webhook : PaymentOrder -> M unit;
  (** [EngineService.DeleteWebhookAndRecord] *)
  delete_webhook : string -> M unit
}.

Section orders.
Context {O : DecimalOps} {OS : @OrderServices O} {SV : @Services O}.
Variable conf : Config.

(** ** Rows *)

Definition lock_rows (d : DB) : list LockPaymentOrder := map snd (map_to_list (db_lock_orders d)).
Definition payment_rows (d : DB) : list PaymentOrder := map snd (map_to_list (db_payment_orders d)).
Definition lo_on_network (network : Network) (o : LockPaymentOrder) : bool :=
  String.eqb (nw_identifier (tk_network (lo_token o))) (nw_identifier network).
Definition po_on_network (network : Network) (o : PaymentOrder) : bool :=
  String.eqb (nw_identifier (tk_network (po_token o))) (nw_identifier network).

(** *** Creating a lock payment order: the builder, its defaults and checks *)

Record LockPaymentOrderCreate := mkLPOC {
  cr_token : option Token;
  cr_gateway_id : option string;
  cr_amount : option dec;
  cr_rate : option dec;
  cr_protocol_fee : option dec;
  cr_order_percent : option dec;
  cr_amount_in_usd : option dec;
  cr_block_number : option Z;
  cr_tx_hash : option string;
  cr_institution : option string;
  cr_account_identifier : option string;
  cr_account_name : option string;
  cr_sender : option string;
  cr_message_hash : option string;
  cr_memo : option string;
  cr_metadata : option string;
  cr_cancellation_count : option Z;
  cr_cancellation_reasons : option (list string);
  cr_status : option LockStatus;
  cr_provision_bucket : option ProvisionBucket;
  cr_provider : option string;
  cr_transactions : list Z
}.

Definition missing {A} (f : option A) : bool := match f with None => true | Some _ => false end.
Definition too_long (n : nat) (f : option string) : bool :=
  match f with Some s => (n <? String.length s)%nat | None => false end.

(** [check], in its order. *)
Definition lock_check (c : LockPaymentOrderCreate) : option error :=
  if missing (cr_gateway_id c) then Some (EValidation "gateway_id")
  else if missing (cr_amount c) then Some (EValidation "amount")
  else if missing (cr_protocol_fee c) then Some (EValidation "protocol_fee")
  else if missing (cr_rate c) then Some (EValidation "rate")
  else if missing (cr_order_percent c) then Some (EValidation "order_percent")
  else if too_long 70 (cr_tx_hash c) then Some (EValidation "tx_hash")
  else if missing (cr_block_number c) then Some (EValidation "block_number")
  else if missing (cr_institution c) then Some (EValidation "institution")
  else if missing (cr_account_identifier c) then Some (EValidation "account_identifier")
  else if missing (cr_account_name c) then Some (EValidation "account_name")
  else if too_long 400 (cr_message_hash c) then Some (EValidation "message_hash")
  else if missing (cr_amount_in_usd c) then Some (EValidation "amount_in_usd")
  else if missing (cr_token c) then Some (EValidation "token")
  else None.

(** The row that the builder describes, defaults applied. *)
Definition lock_row (id : string) (now : Z) (c : LockPaymentOrderCreate) (tk : Token) : LockPaymentOrder :=
  mkLPO id (default "" (cr_gateway_id c)) (default d_zero (cr_amount c)) (default d_zero (cr_protocol_fee c))
    (default d_zero (cr_rate c)) (default d_zero (cr_order_percent c)) (default "" (cr_sender c))
    (default "" (cr_tx_hash c)) (default LPending (cr_status c)) (default 0 (cr_block_number c))
    (default "" (cr_institution c)) (default "" (cr_account_identifier c)) (default "" (cr_account_name c))
    (default "" (cr_memo c)) (default "" (cr_metadata c)) (default 0 (cr_cancellation_count c))
    (default [] (cr_cancellation_reasons c)) (default "" (cr_message_hash c))
    (default d_zero (cr_amount_in_usd c)) now now tk (cr_provision_bucket c) (cr_provider c)
    (cr_transactions c).

(** The unique index of the table. *)
Definition same_index (a b : LockPaymentOrder) : bool :=
  String.eqb (lo_gateway_id a) (lo_gateway_id b) && d_eqb (lo_rate a) (lo_rate b) &&
  String.eqb (lo_tx_hash a) (lo_tx_hash b) && (lo_block_number a =? lo_block_number b)%Z &&
  String.eqb (lo_institution a) (lo_institution b) &&
  String.eqb (lo_account_identifier a) (lo_account_identifier b) &&
  String.eqb (lo_account_name a) (lo_account_name b) && String.eqb (lo_memo a) (lo_memo b) &&
  (tk_id (lo_token a) =? tk_id (lo_token b))%Z.

(** The insert: the index and the provider's foreign key are enforced. *)
Definition insert_lock_order (row : LockPaymentOrder) (d : DB) : error + (DB * LockPaymentOrder) :=
  if existsb (same_index row) (lock_rows d) then inl (EMsg "unique constraint")
  else match lo_provider row with
       | Some p => if missing (db_providers d !! p) then inl (EMsg "foreign key constraint")
                   else inr (set_lock_orders (<[lo_id row := row]> (db_lock_orders d)) d, row)
       | None => inr (set_lock_orders (<[lo_id row := row]> (db_lock_orders d)) d, row)
       end.

(** [Save]: nothing is sent to the database when a check fails. *)
Definition lock_save (h : handle) (c : LockPaymentOrderCreate) : M LockPaymentOrder :=
  match lock_check c, cr_token c with
  | Some e, _ => errM e
  | None, None => errM (EValidation "token")
  | None, Some tk =>
      let! w := getM in
      modify_db h (insert_lock_order (lock_row (new_uuid w) (w_now w) c tk))
  end.

(** *** Updates *)

Definition lo_cancel (now : Z) (reason : string) (o : LockPaymentOrder) : LockPaymentOrder :=
  mkLPO (lo_id o) (lo_gateway_id o) (lo_amount o) (lo_protocol_fee o) (lo_rate o) (lo_order_percent o)
    (lo_sender o) (lo_tx_hash o) LCancelled (lo_block_number o) (lo_institution o)
    (lo_account_identifier o) (lo_account_name o) (lo_memo o) (lo_metadata o) 3 [reason]
    (lo_message_hash o) (lo_amount_in_usd o) (lo_created_at o) now (lo_token o)
    (lo_provision_bucket o) (lo_provider o) (lo_transactions o).
Definition lo_on_chain (now block : Z) (tx : string) (st : LockStatus) (logs : list Z) (o : LockPaymentOrder)
    : LockPaymentOrder :=
  mkLPO (lo_id o) (lo_gateway_id o) (lo_amount o) (lo_protocol_fee o) (lo_rate o) (lo_order_percent o)
    (lo_sender o) tx st block (lo_institution o) (lo_account_identifier o) (lo_account_name o)
    (lo_memo o) (lo_metadata o) (lo_cancellation_count o) (lo_cancellation_reasons o)
    (lo_message_hash o) (lo_amount_in_usd o) (lo_created_at o) now (lo_token o)
    (lo_provision_bucket o) (lo_provider o) (lo_transactions o ++ logs).

(** [po_chain]: transaction hash, block, gateway id, status and percentage. *)
Definition po_chain (now : Z) (tx : string) (block : Z) (gateway : string) (st : PayStatus) (percent : dec) (logs : list Z)
    (o : PaymentOrder) : PaymentOrder :=
  mkPO (po_id o) (po_amount o) (po_amount_paid o) (po_amount_returned o) percent
    (po_sender_fee o) (po_network_fee o) (po_protocol_fee o) (po_rate o) tx block
    (po_from_address o) (po_return_address o) (po_receive_address_text o) (po_fee_percent o)
    (po_fee_address o) gateway (po_message_hash o) (po_reference o) st
    (po_amount_in_usd o) (po_token o) (po_linked_address o) (po_receive_address o)
    (po_recipient o) (po_payment_webhook o) (po_transactions o ++ logs) (po_sender_profile o)
    (po_created_at o) now.
Definition po_set_status (now : Z) (st : PayStatus) (o : PaymentOrder) : PaymentOrder :=
  po_chain now (po_tx_hash o) (po_block_number o) (po_gateway_id o) st (po_percent_settled o) [] o.

(** [Update().Where(cond).Set...]: on every row that satisfies [cond]. *)
Definition update_where {A} (cond : A -> bool) (f : A -> A) (m : gmap string A) : gmap string A :=
  (fun o => if cond o then f o else o) <$> m.

(** *** Transaction logs *)

Definition log_matches (st : TxLogStatus) (gateway network : string) (l : TransactionLog) : bool :=
  bool_decide (tl_status l = st) && String.eqb (tl_gateway_id l) gateway &&
  String.eqb (tl_network l) network.

(** The update of the existing logs, with the number of rows. *)
Definition update_logs (st : TxLogStatus) (gateway network tx metadata : string) (d : DB)
    : error + (DB * nat) :=
  inr (set_tx_logs (map (fun l => if log_matches st gateway network l
                                  then mkTL (tl_id l) (tl_gateway_id l) (tl_status l) (tl_network l) tx metadata
                                         (tl_created_at l)
                                  else l) (db_tx_logs d)) d,
       length (List.filter (log_matches st gateway network) (db_tx_logs d))).

Definition insert_log (st : TxLogStatus) (gateway network tx metadata : string) (now : Z) (d : DB)
    : error + (DB * Z) :=
  let id := db_next_id d in
  inr (set_next_id (id + 1) (set_tx_logs (db_tx_logs d ++ [mkTL id gateway st network tx metadata now]) d), id).

(** Update the log of an event or create it; the id of a created log. *)
Definition record_log (tx : nat) (st : TxLogStatus) (gateway network hash metadata : string) : M (list Z) :=
  let? n := modify_db (Some tx) (update_logs st gateway network hash metadata)
  orelse e => (errM (EMsg "update")) in
  if (n =? 0)%nat then
    let! w := getM in
    let? id := modify_db (Some tx) (insert_log st gateway network hash metadata (w_now w))
    orelse e => (errM (EMsg "create")) in
    retM [id]
  else retM [].

(** ** Provision buckets *)

Definition bucket_for (d : DB) (amount : dec) (currency : FiatCurrency) (b : ProvisionBucket) : bool :=
  d_ge (pb_max_amount b) amount && d_le (pb_min_amount b) amount &&
  String.eqb (pb_currency b) (fc_code currency).

(** The bucket with the smallest minimum ([Order(Asc(min_amount)).First]). *)
Fixpoint min_bucket (l : list ProvisionBucket) : option ProvisionBucket :=
  match l with
  | [] => None
  | b :: r =>
      match min_bucket r with
      | Some m => if d_lt (pb_min_amount m) (pb_min_amount b) then Some m else Some b
      | None => Some b
      end
  end.

(** The bucket, or whether the amount is below every bucket. *)
Definition GetProvisionBucket (amount : dec) (currency : FiatCurrency) : M (option BucketRef * bool) :=
  let? b := (let! d := read_db None in
             let! row := only (List.filter (bucket_for d amount currency) (db_buckets d)) in
             retM (mkBucketRef row (db_currencies d !! pb_currency row)))
  orelse e =>
    (let! below :=
       (if IsNotFound e then
          let! d := wrapM "failed to fetch minimum bucket" (read_db None) in
          match min_bucket (List.filter (fun b => String.eqb (pb_currency b) (fc_code currency)) (db_buckets d)) with
          | None => errM (EWrap "failed to fetch minimum bucket" ENotFound)
          | Some minBucket => retM (d_lt amount (pb_min_amount minBucket))
          end
        else retM false) in
     if below then retM (None, true) else errM (EWrap "failed to fetch provision bucket" e)) in
  retM (Some b, false).

(** ** Cancellation *)

(** The builder of a cancelled order: everything but [amount_in_usd] and
    [message_hash]. *)
Definition cancelled_builder (f : LockPaymentOrderFields) (tk : Token) (reason : string) : LockPaymentOrderCreate :=
  mkLPOC (Some tk) (Some (of_gateway_id f)) (Some (of_amount f)) (Some (of_rate f)) (Some (of_protocol_fee f))
    (Some (d_int 100)) None (Some (of_block_number f)) (Some (of_tx_hash f)) (Some (of_institution f))
    (Some (of_account_identifier f)) (Some (of_account_name f)) (Some (of_sender f)) None
    (Some (of_memo f)) (Some (of_metadata f)) (Some 3) (Some [reason]) (Some LCancelled)
    (br_row <$> of_provision_bucket f)
    (if String.eqb (of_provider_id f) "" then None else Some (of_provider_id f)) [].

(** A failed refund is only logged. *)
Definition HandleCancellation (created : option LockPaymentOrder) (fields : option LockPaymentOrderFields)
    (reason : string) (refundOrder : Network -> string -> M unit) : M unit :=
  match created, fields with
  | None, None | Some _, Some _ => retM tt
  | None, Some f =>
      let! tk := deref (of_token f) in
      do! wrapM "failed to create lock payment order" (lock_save None (cancelled_builder f tk reason)) in
      do! wrapM "failed to fetch network" (read_db None) in
      do? refundOrder (tk_network tk) (of_gateway_id f) orelse e => (retM tt) in
      retM tt
  | Some o, None =>
      let! w := getM in
      do! wrapM "failed to update lock payment order" (write_db None (fun d =>
            set_lock_orders (update_where (fun r => String.eqb (lo_id r) (lo_id o))
              (lo_cancel (w_now w) reason) (db_lock_orders d)) d)) in
      do! wrapM "failed to fetch network" (read_db None) in
      do? refundOrder (tk_network (lo_token o)) (lo_gateway_id o) orelse e => (retM tt) in
      retM tt
  end.

(** The institution with its currency edge, which is nil when only enabled
    currencies are loaded and it is not enabled. *)
Definition GetInstitutionByCode (code : string) (enabledFiatCurrency : bool) : M (Institution * option FiatCurrency) :=
  let! d := read_db None in
  let! ins := only (List.filter (fun i => String.eqb (in_code i) code) (db_institutions d)) in
  retM (ins, c ← in_fiat_currency ins; fc ← db_currencies d !! c;
             if negb enabledFiatCurrency || fc_is_enabled fc then Some fc else None).

(** [CalculatePaymentOrderAmountInUSD], with the currency edge fetched when it is
    not loaded. *)
Definition amount_in_usd (amount : dec) (tk : Token) (ins : Institution) (edge : option FiatCurrency) : M dec :=
  match edge with
  | Some fc => retM (CalculatePaymentOrderAmountInUSD amount (Some tk) (Some ins) (Some fc))
  | None =>
      let! r := attemptM (read_db None) in
      retM (CalculatePaymentOrderAmountInUSD amount (Some tk) (Some ins)
              (match r with inl _ => None | inr d => c ← in_fiat_currency ins; db_currencies d !! c end))
  end.

(** An amount in token subunits as a decimal: [Div(10^decimals)]. *)
Definition from_subunit (amount : dec) (tk : Token) : dec := d_div amount (d_int (10 ^ tk_decimals tk)).

Definition createBasicLockPaymentOrderAndCancel (event : OrderCreatedEvent) (network : Network)
    (token : option Token) (recipient : option PaymentOrderRecipient) (reason : string)
    (refundOrder : Network -> string -> M unit) : M unit :=
  match token with
  | None =>
      do? refundOrder network (oc_order_id event) orelse e => (errM (EMsg "token is nil")) in
      errM (EMsg "token is nil")
  | Some tk =>
      let adjustedAmount := from_subunit (oc_amount event) tk in
      let adjustedProtocolFee := from_subunit (oc_protocol_fee event) tk in
      let! usd :=
        (match recipient with
         | None => retM d_zero
         | Some r =>
             let? i := GetInstitutionByCode (rc_institution r) true orelse e => (retM d_zero) in
             amount_in_usd adjustedAmount tk (fst i) (snd i)
         end) in
      let get (f : PaymentOrderRecipient -> string) : string := match recipient with Some r => f r | None => "" end in
      wrapM "failed to handle cancellation"
        (HandleCancellation None
           (Some (mkLPOF "" (Some tk) (oc_order_id event) adjustedAmount (oc_rate event) adjustedProtocolFee usd
              (oc_block_number event) (oc_tx_hash event) (get rc_institution) (get rc_account_identifier)
              (get rc_account_name) (oc_sender event) (oc_message_hash event) (get rc_provider_id)
              (get rc_memo) (get rc_metadata) None 0 0 true))
           reason refundOrder)
  end.

(** ** AML *)

Definition CheckAMLCompliance (rpcUrl txHash : string) : M bool :=
  if negb (Contains rpcUrl "shield3") then retM true
  else
    do? ext orelse e => (errM (EMsg "failed to connect to RPC client")) in
    do? ext orelse e => (errM (EMsg "failed to backfill transaction")) in
    let! w := getM in
    match aml_answer w rpcUrl txHash with
    | None => errM (EMsg "failed to unmarshal response")
    | Some decision => retM (String.eqb decision "Allow")
    end.

Definition deleteTransferWebhook (txHash : string) : M unit :=
  let? po := (let! d := read_db None in
              only (List.filter (fun o => String.eqb (po_tx_hash o) txHash) (payment_rows d)))
  orelse e => (if IsNotFound e then retM tt else errM (EWrap "failed to fetch payment order" e)) in
  match po_payment_webhook po with
  | None => retM tt
  | Some id => wrapM "failed to delete webhook" (delete_webhook id)
  end.

(** ** Created *)

(** The goroutine that [CreateLockPaymentOrder] starts: the payment order of the
    message hash gets the chain data.  Every failure of the lookup is an error
    of the attempt, and so is retried. *)
Definition link_attempt (event : OrderCreatedEvent) : M unit :=
  let! po := (let! d := read_db None in
              only (List.filter (fun o => String.eqb (po_message_hash o) (oc_message_hash event)) (payment_rows d))) in
  let! w := getM in
  do? write_db None (fun d =>
        set_payment_orders (update_where (fun o => String.eqb (po_id o) (po_id po))
          (fun o => po_chain (w_now w) (oc_tx_hash event) (oc_block_number event) (oc_order_id event) PPending
                      (po_percent_settled o) [] o) (db_payment_orders d)) d)
  orelse e => (retM tt) in
  let? updated := (let! d := read_db None in
                   only (List.filter (fun o => String.eqb (po_id o) (po_id po)) (payment_rows d)))
  orelse e => (retM tt) in
  do? send_webhook updated orelse e => (retM tt) in
  retM tt.
Definition link_payment_order (event : OrderCreatedEvent) : M unit :=
  do? Retry 30 (link_attempt event) orelse e => (retM tt) in retM tt.

Definition already_indexed (network : Network) (event : OrderCreatedEvent) (o : LockPaymentOrder) : bool :=
  (String.eqb (lo_tx_hash o) (oc_tx_hash event) || String.eqb (lo_message_hash o) (oc_message_hash event) ||
   String.eqb (lo_gateway_id o) (oc_order_id event)) && lo_on_network network o.

Definition token_matches (network : Network) (event : OrderCreatedEvent) (t : Token) : bool :=
  String.eqb (tk_contract_address t) (oc_token event) && (nw_id (tk_network t) =? nw_id network)%Z.

Definition private_token_matches (d : DB) (p : string) (tk : Token) (code : string) (t : ProviderOrderToken) : bool :=
  String.eqb (pot_network t) (nw_identifier (tk_network tk)) && String.eqb (pot_provider t) p &&
  has_available_currency d p code &&
  match db_providers d !! p with
  | Some pp => bool_decide (pp_user_kyb_status pp = KApproved) | None => false end &&
  (tk_id (pot_token t) =? tk_id tk)%Z && String.eqb (pot_currency t) code && negb (String.eqb (pot_address t) "").

Definition order_fields (event : OrderCreatedEvent) (tk : Token) (r : PaymentOrderRecipient) (usd : dec)
    (bucket : option BucketRef) : LockPaymentOrderFields :=
  mkLPOF "" (Some tk) (oc_order_id event) (oc_amount event) (oc_rate event) (oc_protocol_fee event) usd
    (oc_block_number event) (oc_tx_hash event) (rc_institution r) (rc_account_identifier r)
    (rc_account_name r) (oc_sender event) (oc_message_hash event) (rc_provider_id r) (rc_memo r)
    (rc_metadata r) bucket 0 0 true.

Definition with_id (id : string) (o : LockPaymentOrderFields) : LockPaymentOrderFields :=
  mkLPOF id (of_token o) (of_gateway_id o) (of_amount o) (of_rate o) (of_protocol_fee o)
    (of_amount_in_usd o) (of_block_number o) (of_tx_hash o) (of_institution o)
    (of_account_identifier o) (of_account_name o) (of_sender o) (of_message_hash o)
    (of_provider_id o) (of_memo o) (of_metadata o) (of_provision_bucket o) (of_updated_at o)
    (of_created_at o) (of_network_loaded o).

(** The event after its amounts were rewritten in place. *)
Definition scaled (event : OrderCreatedEvent) (tk : Token) : OrderCreatedEvent :=
  mkOCE (oc_block_number event) (oc_tx_hash event) (oc_token event) (from_subunit (oc_amount event) tk)
    (from_subunit (oc_protocol_fee event) tk) (oc_order_id event) (oc_rate event) (oc_message_hash event)
    (oc_sender event).

Definition new_order_builder (f : LockPaymentOrderFields) (tk : Token) (b : BucketRef) (logs : list Z)
    : LockPaymentOrderCreate :=
  mkLPOC (Some tk) (Some (of_gateway_id f)) (Some (of_amount f)) (Some (of_rate f)) (Some (of_protocol_fee f))
    (Some (d_int 100)) (Some (of_amount_in_usd f)) (Some (of_block_number f)) (Some (of_tx_hash f))
    (Some (of_institution f)) (Some (of_account_identifier f)) (Some (of_account_name f)) (Some (of_sender f))
    (Some (of_message_hash f)) (Some (of_memo f)) (Some (of_metadata f)) None None None (Some (br_row b))
    (if String.eqb (of_provider_id f) "" then None else Some (of_provider_id f)) logs.

(** The log and the order, in one transaction; an error leaves it open. *)
Definition store_order (network : Network) (f : LockPaymentOrderFields) (tk : Token) (b : BucketRef)
    : M LockPaymentOrder :=
  let! tx := wrapM "failed to initiate db transaction" begin_tx in
  let! logs :=
    (let? _l := (let! d := read_db (Some tx) in
                 only (List.filter (fun l => bool_decide (tl_status l = TOrderCreated) &&
                         String.eqb (tl_tx_hash l) (of_tx_hash f) &&
                         String.eqb (tl_gateway_id l) (of_gateway_id f)) (db_tx_logs d)))
     orelse e =>
       (if negb (IsNotFound e) then errM (EWrap "failed to fetch transaction Log" e)
        else
          let! w := getM in
          let! id := wrapM "failed to create transaction Log"
                       (modify_db (Some tx) (insert_log TOrderCreated (of_gateway_id f) (nw_identifier network)
                          (of_tx_hash f) (of_gateway_id f) (w_now w))) in
          retM [id]) in
     retM []) in
  let! order := wrapM "failed to create lock payment order" (lock_save (Some tx) (new_order_builder f tk b logs)) in
  do! wrapM "failed to create lock payment order" (commit_tx tx) in
  retM order.

(** The checks for an order that names its provider: the reason for which it is
    cancelled, if any. *)
Definition private_order_check (qfuel : nat) (f : LockPaymentOrderFields) (tk : Token) (edge currency : FiatCurrency)
    : M (option (bool * string)) :=
  if String.eqb (of_provider_id f) "" then retM None
  else
    let? t := (let! d := read_db None in
               only (List.filter (private_token_matches d (of_provider_id f) tk (fc_code edge)) (db_order_tokens d)))
    orelse e => (if IsNotFound e then retM (Some (false, "Provider not available"))
                 else errM (EWrap "failed to fetch provider" e)) in
    let! w := getM in
    match db_providers (w_db w) !! pot_provider t with
    | Some pp =>
        if bool_decide (pp_visibility_mode pp = VisPrivate) then
          let! amount :=
            (if EqualFold (tk_base_currency tk) (fc_code edge) && negb (String.eqb (tk_base_currency tk) "USD") then
               let! rate := wrapM "failed to get token rate"
                   (GetTokenRateFromQueue qfuel (scan_buckets (fc_code edge)) "USDT" (of_amount f)
                      (fc_market_rate currency)) in
               go_div (of_amount f) rate
             else retM (of_amount f)) in
          if d_gt amount (pot_max_order_amount t)
          then retM (Some (true, "Amount is greater than the maximum order amount of the provider"))
          else if d_lt amount (pot_min_order_amount t)
          then retM (Some (true, "Amount is less than the minimum order amount of the provider"))
          else retM None
        else retM None
    | None => retM None
    end.

Definition CreateLockPaymentOrder (qfuel : nat) (network : Network) (event : OrderCreatedEvent)
    (refundOrder : Network -> string -> M unit) (assignLockPaymentOrder : LockPaymentOrderFields -> M unit)
    : M unit :=
  let? d := read_db None orelse e => (errM (EMsg "CreateLockPaymentOrder.db")) in
  if (0 <? length (List.filter (already_indexed network event) (lock_rows d)))%nat then retM tt
  else
    do! emit (EvLink (oc_message_hash event)) in
    let? tk := (let! d := read_db None in
                only (List.filter (token_matches network event) (db_tokens d)))
    orelse e => (createBasicLockPaymentOrderAndCancel event network None None "Token lookup failed" refundOrder) in
    match recipient_of (oc_message_hash event) with
    | None => createBasicLockPaymentOrderAndCancel event network (Some tk) None
                "Message hash decryption failed" refundOrder
    | Some r =>
        let? i := GetInstitutionByCode (rc_institution r) true
        orelse e => (createBasicLockPaymentOrderAndCancel event network (Some tk) (Some r)
                       "Institution lookup failed" refundOrder) in
        let! edge := deref (snd i) in
        let? currency :=
          (let! d := read_db None in
           match db_currencies d !! fc_code edge with
           | Some fc => if fc_is_enabled fc then retM fc else errM ENotFound
           | None => errM ENotFound
           end)
        orelse e => (createBasicLockPaymentOrderAndCancel event network (Some tk) (Some r)
                       "Currency lookup failed" refundOrder) in
        let event := scaled event tk in
        let? res := GetProvisionBucket (d_mul (oc_amount event) (oc_rate event)) currency
        orelse e => (createBasicLockPaymentOrderAndCancel event network (Some tk) (Some r)
                       "Provision bucket lookup failed" refundOrder) in
        let f := order_fields event tk r
                   (CalculatePaymentOrderAmountInUSD (oc_amount event) (Some tk) (Some (fst i)) (Some edge))
                   (fst res) in
        if (snd res : bool) then
          wrapM "failed to handle cancellation"
            (HandleCancellation None (Some f) "Amount is less than the minimum bucket" refundOrder)
        else
          let! check := private_order_check qfuel f tk edge currency in
          match check with
          | Some (reported, reason) =>
              if (reported : bool)
              then wrapM "failed to cancel order" (HandleCancellation None (Some f) reason refundOrder)
              else do? HandleCancellation None (Some f) reason refundOrder orelse e => (retM tt) in retM tt
          | None =>
              match fst res with
              | None => wrapM "failed to handle cancellation"
                          (HandleCancellation None (Some f) "Amount is larger than the maximum bucket" refundOrder)
              | Some b =>
                  let! order := store_order network f tk b in
                  do? deleteTransferWebhook (oc_tx_hash event) orelse e => (retM tt) in
                  let! ok :=
                    (if String.eqb (cf_environment conf) "production" &&
                        negb (HasPrefix (nw_identifier network) "tron") then
                       let? ok := CheckAMLCompliance (build_rpc_url (nw_rpc_endpoint network)) (oc_tx_hash event)
                       orelse e => (retM true) in
                       retM ok
                     else retM true) in
                  if negb ok then
                    wrapM "checkAMLCompliance.RefundOrder"
                      (HandleCancellation (Some order) None "AML compliance check failed" refundOrder)
                  else
                    do? assignLockPaymentOrder (with_id (lo_id order) f) orelse e => (retM tt) in
                    retM tt
              end
          end
    end.
(** ** Refunded and settled *)

(** The payment order of a message hash on a network, if there is one. *)
Definition fetch_payment_order (network : Network) (messageHash : string) : M (option PaymentOrder) :=
  let? po := (let! d := read_db None in
              only (List.filter (fun o => String.eqb (po_message_hash o) messageHash && po_on_network network o)
                      (payment_rows d)))
  orelse e => (if IsNotFound e then retM None else errM (EMsg "fetchOrder")) in
  retM (Some po).

(** The provider, currency and fiat amount of a lock order read through the
    transaction; [None] when the query fails or an edge is missing. *)
Definition order_balance_info (tx : nat) (cond : LockPaymentOrder -> bool)
    : M (option (string * string * dec)) :=
  let? res := (let! d := read_db (Some tx) in
               let! o := only (List.filter cond (lock_rows d)) in retM (d, o))
  orelse e => (retM None) in
  let '(d, o) := res in
  retM (p ← lo_provider o; b ← lo_provision_bucket o; fc ← db_currencies d !! pb_currency b;
        Some (p, fc_code fc, fiat_amount (lo_amount o) (lo_rate o))).

(** An error after [Tx] leaves the transaction open. *)
Definition UpdateOrderStatusRefunded (network : Network) (event : OrderRefundedEvent) (messageHash : string)
    : M unit :=
  let! paymentOrder := fetch_payment_order network messageHash in
  let? tx := begin_tx orelse e => (errM (EMsg "dbtransaction")) in
  let! logs := record_log tx TOrderRefunded (or_order_id event) (nw_identifier network) (or_tx_hash event)
                 (or_order_id event) in
  let of_event (o : LockPaymentOrder) : bool :=
    String.eqb (lo_gateway_id o) (or_order_id event) && lo_on_network network o in
  let! w := getM in
  do? write_db (Some tx) (fun d => set_lock_orders
        (update_where of_event (lo_on_chain (w_now w) (or_block_number event) (or_tx_hash event) LRefunded logs)
           (db_lock_orders d)) d)
  orelse e => (errM (EMsg "aggregator")) in
  let! info := order_balance_info tx of_event in
  do! (match info with
       | Some (p, c, amount) => do? ReleaseReservedBalance p c amount None orelse e => (retM tt) in retM tt
       | None => retM tt
       end) in
  let! notify :=
    (match paymentOrder with
     | None => retM None
     | Some po =>
         if bool_decide (po_status po = PRefunded) then retM (Some po)
         else
           let gateway := if missing (po_linked_address po) then or_order_id event else "" in
           do? write_db (Some tx) (fun d => set_payment_orders
                 (update_where (fun o => String.eqb (po_message_hash o) messageHash && po_on_network network o)
                    (fun o => po_chain (w_now w) (or_tx_hash event) (or_block_number event) gateway PRefunded
                                (po_percent_settled o) logs o) (db_payment_orders d)) d)
           orelse e => (errM (EMsg "sender")) in
           retM (Some (po_chain (po_updated_at po) (or_tx_hash event) (or_block_number event) (or_order_id event) PRefunded
                         (po_percent_settled po) [] po))
     end) in
  do? commit_tx tx orelse e => (errM (EMsg "commit")) in
  match notify with
  | Some po => do? send_webhook po orelse e => (errM (EMsg "webhook")) in retM tt
  | None => retM tt
  end.

(** The balances after a settlement of [amount]: reserved and total go down, not
    below zero. *)
Definition settled_balances (amount : dec) (pc : ProviderCurrencies) : dec * dec :=
  let newReservedBalance := d_sub (pc_reserved_balance pc) amount in
  let newReservedBalance := if d_lt newReservedBalance d_zero then d_zero else newReservedBalance in
  let newTotalBalance := d_sub (pc_total_balance pc) amount in
  let newTotalBalance := if d_lt newTotalBalance d_zero then d_zero else newTotalBalance in
  (newTotalBalance, newReservedBalance).

(** Not within the transaction of the event. *)
Definition settle_balance (p c : string) (amount : dec) : M unit :=
  let? pc := GetProviderBalance p c orelse e => (retM tt) in
  let '(t, r) := settled_balances amount pc in
  do? UpdateProviderBalance p c (pc_available_balance pc) t r orelse e => (retM tt) in
  retM tt.

(** [settledPercent], capped at 100. *)
Definition settled_percent (before settlePercent : dec) : dec :=
  let p := d_add before (d_div settlePercent (d_int 1000)) in
  if d_ge p (d_int 100) then d_int 100 else p.

Definition set_recycled (now : Z) (a : ReceiveAddress) : ReceiveAddress :=
  mkRA (ra_id a) (ra_address a) (ra_status a) (ra_is_deployed a) (ra_network_identifier a) (ra_chain_id a)
    (ra_assigned_at a) now (ra_times_used a) (ra_last_indexed_block a) (ra_last_used a) (ra_tx_hash a)
    (ra_valid_until a) (ra_salt a).

(** The recycling time of the order's receive address; its failures are logged. *)
Definition recycle_address (tx : nat) (po : PaymentOrder) : M unit :=
  let? res := (let! d := read_db (Some tx) in
               let! o := only (List.filter (fun o => String.eqb (po_id o) (po_id po)) (payment_rows d)) in
               retM (id ← po_receive_address o; db_receive_addresses d !! id))
  orelse e => (retM tt) in
  match res with
  | Some a =>
      if ra_is_deployed a && bool_decide (ra_status a = AUsed) then
        let! w := getM in
        do? write_db (Some tx) (fun d => set_receive_addresses
              (alter (set_recycled (w_now w)) (ra_id a) (db_receive_addresses d)) d) orelse e => (retM tt) in
        retM tt
      else retM tt
  | None => retM tt
  end.

Definition settle_info (info : option (string * string * dec)) : M unit :=
  match info with
  | Some (p, c, amount) => settle_balance p c amount
  | None => retM tt
  end.

(** The sender's side: the order to notify of. *)
Definition settle_payment_order (tx : nat) (event : OrderSettledEvent) (messageHash : string) (logs : list Z)
    (paymentOrder : option PaymentOrder) : M (option PaymentOrder) :=
  match paymentOrder with
  | None => retM None
  | Some po =>
      if bool_decide (po_status po = PSettled) then retM None
      else
        let percent := settled_percent (po_percent_settled po) (os_settle_percent event) in
        let full := d_ge percent (d_int 100) in
        let! w := getM in
        do? write_db (Some tx) (fun d => set_payment_orders
              (update_where (fun o => String.eqb (po_message_hash o) messageHash)
                 (fun o => po_chain (w_now w) (os_tx_hash event) (os_block_number event) (os_order_id event)
                             (if full then PSettled else po_status o) percent logs o)
                 (db_payment_orders d)) d)
        orelse e => (errM (EMsg "sender")) in
        do! ifM full (recycle_address tx po) in
        retM (Some (po_chain (po_updated_at po) (os_tx_hash event) (os_block_number event) (os_order_id event)
                      (if full then PSettled else po_status po) percent [] po))
  end.

Definition UpdateOrderStatusSettled (network : Network) (event : OrderSettledEvent) (messageHash : string)
    : M unit :=
  let! paymentOrder := fetch_payment_order network messageHash in
  let? tx := begin_tx orelse e => (errM (EMsg "db")) in
  let! logs := record_log tx TOrderSettled (os_order_id event) (nw_identifier network) (os_tx_hash event)
                 (os_order_id event) in
  match parse_split_id (os_split_order_id event) with
  | None => errM (EMsg "splitOrderId")
  | Some splitOrderId =>
      let of_event (o : LockPaymentOrder) : bool :=
        String.eqb (lo_id o) splitOrderId && lo_on_network network o in
      let! w := getM in
      do? write_db (Some tx) (fun d => set_lock_orders
            (update_where of_event (lo_on_chain (w_now w) (os_block_number event) (os_tx_hash event) LSettled logs)
               (db_lock_orders d)) d)
      orelse e => (errM (EMsg "aggregator")) in
      let! info := order_balance_info tx of_event in
      do! settle_info info in
      let! notify := settle_payment_order tx event messageHash logs paymentOrder in
      do? commit_tx tx orelse e => (errM (EMsg "commit")) in
      match notify with
      | Some po => do? send_webhook po orelse e => (errM (EMsg "webhook")) in retM tt
      | None => retM tt
      end
  end.

(** ** Expiry of receive addresses *)

Definition two_minutes : Z := 120000000000.
Definition set_valid_until (t : Z) (a : ReceiveAddress) : ReceiveAddress :=
  mkRA (ra_id a) (ra_address a) (ra_status a) (ra_is_deployed a) (ra_network_identifier a) (ra_chain_id a)
    (ra_assigned_at a) (ra_recycled_at a) (ra_times_used a) (ra_last_indexed_block a) (ra_last_used a)
    (ra_tx_hash a) t (ra_salt a).
Definition set_addr_status (st : AddrStatus) (a : ReceiveAddress) : ReceiveAddress :=
  mkRA (ra_id a) (ra_address a) st (ra_is_deployed a) (ra_network_identifier a) (ra_chain_id a)
    (ra_assigned_at a) (ra_recycled_at a) (ra_times_used a) (ra_last_indexed_block a) (ra_last_used a)
    (ra_tx_hash a) (ra_valid_until a) (ra_salt a).

(** The zero time is 0. *)
Definition HandleReceiveAddressValidity (a : ReceiveAddress) (po : PaymentOrder) : M unit :=
  let! w := getM in
  if (ra_valid_until a =? 0)%Z then retM tt
  else if bool_decide (ra_status a = AUsed) then retM tt
  else
    let validUntilIsFarGone := (ra_valid_until a <? w_now w - two_minutes)%Z in
    let isExpired := (ra_valid_until a <? w_now w)%Z in
    if validUntilIsFarGone then
      do? write_db None (fun d => set_receive_addresses
            (alter (set_valid_until (w_now w + cf_receive_address_validity conf)) (ra_id a)
               (db_receive_addresses d)) d)
      orelse e => (errM (EMsg "HandleReceiveAddressValidity.db")) in retM tt
    else if isExpired && negb (bool_decide (ra_status a = AExpired)) && negb (bool_decide (po_status po = PExpired)) &&
            negb (HasPrefix (po_recipient_memo po) "P#P") then
      do? write_db None (fun d => set_receive_addresses
            (alter (set_addr_status AExpired) (ra_id a) (db_receive_addresses d)) d)
      orelse e => (errM (EMsg "HandleReceiveAddressValidity.db")) in
      do? write_db None (fun d => set_payment_orders
            (alter (po_set_status (w_now w) PExpired) (po_id po) (db_payment_orders d)) d)
      orelse e => (errM (EMsg "HandleReceiveAddressValidity.db")) in
      do? send_webhook po orelse e => (retM tt) in retM tt
    else retM tt.

End orders.

(** ** What the handlers rely on *)

(** Every institution has a currency. *)
Definition institutions_priced {O : DecimalOps} (d : DB) : Prop :=
  forall i, i ∈ db_institutions d -> exists c fc, in_fiat_currency i = Some c /\ db_currencies d !! c = Some fc.

Class OrderLaws `{O : DecimalOps} (OS : @OrderServices O) : Prop := {
  (** a webhook notification changes neither the database nor Redis *)
  send_webhook_quiet : forall po w,
    wp (send_webhook po) (fun o w' => w_db w' = w_db w /\ w_redis w' = w_redis w) w;
  send_webhook_returns : forall po w,
    institutions_priced (w_db w) -> wp (send_webhook po) (fun o _ => o <> Panic) w
}.

Lemma wp_send_webhook `{O : DecimalOps} (OS : @OrderServices O) {OL : OrderLaws OS} po (Q : outcome unit -> World -> Prop) w :
  institutions_priced (w_db w) ->
  (forall o w', w_db w' = w_db w -> w_redis w' = w_redis w -> o <> Panic -> Q o w') -> wp (send_webhook po) Q w.
Proof.
  intros Hi HQ. pose proof (send_webhook_quiet po w) as H1. pose proof (send_webhook_returns po w Hi) as H2.
  unfold wp in *. destruct (send_webhook po w). apply HQ; [apply H1..|done].
Qed.
