(* ===== verification/OrderClaims.v ===== *)
(** * The life of an order: claims

    The choice of the bucket, storing and cancelling an order, settlement and
    what it does to the provider's balance, and the validity of receive
    addresses; with their witnesses. *)

From S2P Require Import Prelude Decimal Schema Store Samples Transactions Balance Utils Services Orders.
Local Open Scope go_scope.
Local Open Scope string_scope.
Local Open Scope list_scope.

(** ** What the steps do *)

(** The row read back after updates of it. *)
Ltac row_lookup :=
  cbn [db_provider_currencies set_pcs]; rewrite !lookup_alter_eq;
  match goal with H : db_provider_currencies _ !! _ = Some _ |- _ => rewrite H end;
  cbn [fmap option_fmap option_map]; run_ok;
  cbn [pc_available_balance pc_reserved_balance pc_total_balance set_available_reserved set_balances].

Section orders_spec.
Context {O : DecimalOps} {L : DecimalLaws O} {OS : @OrderServices O} {OL : OrderLaws OS} {SV : @Services O}.

Lemma lock_rows_lookup d o : o ∈ lock_rows d -> exists id, db_lock_orders d !! id = Some o.
Proof.
  unfold lock_rows. intros ([id o'] & -> & H)%list_elem_of_fmap.
  apply elem_of_map_to_list in H. by exists id.
Qed.

Lemma lookup_update_where {A} cond (f : A -> A) m id o :
  update_where cond f m !! id = Some o ->
  exists o0, m !! id = Some o0 /\ o = if cond o0 then f o0 else o0.
Proof.
  unfold update_where. rewrite lookup_fmap. destruct (m !! id) as [o0|] eqn:E; [|done].
  simpl. intros [= <-]. by exists o0.
Qed.

(** *** Buckets *)

Lemma min_bucket_none l : min_bucket l = None -> l = [].
Proof. destruct l as [|b l]; [done|]. simpl. repeat case_match; done. Qed.
Lemma min_bucket_least l m b :
  min_bucket l = Some m -> b ∈ l -> (d_val (pb_min_amount m) <= d_val (pb_min_amount b))%Q.
Proof.
  revert m. induction l as [|x l IH]; intros m; [done|]. simpl. intros Hm Hb.
  destruct (min_bucket l) as [y|] eqn:E.
  - specialize (IH y eq_refl). destruct (d_lt _ _) eqn:Hlt; simplify_eq/=; dec_to_q;
      apply elem_of_cons in Hb as [->|Hb]; [lra|by apply IH|lra|specialize (IH Hb); lra].
  - apply min_bucket_none in E as ->. simplify_eq/=.
    apply elem_of_cons in Hb as [->|Hb%not_elem_of_nil]; [lra|done].
Qed.

(** The choice of the provision bucket only reads, and has three outcomes: the
    one bucket of the currency whose range contains the amount; the report that
    the amount is below every bucket of the currency; or an error.  It never
    returns no bucket without one of these, so the branch of the caller for
    amounts above the largest bucket is not reached. *)
Theorem provision_bucket_outcomes amount currency w :
  wp (GetProvisionBucket amount currency) (fun o w' => reads_only w w' /\ o <> Panic /\
    forall r below, o = Ret (r, below) ->
      match r with
      | Some br => below = false /\ br_row br ∈ db_buckets (w_db w) /\
          pb_currency (br_row br) = fc_code currency /\
          (d_val (pb_min_amount (br_row br)) <= d_val amount <= d_val (pb_max_amount (br_row br)))%Q
      | None => below = true /\
          forall b, b ∈ db_buckets (w_db w) -> pb_currency b = fc_code currency ->
            (d_val amount < d_val (pb_min_amount b))%Q
      end) w.
Proof.
  unfold GetProvisionBucket. do 2 wp_step.
  eapply wp_read_db; [reflexivity|intros fs|intros fs; by repeat wp_step].
  wp_step. apply only_filter.
  - intros b Hb Hp. repeat wp_step. split_and!; [done|done|]. intros r below [= <- <-].
    unfold bucket_for in Hp. apply andb_true_iff in Hp as [[H1 H2]%andb_true_iff H3%String.eqb_eq].
    simpl. split_and!; [done|done|done|dec_lra|dec_lra].
  - intros _. simpl. do 3 wp_step. eapply wp_read_db; [reflexivity|intros fs'|intros fs'; by repeat wp_step].
    case_match eqn:Hm; [|by repeat wp_step]. repeat wp_step; [|done].
    split_and!; [done|done|]. intros r below [= <- <-]. split; [done|]. intros b' Hb' Hc.
    assert (Hle : (d_val (pb_min_amount p) <= d_val (pb_min_amount b'))%Q).
    { eapply min_bucket_least; [exact Hm|]. apply list_elem_of_In, filter_In.
      split; [by apply list_elem_of_In|by apply String.eqb_eq]. }
    dec_to_q. lra.
  - repeat wp_step; done.
Qed.

(** Cancelling an order that is not stored yet never succeeds: the builder
    leaves out the required amount in USD, so the insert is rejected before
    it reaches the database, nothing is stored and the refund is not requested. *)
Theorem cancel_unstored_order_fails f tk reason refundOrder w :
  of_token f = Some tk ->
  exists field, HandleCancellation None (Some f) reason refundOrder w =
    (Err (EWrap "failed to create lock payment order" (EValidation field)), w).
Proof.
  intros Htk. unfold HandleCancellation. rewrite Htk.
  unfold wrapM, lock_save, lock_check, cancelled_builder, bindM, tryM. simpl.
  destruct (70 <? _)%nat; by eexists.
Qed.

(** An event whose order is already stored on that network (by transaction
    hash, message hash or gateway id) changes nothing, whatever fails. *)
Theorem create_skips_indexed conf qfuel network event refundOrder assign id o w :
  db_lock_orders (w_db w) !! id = Some o -> already_indexed network event o = true ->
  wp (CreateLockPaymentOrder conf qfuel network event refundOrder assign) (fun out w' =>
    out <> Panic /\ reads_only w w') w.
Proof.
  intros Ho Hi. unfold CreateLockPaymentOrder. wp_step.
  eapply wp_read_db; [reflexivity|intros fs|intros fs; by wp_step].
  assert (Hlen : (0 <? length (List.filter (already_indexed network event) (lock_rows (w_db w))))%nat = true).
  { apply Nat.ltb_lt. assert (Hin : In o (List.filter (already_indexed network event) (lock_rows (w_db w)))).
    { apply filter_In. split; [|done]. apply in_map_iff. exists (id, o). split; [done|].
      by apply list_elem_of_In, elem_of_map_to_list. }
    destruct (List.filter _ _); [done|simpl; lia]. }
  rewrite Hlen. by wp_step.
Qed.

Lemma lock_save_in w0 id d c (Q : outcome LockPaymentOrder -> World -> Prop) w :
  in_tx w0 id d w ->
  (forall e w', in_tx w0 id d w' -> Q (Err e) w') ->
  (forall u tk w', cr_token c = Some tk -> lock_check c = None ->
     let row := lock_row u (w_now w0) c tk in
     in_tx w0 id (set_lock_orders (<[lo_id row := row]> (db_lock_orders d)) d) w' -> Q (Ret row) w') ->
  wp (lock_save (Some id) c) Q w.
Proof.
  intros H Hbad Hok. unfold lock_save. destruct (lock_check c) eqn:Hc; [wp_step; by apply Hbad|].
  destruct (cr_token c) as [tk|] eqn:Ht; [|wp_step; by apply Hbad]. do 2 wp_step.
  eapply wp_in_modify; [exact H| |by auto].
  replace (w_now w) with (w_now w0) by (symmetry; apply H).
  unfold insert_lock_order. destruct (existsb _ _); [exact (Hbad _)|].
  cbn [lo_provider lock_row]. destruct (cr_provider c) as [p|]; [destruct (missing _); [exact (Hbad _)|]|];
    intros w'; by apply Hok.
Qed.

(** Storing a new order is atomic, whatever fails.  On success the committed
    database has gained exactly this order, pending and with the fields of the
    event, and an order-created log for its transaction; balances and every
    other order are as before.  On an error nothing was committed. *)
Theorem store_order_atomic network f tk b w :
  wp (store_order network f tk b) (fun o w' =>
    match o with
    | Ret row =>
        db_lock_orders (w_db w') = <[lo_id row := row]> (db_lock_orders (w_db w)) /\
        lo_status row = LPending /\ lo_gateway_id row = of_gateway_id f /\ lo_amount row = of_amount f /\
        lo_rate row = of_rate f /\ lo_message_hash row = of_message_hash f /\
        lo_provision_bucket row = Some (br_row b) /\
        lo_provider row = (if String.eqb (of_provider_id f) "" then None else Some (of_provider_id f)) /\
        (exists l, l ∈ db_tx_logs (w_db w') /\ tl_status l = TOrderCreated /\
           tl_gateway_id l = of_gateway_id f /\ tl_tx_hash l = of_tx_hash f) /\
        db_provider_currencies (w_db w') = db_provider_currencies (w_db w)
    | Err _ => w_db w' = w_db w
    | Panic => False
    end) w.
Proof.
  assert (Herr : forall id d e w', in_tx w id d w' -> match @Err LockPaymentOrder e with
    | Ret _ => False | Err _ => w_db w' = w_db w | Panic => False end) by (by intros id d e w' []).
  unfold store_order. do 2 wp_step. apply wp_in_begin; [intros id w1 H1|by intros fs].
  (* the log *)
  wp_step. eapply (wp_mono _ (fun o w' => match o with
    | Ret logs => exists d, in_tx w id d w' /\ db_lock_orders d = db_lock_orders (w_db w) /\
        db_provider_currencies d = db_provider_currencies (w_db w) /\
        exists l, l ∈ db_tx_logs d /\ tl_status l = TOrderCreated /\
           tl_gateway_id l = of_gateway_id f /\ tl_tx_hash l = of_tx_hash f
    | Err _ => w_db w' = w_db w
    | Panic => False end)).
  { do 2 wp_step. eapply wp_in_read; [exact H1|intros w2 H2|intros w2 H2; simpl; wp_step; apply H2].
    apply only_filter.
    - intros l Hl Hp. wp_step. exists (w_db w). split_and!; [done|done|done|]. exists l.
      apply andb_true_iff in Hp as [[H3 H4%String.eqb_eq]%andb_true_iff H5%String.eqb_eq].
      apply bool_decide_eq_true in H3. by split_and!.
    - intros _. simpl. do 3 wp_step. wp_step. eapply wp_in_modify; [exact H2|simpl; intros w3 H3|intros w3 H3; apply H3].
      wp_step. eexists. split_and!; [exact H3|done|done|]. simpl. eexists. split; [apply elem_of_app; right; left|done].
    - simpl. wp_step. apply H2. }
  intros [logs|e|] w2 H2; [|done|done]. destruct H2 as (d & H2 & Hlo & Hpc & Hlog).
  do 2 wp_step. eapply lock_save_in; [exact H2|intros e w3 H3; apply H3|].
  intros u tk' w3 Ht Hc row H3. do 2 wp_step.
  eapply wp_in_commit; [exact H3|intros w4 Hdb _ _ _|intros w4 Hdb _ _ _]; [|done].
  wp_step. rewrite Hdb. simpl. rewrite Hlo. split_and!; try done.
Qed.


(** *** Settlement *)

(** The row after a settlement of [amount]. *)
Definition settled_row (amount : dec) (now : Z) (pc : ProviderCurrencies) : ProviderCurrencies :=
  let '(t, r) := settled_balances amount pc in set_balances (pc_available_balance pc) t r now pc.

Definition same_prices (d d' : DB) : Prop :=
  db_currencies d' = db_currencies d /\ db_institutions d' = db_institutions d.
#[local] Instance same_prices_preorder : PreOrder same_prices.
Proof. split; [done|]. intros d1 d2 d3 [] []. split; congruence. Qed.
Lemma same_prices_priced d d' : same_prices d d' -> institutions_priced d -> institutions_priced d'.
Proof. intros [Hc Hi] H i. rewrite Hc, Hi. apply H. Qed.

(** The open transaction [n] leaves balances, currencies and
    institutions alone and maps the lock orders by [F]. *)
Definition tx_maps (n : nat) (F : gmap string LockPaymentOrder -> gmap string LockPaymentOrder) (w : World) : Prop :=
  exists g, w_txs w !! n = Some g /\ forall d,
    db_provider_currencies (g d) = db_provider_currencies d /\ same_prices d (g d) /\
    db_lock_orders (g d) = F (db_lock_orders d).

Definition same_db (w w' : World) : Prop := w_db w' = w_db w /\ w_now w' = w_now w.
Lemma same_db_refl w : same_db w w.
Proof. done. Qed.
Lemma same_db_trans w1 w2 w3 : same_db w1 w2 -> same_db w2 w3 -> same_db w1 w3.
Proof. intros [H1 H2] [H3 H4]. split; congruence. Qed.

(** A statement inside the transaction. *)
Lemma wp_maps_modify {A} n F G f (Q : outcome A -> World -> Prop) w :
  tx_maps n F w ->
  (forall d, match f d with
    | inr (d', _) => db_provider_currencies d' = db_provider_currencies d /\ same_prices d d' /\
                     db_lock_orders d' = G (db_lock_orders d)
    | inl _ => False end) ->
  (forall a w', same_db w w' -> tx_maps n (fun m => G (F m)) w' -> Q (Ret a) w') ->
  (forall w', same_db w w' -> tx_maps n F w' -> Q (Err EFault) w') ->
  wp (modify_db (Some n) f) Q w.
Proof.
  intros (g & Hg & Hmap) Hf Hok Hbad. eapply wp_modify_tx; [exact Hg|intros fs|intros fs; apply Hbad; [done|by exists g]].
  pose proof (Hf (g (w_db w))) as H. destruct (f (g (w_db w))) as [e|[d' a]] eqn:E; [done|].
  apply Hok; [done|]. eexists. split; [simpl; apply lookup_insert_eq|]. intros d. cbv beta.
  pose proof (Hf (g d)) as Hd. destruct (f (g d)) as [e|[d2 a2]]; [done|].
  destruct (Hmap d) as (H1 & H2 & H3), Hd as (H4 & H5 & H6). split_and!; [congruence|by etransitivity|congruence].
Qed.

Lemma wp_maps_write n F G u (Q : outcome unit -> World -> Prop) w :
  tx_maps n F w ->
  (forall d, db_provider_currencies (u d) = db_provider_currencies d /\ same_prices d (u d) /\
             db_lock_orders (u d) = G (db_lock_orders d)) ->
  (forall w', same_db w w' -> tx_maps n (fun m => G (F m)) w' -> Q (Ret tt) w') ->
  (forall w', same_db w w' -> tx_maps n F w' -> Q (Err EFault) w') ->
  wp (write_db (Some n) u) Q w.
Proof.
  intros (g & Hg & Hmap) Hu Hok Hbad. eapply wp_write_tx; [exact Hg|intros fs|intros fs; apply Hbad; [done|by exists g]].
  apply Hok; [done|]. eexists. split; [simpl; apply lookup_insert_eq|]. intros d. cbv beta.
  destruct (Hmap d) as (H1 & H2 & H3), (Hu (g d)) as (H4 & H5 & H6). split_and!; [congruence|by etransitivity|congruence].
Qed.

Lemma wp_maps_read n F (Q : outcome DB -> World -> Prop) w :
  tx_maps n F w ->
  (forall d w', same_db w w' -> tx_maps n F w' -> db_lock_orders d = F (db_lock_orders (w_db w)) ->
     db_currencies d = db_currencies (w_db w) -> Q (Ret d) w') ->
  (forall w', same_db w w' -> tx_maps n F w' -> Q (Err EFault) w') ->
  wp (read_db (Some n)) Q w.
Proof.
  intros (g & Hg & Hmap) Hok Hbad. eapply wp_read_db; [simpl; by rewrite Hg|intros fs|intros fs].
  - destruct (Hmap (w_db w)) as (H1 & H2 & H3). apply Hok; [done|by exists g|done|apply H2].
  - apply Hbad; [done|by exists g].
Qed.

Lemma record_log_wp n F st gw net hash md w :
  tx_maps n F w ->
  wp (record_log n st gw net hash md) (fun o w' => same_db w w' /\ o <> Panic /\ tx_maps n F w') w.
Proof.
  intros H. unfold record_log. wp_step.
  eapply (wp_maps_modify n F (fun m => m)); [exact H|done|..].
  - intros k w1 S1 H1. case_match; [|by wp_step]. do 2 wp_step. wp_step.
    eapply (wp_maps_modify n F (fun m => m)); [exact H1|done|..].
    + intros id w2 S2 H2. wp_step. split_and!; [by eapply same_db_trans|done|done].
    + intros w2 S2 H2. wp_step. split_and!; [by eapply same_db_trans|done|done].
  - intros w1 S1 H1. wp_step. by split_and!.
Qed.

Lemma fetch_payment_order_wp network mh w :
  wp (fetch_payment_order network mh) (fun o w' => reads_only w w' /\ o <> Panic) w.
Proof.
  unfold fetch_payment_order. do 2 wp_step. eapply wp_read_db; [reflexivity|intros fs|intros fs; by repeat wp_step].
  apply only_filter; intros; repeat wp_step; done.
Qed.

Lemma recycle_address_wp n F po w :
  tx_maps n F w ->
  wp (recycle_address n po) (fun o w' => same_db w w' /\ o = Ret tt /\ tx_maps n F w') w.
Proof.
  intros H. unfold recycle_address. do 2 wp_step. eapply wp_maps_read; [exact H|intros d w1 S1 H1 _ _|intros w1 S1 H1; by wp_step].
  wp_step. apply only_filter; [intros o _ _; wp_step|intros _; by wp_step|by wp_step].
  case_match; [|by wp_step]. case_match; [|by wp_step]. do 2 wp_step. wp_step.
  eapply (wp_maps_write n F (fun m => m)); [exact H1|done|..]; intros w2 S2 K2; wp_step;
    (split_and!; [by eapply same_db_trans|done|done]).
Qed.

(** The balance part: at most one row changes. *)
Lemma settle_balance_wp n F p c amount w :
  tx_maps n F w ->
  wp (settle_balance p c amount) (fun o w' => o = Ret tt /\ w_now w' = w_now w /\ tx_maps n F w' /\
    same_prices (w_db w) (w_db w') /\
    (db_provider_currencies (w_db w') = db_provider_currencies (w_db w) \/
     exists pc, db_provider_currencies (w_db w) !! (p, c) = Some pc /\
       db_provider_currencies (w_db w') = <[(p, c) := settled_row amount (w_now w) pc]> (db_provider_currencies (w_db w)))) w.
Proof.
  intros H. unfold settle_balance, GetProviderBalance. do 2 wp_step.
  eapply wp_query_pc; [reflexivity|intros fs|intros fs; wp_step; split_and!; [done|done|done|done|by left]].
  destruct (_ !! (p, c)) as [pc|] eqn:Hpc; [|wp_step; split_and!; [done|done|done|done|by left]].
  destruct (settled_balances amount pc) as [t r] eqn:Hs.
  cbn beta iota. wp_step. unfold UpdateProviderBalance. wp_step.
  eapply wp_query_pc; [reflexivity|intros fs1|intros fs1; do 2 wp_step; split_and!; [done|done|done|done|by left]].
  cbn [w_db set_faults]. rewrite Hpc. do 2 wp_step. wp_step. unfold update_pc.
  apply wp_write_direct; intros fs'; wp_step; (split_and!; [done|done|done|done|]); [right|by left].
  exists pc. split; [done|]. simpl.
  pose proof (alter_is_put (w_db w) p c (set_balances (pc_available_balance pc) t r (w_now w)) pc Hpc) as Ha.
  apply (f_equal db_provider_currencies) in Ha. simpl in Ha. unfold settled_row. rewrite Hs. exact Ha.
Qed.

Definition settles (network : Network) (split : string) (o : LockPaymentOrder) : bool :=
  String.eqb (lo_id o) split && lo_on_network network o.

Lemma order_balance_info_wp n network split F now block hash st logs w :
  (forall m, F m = update_where (settles network split) (lo_on_chain now block hash st logs) m) ->
  tx_maps n F w ->
  wp (order_balance_info n (settles network split)) (fun o w' => same_db w w' /\ tx_maps n F w' /\ o <> Panic /\
    forall p c a, o = Ret (Some (p, c, a)) ->
      exists id ord b fc, db_lock_orders (w_db w) !! id = Some ord /\ settles network split ord = true /\
        lo_provider ord = Some p /\ lo_provision_bucket ord = Some b /\
        db_currencies (w_db w) !! pb_currency b = Some fc /\ c = fc_code fc /\
        a = fiat_amount (lo_amount ord) (lo_rate ord)) w.
Proof.
  intros HF H. unfold order_balance_info. do 2 wp_step.
  eapply wp_maps_read; [exact H|intros d w1 S1 H1 Hl Hc|intros w1 S1 H1; by wp_step].
  wp_step. apply only_filter; [intros o Ho Hp|intros _; by wp_step|by wp_step].
  do 2 wp_step. split_and!; [done|done|done|]. intros p c a [= He].
  apply lock_rows_lookup in Ho as [id Ho]. rewrite Hl, HF in Ho.
  apply lookup_update_where in Ho as (ord & Hord & ->).
  destruct (settles network split ord) eqn:Hs.
  - simpl in He. destruct (lo_provider ord) as [p'|] eqn:E1; [|done]. simpl in He.
    destruct (lo_provision_bucket ord) as [b|] eqn:E2; [|done]. simpl in He.
    rewrite Hc in He. destruct (db_currencies (w_db w) !! pb_currency b) as [fc|] eqn:E3; [|done].
    injection He as <- <- <-. by exists id, ord, b, fc.
  - by rewrite Hs in Hp.
Qed.

(** The balances are untouched, or one row changed by a settlement. *)
Definition balances_settled (network : Network) (split : string) (w w' : World) : Prop :=
  db_provider_currencies (w_db w') = db_provider_currencies (w_db w) \/
  exists id ord p b fc pc, db_lock_orders (w_db w) !! id = Some ord /\ settles network split ord = true /\
    lo_provider ord = Some p /\ lo_provision_bucket ord = Some b /\
    db_currencies (w_db w) !! pb_currency b = Some fc /\
    db_provider_currencies (w_db w) !! (p, fc_code fc) = Some pc /\
    db_provider_currencies (w_db w') = <[(p, fc_code fc) :=
      settled_row (fiat_amount (lo_amount ord) (lo_rate ord)) (w_now w) pc]> (db_provider_currencies (w_db w)).

Lemma settle_info_wp n G network split info w0 w :
  same_db w0 w -> tx_maps n G w -> institutions_priced (w_db w0) ->
  (forall p c a, info = Some (p, c, a) ->
     exists id ord b fc, db_lock_orders (w_db w0) !! id = Some ord /\ settles network split ord = true /\
       lo_provider ord = Some p /\ lo_provision_bucket ord = Some b /\
       db_currencies (w_db w0) !! pb_currency b = Some fc /\ c = fc_code fc /\
       a = fiat_amount (lo_amount ord) (lo_rate ord)) ->
  wp (settle_info info) (fun o w' => o = Ret tt /\ tx_maps n G w' /\ institutions_priced (w_db w') /\
    balances_settled network split w0 w') w.
Proof.
  intros [Hdb Hnow] H Hi Hinfo. unfold settle_info. destruct info as [[[p c] amount]|];
    [|wp_step; split_and!; [done|done|by rewrite Hdb|left; by rewrite Hdb]].
  eapply wp_mono; [by apply settle_balance_wp|]. intros o w1 (-> & _ & H1 & Hs & Hch). rewrite Hdb in Hs.
  split_and!; [done|done|by eapply same_prices_priced|]. rewrite Hdb, Hnow in Hch.
  destruct Hch as [Hch|(pc & Hpc & Hch)]; [by left|right].
  destruct (Hinfo p c amount eq_refl) as (id & ord & b & fc & I1 & I2 & I3 & I4 & I5 & -> & ->).
  by exists id, ord, p, b, fc, pc.
Qed.

Lemma settle_payment_order_wp n G event mh logs po w :
  tx_maps n G w ->
  wp (settle_payment_order n event mh logs po) (fun o w' => w_db w' = w_db w /\ o <> Panic /\
    (is_ret o = true -> tx_maps n G w')) w.
Proof.
  intros H. unfold settle_payment_order. destruct po as [po|]; [|wp_step; by split_and!].
  case_match; [wp_step; by split_and!|]. do 2 wp_step.
  wp_step. eapply (wp_maps_write n G (fun m => m)); [exact H|done|intros w1 S1 H1|intros w1 S1 H1; wp_step; by split_and!; [apply S1|..]].
  wp_step. unfold ifM. case_match.
  - eapply wp_mono; [by apply recycle_address_wp|]. intros o w2 (S2 & -> & K2). wp_step.
    split_and!; [rewrite (proj1 S2); apply S1|done|done].
  - do 2 wp_step. split_and!; [apply S1|done|done].
Qed.

(** C3: a settlement event, whatever fails.  On success the order it names is
    settled.  In every case, also when the call fails, the balances are either
    untouched or changed in one row, that of the order's provider and currency,
    by the settlement of the order's fiat amount: available unchanged, reserved
    and total reduced, not below zero. *)
Theorem order_settled_correct network event mh split w :
  institutions_priced (w_db w) ->
  parse_split_id (os_split_order_id event) = Some split ->
  wp (UpdateOrderStatusSettled network event mh) (fun o w' => o <> Panic /\
    (is_ret o = true -> forall id ord, db_lock_orders (w_db w') !! id = Some ord ->
       settles network split ord = true -> lo_status ord = LSettled) /\
    balances_settled network split w w') w.
Proof.
  intros Hi Hsplit. unfold UpdateOrderStatusSettled. rewrite Hsplit. wp_step.
  match goal with |- wp _ (fun o w1 => match o with Ret a => wp _ ?Q w1 | _ => _ end) _ => set (post := Q) end.
  assert (Hquiet : forall e w1, w_db w1 = w_db w -> post (Err e) w1).
  { intros e w1 Hdb. split_and!; [done|done|]. left. by rewrite Hdb. }
  eapply wp_mono; [apply fetch_payment_order_wp|]. intros [po|e|] w1 [(Hdb1 & _ & _ & _ & Hnow1 & _) Hp1]; [|by apply Hquiet|done].
  wp_step. apply wp_begin; [intros fs|intros fs; wp_step; by apply Hquiet].
  set (n := w_next_tx w1). set (w2 := set_next_tx _ _).
  assert (H2 : tx_maps n (fun m => m) w2) by (exists (fun d => d); split; [apply lookup_insert_eq|done]).
  assert (S2 : same_db w w2) by (by split).
  wp_step. eapply wp_mono; [by apply record_log_wp|]. intros [logs|e|] w3 (S3%(same_db_trans _ _ _ S2) & Hp3 & H3); [|by apply Hquiet, S3|done].
  do 2 wp_step. wp_step. fold (settles network split).
  set (G := update_where (settles network split) (lo_on_chain (w_now w3) (os_block_number event) (os_tx_hash event) LSettled logs)).
  eapply (wp_maps_write n (fun m => m) G); [exact H3|done|intros w4 S4 H4|intros w4 S4 H4; wp_step; apply Hquiet, (same_db_trans _ _ _ S3 S4)].
  apply (same_db_trans _ _ _ S3) in S4.
  wp_step. eapply wp_mono; [eapply (order_balance_info_wp n network split G); [done|exact H4]|].
  intros [info|e|] w5 (S5%(same_db_trans _ _ _ S4) & H5 & Hp5 & Hinfo); [|by apply Hquiet, S5|done].
  wp_step. eapply wp_mono; [apply (settle_info_wp n G network split info w); [done|done|done|]|].
  { rewrite (proj1 S4) in Hinfo. intros p c a ->. by apply Hinfo. }
  intros o w6 (-> & H6 & I6 & C6).
  assert (Hfail : forall e w7, w_db w7 = w_db w6 -> post (Err e) w7).
  { intros e w7 Hdb. split_and!; [done|done|]. by unfold balances_settled in *; rewrite Hdb. }
  wp_step. eapply wp_mono; [by apply settle_payment_order_wp|].
  intros [notify|e|] w7 (Hdb7 & Hp7 & H7); [|by apply Hfail|done]. specialize (H7 eq_refl).
  destruct H7 as (g & Hg & Hmap). wp_step. eapply wp_commit; [exact Hg|intros fs'|intros fs'; wp_step; by apply Hfail].
  destruct (Hmap (w_db w7)) as (M1 & M2 & M3).
  assert (Hdone : forall w8, w_db w8 = g (w_db w7) -> post (Ret tt) w8 /\ forall e, post (Err e) w8).
  { intros w8 Hw8. assert (Cg : balances_settled network split w w8) by (unfold balances_settled in *; rewrite Hw8, M1, Hdb7; exact C6).
    split; [|by intros e; split_and!]. split_and!; [done| |exact Cg].
    intros _ id ord Hord Hs. rewrite Hw8, M3 in Hord. unfold G in Hord.
    apply lookup_update_where in Hord as (ord0 & _ & ->). destruct (settles network split ord0) eqn:E; [done|by rewrite E in Hs]. }
  destruct notify as [po'|]; [|wp_step; by apply Hdone].
  wp_step. apply (wp_send_webhook OS); [apply (same_prices_priced _ _ M2); by rewrite Hdb7|].
  intros [u|e|] w8 Hdb8 _ Hp8; [wp_step; by apply Hdone|wp_step; by apply Hdone|done].
Qed.

Lemma settled_row_consistent amount now pc :
  b_consistent pc -> (0 <= d_val amount)%Q -> (d_val amount <= d_val (pc_reserved_balance pc))%Q ->
  b_consistent (settled_row amount now pc).
Proof.
  intros [Ha Hr Ht Hs] H0 H1. unfold settled_row, settled_balances.
  destruct (d_lt (d_sub (pc_reserved_balance pc) amount) d_zero) eqn:E1,
    (d_lt (d_sub (pc_total_balance pc) amount) d_zero) eqn:E2; split; simpl; dec_to_q; lra.
Qed.

(** A settlement keeps a consistent balance consistent when the order's amount
    is still reserved, and the total then falls by exactly the amount, reserved
    too, with available unchanged. *)
Theorem settlement_of_reserved_amount amount now pc :
  b_consistent pc -> (0 <= d_val amount)%Q -> (d_val amount <= d_val (pc_reserved_balance pc))%Q ->
  b_consistent (settled_row amount now pc) /\
  (d_val (pc_available_balance (settled_row amount now pc)) == d_val (pc_available_balance pc))%Q /\
  (d_val (pc_reserved_balance (settled_row amount now pc)) == d_val (pc_reserved_balance pc) - d_val amount)%Q /\
  (d_val (pc_total_balance (settled_row amount now pc)) == d_val (pc_total_balance pc) - d_val amount)%Q.
Proof.
  intros Hc H0 H1. split; [by apply settled_row_consistent|]. destruct Hc as [Ha Hr Ht Hs].
  unfold settled_row, settled_balances.
  destruct (d_lt (d_sub (pc_reserved_balance pc) amount) d_zero) eqn:E1,
    (d_lt (d_sub (pc_total_balance pc) amount) d_zero) eqn:E2; simpl; dec_to_q; split_and!; lra.
Qed.

(** The bookings of an order whose fulfilment is validated: the reservation of
    the assignment, the release of the fulfilment, each in its transaction, and
    the settlement. *)
Definition validated_order_bookings (p c : string) (amount : dec) : M unit :=
  let! t := begin_tx in
  do! ReserveBalance p c amount (Some t) in
  do! commit_tx t in
  let! t := begin_tx in
  do! ReleaseReservedBalance p c amount (Some t) in
  do! commit_tx t in
  settle_balance p c amount.

Lemma settled_after_release_row amount now pc :
  b_consistent pc -> (d_val (pc_reserved_balance pc) == 0)%Q ->
  (d_val (pc_available_balance pc) == d_val (pc_total_balance pc))%Q ->
  (0 < d_val amount)%Q -> (d_val amount <= d_val (pc_available_balance pc))%Q ->
  let pc' := settled_row amount now (released_row amount now (reserved_row amount now pc)) in
  (d_val (pc_available_balance pc') == d_val (pc_total_balance pc') + d_val amount)%Q /\ ~ b_consistent pc'.
Proof.
  intros [Ha Hr Ht Hs] Hr0 Hat H0 H1 pc'.
  assert (E : (d_val (pc_available_balance pc') == d_val (pc_total_balance pc') + d_val amount)%Q /\
              (0 <= d_val (pc_reserved_balance pc'))%Q).
  { unfold pc', settled_row, settled_balances, released_row, reserved_row. simpl.
    repeat match goal with |- context [if ?b then _ else _] => destruct b eqn:? end; simpl; dec_to_q; split; lra. }
  destruct E as [E E']. split; [exact E|]. intros [Ca Cr Ct Cs]. lra.
Qed.

(** The amount of an order is booked twice in favour of the provider when its
    reservation is released on a validated fulfilment and the order is settled
    afterwards: when nothing fails, from a consistent row with nothing else
    reserved, the three bookings of a positive amount succeed and leave more
    available than the total. *)
Theorem release_then_settle_overdraws p c amount pc w :
  w_faults w = [] -> db_provider_currencies (w_db w) !! (p, c) = Some pc -> b_consistent pc ->
  (d_val (pc_reserved_balance pc) == 0)%Q ->
  (d_val (pc_available_balance pc) == d_val (pc_total_balance pc))%Q ->
  (0 < d_val amount)%Q -> (d_val amount <= d_val (pc_available_balance pc))%Q ->
  wp (validated_order_bookings p c amount) (fun o w' => o = Ret tt /\
    exists pc', db_provider_currencies (w_db w') !! (p, c) = Some pc' /\
      (d_val (pc_available_balance pc') == d_val (pc_total_balance pc') + d_val amount)%Q /\ ~ b_consistent pc') w.
Proof.
  intros E Hpc Hc Hr Hat H0 H1.
  assert (Hlt : d_lt (pc_available_balance pc) amount = false) by (by apply d_lt_spec_false).
  assert (Hlt2 : d_lt (d_add (pc_reserved_balance pc) amount) amount = false) by (dec_to_q; lra).
  unfold validated_order_bookings, ReserveBalance, ReleaseReservedBalance, settle_balance, GetProviderBalance,
    UpdateProviderBalance, query_pc, update_pc.
  repeat run_ok. rewrite Hpc. repeat run_ok. row_lookup. rewrite Hlt2. cbn [andb]. repeat run_ok. row_lookup.
  repeat run_ok. row_lookup. repeat run_ok. split; [done|]. eexists. split.
  { cbn [db_provider_currencies set_pcs]. rewrite !lookup_alter_eq, Hpc. reflexivity. }
  pose proof (settled_after_release_row amount (w_now w) pc Hc Hr Hat H0 H1) as Hrow.
  unfold settled_row in Hrow.
  change (settled_balances amount (released_row amount (w_now w) (reserved_row amount (w_now w) pc)) = (d, d0))
    in Heqp0.
  rewrite Heqp0 in Hrow. exact Hrow.
Qed.

(** The validity of a receive address that is not in use, when nothing fails: an
    address whose validity ended more than two minutes ago is never expired by
    the call: its validity is extended instead; one that ended within the last
    two minutes is marked expired together with its payment order, unless one of
    them already is or the order is a "P#P" one; and before its end nothing
    changes. *)
Theorem receive_address_validity conf a po w :
  institutions_priced (w_db w) ->
  db_receive_addresses (w_db w) !! ra_id a = Some a -> db_payment_orders (w_db w) !! po_id po = Some po ->
  ra_valid_until a <> 0 -> ra_status a <> AUsed -> w_faults w = [] ->
  wp (HandleReceiveAddressValidity conf a po) (fun o w' => o <> Panic /\
    let a' := db_receive_addresses (w_db w') !! ra_id a in
    let po' := db_payment_orders (w_db w') !! po_id po in
    if (ra_valid_until a <? w_now w - two_minutes)%Z then
      a' = Some (set_valid_until (w_now w + cf_receive_address_validity conf) a) /\ po' = Some po
    else if (ra_valid_until a <? w_now w)%Z && negb (bool_decide (ra_status a = AExpired)) &&
            negb (bool_decide (po_status po = PExpired)) && negb (HasPrefix (po_recipient_memo po) "P#P") then
      a' = Some (set_addr_status AExpired a) /\ po' = Some (po_set_status (w_now w) PExpired po)
    else a' = Some a /\ po' = Some po) w.
Proof.
  intros Hi Ha Hpo Hv Hs Hf. unfold HandleReceiveAddressValidity. do 2 wp_step.
  rewrite (proj2 (Z.eqb_neq _ _) Hv). rewrite bool_decide_eq_false_2 by done.
  destruct (ra_valid_until a <? w_now w - two_minutes)%Z.
  { wp_step. apply wp_write_direct_ok; [done|]. wp_step. simpl. split; [done|].
    by rewrite lookup_alter_eq, Ha. }
  destruct (_ && _ && _ && _); [|by wp_step].
  wp_step. apply wp_write_direct_ok; [done|]. wp_step. apply wp_write_direct_ok; [done|].
  wp_step. apply (wp_send_webhook OS); [exact Hi|]. intros o w1 Hdb _ Hp. simpl in Hdb.
  destruct o as [u|e|]; [wp_step|wp_step|done]; rewrite Hdb; simpl; (split; [done|]);
    by rewrite !lookup_alter_eq, Ha, Hpo.
Qed.

(** An order for an institution whose currency is disabled is neither stored
    nor cancelled: the institution is found, its currency edge is not loaded,
    and the handler dereferences it. *)
Theorem create_disabled_currency_panics conf qfuel network event refundOrder assign tk r ins c fc w :
  w_faults w = [] ->
  List.filter (already_indexed network event) (lock_rows (w_db w)) = [] ->
  List.filter (token_matches network event) (db_tokens (w_db w)) = [tk] ->
  recipient_of (oc_message_hash event) = Some r ->
  List.filter (fun i => String.eqb (in_code i) (rc_institution r)) (db_institutions (w_db w)) = [ins] ->
  in_fiat_currency ins = Some c -> db_currencies (w_db w) !! c = Some fc -> fc_is_enabled fc = false ->
  (CreateLockPaymentOrder conf qfuel network event refundOrder assign w).1 = Panic.
Proof.
  intros Hf H1 H2 H3 H4 H5 H6 H7.
  change (wp (CreateLockPaymentOrder conf qfuel network event refundOrder assign) (fun o _ => o = Panic) w).
  unfold CreateLockPaymentOrder, GetInstitutionByCode. wp_step.
  eapply wp_read_db_ok; [done|reflexivity|]. rewrite H1. cbn [length Nat.ltb Nat.leb]. do 2 wp_step.
  do 2 wp_step. eapply wp_read_db_ok; [done|reflexivity|]. simpl. rewrite H2. cbn [only]. wp_step.
  rewrite H3. do 2 wp_step. eapply wp_read_db_ok; [done|reflexivity|]. simpl. rewrite H4. cbn [only]. wp_step.
  do 2 wp_step. simpl. rewrite H5. simpl. rewrite H6. simpl. rewrite H7. by do 2 wp_step.
Qed.
End orders_spec.

(** ** Witnesses on the seeded database *)

Definition s_recipient : PaymentOrderRecipient :=
  mkPOR "ABNGNGLA" "1234567890" "OK" "rent" "" "{}" s_cur "n1".

#[export] Instance sample_order_services : OrderServices := {|
  new_uuid w := "new-order";
  recipient_of _ := Some s_recipient;
  parse_split_id s := Some s;
  build_rpc_url s := s;
  aml_answer _ _ _ := Some "Allow";
  send_webhook po := emit (EvWebhook (po_id po) (po_status po));
  delete_webhook _ := retM tt
|}.
#[export] Instance sample_order_laws : OrderLaws sample_order_services.
Proof. by split; intros po w. Qed.

Lemma s_priced pc : institutions_priced (s_db pc).
Proof. intros i ->%list_elem_of_singleton. by exists s_cur, s_currency. Qed.

Definition s_order_conf : Config := mkConfig 60 60 60 3 (d_int 5) "test" 300 (d_int 1).
Definition s_event : OrderCreatedEvent :=
  mkOCE 7 "0xtx9" "0xd4" (d_int 2000000) (d_int 0) "g9" (d_int 950) "mh9" "0xsender".
Definition s_settled_event : OrderSettledEvent := mkOSE 8 "0xtx2" "o1" "g1" "0xlp" (d_int 100000).
Definition s_fields : LockPaymentOrderFields :=
  order_fields (scaled s_event s_token) s_token s_recipient (d_int 2)
    (Some (mkBucketRef s_bucket (Some s_currency))).
Definition s_address : ReceiveAddress := mkRA 4 "0xrecv" AUnused true "base" 8453 0 0 0 0 0 "" 900 "".
Definition s_addr_db : DB :=
  set_receive_addresses {[ 4 := s_address ]} (s_db (s_pc 100 0 100)).

Lemma cancel_unstored_order_fails_witness :
  exists field, (HandleCancellation None (Some s_fields) "r" (fun _ _ => retM tt) (s_world (s_pc 100 0 100) [])).1 =
    Err (EWrap "failed to create lock payment order" (EValidation field)).
Proof.
  destruct (cancel_unstored_order_fails s_fields s_token "r" (fun _ _ => retM tt) (s_world (s_pc 100 0 100) [])
    eq_refl) as [field H]. exists field. by rewrite H.
Defined.

Lemma create_skips_indexed_witness :
  (CreateLockPaymentOrder s_order_conf 9 s_network
     (mkOCE 7 "0xtx" "0xd4" (d_int 2000000) (d_int 0) "g1" (d_int 950) "mh1" "0xsender")
     (fun _ _ => retM tt) (fun _ => retM tt) (s_world (s_pc 100 0 100) [])).1 <> Panic.
Proof.
  apply (create_skips_indexed s_order_conf 9 s_network
     (mkOCE 7 "0xtx" "0xd4" (d_int 2000000) (d_int 0) "g1" (d_int 950) "mh1" "0xsender")
     (fun _ _ => retM tt) (fun _ => retM tt) "o1" s_lock_order); [apply lookup_singleton_eq|reflexivity].
Defined.

(** With no hypothesis; evaluated on the seeded database. *)
Example store_order_run :
  lo_status <$> db_lock_orders (w_db (store_order s_network s_fields s_token
    (mkBucketRef s_bucket (Some s_currency)) (s_world (s_pc 100 0 100) [])).2) !! "new-order" = Some LPending.
Proof. vm_compute. reflexivity. Qed.
(** The whole handler: the order is stored and handed to the assignment. *)
Example create_run :
  let res := CreateLockPaymentOrder s_order_conf 9 s_network s_event (fun _ _ => retM tt)
    (fun f => emit (EvSettle (of_id f))) (s_world (s_pc 100 0 100) []) in
  res.1 = Ret tt /\ w_events res.2 = [EvLink "mh9"; EvSettle "new-order"].
Proof. vm_compute. split; reflexivity. Qed.

Lemma order_settled_correct_witness :
  let res := UpdateOrderStatusSettled s_network s_settled_event "mh1" (s_world (s_pc 100 1900 2000) []) in
  res.1 = Ret tt /\
  forall id ord, db_lock_orders (w_db res.2) !! id = Some ord -> settles s_network "o1" ord = true ->
    lo_status ord = LSettled.
Proof.
  intros res. assert (Hres : res.1 = Ret tt) by (vm_compute; reflexivity). split; [exact Hres|].
  destruct (order_settled_correct (OS := sample_order_services) s_network s_settled_event "mh1" "o1"
    (s_world (s_pc 100 1900 2000) []) (s_priced _) eq_refl) as (_ & H & _).
  apply H. change (is_ret res.1 = true). by rewrite Hres.
Defined.

Lemma settlement_of_reserved_amount_witness :
  b_consistent (settled_row (d_int 1900) 0 (s_pc 100 1900 2000)).
Proof.
  apply settlement_of_reserved_amount; [apply s_pc_consistent; lia|vm_compute; discriminate|vm_compute; discriminate].
Defined.

Lemma release_then_settle_overdraws_witness :
  (validated_order_bookings s_prov s_cur (d_int 60) (s_world (s_pc 100 0 100) [])).1 = Ret tt /\
  exists pc', db_provider_currencies
      (w_db (validated_order_bookings s_prov s_cur (d_int 60) (s_world (s_pc 100 0 100) [])).2) !! (s_prov, s_cur)
      = Some pc' /\ ~ b_consistent pc'.
Proof.
  destruct (release_then_settle_overdraws s_prov s_cur (d_int 60) (s_pc 100 0 100) (s_world (s_pc 100 0 100) []))
    as [H1 (pc' & H2 & _ & H3)];
    [reflexivity|reflexivity|apply s_pc_consistent; lia|reflexivity|reflexivity|reflexivity|vm_compute; discriminate|].
  split; [exact H1|]. exists pc'. split; [exact H2|exact H3].
Defined.

Lemma receive_address_validity_witness :
  db_receive_addresses (w_db (HandleReceiveAddressValidity s_order_conf s_address s_payment_order
    (mkWorld s_addr_db ∅ 0 s_redis [] 1000 [] [])).2) !! 4 = Some (set_addr_status AExpired s_address).
Proof.
  destruct (receive_address_validity s_order_conf s_address s_payment_order (mkWorld s_addr_db ∅ 0 s_redis [] 1000 [] []))
    as [_ H]; [apply (s_priced (s_pc 100 0 100))|reflexivity|reflexivity|done|done|reflexivity|].
  apply H.
Defined.

Lemma create_disabled_currency_panics_witness :
  (CreateLockPaymentOrder s_order_conf 9 s_network s_event (fun _ _ => retM tt) (fun _ => retM tt)
     (mkWorld (mkDB ∅ ∅ {[ s_cur := mkFC "c1" s_cur "Naira" 2 "N" "Nigerian Naira" (d_int 950) false ]}
        [] [] ∅ [] ∅ [] ∅ [s_token] [mkIns "ABNGNGLA" "Access Bank" IBank (Some s_cur)] 1 [] ∅ [] [] (mkAccounts ∅ ∅ [] ∅ []))
        ∅ 0 s_redis [] 1000 [] [])).1 = Panic.
Proof.
  apply (create_disabled_currency_panics s_order_conf 9 s_network s_event (fun _ _ => retM tt) (fun _ => retM tt)
    s_token s_recipient (mkIns "ABNGNGLA" "Access Bank" IBank (Some s_cur)) s_cur
    (mkFC "c1" s_cur "Naira" 2 "N" "Nigerian Naira" (d_int 950) false)); reflexivity.
Defined.

Lemma provision_bucket_outcomes_witness :
  exists br, (GetProvisionBucket (d_int 1900) s_currency (s_world (s_pc 100 0 100) [])).1 = Ret (Some br, false) /\
    br_row br ∈ db_buckets (s_db (s_pc 100 0 100)).
Proof.
  destruct (provision_bucket_outcomes (d_int 1900) s_currency (s_world (s_pc 100 0 100) [])) as (_ & _ & H).
  exists (mkBucketRef s_bucket (Some s_currency)).
  assert (E : (GetProvisionBucket (d_int 1900) s_currency (s_world (s_pc 100 0 100) [])).1 =
    Ret (Some (mkBucketRef s_bucket (Some s_currency)), false)) by vm_refl.
  split; [exact E|]. apply (H _ _ E).
Defined.
