(* ===== verification/Rows.v ===== *)
(** * Updates of lock orders, fulfilments and transaction logs

    The statements that the provider endpoints and the scheduled tasks send for
    an order: the update builder of a lock order (ent/lockpaymentorder_update.go),
    the inserts, updates and deletes of its fulfilments, and its logs. *)

From S2P Require Import Prelude Decimal Schema Store Samples Transactions Balance Utils Services Orders.
Local Open Scope go_scope.
Local Open Scope string_scope.
Local Open Scope list_scope.

Section rows.
Context {O : DecimalOps}.

(** ** Lock orders *)

(** What an update builder has been told to set. *)
Record LockPaymentOrderUpdate := mkLPOU {
  up_status : option LockStatus;
  (** [SetProviderID] or [ClearProvider] *)
  up_provider : option (option string);
  up_cancellation_count : option Z;
  (** [AppendCancellationReasons] *)
  up_cancellation_reasons : list string;
  (** [AddTransactions] *)
  up_transactions : list Z
}.

Definition set_status_only (st : LockStatus) : LockPaymentOrderUpdate := mkLPOU (Some st) None None [] [].
Definition set_status_log (st : LockStatus) (log : list Z) : LockPaymentOrderUpdate := mkLPOU (Some st) None None [] log.

(** The row after the update; [updated_at] is set by default. *)
Definition lo_apply (now : Z) (u : LockPaymentOrderUpdate) (o : LockPaymentOrder) : LockPaymentOrder :=
  mkLPO (lo_id o) (lo_gateway_id o) (lo_amount o) (lo_protocol_fee o) (lo_rate o) (lo_order_percent o)
    (lo_sender o) (lo_tx_hash o) (default (lo_status o) (up_status u)) (lo_block_number o)
    (lo_institution o) (lo_account_identifier o) (lo_account_name o) (lo_memo o) (lo_metadata o)
    (default (lo_cancellation_count o) (up_cancellation_count u))
    (lo_cancellation_reasons o ++ up_cancellation_reasons u) (lo_message_hash o) (lo_amount_in_usd o)
    (lo_created_at o) now (lo_token o) (lo_provision_bucket o)
    (default (lo_provider o) (up_provider u)) (lo_transactions o ++ up_transactions u).

(** The provider that an update sets must exist. *)
Definition provider_fk_ok (d : DB) (u : LockPaymentOrderUpdate) : bool :=
  match up_provider u with
  | Some (Some p) => negb (missing (db_providers d !! p))
  | _ => true
  end.

Definition put_lock_order (o : LockPaymentOrder) (id : string) (d : DB) : DB :=
  set_lock_orders (<[id := o]> (db_lock_orders d)) d.

(** [UpdateOneID(id)...Save]: an error when there is no such order. *)
Definition update_lock_one (h : handle) (id : string) (u : LockPaymentOrderUpdate) : M LockPaymentOrder :=
  let! w := getM in
  modify_db h (fun d =>
    match db_lock_orders d !! id with
    | None => inl ENotFound
    | Some o => if provider_fk_ok d u then inr (put_lock_order (lo_apply (w_now w) u o) id d, lo_apply (w_now w) u o)
                else inl (EMsg "foreign key constraint")
    end).

(** [Update().Where(IDEQ(id), cond)...Save]: no error when no row matches. *)
Definition update_lock_if (h : handle) (id : string) (cond : LockPaymentOrder -> bool) (u : LockPaymentOrderUpdate)
    : M unit :=
  let! w := getM in
  write_db h (fun d => set_lock_orders
    (alter (fun o => if cond o then lo_apply (w_now w) u o else o) id (db_lock_orders d)) d).

(** [DeleteOneID(id).Exec]: the fulfilments go with the order, its logs stay. *)
Definition delete_lock_one (id : string) : M unit :=
  modify_db None (fun d =>
    match db_lock_orders d !! id with
    | None => inl ENotFound
    | Some _ => inr (set_fulfillments (List.filter (fun f => negb (String.eqb (lf_order f) id)) (db_fulfillments d))
                       (set_lock_orders (delete id (db_lock_orders d)) d), tt)
    end).

(** [HasTransactionsWith(StatusEQ(st))] *)
Definition has_log (d : DB) (st : TxLogStatus) (o : LockPaymentOrder) : bool :=
  existsb (fun l => bool_decide (tl_status l = st) && existsb (Z.eqb (tl_id l)) (lo_transactions o)) (db_tx_logs d).

(** ** Transaction logs *)

(** A JSON object of strings as text. *)
Definition json_quote (s : string) : string :=
  String (Ascii.ascii_of_nat 34) (s +:+ String (Ascii.ascii_of_nat 34) EmptyString).
Definition json_text (fields : list (string * string)) : string :=
  "{" +:+ join_with "," (map (fun f => json_quote (fst f) +:+ ":" +:+ json_quote (snd f)) fields) +:+ "}".

(** [TransactionLog.Create().SetStatus(st).SetNetwork(network).SetMetadata(metadata).Save] *)
Definition create_log (h : handle) (st : TxLogStatus) (network metadata : string) : M Z :=
  let! w := getM in
  modify_db h (insert_log st "" network "" metadata (w_now w)).

(** ** Fulfilments *)

Definition fulfillments_of (d : DB) (id : string) : list LockOrderFulfillment :=
  List.filter (fun f => String.eqb (lf_order f) id) (db_fulfillments d).

(** The insert: the order must exist. *)
Definition create_fulfillment (order txId psp : string) (st : ValidationStatus) (verr : string) : M unit :=
  let! w := getM in
  modify_db None (fun d =>
    if missing (db_lock_orders d !! order) then inl (EMsg "foreign key constraint")
    else let id := db_next_id d in
         inr (set_next_id (id + 1)
                (set_fulfillments (db_fulfillments d ++ [mkLOF id txId psp st verr (w_now w) order]) d), tt)).

Definition lf_validate (now : Z) (st : ValidationStatus) (verr : option string) (f : LockOrderFulfillment)
    : LockOrderFulfillment :=
  mkLOF (lf_id f) (lf_tx_id f) (lf_psp f) st (default (lf_validation_error f) verr) now (lf_order f).

(** [UpdateOneID(id).SetValidationStatus(st)...Save] *)
Definition update_fulfillment (h : handle) (id : Z) (st : ValidationStatus) (verr : option string) : M unit :=
  let! w := getM in
  modify_db h (fun d =>
    if existsb (fun f => (lf_id f =? id)%Z) (db_fulfillments d)
    then inr (set_fulfillments (map (fun f => if (lf_id f =? id)%Z then lf_validate (w_now w) st verr f else f)
                (db_fulfillments d)) d, tt)
    else inl ENotFound).

(** [DeleteOneID(id).Exec] *)
Definition delete_fulfillment (id : Z) : M unit :=
  modify_db None (fun d =>
    if existsb (fun f => (lf_id f =? id)%Z) (db_fulfillments d)
    then inr (set_fulfillments (List.filter (fun f => negb (lf_id f =? id)%Z) (db_fulfillments d)) d, tt)
    else inl ENotFound).

End rows.

(** ** What the statements do inside a transaction *)

Section rows_spec.
Context {O : DecimalOps} {L : DecimalLaws O}.

Definition with_log (st : TxLogStatus) (network metadata : string) (now : Z) (d : DB) : DB :=
  set_next_id (db_next_id d + 1)
    (set_tx_logs (db_tx_logs d ++ [mkTL (db_next_id d) "" st network "" metadata now]) d).

Lemma create_log_in w0 id d st network metadata (Q : outcome Z -> World -> Prop) w :
  in_tx w0 id d w ->
  (forall w', in_tx w0 id (with_log st network metadata (w_now w0) d) w' -> Q (Ret (db_next_id d)) w') ->
  (forall w', in_tx w0 id d w' -> Q (Err EFault) w') ->
  wp (create_log (Some id) st network metadata) Q w.
Proof.
  intros H Hok Hbad. unfold create_log. do 2 wp_step. eapply wp_in_modify; [exact H| |exact Hbad].
  rewrite (it_now _ _ _ _ H). exact Hok.
Qed.

Lemma update_lock_one_in w0 id d oid u (Q : outcome LockPaymentOrder -> World -> Prop) w :
  in_tx w0 id d w ->
  (forall o w', db_lock_orders d !! oid = Some o -> in_tx w0 id (put_lock_order (lo_apply (w_now w0) u o) oid d) w' ->
     Q (Ret (lo_apply (w_now w0) u o)) w') ->
  (forall e w', in_tx w0 id d w' -> Q (Err e) w') ->
  wp (update_lock_one (Some id) oid u) Q w.
Proof.
  intros H Hok Hbad. unfold update_lock_one. do 2 wp_step.
  eapply wp_in_modify; [exact H| |by intros w'; apply Hbad].
  rewrite (it_now _ _ _ _ H). destruct (db_lock_orders d !! oid) as [o|]; [|by intros w'; apply Hbad].
  destruct (provider_fk_ok d u); intros w'; [by apply Hok|by apply Hbad].
Qed.

Definition alter_lock_order (now : Z) (oid : string) (cond : LockPaymentOrder -> bool) (u : LockPaymentOrderUpdate)
    (d : DB) : DB :=
  set_lock_orders (alter (fun o => if cond o then lo_apply now u o else o) oid (db_lock_orders d)) d.

Lemma update_lock_if_in w0 id d oid cond u (Q : outcome unit -> World -> Prop) w :
  in_tx w0 id d w ->
  (forall w', in_tx w0 id (alter_lock_order (w_now w0) oid cond u d) w' -> Q (Ret tt) w') ->
  (forall w', in_tx w0 id d w' -> Q (Err EFault) w') ->
  wp (update_lock_if (Some id) oid cond u) Q w.
Proof.
  intros H Hok Hbad. unfold update_lock_if. do 2 wp_step. eapply wp_in_write; [exact H| |exact Hbad].
  rewrite (it_now _ _ _ _ H). exact Hok.
Qed.

Definition validate_rows (now : Z) (fid : Z) (st : ValidationStatus) (verr : option string) (d : DB) : DB :=
  set_fulfillments (map (fun f => if (lf_id f =? fid)%Z then lf_validate now st verr f else f) (db_fulfillments d)) d.

Lemma update_fulfillment_in w0 id d fid st verr (Q : outcome unit -> World -> Prop) w :
  in_tx w0 id d w ->
  (forall w', in_tx w0 id (validate_rows (w_now w0) fid st verr d) w' -> Q (Ret tt) w') ->
  (forall e w', in_tx w0 id d w' -> Q (Err e) w') ->
  wp (update_fulfillment (Some id) fid st verr) Q w.
Proof.
  intros H Hok Hbad. unfold update_fulfillment. do 2 wp_step.
  eapply wp_in_modify; [exact H| |by intros w'; apply Hbad].
  rewrite (it_now _ _ _ _ H). destruct (existsb _ _); intros w'; [by apply Hok|by apply Hbad].
Qed.

Lemma release_in w0 id d p c amount (Q : outcome unit -> World -> Prop) w :
  in_tx w0 id d w ->
  (forall pc w', db_provider_currencies d !! (p, c) = Some pc ->
     in_tx w0 id (put_pc (p, c) (released_row amount (w_now w0) pc) d) w' -> Q (Ret tt) w') ->
  (forall e w', in_tx w0 id d w' -> Q (Err e) w') ->
  wp (ReleaseReservedBalance p c amount (Some id)) Q w.
Proof.
  intros H Hok Hbad. unfold ReleaseReservedBalance, query_pc. do 2 wp_step.
  eapply wp_in_read; [exact H|intros w1 H1|intros w1 H1].
  2:{ repeat wp_step; by apply Hbad. }
  destruct (db_provider_currencies d !! (p, c)) as [pc|] eqn:E; repeat wp_step; try by apply Hbad.
  eapply wp_in_write; [exact H1|intros w2 H2|intros w2 H2; repeat wp_step; by apply Hbad].
  wp_step. apply (Hok pc); [done|]. rewrite (it_now _ _ _ _ H1) in H2.
  by rewrite (alter_is_put _ _ _ _ _ E) in H2.
Qed.

(** An order that has the log. *)
Lemma has_log_mono d d' st o o' :
  has_log d st o = true -> db_tx_logs d' = db_tx_logs d -> (forall i, i ∈ lo_transactions o -> i ∈ lo_transactions o') ->
  has_log d' st o' = true.
Proof.
  unfold has_log. intros H -> Hsub. apply existsb_exists in H as (l & Hl & [Hst Hin]%andb_true_iff).
  apply existsb_exists. exists l. split; [done|]. apply andb_true_iff. split; [done|].
  apply existsb_exists in Hin as (i & Hi & <-%Z.eqb_eq). apply existsb_exists. exists (tl_id l).
  split; [|apply Z.eqb_refl]. apply list_elem_of_In, Hsub, list_elem_of_In, Hi.
Qed.

Lemma has_log_new st network metadata now d o :
  db_next_id d ∈ lo_transactions o -> has_log (with_log st network metadata now d) st o = true.
Proof.
  intros H. unfold has_log. apply existsb_exists. eexists. split.
  - apply in_or_app. right. by left.
  - simpl. rewrite bool_decide_eq_true_2 by done. apply existsb_exists. exists (db_next_id d).
    split; [by apply list_elem_of_In|apply Z.eqb_refl].
Qed.

End rows_spec.
