(* ===== verification/Http.v ===== *)
(** * HTTP: responses of the endpoints and pagination (utils/http.go)

    An endpoint ends in one [APIResponse]; what gin gives it (the profile that the
    middleware put in the context, path and query parameters, the bound payload)
    is its arguments.  [Paginate] computes in machine integers. *)

From stdpp Require Import sorting.
From S2P Require Import Prelude Decimal Schema Store.
Local Open Scope go_scope.
Local Open Scope string_scope.
Local Open Scope list_scope.

(** ** Responses *)

Record ApiResponse (A : Type) := mkResponse {
  ar_code : Z;
  ar_status : string;
  ar_message : string;
  ar_data : option A
}.
Arguments mkResponse {A}.
Arguments ar_code {A}.
Arguments ar_status {A}.
Arguments ar_message {A}.
Arguments ar_data {A}.

(** The google/uuid package: [uuid.Parse], in canonical form. *)
Class HttpServices := { parse_uuid : string -> option string }.

Section api.
Context {O : DecimalOps}.
(** [APIResponse(ctx, code, "error", message, nil)] *)
Definition api_error {A} (code : Z) (message : string) : M (ApiResponse A) :=
  retM (mkResponse code "error" message None).
Definition api_success {A} (code : Z) (message : string) (data : A) : M (ApiResponse A) :=
  retM (mkResponse code "success" message (Some data)).
End api.

(** ** Pagination *)

(** Arithmetic on Go's [int] (64 bits). *)
Definition wrap64 (z : Z) : Z := ((z + 2 ^ 63) mod 2 ^ 64 - 2 ^ 63)%Z.

(** [page] and [pageSize] are the results of [strconv.Atoi] on the query
    parameters: [None] when it fails.  Page, offset and limit. *)
Definition Paginate (page pageSize : option Z) : Z * Z * Z :=
  let p := match page with Some p => if (p <? 1)%Z then 1 else p | None => 1 end in
  let n := match pageSize with Some n => if (n <? 1)%Z then 10 else n | None => 10 end in
  (p, wrap64 ((p - 1) * n), n).

(** [Offset(offset).Limit(limit)] on the ordered rows. *)
Definition slice {A} (offset limit : Z) (rows : list A) : list A :=
  take (Z.to_nat limit) (drop (Z.to_nat offset) rows).

(** The rows by time of creation, the latest first unless [asc]. *)
Definition created_before {A} (created : A -> Z) (asc : bool) (a b : A) : Prop :=
  (if asc then created a <= created b else created b <= created a)%Z.
#[export] Instance created_before_dec {A} (created : A -> Z) asc : RelDecision (created_before created asc).
Proof. intros a b. unfold created_before. destruct asc; apply _. Defined.
Definition ordered {A} (created : A -> Z) (asc : bool) (rows : list A) : list A :=
  merge_sort (created_before created asc) rows.

(** The rows of one page; Postgres rejects a negative offset. *)
Definition page_rows {O : DecimalOps} {A} (created : A -> Z) (asc : bool) (offset limit : Z) (rows : list A) : M (list A) :=
  if (offset <? 0)%Z then errM (EMsg "OFFSET must not be negative")
  else retM (slice offset limit (ordered created asc rows)).

(** ** Lemmas *)

Lemma wrap64_id z : (- 2 ^ 63 <= z < 2 ^ 63)%Z -> wrap64 z = z.
Proof. intros H. unfold wrap64. rewrite Z.mod_small; lia. Qed.

Lemma wrap64_range z : (- 2 ^ 63 <= wrap64 z < 2 ^ 63)%Z.
Proof. unfold wrap64. pose proof (Z.mod_pos_bound (z + 2 ^ 63) (2 ^ 64) ltac:(lia)). lia. Qed.

Lemma Paginate_positive page pageSize p off n :
  Paginate page pageSize = (p, off, n) -> (1 <= p /\ 1 <= n)%Z.
Proof. unfold Paginate. intros H. simplify_eq. repeat case_match; simplify_eq/=; lia. Qed.

#[export] Instance created_before_trans {A} (created : A -> Z) asc : Transitive (created_before created asc).
Proof. intros a b c. unfold created_before. destruct asc; lia. Qed.
#[export] Instance created_before_total {A} (created : A -> Z) asc : Total (created_before created asc).
Proof. intros a b. unfold created_before. destruct asc; lia. Qed.

Lemma ordered_perm {A} (created : A -> Z) asc rows : ordered created asc rows ≡ₚ rows.
Proof. apply merge_sort_Permutation. Qed.
Lemma ordered_sorted {A} (created : A -> Z) asc rows :
  StronglySorted (created_before created asc) (ordered created asc rows).
Proof. apply StronglySorted_merge_sort; apply _. Qed.

Lemma slices_concat {A} (n : nat) (l : list A) : forall k,
  (length l <= k * n)%nat ->
  concat (map (fun i => take n (drop (i * n) l)) (seq 0 k)) = l.
Proof.
  intros k. revert l. induction k as [|k IH]; intros l Hl; simpl.
  - by destruct l; [|simpl in Hl; lia].
  - rewrite drop_0, <- seq_shift, map_map. etransitivity; [|apply (take_drop n l)]. f_equal.
    rewrite <- (IH (drop n l)) at 1 by (rewrite length_drop; lia).
    f_equal. apply map_ext. intros i. by rewrite drop_drop.
Qed.
