(* ===== verification/Provider.v ===== *)
(** * The provider endpoints (controllers/provider/provider.go)

    What a liquidity provider does with an order over HTTP: accept or decline the
    request, report its fulfilment, cancel it; and what it reads: its orders, its
    statistics, the market rate, its node.  The goroutines that settle or refund
    on chain are events.  [nil] edges that the code dereferences are [None]. *)

From S2P Require Import Prelude Decimal Schema Store Samples Balance Utils Services Queue Orders Rows Http.
Local Open Scope go_scope.
Local Open Scope string_scope.
Local Open Scope list_scope.

(** ** Payloads and answers (types/types.go) *)

(** [ValidationStatus] is any string; [None] is one that is not a status. *)
Record FulfillLockOrderPayload := mkFLOP {
  fp_psp : string;
  fp_tx_id : string;
  fp_validation_status : option ValidationStatus;
  fp_validation_error : string
}.

Section answers.
Context {O : DecimalOps}.

Record AcceptOrderResponse := mkAOR {
  ac_id : string;
  ac_amount : dec;
  ac_institution : string;
  ac_account_identifier : string;
  ac_account_name : string;
  ac_memo : string;
  ac_metadata : string
}.

Record LockPaymentOrderResponse := mkLOR {
  lr_id : string;
  lr_token : string;
  lr_gateway_id : string;
  lr_amount : dec;
  lr_amount_in_usd : dec;
  lr_rate : dec;
  lr_institution : string;
  lr_account_identifier : string;
  lr_account_name : string;
  lr_tx_hash : string;
  lr_status : LockStatus;
  lr_memo : string;
  lr_network : string;
  lr_cancellation_reasons : list string;
  lr_updated_at : Z;
  lr_created_at : Z;
  (** [None] when the endpoint does not set it *)
  lr_transactions : option (list TransactionLog)
}.

Record ProviderLockOrderList := mkPLOL {
  pl_total : Z;
  pl_page : Z;
  pl_page_size : Z;
  pl_orders : list LockPaymentOrderResponse
}.

Record MarketRateResponse := mkMRR { mr_market : dec; mr_minimum : dec; mr_maximum : dec }.
Record ProviderStatsResponse := mkPSR { ps_total_orders : Z; ps_total_fiat : dec; ps_total_crypto : dec }.

End answers.

Section provider.
Context {O : DecimalOps} {OS : @OrderServices O} {SV : @Services O} {HS : HttpServices}.
Variable conf : Config.

Definition order_request_key (id : string) : string := "order_request_" +:+ id.
Definition order_exclude_key (id : string) : string := "order_exclude_list_" +:+ id.

(** ** Accepting and declining *)

(** [result["providerId"] != provider.ID || len(result) == 0] *)
Definition not_requested (result : gmap string string) (p : string) : bool :=
  negb (String.eqb (default "" (result !! "providerId")) p) || bool_decide (result = ∅).

Definition accept_response (id : string) (o : LockPaymentOrder) : AcceptOrderResponse :=
  mkAOR id (fiat_amount (lo_amount o) (lo_rate o)) (lo_institution o) (lo_account_identifier o)
    (lo_account_name o) (lo_memo o) (lo_metadata o).

(** The order, unless it already has a log of the status. *)
Definition order_with_log (d : DB) (st : TxLogStatus) (id : string) : list LockPaymentOrder :=
  match db_lock_orders d !! id with
  | Some o => if has_log d st o then [o] else []
  | None => []
  end.

(** Every error return after [Tx] leaves the transaction open. *)
Definition accept_in_tx (tx : nat) (p orderID : string) : M (ApiResponse AcceptOrderResponse) :=
  let failed : M (ApiResponse AcceptOrderResponse) := api_error 500 "Failed to update lock order status" in
  let update (log : list Z) : M (ApiResponse AcceptOrderResponse) :=
    let? order := update_lock_one (Some tx) orderID (mkLPOU (Some LProcessing) (Some (Some p)) None [] log)
    orelse e => (if IsNotFound e then api_error 404 "Order not found" else failed) in
    do? commit_tx tx orelse e => (failed) in
    api_success 201 "Order request accepted successfully" (accept_response orderID order) in
  let? _o := (let! d := read_db (Some tx) in only (order_with_log d TOrderProcessing orderID))
  orelse e =>
    (if negb (IsNotFound e) then failed
     else
       let? log := create_log (Some tx) TOrderProcessing "" (json_text [("ProviderId", p)])
       orelse e => (failed) in
       update [log]) in
  update [].

Definition AcceptOrder (provider : option ProviderProfile) (id : string) : M (ApiResponse AcceptOrderResponse) :=
  match provider, parse_uuid id with
  | None, _ => api_error 401 "Invalid API key or token"
  | Some _, None => api_error 400 "Invalid Order ID"
  | Some provider, Some orderID =>
      let? result := HGetAll (order_request_key orderID)
      orelse e => (api_error 500 "Failed to accept order request") in
      if not_requested result (pp_id provider) then api_error 404 "Order request not found or is expired"
      else
        do? Del (order_request_key orderID) orelse e => (api_error 500 "Failed to accept order request") in
        let? tx := begin_tx orelse e => (api_error 500 "Failed to update lock order status") in
        accept_in_tx tx (pp_id provider) orderID
  end.

Definition DeclineOrder (provider : option ProviderProfile) (id : string) : M (ApiResponse unit) :=
  match provider, parse_uuid id with
  | None, _ => api_error 401 "Invalid API key or token"
  | Some _, None => api_error 400 "Invalid Order ID"
  | Some provider, Some orderID =>
      let failed : M (ApiResponse unit) := api_error 500 "Failed to decline order request" in
      let? result := HGetAll (order_request_key orderID) orelse e => (failed) in
      if not_requested result (pp_id provider) then api_error 404 "Order request not found or is expired"
      else
        do? Del (order_request_key orderID) orelse e => (failed) in
        do? RPush (order_exclude_key orderID) [pp_id provider] orelse e => (failed) in
        api_success 200 "Order request declined successfully" tt
  end.

(** ** Fulfilment *)

(** A fulfilment with its order edge; the order's provider and the currency of
    its bucket are [None] unless the query loaded them. *)
Record FulfillmentRef := mkFR {
  fr_row : LockOrderFulfillment;
  fr_order : option LockPaymentOrder;
  fr_provider : option string;
  fr_currency : option FiatCurrency
}.

Definition load_fulfillment (deep : bool) (txId : string) : M FulfillmentRef :=
  let! d := read_db None in
  let! f := only (List.filter (fun f => String.eqb (lf_tx_id f) txId) (db_fulfillments d)) in
  let o := db_lock_orders d !! lf_order f in
  retM (if deep
        then mkFR f o (o ≫= lo_provider)
               (x ← o; b ← lo_provision_bucket x; db_currencies d !! pb_currency b)
        else mkFR f o None None).

(** Query or create.  The second query does not load the provider and the
    bucket; the error branches of both queries log a field of the [nil] result. *)
Definition query_or_create_fulfillment (orderID : string) (payload : FulfillLockOrderPayload)
    : M (ApiResponse unit + FulfillmentRef) :=
  let? f := load_fulfillment true (fp_tx_id payload)
  orelse e =>
    (if IsNotFound e then
       do? create_fulfillment orderID (fp_tx_id payload) (fp_psp payload) VPending ""
       orelse e => (let! r := api_error 500 "Failed to update lock order status" in retM (inl r)) in
       let? f := load_fulfillment false (fp_tx_id payload) orelse e => (panicM) in
       retM (inr f)
     else panicM) in
  retM (inr f).

Definition fulfillment_metadata (payload : FulfillLockOrderPayload) : string :=
  json_text [("TransactionID", fp_tx_id payload); ("PSP", fp_psp payload)].

(** The provider, currency and amount of the fulfilment's order. *)
Definition fulfillment_balance (f : FulfillmentRef) : M (string * string * dec) :=
  let! o := deref (fr_order f) in
  let! p := deref (fr_provider f) in
  let! fc := deref (fr_currency f) in
  retM (p, fc_code fc, fiat_amount (lo_amount o) (lo_rate o)).

(** The payment order becomes validated; the webhook gets the row that was read
    before. *)
Definition notify_validated (messageHash : string) : M unit :=
  let? po := (let! d := read_db None in
              only (List.filter (fun o => String.eqb (po_message_hash o) messageHash) (payment_rows d)))
  orelse e => (retM tt) in
  let! w := getM in
  do! logged (write_db None (fun d => set_payment_orders
        (alter (po_set_status (w_now w) PValidated) (po_id po) (db_payment_orders d)) d)) in
  logged (send_webhook po).

(** [ValidationStatusSuccess]: the order of the URL is validated, the balance of
    the fulfilment's order is released. *)
Definition fulfill_success (orderID : string) (payload : FulfillLockOrderPayload) (f : FulfillmentRef)
    : M (ApiResponse unit) :=
  let failed : M (ApiResponse unit) := api_error 500 "Failed to update lock order status" in
  let! order := deref (fr_order f) in
  if bool_decide (lo_status order = LValidated) then api_success 200 "Order already validated" tt
  else
    let? tx := begin_tx orelse e => (failed) in
    do? update_fulfillment (Some tx) (lf_id (fr_row f)) VSuccess None
    orelse e => (do! rollback_tx tx in failed) in
    let? log := create_log (Some tx) TOrderValidated (nw_identifier (tk_network (lo_token order)))
                  (fulfillment_metadata payload)
    orelse e => (do! rollback_tx tx in failed) in
    do? update_lock_if (Some tx) orderID (fun _ => true) (set_status_log LValidated [log])
    orelse e => (do! rollback_tx tx in failed) in
    let! b := fulfillment_balance f in
    let '(p, c, amount) := b in
    do? ReleaseReservedBalance p c amount (Some tx) orelse e => (do! rollback_tx tx in failed) in
    do? commit_tx tx orelse e => (failed) in
    do! notify_validated (lo_message_hash order) in
    do! emit (EvSettle orderID) in
    api_success 200 "Order fulfilled successfully" tt.

Definition in_progress (o : LockPaymentOrder) : bool :=
  bool_decide (lo_status o = LProcessing) || bool_decide (lo_status o = LFulfilled).

(** [ValidationStatusFailed]: no transaction; a failed release is logged. *)
Definition fulfill_failed (orderID : string) (payload : FulfillLockOrderPayload) (f : FulfillmentRef)
    : M (ApiResponse unit) :=
  let failed : M (ApiResponse unit) := api_error 500 "Failed to update lock order status" in
  do? update_fulfillment None (lf_id (fr_row f)) VFailed (Some (fp_validation_error payload)) orelse e => (failed) in
  do? update_lock_if None orderID in_progress (set_status_only LFulfilled) orelse e => (failed) in
  let! b := fulfillment_balance f in
  let '(p, c, amount) := b in
  do! logged (ReleaseReservedBalance p c amount None) in
  api_success 200 "Order fulfilled successfully" tt.

(** Any other status. *)
Definition fulfill_pending (orderID : string) (payload : FulfillLockOrderPayload) (f : FulfillmentRef)
    : M (ApiResponse unit) :=
  let failed : M (ApiResponse unit) := api_error 500 "Failed to update lock order status" in
  let! order := deref (fr_order f) in
  let? log := create_log None TOrderFulfilled (nw_identifier (tk_network (lo_token order)))
                (fulfillment_metadata payload) orelse e => (failed) in
  do? update_lock_if None orderID in_progress (set_status_log LFulfilled [log]) orelse e => (failed) in
  api_success 200 "Order fulfilled successfully" tt.

Definition FulfillOrder (payload : option FulfillLockOrderPayload) (provider : option ProviderProfile) (id : string)
    : M (ApiResponse unit) :=
  match payload, provider, parse_uuid id with
  | None, _, _ => api_error 400 "Failed to validate payload"
  | Some _, None, _ => api_error 401 "Invalid API key or token"
  | Some _, Some _, None => api_error 400 "Invalid Order ID"
  | Some payload, Some _, Some orderID =>
      let! r := query_or_create_fulfillment orderID payload in
      match r with
      | inl response => retM response
      | inr f =>
          match fp_validation_status payload with
          | Some VSuccess => fulfill_success orderID payload f
          | Some VFailed => fulfill_failed orderID payload f
          | _ => fulfill_pending orderID payload f
          end
      end
  end.

(** ** Cancellation *)

Definition placeholder : string := "DELETED_PROVIDER".

(** The walk from the end of the queue; [fuel] bounds the positions read. *)
Fixpoint drop_from_queue (fuel : nat) (key p : string) (index : Z) : M unit :=
  match fuel with
  | 0%nat => panicM
  | S fuel' =>
      let? providerData := LIndex key index orelse e => (retM tt) in
      let parts := split_on ":" providerData in
      if negb (length parts =? 5)%nat then drop_from_queue fuel' key p (index - 1)
      else if String.eqb (default "" (head parts)) p then
        do! logged (LSet key index placeholder) in
        logged (LRem key placeholder)
      else drop_from_queue fuel' key p (index - 1)
  end.

(** The new cancellation count and the reasons to add. *)
Definition cancellation_update (provider : ProviderProfile) (reason : string) (count : Z) : Z * list string :=
  if String.eqb reason "Invalid recipient bank details" || bool_decide (pp_visibility_mode provider = VisPrivate)
  then (count + cf_refund_cancellation_count conf, [reason])%Z
  else if negb (String.eqb reason "Insufficient funds") then (count + 1, [reason])%Z
  else (count, []).

Definition leaves_queue (provider : ProviderProfile) (reason : string) : bool :=
  String.eqb reason "Insufficient funds" && negb (bool_decide (pp_visibility_mode provider = VisPrivate)).

(** The order with the currency of its bucket. *)
Definition order_of_provider (orderID p : string) : M (LockPaymentOrder * option FiatCurrency) :=
  let! d := read_db None in
  match db_lock_orders d !! orderID with
  | Some o => if bool_decide (lo_provider o = Some p)
              then retM (o, b ← lo_provision_bucket o; db_currencies d !! pb_currency b)
              else errM ENotFound
  | None => errM ENotFound
  end.

Definition CancelOrder (qfuel : nat) (reason : option string) (provider : option ProviderProfile) (id : string)
    : M (ApiResponse unit) :=
  match reason, provider, parse_uuid id with
  | None, _, _ => api_error 400 "Failed to validate payload"
  | Some _, None, _ => api_error 401 "Invalid API key or token"
  | Some _, Some _, None => api_error 400 "Invalid Order ID"
  | Some reason, Some provider, Some orderID =>
      let? found := order_of_provider orderID (pp_id provider)
      orelse e => (api_error 404 "Could not find payment order") in
      let '(order, currency) := found in
      let '(cancellationCount, reasons) := cancellation_update provider reason (lo_cancellation_count order) in
      do! ifM (leaves_queue provider reason)
            (let! b := deref (lo_provision_bucket order) in
             let! fc := deref currency in
             drop_from_queue qfuel (bucket_key (fc_code fc) (pb_min_amount b) (pb_max_amount b))
               (pp_id provider) (-1)) in
      do? update_lock_one None orderID (mkLPOU (Some LCancelled) None (Some cancellationCount) reasons [])
      orelse e => (api_error 500 "Failed to cancel order") in
      let! fc := deref currency in
      do! logged (ReleaseReservedBalance (pp_id provider) (fc_code fc)
                    (fiat_amount (lo_amount order) (lo_rate order)) None) in
      do! ifM (cf_refund_cancellation_count conf <=? cancellationCount)%Z
            (emit (EvRefund (nw_identifier (tk_network (lo_token order))) (lo_gateway_id order))) in
      do? RPush (order_exclude_key orderID) [pp_id provider]
      orelse e => (api_error 500 "Failed to decline order request") in
      api_success 200 "Order cancelled successfully" tt
  end.

(** ** Reading *)

Definition lock_response (transactions : option (list TransactionLog)) (o : LockPaymentOrder)
    : LockPaymentOrderResponse :=
  mkLOR (lo_id o) (tk_symbol (lo_token o)) (lo_gateway_id o) (lo_amount o) (lo_amount_in_usd o) (lo_rate o)
    (lo_institution o) (lo_account_identifier o) (lo_account_name o) (lo_tx_hash o) (lo_status o) (lo_memo o)
    (nw_identifier (tk_network (lo_token o))) (lo_cancellation_reasons o) (lo_updated_at o) (lo_created_at o)
    transactions.

Definition institution_codes (d : DB) (currency : string) : list string :=
  map in_code (List.filter (fun i => bool_decide (in_fiat_currency i = Some currency)) (db_institutions d)).

(** [statusMap]; other values do not filter. *)
Definition status_filter (param : string) : option LockStatus :=
  if String.eqb param "pending" then Some LPending
  else if String.eqb param "validated" then Some LValidated
  else if String.eqb param "fulfilled" then Some LFulfilled
  else if String.eqb param "cancelled" then Some LCancelled
  else if String.eqb param "processing" then Some LProcessing
  else if String.eqb param "settled" then Some LSettled
  else None.

(** The predicates of the query: provider, institutions and status. *)
Definition listed_order (p : string) (codes : list string) (st : option LockStatus) (o : LockPaymentOrder) : bool :=
  bool_decide (lo_provider o = Some p) && ContainsString codes (lo_institution o) &&
  match st with Some st => bool_decide (lo_status o = st) | None => true end.

(** The currency of the provider and the codes of its institutions, or the
    response that ends the endpoint. *)
Definition provider_institutions {A} (p currency : string) : M (ApiResponse A + list string) :=
  let fails (code : Z) (msg : string) : M (ApiResponse A + list string) :=
    let! r := api_error code msg in retM (inl r) in
  if String.eqb currency "" then fails 400 "Currency is required"
  else
    let? d := read_db None orelse e => (fails 500 "Failed to check currency") in
    match db_provider_currencies d !! (p, currency) with
    | None => fails 400 "Currency not found"
    | Some _ =>
        let? d := read_db None orelse e => (fails 500 "Failed to fetch institutions") in
        retM (inr (institution_codes d currency))
    end.

Definition GetLockPaymentOrders (page pageSize : option Z) (ordering : string) (provider : option ProviderProfile)
    (currency status : string) : M (ApiResponse ProviderLockOrderList) :=
  let '(page, offset, pageSize) := Paginate page pageSize in
  match provider with
  | None => api_error 401 "Invalid API key or token"
  | Some provider =>
      let failed : M (ApiResponse ProviderLockOrderList) := api_error 500 "Failed to fetch orders" in
      let! r := provider_institutions (pp_id provider) currency in
      match r with
      | inl response => retM response
      | inr codes =>
          let query := listed_order (pp_id provider) codes (status_filter status) in
          let? d := read_db None orelse e => (failed) in
          let count := Z.of_nat (length (List.filter query (lock_rows d))) in
          let? orders := (let! d := read_db None in
                          page_rows lo_created_at (String.eqb ordering "asc") offset pageSize
                            (List.filter query (lock_rows d)))
          orelse e => (failed) in
          api_success 200 "Orders successfully retrieved"
            (mkPLOL count page pageSize (map (lock_response None) orders))
      end
  end.

Definition GetLockPaymentOrderByID (id : string) (provider : option ProviderProfile)
    : M (ApiResponse LockPaymentOrderResponse) :=
  match parse_uuid id, provider with
  | None, _ => api_error 400 "Invalid order ID"
  | Some _, None => api_error 401 "Invalid API key or token"
  | Some id, Some provider =>
      let? res := (let! d := read_db None in
                   match db_lock_orders d !! id with
                   | Some o => if bool_decide (lo_provider o = Some (pp_id provider)) then retM (d, o) else errM ENotFound
                   | None => errM ENotFound
                   end)
      orelse e => (api_error 404 "Payment order not found") in
      let '(d, o) := res in
      api_success 200 "The order has been successfully retrieved"
        (lock_response
           (Some (List.filter (fun l => existsb (Z.eqb (tl_id l)) (lo_transactions o)) (db_tx_logs d))) o)
  end.

Definition GetMarketRate (token fiat : string) : M (ApiResponse MarketRateResponse) :=
  let? tk := (let! d := read_db None in
              first (List.filter (fun t => String.eqb (tk_symbol t) (ToUpper token) && tk_is_enabled t) (db_tokens d)))
  orelse e => (if IsNotFound e then api_error 400 ("Token " +:+ ToUpper token +:+ " is not supported")
               else api_error 500 "Failed to get market rate") in
  let? currency := (let! d := read_db None in
                    match db_currencies d !! ToUpper fiat with
                    | Some fc => if fc_is_enabled fc then retM fc else errM ENotFound
                    | None => errM ENotFound
                    end)
  orelse e => (api_error 400 ("Fiat currency " +:+ ToUpper fiat +:+ " is not supported")) in
  if negb (EqualFold (tk_base_currency tk) (fc_code currency)) && negb (EqualFold (tk_base_currency tk) "USD") then
    api_error 400 (tk_symbol tk +:+ " can only be converted to " +:+ tk_base_currency tk)
  else if negb (EqualFold (tk_base_currency tk) (fc_code currency)) then
    let deviation := d_mul (fc_market_rate currency)
                       (d_div (cf_percent_deviation_from_market_rate conf) (d_int 100)) in
    api_success 200 "Rate fetched successfully"
      (mkMRR (fc_market_rate currency) (d_sub (fc_market_rate currency) deviation)
         (d_add (fc_market_rate currency) deviation))
  else api_success 200 "Rate fetched successfully" (mkMRR (d_int 1) (d_int 1) (d_int 1)).

(** [Aggregate(Sum(amount))]; no rows give zero. *)
Definition sum_amounts (l : list LockPaymentOrder) : dec := foldl (fun s o => d_add s (lo_amount o)) d_zero l.
Definition fiat_volume (l : list LockPaymentOrder) : dec :=
  foldl (fun s o => d_add s (d_round_bank (d_mul (lo_amount o) (lo_rate o)) 2)) d_zero l.

(** [query.Where(p)] adds to the query it is called on. *)
Definition also_where (query p : LockPaymentOrder -> bool) (o : LockPaymentOrder) : bool := query o && p o.
Definition base_is (code : string) (o : LockPaymentOrder) : bool := String.eqb (tk_base_currency (lo_token o)) code.

Definition Stats (provider : option ProviderProfile) (currency : string) : M (ApiResponse ProviderStatsResponse) :=
  match provider with
  | None => api_error 401 "Invalid API key or token"
  | Some provider =>
      let failed : M (ApiResponse ProviderStatsResponse) := api_error 500 "Failed to fetch provider stats" in
      let! r := provider_institutions (pp_id provider) currency in
      match r with
      | inl response => retM response
      | inr codes =>
          let settled := listed_order (pp_id provider) codes (Some LSettled) in
          let query := also_where settled (base_is "USD") in
          let? d := read_db None orelse e => (failed) in
          let usdVolume := sum_amounts (List.filter query (lock_rows d)) in
          let query := also_where query (fun o => base_is currency o && negb (base_is "USD" o)) in
          let? d := read_db None orelse e => (failed) in
          let localVolume := sum_amounts (List.filter query (lock_rows d)) in
          let finish (localVolume : dec) : M (ApiResponse ProviderStatsResponse) :=
            let? d := read_db None orelse e => (failed) in
            let totalFiatVolume := fiat_volume (List.filter settled (lock_rows d)) in
            let? d := read_db None orelse e => (failed) in
            let count := length (List.filter (listed_order (pp_id provider) codes None) (lock_rows d)) in
            api_success 200 "Provider stats fetched successfully"
              (mkPSR (Z.of_nat count) totalFiatVolume (d_add usdVolume localVolume)) in
          if d_gt localVolume (d_int 0) then
            let? fc := (let! d := read_db None in
                        match db_currencies d !! currency with Some fc => retM fc | None => errM ENotFound end)
            orelse e => (failed) in
            let! v := go_div localVolume (fc_market_rate fc) in
            finish v
          else finish localVolume
      end
  end.

(** The strings among the currencies that the node lists. *)
Definition json_strings (l : list json) : list string :=
  omap (fun v => match v with JStr s => Some s | _ => None end) l.

Definition NodeInfo (provider : option ProviderProfile) : M (ApiResponse (list (string * json))) :=
  match provider with
  | None => api_error 401 "Invalid API key or token"
  | Some ctxProvider =>
      let? res := (let! d := read_db None in
                   match db_providers d !! pp_id ctxProvider with
                   | Some p => retM (d, p) | None => errM ENotFound end)
      orelse e => (api_error 500 "Failed to fetch node info") in
      let '(d, provider) := res in
      do? ext orelse e => (api_error 503 "Failed to fetch node info") in
      let! w := getM in
      match ParseJSONResponse (provider_answer w (pp_id provider) "/info" ∅) with
      | (Some _, _) => api_error 503 "Failed to fetch node info"
      | (None, data) =>
          match json_get "data" data with
          | Some (JObj dataMap) =>
              match json_get "serviceInfo" dataMap with
              | Some (JObj serviceInfo) =>
                  match json_get "currencies" serviceInfo with
                  | Some (JArr currencies) =>
                      let codes := json_strings currencies in
                      let own := List.filter (fun row => String.eqb (fst (fst row)) (pp_id provider))
                                   (map_to_list (db_provider_currencies d)) in
                      if forallb (fun row => ContainsString codes (snd (fst row))) own
                      then api_success 200 "Node info fetched successfully" data
                      else api_error 503 "Failed to fetch node info"
                  | _ => api_error 503 "Currencies data is not in expected format"
                  end
              | _ => api_error 503 "Invalid service info format"
              end
          | _ => api_error 503 "Invalid data format"
          end
      end
  end.

(** ** The balance endpoint *)

(** The bound payload: currency, available, total and reserved balance. *)
Definition UpdateProviderBalanceEndpoint (provider : option ProviderProfile)
    (payload : option (string * string * string * string)) : M (ApiResponse unit) :=
  match provider, payload with
  | None, _ => api_error 401 "Provider not found in context"
  | Some _, None => api_error 400 "Failed to validate payload"
  | Some provider, Some (currency, available, total, reserved) =>
      match d_parse available, d_parse total, d_parse reserved with
      | None, _, _ => api_error 400 "Invalid available balance format"
      | Some _, None, _ => api_error 400 "Invalid total balance format"
      | Some _, Some _, None => api_error 400 "Invalid reserved balance format"
      | Some a, Some t, Some r =>
          do? UpdateProviderBalance (pp_id provider) currency a t r
          orelse e => (api_error 500 "Failed to update balance") in
          api_success 200 "Balance updated successfully" tt
      end
  end.

End provider.
