(* ===== verification/ProviderClaims.v ===== *)
(** * Theorems about the provider endpoints *)

From stdpp Require Import sorting.
From S2P Require Import Prelude Decimal Schema Store Samples Transactions Balance Utils Services Queue QueueSteps QueueClaims.
From S2P Require Import Orders OrderClaims Rows Http Provider.
Local Open Scope go_scope.
Local Open Scope string_scope.
Local Open Scope list_scope.

Section provider_spec.
Context {O : DecimalOps} {L : DecimalLaws O} {OS : @OrderServices O} {OL : OrderLaws OS} {SV : @Services O}.
Context {HS : HttpServices}.

(** ** Accepting *)

(** The order as the acceptance by [p] leaves it. *)
Record accepted_by (p : string) (d : DB) (o o' : LockPaymentOrder) : Prop := {
  ab_status : lo_status o' = LProcessing;
  ab_provider : lo_provider o' = Some p;
  ab_amount : lo_amount o' = lo_amount o /\ lo_rate o' = lo_rate o;
  ab_log : has_log d TOrderProcessing o' = true
}.

(** Only the order [id] changed, and the logs. *)
Definition only_order (id : string) (d d' : DB) : Prop :=
  delete id (db_lock_orders d') = delete id (db_lock_orders d) /\
  db_provider_currencies d' = db_provider_currencies d /\ db_fulfillments d' = db_fulfillments d /\
  db_payment_orders d' = db_payment_orders d.

(** An acceptance that answers 201 has been committed; any other answer has
    committed nothing. *)
Definition accept_result (w0 : World) (p oid : string) (out : outcome (ApiResponse AcceptOrderResponse)) (w' : World)
    : Prop :=
  exists r, out = Ret r /\ w_redis w' = w_redis w0 /\ w_events w' = w_events w0 /\
    if (ar_code r =? 201)%Z then
      exists o o', db_lock_orders (w_db w0) !! oid = Some o /\ db_lock_orders (w_db w') !! oid = Some o' /\
        accepted_by p (w_db w') o o' /\ only_order oid (w_db w0) (w_db w') /\
        ar_data r = Some (accept_response oid o')
    else w_db w' = w_db w0.

Lemma accept_error w0 p oid code msg w :
  code <> 201 -> w_db w = w_db w0 -> w_redis w = w_redis w0 -> w_events w = w_events w0 ->
  wp (api_error code msg) (accept_result w0 p oid) w.
Proof.
  intros Hc H1 H2 H3. unfold api_error. wp_step. eexists. split_and!; [done|done|done|].
  cbn [ar_code]. by rewrite (proj2 (Z.eqb_neq _ _) Hc).
Qed.
Lemma accept_error_tx w0 p oid id d code msg w :
  code <> 201 -> in_tx w0 id d w -> wp (api_error code msg) (accept_result w0 p oid) w.
Proof. intros Hc []. by apply accept_error. Qed.
Hint Resolve accept_error_tx : core.

Lemma accept_update_wp w0 tx p oid log d w :
  in_tx w0 tx d w -> db_lock_orders d = db_lock_orders (w_db w0) -> only_order oid (w_db w0) d ->
  let u := mkLPOU (Some LProcessing) (Some (Some p)) None [] log in
  (forall o, db_lock_orders (w_db w0) !! oid = Some o -> has_log d TOrderProcessing (lo_apply (w_now w0) u o) = true) ->
  wp (let? order := update_lock_one (Some tx) oid u
      orelse e => (if IsNotFound e then api_error 404 "Order not found"
                   else api_error 500 "Failed to update lock order status") in
      do? commit_tx tx orelse e => (api_error 500 "Failed to update lock order status") in
      api_success 201 "Order request accepted successfully" (accept_response oid order)) (accept_result w0 p oid) w.
Proof.
  intros H Hlo Honly u Hlog. wp_step. eapply update_lock_one_in; [exact H| |].
  2:{ intros e w1 H1. case_match; by eapply accept_error_tx. }
  intros o w1 Ho H1. wp_step.
  eapply wp_in_commit; [exact H1|intros w2 Hd _ Hr He|intros w2 Hd _ Hr He; by apply accept_error].
  unfold api_success. wp_step. eexists. split_and!; [done|done|done|]. simpl. exists o. eexists.
  rewrite Hd, <- Hlo. split; [done|]. split; [simpl; apply lookup_insert_eq|]. rewrite Hlo in Ho. split_and!; [| |done].
  - split; [done|done|done|exact (Hlog o Ho)].
  - destruct Honly as (_ & Ho2). split; [|done]. simpl. by rewrite delete_insert_eq, Hlo.
Qed.

Lemma accept_in_tx_wp w0 tx p oid w :
  in_tx w0 tx (w_db w0) w -> wp (accept_in_tx tx p oid) (accept_result w0 p oid) w.
Proof.
  intros H. unfold accept_in_tx. do 2 wp_step.
  eapply wp_in_read; [exact H|intros w1 H1|intros w1 H1; simpl; by eapply accept_error_tx].
  unfold order_with_log. destruct (db_lock_orders (w_db w0) !! oid) as [o|] eqn:Ho;
    [destruct (has_log (w_db w0) TOrderProcessing o) eqn:Hl|]; cbn [only].
  - wp_step. eapply accept_update_wp; [exact H1|done|done|]. intros o' Ho'. simplify_eq.
    eapply has_log_mono; [exact Hl|done|]. simpl. intros i Hi. rewrite app_nil_r. exact Hi.
  - wp_step. cbn [IsNotFound negb]. wp_step. eapply create_log_in; [exact H1| |intros w2 H2; by eapply accept_error_tx].
    intros w2 H2. eapply accept_update_wp; [exact H2|done|done|]. intros o' Ho'. apply has_log_new. simpl.
    apply elem_of_app. right. by left.
  - wp_step. cbn [IsNotFound negb]. wp_step. eapply create_log_in; [exact H1| |intros w2 H2; by eapply accept_error_tx].
    intros w2 H2. eapply accept_update_wp; [exact H2|done|done|]. intros o' Ho'. congruence.
Qed.

(** The request that Redis holds for an order. *)
Definition requested (w : World) (oid p : string) : Prop :=
  exists req, r_hashes (w_redis w) !! order_request_key oid = Some req /\ default "" (req !! "providerId") = p.

Lemma not_requested_false w oid p :
  not_requested (default ∅ (r_hashes (w_redis w) !! order_request_key oid)) p = false -> requested w oid p.
Proof.
  unfold not_requested, requested. intros [H1%negb_false_iff%String.eqb_eq H2]%orb_false_iff.
  destruct (r_hashes (w_redis w) !! order_request_key oid) as [req|]; [by exists req|done].
Qed.

(** C8: accepting an order, whatever fails.  The endpoint never panics.  When it
    answers 201, Redis held a request of this order for this provider, which is
    gone now, the committed order is processing, assigned to the provider and
    has a log of it, amounts and all other orders, balances, fulfilments and
    payment orders are as before, and the answer is that of the committed row.
    Any other answer has committed nothing. *)
Theorem accept_order_correct provider id w :
  wp (AcceptOrder (Some provider) id) (fun out w' => exists r, out = Ret r /\
    if (ar_code r =? 201)%Z then
      exists oid o o', parse_uuid id = Some oid /\ requested w oid (pp_id provider) /\
        r_hashes (w_redis w') !! order_request_key oid = None /\
        db_lock_orders (w_db w) !! oid = Some o /\ db_lock_orders (w_db w') !! oid = Some o' /\
        accepted_by (pp_id provider) (w_db w') o o' /\ only_order oid (w_db w) (w_db w') /\
        ar_data r = Some (accept_response oid o')
    else w_db w' = w_db w) w.
Proof.
  unfold AcceptOrder. destruct (parse_uuid id) as [oid|] eqn:Hid; [|unfold api_error; wp_step; by eexists].
  unfold HGetAll, Del, api_error. repeat wp_outside; try (by eexists).
  apply wp_in_begin; [intros tx w1 H1|intros fs1; wp_step; by eexists].
  eapply wp_mono; [by apply accept_in_tx_wp; destruct H1; split|]. intros out w2 (r & -> & Hr & He & H2).
  exists r. split; [done|]. destruct (ar_code r =? 201)%Z; [|exact H2].
  destruct H2 as (o & o' & H2). exists oid, o, o'. split; [done|].
  split; [by eapply not_requested_false|]. split; [|exact H2]. rewrite Hr. simpl. by rewrite lookup_delete_eq.
Qed.

(** Declining an order, whatever fails: the database, its transactions and the
    outside world are untouched; and when the endpoint answers 200, Redis held a
    request of the order for this provider, which is gone now, and the provider
    is at the end of the order's exclude list, the only list that changed. *)
Theorem decline_order_correct provider id w :
  wp (DeclineOrder (Some provider) id) (fun out w' => w_db w' = w_db w /\ w_txs w' = w_txs w /\
    w_events w' = w_events w /\ exists r, out = Ret r /\
    (ar_code r = 200 -> exists oid, parse_uuid id = Some oid /\ requested w oid (pp_id provider) /\
       r_hashes (w_redis w') = delete (order_request_key oid) (r_hashes (w_redis w)) /\
       get_list (order_exclude_key oid) (w_redis w') =
         get_list (order_exclude_key oid) (w_redis w) ++ [pp_id provider] /\
       forall key, key <> order_exclude_key oid -> key <> order_request_key oid ->
         get_list key (w_redis w') = get_list key (w_redis w))) w.
Proof.
  unfold DeclineOrder. destruct (parse_uuid id) as [oid|] eqn:Hid; [|unfold api_error; wp_step; split_and!; try done; by eexists].
  unfold HGetAll, Del, RPush, api_error, api_success. repeat wp_step; split_and!; try done; eexists; (split; [done|]);
    try done. intros _. exists oid. split; [done|]. split; [by eapply not_requested_false|].
  assert (Hk : order_request_key oid <> order_exclude_key oid) by done.
  unfold put_list, get_list; simpl. rewrite lookup_delete_ne by done.
  destruct (default [] (r_lists (w_redis w) !! order_exclude_key oid) ++ [pp_id provider]) as [|x l] eqn:E;
    [by destruct (default [] _)|].
  split; [done|]. split; [by rewrite lookup_insert_eq|].
  intros key H1 H2. by rewrite lookup_insert_ne, lookup_delete_ne.
Qed.

(** ** Fulfilment *)

(** What a validated fulfilment commits: the fulfilment [f], the order [oid] of
    the URL, and the release of [amount] by provider [p] in currency [c]. *)
Record validated (f : LockOrderFulfillment) (oid p c : string) (amount : dec) (w w' : World) : Prop := {
  vd_row : exists pc, db_provider_currencies (w_db w) !! (p, c) = Some pc /\
    db_provider_currencies (w_db w') =
      <[(p, c) := released_row amount (w_now w) pc]> (db_provider_currencies (w_db w));
  vd_orders : exists log, db_lock_orders (w_db w') =
    alter (lo_apply (w_now w) (set_status_log LValidated [log])) oid (db_lock_orders (w_db w));
  vd_fulfillment : db_fulfillments (w_db w') =
    map (fun x => if (lf_id x =? lf_id f)%Z then lf_validate (w_now w) VSuccess None x else x)
      (db_fulfillments (w_db w));
  vd_settle : EvSettle oid ∈ w_events w'
}.

(** What the notification of a validated order does: only payment orders change. *)
Lemma notify_validated_wp mh w :
  institutions_priced (w_db w) ->
  wp (notify_validated mh) (fun out w' => out = Ret tt /\ w_redis w' = w_redis w /\
    exists m, w_db w' = set_payment_orders m (w_db w)) w.
Proof.
  intros Hi.
  assert (Hid : w_db w = set_payment_orders (db_payment_orders (w_db w)) (w_db w)) by (by destruct (w_db w)).
  unfold notify_validated, logged. do 2 wp_step.
  eapply wp_read_db; [reflexivity|intros fs|intros fs; wp_step; by eauto].
  apply only_filter; [intros po _ _|intros _; wp_step; by eauto|wp_step; by eauto].
  do 3 wp_step.
  eapply (wp_mono _ (fun out w' => out = Ret tt /\ w_redis w' = w_redis w /\
    exists m, w_db w' = set_payment_orders m (w_db w))).
  { repeat wp_step; (split; [done|]); simpl; eauto. }
  intros out w1 (-> & Hr1 & m & Hm). wp_step. apply (wp_send_webhook OS); [by rewrite Hm|].
  intros [u|e|] w2 Hd Hr Hp; [wp_step|wp_step|done]; (split; [done|]); (split; [congruence|]); exists m; congruence.
Qed.

(** A 200 has committed the validation; any other answer nothing. *)
Definition success_result (f : LockOrderFulfillment) (oid p c : string) (amount : dec) (w : World)
    (out : outcome (ApiResponse unit)) (w' : World) : Prop :=
  exists r, out = Ret r /\ w_redis w' = w_redis w /\
    if (ar_code r =? 200)%Z then validated f oid p c amount w w' else w_db w' = w_db w.

Lemma success_result_faults f oid p c amount w fs out w' :
  success_result f oid p c amount (set_faults fs w) out w' -> success_result f oid p c amount w out w'.
Proof.
  intros (r & Hr & Hd & H). exists r. split_and!; [done|done|]. destruct (ar_code r =? 200)%Z; [|done].
  destruct H. by split.
Qed.

Lemma success_error f oid p c amount w w1 :
  w_db w1 = w_db w -> w_redis w1 = w_redis w ->
  wp (api_error 500 "Failed to update lock order status") (success_result f oid p c amount w) w1.
Proof. intros H1 H2. unfold api_error. wp_step. by eexists. Qed.
Lemma success_rollback f oid p c amount w id d w1 :
  in_tx w id d w1 ->
  wp (do! rollback_tx id in api_error 500 "Failed to update lock order status")
    (success_result f oid p c amount w) w1.
Proof. intros []. do 2 wp_step. by apply success_error. Qed.

Lemma fulfill_success_wp oid payload f o p fc w :
  institutions_priced (w_db w) ->
  lo_status o <> LValidated ->
  wp (fulfill_success oid payload (mkFR f (Some o) (Some p) (Some fc)))
    (success_result f oid p (fc_code fc) (fiat_amount (lo_amount o) (lo_rate o)) w) w.
Proof.
  intros Hi Hst. pose proof (success_rollback f oid p (fc_code fc) (fiat_amount (lo_amount o) (lo_rate o)) w) as Hroll.
  unfold fulfill_success. do 2 wp_step. cbn [fr_order fr_row fr_provider fr_currency]. rewrite bool_decide_eq_false_2 by done. wp_step.
  apply wp_in_begin; [intros tx w1 H1|intros fs; by apply success_error]. wp_step.
  eapply update_fulfillment_in; [exact H1|intros w2 H2|intros e w2; apply Hroll]. wp_step.
  eapply create_log_in; [exact H2|intros w3 H3|intros w3; apply Hroll]. wp_step.
  eapply update_lock_if_in; [exact H3|intros w4 H4|intros w4; apply Hroll].
  wp_step. unfold fulfillment_balance. cbn [fr_order fr_row fr_provider fr_currency].
  repeat (wp_step; cbn [fr_order fr_row fr_provider fr_currency]).
  eapply release_in; [exact H4|intros pc w5 Hpc H5|intros e w5; apply Hroll]. wp_step.
  eapply wp_in_commit; [exact H5|intros w6 Hd _ Hr _|intros w6 Hd _ Hr _; by apply success_error].
  wp_step. eapply wp_mono; [apply notify_validated_wp; by rewrite Hd|]. intros out w7 (-> & Hr7 & m & Hm).
  unfold api_success. do 3 wp_step. eexists. split; [done|]. split; [simpl; congruence|]. cbn [ar_code]. simpl.
  assert (Hpos : exists m', w_db w7 = set_payment_orders m' (put_pc (p, fc_code fc)
    (released_row (fiat_amount (lo_amount o) (lo_rate o)) (w_now w) pc) (alter_lock_order (w_now w) oid
      (fun _ => true) (set_status_log LValidated [db_next_id (validate_rows (w_now w) (lf_id f) VSuccess None (w_db w))])
      (with_log TOrderValidated (nw_identifier (tk_network (lo_token o))) (fulfillment_metadata payload) (w_now w)
         (validate_rows (w_now w) (lf_id f) VSuccess None (w_db w)))))) by (exists m; congruence).
  destruct Hpos as (m' & Hm'). split; cbn [w_db w_events set_events]; try rewrite Hm'.
  - by exists pc.
  - by eexists.
  - done.
  - apply elem_of_app. right. by left.
Qed.

(** The one fulfilment of a transaction id, with the order it belongs to. *)
Record fulfillment_found (d : DB) (txId : string) (f : LockOrderFulfillment) (o : LockPaymentOrder) (p : string)
    (fc : FiatCurrency) : Prop := {
  ff_only : List.filter (fun f => String.eqb (lf_tx_id f) txId) (db_fulfillments d) = [f];
  ff_order : db_lock_orders d !! lf_order f = Some o;
  ff_provider : lo_provider o = Some p;
  ff_currency : exists b, lo_provision_bucket o = Some b /\ db_currencies d !! pb_currency b = Some fc
}.

Lemma load_fulfillment_found txId f o p fc (Q : outcome FulfillmentRef -> World -> Prop) w :
  fulfillment_found (w_db w) txId f o p fc ->
  (forall fs, Q (Ret (mkFR f (Some o) (Some p) (Some fc))) (set_faults fs w)) ->
  (forall fs, Q (Err EFault) (set_faults fs w)) -> wp (load_fulfillment true txId) Q w.
Proof.
  intros [H1 H2 H3 (b & H4 & H5)] Hok Hbad. unfold load_fulfillment. wp_step.
  eapply wp_read_db; [reflexivity|intros fs|exact Hbad]. rewrite H1. cbn [only]. repeat wp_step.
  rewrite H2. simpl. rewrite H3, H4. simpl. rewrite H5. apply Hok.
Qed.

Lemma FulfillOrder_success_wp payload provider id oid f o p fc w :
  institutions_priced (w_db w) ->
  parse_uuid id = Some oid -> fp_validation_status payload = Some VSuccess ->
  fulfillment_found (w_db w) (fp_tx_id payload) f o p fc -> lo_status o <> LValidated ->
  wp (FulfillOrder (Some payload) (Some provider) id) (fun out w' =>
    (out = Panic /\ w_db w' = w_db w) \/
    success_result f oid p (fc_code fc) (fiat_amount (lo_amount o) (lo_rate o)) w out w') w.
Proof.
  intros Hi Hid Hst Hf Ho. unfold FulfillOrder. rewrite Hid, Hst. wp_step. unfold query_or_create_fulfillment. wp_step.
  eapply load_fulfillment_found; [exact Hf|intros fs|intros fs; cbn [IsNotFound]; repeat wp_step; by left].
  wp_step. eapply wp_mono; [by apply fulfill_success_wp|]. intros out w' H.
  right. exact (success_result_faults _ _ _ _ _ _ _ _ _ H).
Qed.

(** The fulfilment of one order validates another: the endpoint looks the
    fulfilment up by its transaction id alone.  When it answers 200 for an order
    [oid] that is not the order [o] of the fulfilment, [oid] is validated, [o]
    keeps its status, and the balance released is that of [o] and its provider;
    neither has to belong to the caller. *)
Theorem fulfill_validates_other_order payload provider id oid f o o2 p fc w :
  institutions_priced (w_db w) ->
  parse_uuid id = Some oid -> fp_validation_status payload = Some VSuccess ->
  fulfillment_found (w_db w) (fp_tx_id payload) f o p fc -> lo_status o <> LValidated ->
  oid <> lf_order f -> db_lock_orders (w_db w) !! oid = Some o2 ->
  wp (FulfillOrder (Some payload) (Some provider) id) (fun out w' => forall r, out = Ret r -> ar_code r = 200 ->
    (exists o2', db_lock_orders (w_db w') !! oid = Some o2' /\ lo_status o2' = LValidated) /\
    db_lock_orders (w_db w') !! lf_order f = Some o /\
    exists pc, db_provider_currencies (w_db w) !! (p, fc_code fc) = Some pc /\
      db_provider_currencies (w_db w') !! (p, fc_code fc) =
        Some (released_row (fiat_amount (lo_amount o) (lo_rate o)) (w_now w) pc)) w.
Proof.
  intros Hi H1 H2 H3 H4 Hne Ho2. eapply wp_mono; [by eapply FulfillOrder_success_wp|].
  intros out w' [[-> H]|(r & -> & _ & H)] r' Hr Hc; [done|]. injection Hr as <-. rewrite Hc in H. simpl in H.
  destruct H as [(pc & Hpc & Hrow) (log & Hlo) _ _]. rewrite Hlo, Hrow. split_and!.
  - eexists. by rewrite lookup_alter_eq, Ho2.
  - rewrite lookup_alter_ne by done. apply H3.
  - exists pc. by rewrite lookup_insert_eq.
Qed.
(** What a new fulfilment adds. *)
Definition new_fulfillment (d : DB) (now : Z) (payload : FulfillLockOrderPayload) (oid : string) : LockOrderFulfillment :=
  mkLOF (db_next_id d) (fp_tx_id payload) (fp_psp payload) VPending "" now oid.

Definition with_fulfillment (f : LockOrderFulfillment) (d : DB) : DB :=
  set_next_id (db_next_id d + 1) (set_fulfillments (db_fulfillments d ++ [f]) d).

(** A fulfilment that is not known yet is created and loaded without the edges of
    its order. *)
Lemma query_new_fulfillment oid payload o (Q : outcome (ApiResponse unit + FulfillmentRef) -> World -> Prop) w :
  w_faults w = [] -> List.filter (fun f => String.eqb (lf_tx_id f) (fp_tx_id payload)) (db_fulfillments (w_db w)) = [] ->
  db_lock_orders (w_db w) !! oid = Some o ->
  let f := new_fulfillment (w_db w) (w_now w) payload oid in
  Q (Ret (inr (mkFR f (Some o) None None))) (set_db (with_fulfillment f (w_db w)) w) ->
  wp (query_or_create_fulfillment oid payload) Q w.
Proof.
  intros E Hnone Ho f HQ. unfold query_or_create_fulfillment, load_fulfillment, create_fulfillment.
  repeat run_ok. rewrite Hnone. cbn [only]. run_ok. cbn [IsNotFound]. run_to_modify. run_ok. rewrite Ho. cbn [missing].
  repeat run_ok. cbn [db_fulfillments set_next_id set_fulfillments].
  rewrite List.filter_app, Hnone. cbn [List.filter app lf_tx_id]. rewrite String.eqb_refl. cbn [only].
  repeat run_ok. cbn [lf_order db_lock_orders set_next_id set_fulfillments]. rewrite Ho. exact HQ.
Qed.

Lemma fulfillment_added f d : existsb (fun x => (lf_id x =? lf_id f)%Z) (db_fulfillments (with_fulfillment f d)) = true.
Proof. apply existsb_exists. exists f. split; [apply in_or_app; right; by left|apply Z.eqb_refl]. Qed.

(** A report with a transaction id that is not known yet panics when its
    status is success or failed, even when nothing fails: the fulfilment that was
    just created is loaded without the provider and the bucket of its order,
    which the release of the reservation dereferences.  The fulfilment stays in
    the database and no balance is released.  On success the order is unchanged
    and the transaction stays open; on failure an order in progress has become
    fulfilled already. *)
Theorem fulfill_new_panics payload provider id oid o st w :
  parse_uuid id = Some oid -> fp_validation_status payload = Some st -> st <> VPending ->
  w_faults w = [] -> w_txs w !! w_next_tx w = None ->
  List.filter (fun f => String.eqb (lf_tx_id f) (fp_tx_id payload)) (db_fulfillments (w_db w)) = [] ->
  db_lock_orders (w_db w) !! oid = Some o -> in_progress o = true ->
  wp (FulfillOrder (Some payload) (Some provider) id) (fun out w' => out = Panic /\
    db_provider_currencies (w_db w') = db_provider_currencies (w_db w) /\
    (exists f, f ∈ db_fulfillments (w_db w') /\ lf_tx_id f = fp_tx_id payload /\ lf_order f = oid) /\
    match st with
    | VSuccess => db_lock_orders (w_db w') = db_lock_orders (w_db w) /\ is_Some (w_txs w' !! w_next_tx w)
    | _ => exists o', db_lock_orders (w_db w') !! oid = Some o' /\ lo_status o' = LFulfilled
    end) w.
Proof.
  intros Hid Hst Hnp E Hfresh Hnone Ho Hprog. unfold FulfillOrder. rewrite Hid, Hst. wp_step.
  eapply query_new_fulfillment; [done|done|exact Ho|].
  destruct st; [done| |].
  - unfold fulfill_success, update_fulfillment, create_log, insert_log, update_lock_if, fulfillment_balance.
    run_ok. run_ok. cbn [fr_order fr_row fr_provider fr_currency].
    rewrite bool_decide_eq_false_2 by (intros Hv; unfold in_progress in Hprog; rewrite Hv in Hprog; done).
    run_to_modify. run_ok. rewrite fulfillment_added.
    repeat run_ok. cbn [fr_order fr_row fr_provider fr_currency]. repeat run_ok.
    cbn [fr_order fr_row fr_provider fr_currency]. repeat run_ok. split_and!; [done|done| |done|].
    + eexists. split; [apply elem_of_app; right; by left|done].
    + rewrite lookup_insert_eq. by eexists.
  - unfold fulfill_failed, update_fulfillment, update_lock_if, fulfillment_balance.
    run_to_modify. cbn [fr_order fr_row fr_provider fr_currency]. run_ok. rewrite fulfillment_added.
    repeat run_ok. cbn [fr_order fr_row fr_provider fr_currency]. repeat run_ok.
    cbn [fr_order fr_row fr_provider fr_currency]. repeat run_ok. split_and!; [done|done| |].
    + exists (lf_validate (w_now w) VFailed (Some (fp_validation_error payload))
                (new_fulfillment (w_db w) (w_now w) payload oid)). split; [|done]. simpl.
      apply list_elem_of_fmap. exists (new_fulfillment (w_db w) (w_now w) payload oid). simpl. rewrite Z.eqb_refl.
      split; [done|]. apply elem_of_app. right. by left.
    + simpl. rewrite lookup_alter_eq, Ho. simpl. rewrite Hprog. by eexists.
Qed.


(** ** The provider leaves its queue *)

Lemma list_index_last (l : list string) k :
  list_index l (- Z.of_nat (S k)) = if decide (k < length l)%nat then Some (length l - S k)%nat else None.
Proof.
  unfold list_index. assert ((- Z.of_nat (S k) <? 0)%Z = true) as -> by (apply Z.ltb_lt; lia).
  case_decide.
  - assert ((0 <=? Z.of_nat (length l) + - Z.of_nat (S k))%Z = true) as -> by (apply Z.leb_le; lia).
    assert ((Z.of_nat (length l) + - Z.of_nat (S k) <? Z.of_nat (length l))%Z = true) as -> by (apply Z.ltb_lt; lia).
    cbn [andb]. f_equal. lia.
  - assert ((0 <=? Z.of_nat (length l) + - Z.of_nat (S k))%Z = false) as -> by (apply Z.leb_gt; lia). done.
Qed.

(** Only the list [key] of Redis may have changed. *)
Definition only_list (key : string) (w w' : World) : Prop :=
  w_db w' = w_db w /\ w_txs w' = w_txs w /\ w_events w' = w_events w /\ w_now w' = w_now w /\
  forall k, k <> key -> get_list k (w_redis w') = get_list k (w_redis w).
Lemma only_list_refl key w fs : only_list key w (set_faults fs w).
Proof. done. Qed.
Lemma only_list_trans key w1 w2 w3 : only_list key w1 w2 -> only_list key w2 w3 -> only_list key w1 w3.
Proof. intros (?&?&?&?&Ha) (?&?&?&?&Hb). split_and!; try congruence. intros k Hk. by rewrite Hb, Ha. Qed.
Lemma only_list_put key l fs w : only_list key w (set_redis (put_list key l (w_redis w)) (set_faults fs w)).
Proof. split_and!; try done. intros k Hk. simpl. by rewrite get_put_list, decide_False. Qed.

Lemma LIndex_last key k (Q : outcome string -> World -> Prop) w :
  (forall fs, match reverse (get_list key (w_redis w)) !! k with
              | Some s => Q (Ret s) (set_faults fs w) | None => Q (Err ERedisNil) (set_faults fs w) end) ->
  (forall fs, Q (Err EFault) (set_faults fs w)) -> wp (LIndex key (- Z.of_nat (S k))) Q w.
Proof.
  intros Hok Hbad. unfold LIndex. wp_step. apply wp_get_redis; [|exact Hbad]. intros fs.
  rewrite list_index_last. specialize (Hok fs). case_decide as Hk; simpl.
  - rewrite reverse_lookup in Hok by done. destruct (_ !! _); by wp_step.
  - rewrite lookup_ge_None_2 in Hok by (rewrite length_reverse; lia). by wp_step.
Qed.

Lemma LSet_wp key i v (Q : outcome unit -> World -> Prop) w :
  (forall fs, match list_index (get_list key (w_redis w)) i with
              | Some j => Q (Ret tt) (set_redis (put_list key (<[j := v]> (get_list key (w_redis w))) (w_redis w))
                                        (set_faults fs w))
              | None => Q (Err (EMsg "index out of range")) (set_faults fs w) end) ->
  (forall fs, Q (Err EFault) (set_faults fs w)) -> wp (LSet key i v) Q w.
Proof.
  intros Hok Hbad. unfold LSet. wp_step. apply wp_get_redis; [|exact Hbad]. intros fs. unfold wp.
  specialize (Hok fs). simpl. by destruct (list_index _ _).
Qed.

Lemma logged_post m (R : World -> Prop) w :
  wp m (fun o w' => o <> Panic /\ R w') w -> wp (logged m) (fun o w' => o = Ret tt /\ R w') w.
Proof.
  intros H. unfold logged. wp_step. eapply wp_mono; [exact H|]. intros [u|e|] w' [Hp HR]; [by wp_step|by wp_step|done].
Qed.

(** Whatever fails, the walk ends and changes no other list. *)
Lemma drop_from_queue_frame fuel key p : forall k w,
  (length (get_list key (w_redis w)) < fuel + k)%nat -> (0 < fuel)%nat ->
  wp (drop_from_queue fuel key p (- Z.of_nat (S k))) (fun out w' => out = Ret tt /\ only_list key w w') w.
Proof.
  induction fuel as [|fuel IH]; intros k w Hf H0; [lia|]. cbn [drop_from_queue]. wp_step. apply LIndex_last.
  2:{ intros fs. wp_step. by split. }
  intros fs. destruct (reverse _ !! k) as [data|] eqn:E; [|wp_step; by split].
  assert (Hk : (k < length (get_list key (w_redis w)))%nat) by (apply lookup_lt_Some in E; by rewrite length_reverse in E).
  assert (Hnext : wp (drop_from_queue fuel key p (- Z.of_nat (S k) - 1)) (fun out w' => out = Ret tt /\ only_list key w w')
    (set_faults fs w)).
  { replace (- Z.of_nat (S k) - 1)%Z with (- Z.of_nat (S (S k)))%Z by lia.
    eapply wp_mono; [apply IH; simpl; lia|]. intros out w' [-> H]. split; [done|]. exact H. }
  destruct (negb _); [exact Hnext|]. destruct (String.eqb _ p); [|exact Hnext]. clear Hnext.
  wp_step. eapply wp_mono; [apply (logged_post _ (only_list key w))|].
  { apply LSet_wp; [|by intros fs']. intros fs'. case_match; (split; [done|]); [|done].
    exact (only_list_put _ _ fs' (set_faults fs w)). }
  intros o w1 [-> H1]. apply logged_post. unfold LRem. apply wp_put_redis; intros fs'; (split; [done|]).
  - eapply only_list_trans; [exact H1|apply only_list_put].
  - eapply only_list_trans; [exact H1|apply only_list_refl].
Qed.

(** An entry of a queue that belongs to [p]. *)
Definition entry_of (p data : string) : bool :=
  (length (split_on ":" data) =? 5)%nat && String.eqb (default "" (head (split_on ":" data))) p.

(** The first element that satisfies [f] removed. *)
Fixpoint drop_first {A} (f : A -> bool) (l : list A) : list A :=
  match l with
  | [] => []
  | x :: r => if f x then r else x :: drop_first f r
  end.

Lemma filter_keep (l : list string) : placeholder ∉ l ->
  List.filter (fun s => negb (String.eqb s placeholder)) l = l.
Proof.
  induction l as [|x l IH]; [done|]. intros [Hx Hl]%not_elem_of_cons. cbn [List.filter].
  rewrite (proj2 (String.eqb_neq x placeholder)) by done. cbn [negb]. by rewrite IH.
Qed.

Lemma LIndex_last_ok key k w :
  w_faults w = [] -> LIndex key (- Z.of_nat (S k)) w =
    (match reverse (get_list key (w_redis w)) !! k with Some s => Ret s | None => Err ERedisNil end, w).
Proof.
  intros E. unfold LIndex, get_redis, ext, bindM. rewrite E. simpl. rewrite list_index_last.
  case_decide as Hk; simpl.
  - rewrite reverse_lookup by done. by destruct (_ !! _).
  - by rewrite lookup_ge_None_2 by (rewrite length_reverse; lia).
Qed.

(** The entry at the position is replaced and removed. *)
Lemma remove_at key x suf pre w :
  w_faults w = [] -> placeholder ∉ get_list key (w_redis w) ->
  reverse (get_list key (w_redis w)) = pre ++ x :: suf ->
  wp (do! logged (LSet key (- Z.of_nat (S (length pre))) placeholder) in logged (LRem key placeholder))
    (fun _ w' => get_list key (w_redis w') = reverse (pre ++ suf)) w.
Proof.
  intros E Hph Hl.
  assert (Hl' : get_list key (w_redis w) = reverse suf ++ x :: reverse pre).
  { rewrite <- (reverse_involutive (get_list key (w_redis w))), Hl, reverse_app, reverse_cons. by rewrite <- app_assoc. }
  assert (Hs : LSet key (- Z.of_nat (S (length pre))) placeholder w =
    (Ret tt, set_redis (put_list key (reverse suf ++ placeholder :: reverse pre) (w_redis w)) w)).
  { unfold LSet, get_redis, ext, bindM. rewrite E. simpl. rewrite list_index_last, Hl', length_app, length_reverse.
    simpl. rewrite length_reverse. rewrite decide_True by lia.
    replace (length suf + S (length pre) - S (length pre))%nat with (length (reverse suf) + 0)%nat
      by (rewrite length_reverse; lia).
    by rewrite insert_app_r. }
  wp_step. unfold logged. wp_step. unfold wp at 1. rewrite Hs. simpl. do 2 wp_step. unfold LRem.
  apply wp_put_redis_ok; [done|]. wp_step. simpl. rewrite !get_put_list, !decide_True by done.
  rewrite Hl' in Hph. apply not_elem_of_app in Hph as [H1 [_ H2]%not_elem_of_cons].
  rewrite List.filter_app. cbn [List.filter]. rewrite (String.eqb_refl placeholder). cbn [negb].
  by rewrite !filter_keep, reverse_app.
Qed.

Lemma drop_from_queue_run p key fuel w : forall suf pre,
  w_faults w = [] -> placeholder ∉ get_list key (w_redis w) ->
  reverse (get_list key (w_redis w)) = pre ++ suf -> (length suf < fuel)%nat ->
  wp (drop_from_queue fuel key p (- Z.of_nat (S (length pre)))) (fun _ w' =>
    get_list key (w_redis w') = reverse (pre ++ drop_first (entry_of p) suf)) w.
Proof.
  induction fuel as [|fuel IH]; intros suf pre E Hph Hl Hf; [lia|]. cbn [drop_from_queue]. wp_step.
  unfold wp at 1. rewrite LIndex_last_ok, Hl, lookup_app_r, Nat.sub_diag by done.
  destruct suf as [|x suf]; cbn [lookup list_lookup fst snd].
  { wp_step. rewrite app_nil_r in *. by rewrite <- Hl, reverse_involutive. }
  cbn [drop_first]. unfold entry_of at 1.
  assert (Hnext : wp (drop_from_queue fuel key p (- Z.of_nat (S (length pre)) - 1)) (fun _ w' =>
    get_list key (w_redis w') = reverse (pre ++ x :: drop_first (entry_of p) suf)) w).
  { replace (- Z.of_nat (S (length pre)) - 1)%Z with (- Z.of_nat (S (length (pre ++ [x]))))%Z
      by (rewrite length_app; simpl; lia).
    eapply wp_mono; [apply (IH suf (pre ++ [x])); [done|done|by rewrite <- app_assoc|simpl in Hf; lia]|].
    intros out w' H. by rewrite <- app_assoc in H. }
  destruct (length (split_on ":" x) =? 5)%nat; cbn [negb andb]; [|exact Hnext].
  destruct (String.eqb _ p); [|exact Hnext]. by eapply remove_at.
Qed.

(** Taking a provider out of its queue is equivalent to removing its last
    entry from the list: when nothing fails, the walk with any bound larger than
    the queue ends normally, leaves the list with the last entry of the provider
    removed and everything else in place, and changes no other list, no row and
    no transaction. *)
Theorem drop_from_queue_removes fuel key p w :
  w_faults w = [] -> placeholder ∉ get_list key (w_redis w) ->
  (length (get_list key (w_redis w)) < fuel)%nat ->
  wp (drop_from_queue fuel key p (-1)) (fun out w' => out = Ret tt /\ only_list key w w' /\
    get_list key (w_redis w') = reverse (drop_first (entry_of p) (reverse (get_list key (w_redis w))))) w.
Proof.
  intros E Hph Hf. unfold wp.
  pose proof (drop_from_queue_frame fuel key p 0 w ltac:(lia) ltac:(lia)) as [H1 H2].
  pose proof (drop_from_queue_run p key fuel w (reverse (get_list key (w_redis w))) [] E Hph eq_refl
    ltac:(by rewrite length_reverse)) as H3.
  split_and!; [exact H1|apply H2..|exact H3].
Qed.

(** ** Cancellation *)

(** A release with its own transaction, on any row. *)
Lemma release_frame p c amount w :
  wp (ReleaseReservedBalance p c amount None) (fun o w' => o <> Panic /\ w_redis w' = w_redis w /\
    w_events w' = w_events w /\ w_now w' = w_now w) w.
Proof.
  unfold ReleaseReservedBalance, ValidateAndFixBalances, validateBalanceConsistencyInternal,
    fixBalanceInconsistenciesInternal. repeat (bal_step; cbn [negb]); done.
Qed.

(** The balances after a release that may have failed: all as before, or the one
    row released. *)
Definition maybe_released (p c : string) (amount : dec) (now : Z) (d d' : DB) : Prop :=
  d' = d \/ exists pc, db_provider_currencies d !! (p, c) = Some pc /\ b_consistent pc /\
    d' = put_pc (p, c) (released_row amount now pc) d.

Lemma release_any p c amount w :
  wp (ReleaseReservedBalance p c amount None) (fun o w' => maybe_released p c amount (w_now w) (w_db w) (w_db w')) w.
Proof.
  destruct (db_provider_currencies (w_db w) !! (p, c)) as [pc|] eqn:E.
  - destruct (validate_balances pc) as [e|] eqn:Hv.
    + assert (Hc : ~ b_consistent pc) by (rewrite <- validate_balances_spec; congruence).
      unfold ReleaseReservedBalance. do 2 wp_step.
      eapply wp_mono; [by eapply ValidateAndFixBalances_inconsistent|]. intros o w1 [[e' ->] H1]. by left.
    + apply validate_balances_spec in Hv. eapply wp_mono; [by eapply ReleaseReservedBalance_own_wp|].
      intros [u|e|] w1 H; [destruct H as [_ H]; right; by exists pc|by left|done].
  - unfold ReleaseReservedBalance, ValidateAndFixBalances. repeat bal_step; by left.
Qed.

Lemma logged_release p c amount w :
  wp (ReleaseReservedBalance p c amount None) (fun o w' => o <> Panic /\
    maybe_released p c amount (w_now w) (w_db w) (w_db w') /\ w_redis w' = w_redis w /\
    w_events w' = w_events w /\ w_now w' = w_now w) w.
Proof.
  pose proof (release_frame p c amount w) as (H1 & H2 & H3 & H4).
  pose proof (release_any p c amount w) as H5. unfold wp in *. split_and!; assumption.
Qed.

(** The database with the order cancelled. *)
Definition cancelled_db (conf : Config) (provider : ProviderProfile) (reason oid : string) (o : LockPaymentOrder)
    (w : World) : DB :=
  let '(count, reasons) := cancellation_update conf provider reason (lo_cancellation_count o) in
  put_lock_order (lo_apply (w_now w) (mkLPOU (Some LCancelled) None (Some count) reasons []) o) oid (w_db w).

(** What a cancellation leaves behind. *)
Record cancelled_by (conf : Config) (provider : ProviderProfile) (reason oid : string) (o : LockPaymentOrder)
    (c : string) (w w' : World) : Prop := {
  cb_db : maybe_released (pp_id provider) c (fiat_amount (lo_amount o) (lo_rate o)) (w_now w)
    (cancelled_db conf provider reason oid o w) (w_db w');
  cb_refund : w_events w' = w_events w ++
    if (cf_refund_cancellation_count conf <=?
        (cancellation_update conf provider reason (lo_cancellation_count o)).1)%Z
    then [EvRefund (nw_identifier (tk_network (lo_token o))) (lo_gateway_id o)] else []
}.

(** Cancelling an order of the caller. *)
Lemma cancel_own_wp conf qfuel reason provider id oid o b fc w :
  parse_uuid id = Some oid -> db_lock_orders (w_db w) !! oid = Some o -> lo_provider o = Some (pp_id provider) ->
  lo_provision_bucket o = Some b -> db_currencies (w_db w) !! pb_currency b = Some fc ->
  (length (get_list (bucket_key (fc_code fc) (pb_min_amount b) (pb_max_amount b)) (w_redis w)) < qfuel)%nat ->
  wp (CancelOrder conf qfuel (Some reason) (Some provider) id) (fun out w' => exists r, out = Ret r /\
    if (ar_code r =? 200)%Z then
      cancelled_by conf provider reason oid o (fc_code fc) w w' /\
      get_list (order_exclude_key oid) (w_redis w') = get_list (order_exclude_key oid) (w_redis w) ++ [pp_id provider]
    else (w_db w' = w_db w /\ w_events w' = w_events w) \/
         cancelled_by conf provider reason oid o (fc_code fc) w w') w.
Proof.
  intros Hid Ho Hp Hb Hfc Hq. unfold CancelOrder, order_of_provider. rewrite Hid. do 2 wp_step.
  eapply wp_read_db; [reflexivity|intros fs|intros fs; unfold api_error; wp_step; eexists; split; [done|by left]].
  rewrite Ho, Hp. rewrite bool_decide_eq_true_2 by done. wp_step. rewrite Hb. simpl. rewrite Hfc.
  destruct (cancellation_update conf provider reason (lo_cancellation_count o)) as [count reasons] eqn:Hcu.
  set (key := bucket_key (fc_code fc) (pb_min_amount b) (pb_max_amount b)) in *.
  wp_step. eapply (wp_mono _ (fun out w' => out = Ret tt /\ only_list key w w')).
  { destruct (leaves_queue provider reason); cbn [ifM]; [|wp_step; by split]. repeat wp_step.
    eapply wp_mono; [apply (drop_from_queue_frame qfuel key (pp_id provider) 0); simpl; lia|]. done. }
  intros out w1 (-> & Hd1 & Ht1 & He1 & Hn1 & Hl1).
  wp_step. unfold update_lock_one. do 2 wp_step. apply wp_modify_direct.
  2:{ intros fs1. unfold api_error. wp_step. eexists. split; [done|by left]. }
  intros fs1. rewrite Hd1, Ho. cbn [provider_fk_ok up_provider]. rewrite Hn1.
  do 3 wp_step. eapply wp_mono; [apply logged_post, logged_release|]. cbn [w_db w_redis w_events w_now set_db set_faults].
  intros out w2 (-> & Hm & Hr2 & He2 & Hn2). rewrite Hn1 in Hm. wp_step.
  eapply (wp_mono _ (fun out w' => out = Ret tt /\ w_redis w' = w_redis w1 /\
    cancelled_by conf provider reason oid o (fc_code fc) w w')).
  { assert (Hev : forall w', w_db w' = w_db w2 -> w_events w' = w_events w2 ++
      (if (cf_refund_cancellation_count conf <=? count)%Z
       then [EvRefund (nw_identifier (tk_network (lo_token o))) (lo_gateway_id o)] else []) ->
      cancelled_by conf provider reason oid o (fc_code fc) w w').
    { intros w' Hdb Hev. unfold cancelled_db. split; unfold cancelled_db; rewrite Hcu; [by rewrite Hdb|]. simpl. by rewrite Hev, He2, He1. }
    wp_step; wp_step; (split; [done|]); (split; [done|]); apply Hev; rewrite ?app_nil_r; done. }
  intros out w3 (-> & Hr3 & Hc). wp_step. unfold RPush, api_success, api_error.
  apply wp_put_redis; intros fs2; wp_step; eexists; (split; [done|]); cbn [ar_code]; simpl.
  - split; [by destruct Hc|]. rewrite get_put_list, decide_True by done. by rewrite Hr3, Hl1.
  - right. by destruct Hc.
Qed.

(** The walk over the queue makes no call fail. *)
Lemma drop_from_queue_clear p key fuel : forall k w, w_faults w = [] ->
  wp (drop_from_queue fuel key p (- Z.of_nat (S k))) (fun _ w' => w_faults w' = []) w.
Proof.
  induction fuel as [|fuel IH]; intros k w E; [done|]. cbn [drop_from_queue]. wp_step.
  unfold wp at 1. rewrite LIndex_last_ok by done. destruct (reverse _ !! k); cbn [fst snd]; [|by wp_step].
  assert (Hnext : wp (drop_from_queue fuel key p (- Z.of_nat (S k) - 1)) (fun _ w' => w_faults w' = []) w).
  { replace (- Z.of_nat (S k) - 1)%Z with (- Z.of_nat (S (S k)))%Z by lia. by apply IH. }
  destruct (negb _); [exact Hnext|]. destruct (String.eqb _ p); [|exact Hnext]. unfold logged, LSet, LRem.
  wp_step. wp_step. wp_step. apply wp_get_redis_ok; [done|]. unfold wp at 1.
  destruct (list_index _ _); cbn [fst snd]; do 2 wp_step; (apply wp_put_redis_ok; [done|]); by wp_step.
Qed.

(** A release of at most what is reserved does its work when nothing fails. *)
Lemma release_clear p c amount pc w :
  w_faults w = [] -> db_provider_currencies (w_db w) !! (p, c) = Some pc -> b_consistent pc ->
  (d_val amount <= d_val (pc_reserved_balance pc))%Q ->
  wp (ReleaseReservedBalance p c amount None) (fun out w' => out = Ret tt /\ w_faults w' = [] /\
    w_db w' = put_pc (p, c) (released_row amount (w_now w) pc) (w_db w)) w.
Proof.
  intros E Hpc Hc Hle. pose proof (ReleaseReservedBalance_own_wp p c amount pc w Hpc Hc) as Hown.
  assert (H : wp (ReleaseReservedBalance p c amount None) (fun out w' => out = Ret tt /\ w_faults w' = []) w).
  { unfold ReleaseReservedBalance. do 2 wp_step. eapply wp_mono; [by eapply ValidateAndFixBalances_ok|].
    intros o w1 (-> & Hdb & _ & E1). rewrite <- Hdb in Hpc.
    assert (Hlt : d_lt (pc_reserved_balance pc) amount = false) by (dec_to_q; lra).
    repeat (bal_step_ok; try (rewrite Hlt; cbn [andb])). done. }
  unfold wp in *. destruct H as [H1 H2]. rewrite H1 in Hown. destruct Hown as [_ Hown]. by split_and!.
Qed.

(** An order of another provider, or of none, is not found. *)
Lemma cancel_other_wp conf qfuel reason provider id oid o w :
  parse_uuid id = Some oid -> db_lock_orders (w_db w) !! oid = Some o -> lo_provider o <> Some (pp_id provider) ->
  wp (CancelOrder conf qfuel (Some reason) (Some provider) id) (fun out w' => exists r, out = Ret r /\
    ar_code r = 404 /\ reads_only w w') w.
Proof.
  intros Hid Ho Hp. unfold CancelOrder, order_of_provider, api_error. rewrite Hid. do 2 wp_step.
  eapply wp_read_db; [reflexivity|intros fs|intros fs; wp_step; by eexists].
  rewrite Ho, bool_decide_eq_false_2 by done. repeat wp_step. by eexists.
Qed.

(** The order is the caller's and nothing fails: the order is cancelled and its
    amount released. *)
Lemma cancel_clear_wp conf qfuel reason provider id oid o b fc pc w :
  parse_uuid id = Some oid -> db_lock_orders (w_db w) !! oid = Some o -> lo_provider o = Some (pp_id provider) ->
  lo_provision_bucket o = Some b -> db_currencies (w_db w) !! pb_currency b = Some fc ->
  (length (get_list (bucket_key (fc_code fc) (pb_min_amount b) (pb_max_amount b)) (w_redis w)) < qfuel)%nat ->
  w_faults w = [] -> db_provider_currencies (w_db w) !! (pp_id provider, fc_code fc) = Some pc -> b_consistent pc ->
  (d_val (fiat_amount (lo_amount o) (lo_rate o)) <= d_val (pc_reserved_balance pc))%Q ->
  wp (CancelOrder conf qfuel (Some reason) (Some provider) id) (fun out w' => exists r, out = Ret r /\
    ar_code r = 200 /\
    w_db w' = put_pc (pp_id provider, fc_code fc) (released_row (fiat_amount (lo_amount o) (lo_rate o)) (w_now w) pc)
      (cancelled_db conf provider reason oid o w)) w.
Proof.
  intros Hid Ho Hp Hb Hfc Hq E Hpc Hc Hle. unfold CancelOrder, order_of_provider, cancelled_db. rewrite Hid.
  repeat run_ok. rewrite Ho, Hp, bool_decide_eq_true_2 by done. run_ok. rewrite Hb. simpl. rewrite Hfc.
  destruct (cancellation_update conf provider reason (lo_cancellation_count o)) as [count reasons].
  set (key := bucket_key (fc_code fc) (pb_min_amount b) (pb_max_amount b)) in *.
  wp_step. eapply (wp_mono _ (fun out w' => out = Ret tt /\ only_list key w w' /\ w_faults w' = [])).
  { destruct (leaves_queue provider reason); cbn [ifM]; [|by wp_step]. repeat wp_step.
    pose proof (drop_from_queue_frame qfuel key (pp_id provider) 0 w ltac:(simpl; lia) ltac:(lia)) as [H1 H2].
    pose proof (drop_from_queue_clear (pp_id provider) key qfuel 0 w E) as H3. unfold wp. by split_and!. }
  intros out w1 (-> & (Hd1 & _ & _ & Hn1 & _) & E1). wp_step. unfold update_lock_one. do 2 wp_step.
  apply wp_modify_direct_ok; [done|]. rewrite Hd1, Ho. cbn [provider_fk_ok up_provider]. rewrite Hn1.
  do 3 wp_step. unfold logged. wp_step.
  eapply wp_mono; [apply release_clear; [done|exact Hpc|done|done]|]. cbn [w_db w_now set_db].
  intros out w2 (-> & E2 & Hd2). do 2 wp_step.
  eapply (wp_mono _ (fun out w' => out = Ret tt /\ w_faults w' = [] /\ w_db w' = w_db w2)).
  { wp_step; by wp_step. }
  intros out w3 (-> & E3 & Hd3). wp_step. unfold RPush, api_success. apply wp_put_redis_ok; [done|].
  wp_step. eexists. split; [done|]. split; [done|]. simpl. by rewrite Hd3, Hd2, Hn1.
Qed.

(** C9: cancelling an order, whatever fails.  The endpoint never panics when the
    order has a bucket with a currency.  An order that is not assigned to the caller
    is answered 404 and nothing at all changes.  For an order of the caller a 200
    means that the order is cancelled with the count and the reasons that the reason
    asks for, that nothing but its fiat amount can have been released on the
    caller's balance, that a refund was started exactly when the count reached the
    limit, and that the caller is excluded from the order; any other answer has left
    the rows and the outside world alone or has cancelled the order in the same way.
    When nothing fails and the caller's balance has the amount reserved, the answer
    is 200 and exactly the fiat amount has been released. *)
Theorem cancel_order_correct conf qfuel reason provider id oid o b fc w :
  parse_uuid id = Some oid -> db_lock_orders (w_db w) !! oid = Some o ->
  lo_provision_bucket o = Some b -> db_currencies (w_db w) !! pb_currency b = Some fc ->
  (length (get_list (bucket_key (fc_code fc) (pb_min_amount b) (pb_max_amount b)) (w_redis w)) < qfuel)%nat ->
  wp (CancelOrder conf qfuel (Some reason) (Some provider) id) (fun out w' => exists r, out = Ret r /\
    if bool_decide (lo_provider o = Some (pp_id provider)) then
      (if (ar_code r =? 200)%Z then
         cancelled_by conf provider reason oid o (fc_code fc) w w' /\
         get_list (order_exclude_key oid) (w_redis w') = get_list (order_exclude_key oid) (w_redis w) ++ [pp_id provider]
       else (w_db w' = w_db w /\ w_events w' = w_events w) \/
            cancelled_by conf provider reason oid o (fc_code fc) w w') /\
      (forall pc, w_faults w = [] ->
         db_provider_currencies (w_db w) !! (pp_id provider, fc_code fc) = Some pc -> b_consistent pc ->
         (d_val (fiat_amount (lo_amount o) (lo_rate o)) <= d_val (pc_reserved_balance pc))%Q ->
         ar_code r = 200 /\
         w_db w' = put_pc (pp_id provider, fc_code fc)
           (released_row (fiat_amount (lo_amount o) (lo_rate o)) (w_now w) pc)
           (cancelled_db conf provider reason oid o w))
    else ar_code r = 404 /\ reads_only w w') w.
Proof.
  intros Hid Ho Hb Hfc Hq. case_bool_decide as Hp; [|by eapply cancel_other_wp].
  destruct (cancel_own_wp conf qfuel reason provider id oid o b fc w Hid Ho Hp Hb Hfc Hq) as (r & Hr & H).
  exists r. split; [exact Hr|]. split; [exact H|]. intros pc E Hpc Hc Hle.
  destruct (cancel_clear_wp conf qfuel reason provider id oid o b fc pc w Hid Ho Hp Hb Hfc Hq E Hpc Hc Hle)
    as (r' & Hr' & H'). rewrite Hr' in Hr. by injection Hr as <-.
Qed.

(** The sender is not told that its order was validated: when nothing fails, the
    payment order is stored as validated, but the webhook is sent with the row
    that was read before, whose status is the old one. *)
Theorem validated_webhook_is_stale mh po w :
  w_faults w = [] ->
  List.filter (fun o => String.eqb (po_message_hash o) mh) (payment_rows (w_db w)) = [po] ->
  notify_validated mh w =
    logged (send_webhook po) (set_db (set_payment_orders
      (alter (po_set_status (w_now w) PValidated) (po_id po) (db_payment_orders (w_db w))) (w_db w)) w).
Proof.
  intros E H. unfold notify_validated, logged, read_db, write_db, ext, bindM, tryM, only, getM, retM, view.
  rewrite E. rewrite H. by rewrite E.
Qed.

(** ** Reading *)

(** The codes of the institutions of a currency of the provider. *)
Lemma provider_institutions_ok {A} p currency (Q : outcome (ApiResponse A + list string) -> World -> Prop) w :
  w_faults w = [] -> currency <> "" -> is_Some (db_provider_currencies (w_db w) !! (p, currency)) ->
  Q (Ret (inr (institution_codes (w_db w) currency))) w -> wp (provider_institutions p currency) Q w.
Proof.
  intros E Hc [pc Hpc] HQ. unfold provider_institutions. rewrite (proj2 (String.eqb_neq _ _) Hc).
  repeat run_ok. rewrite Hpc. by repeat run_ok.
Qed.

Lemma contradictory_filter q cur (l : list LockPaymentOrder) :
  List.filter (also_where (also_where q (base_is "USD"))
    (fun o => base_is cur o && negb (base_is "USD" o))) l = [].
Proof.
  apply filter_all_false, Forall_forall. intros o _. unfold also_where.
  destruct (base_is "USD" o); [by rewrite !andb_false_r|by rewrite andb_false_r].
Qed.

(** The statistics of a provider count no local stablecoins: when nothing
    fails the endpoint answers with the number of orders and the fiat volume of
    the settled ones, but the crypto volume is that of the settled orders in
    USD tokens alone (the second query is the first one with one more condition,
    so it never has a row); a provider that only settled local stablecoins gets
    zero. *)
Theorem stats_ignores_local_stablecoins provider currency w :
  w_faults w = [] -> currency <> "" -> is_Some (db_provider_currencies (w_db w) !! (pp_id provider, currency)) ->
  let codes := institution_codes (w_db w) currency in
  let settled := listed_order (pp_id provider) codes (Some LSettled) in
  wp (Stats (Some provider) currency) (fun out w' => w' = w /\ exists r s, out = Ret r /\ ar_code r = 200 /\
    ar_data r = Some s /\
    ps_total_orders s = Z.of_nat (length (List.filter (listed_order (pp_id provider) codes None) (lock_rows (w_db w)))) /\
    ps_total_fiat s = fiat_volume (List.filter settled (lock_rows (w_db w))) /\
    (d_val (ps_total_crypto s) ==
      d_val (sum_amounts (List.filter (also_where settled (base_is "USD")) (lock_rows (w_db w)))))%Q /\
    ((forall o, o ∈ lock_rows (w_db w) -> settled o = true -> base_is "USD" o = false) ->
     (d_val (ps_total_crypto s) == 0)%Q)) w.
Proof.
  intros E Hc Hpc codes settled. unfold Stats. wp_step. apply provider_institutions_ok; [done|done|done|].
  fold codes settled. repeat run_ok.
  - exfalso. rewrite contradictory_filter in Heqb. change (sum_amounts []) with d_zero in Heqb.
    dec_to_q. change (inject_Z 0) with 0%Q in *. lra.
  - unfold api_success. repeat run_ok. split; [done|]. do 2 eexists. split; [done|]. split; [done|]. split; [done|].
    split; [done|]. split; [done|]. cbn [ps_total_crypto].
    assert (Hv : (d_val (d_add (sum_amounts (List.filter (also_where settled (base_is "USD")) (lock_rows (w_db w))))
      (sum_amounts (List.filter (also_where (also_where settled (base_is "USD"))
         (fun o => base_is currency o && negb (base_is "USD" o))) (lock_rows (w_db w))))) ==
      d_val (sum_amounts (List.filter (also_where settled (base_is "USD")) (lock_rows (w_db w)))))%Q).
    { rewrite contradictory_filter. change (sum_amounts []) with d_zero. dec_to_q. lra. }
    split; [exact Hv|]. intros Hall. rewrite Hv.
    replace (List.filter (also_where settled (base_is "USD")) (lock_rows (w_db w))) with (@nil LockPaymentOrder).
    + change (sum_amounts []) with d_zero. by rewrite val_zero.
    + symmetry. apply filter_all_false, Forall_forall. intros o Ho. unfold also_where.
      destruct (settled o) eqn:Hs; [|done]. simpl. by apply Hall.
Qed.

(** The orders on a page of the answer. *)
Definition page_orders (k n : Z) (ordering : string) (provider : ProviderProfile) (currency status : string) (w : World)
    : list LockPaymentOrderResponse :=
  match (GetLockPaymentOrders (Some k) (Some n) ordering (Some provider) currency status w).1 with
  | Ret r => match ar_data r with Some l => pl_orders l | None => [] end
  | _ => []
  end.

Lemma page_orders_slice k n ordering provider currency status w :
  w_faults w = [] -> currency <> "" -> is_Some (db_provider_currencies (w_db w) !! (pp_id provider, currency)) ->
  1 <= k -> 1 <= n -> (k - 1) * n < 2 ^ 63 ->
  page_orders k n ordering provider currency status w =
    map (lock_response None) (slice ((k - 1) * n) n
      (ordered lo_created_at (String.eqb ordering "asc")
         (List.filter (listed_order (pp_id provider) (institution_codes (w_db w) currency) (status_filter status))
            (lock_rows (w_db w))))).
Proof.
  intros E Hc Hpc Hk Hn Hov. unfold page_orders. assert (H0 : 0 <= (k - 1) * n) by nia.
  assert (H : wp (GetLockPaymentOrders (Some k) (Some n) ordering (Some provider) currency status) (fun out _ =>
    exists m, out = Ret (mkResponse 200 "success" "Orders successfully retrieved"
      (Some (mkPLOL m k n (map (lock_response None) (slice ((k - 1) * n) n
        (ordered lo_created_at (String.eqb ordering "asc")
         (List.filter (listed_order (pp_id provider) (institution_codes (w_db w) currency) (status_filter status))
            (lock_rows (w_db w)))))))))) w).
  { unfold GetLockPaymentOrders, Paginate.
    rewrite (proj2 (Z.ltb_ge k 1) Hk), (proj2 (Z.ltb_ge n 1) Hn), wrap64_id by lia.
    wp_step. apply provider_institutions_ok; [done|done|done|]. repeat run_ok. unfold page_rows.
    rewrite (proj2 (Z.ltb_ge _ 0)) by lia. unfold api_success. repeat run_ok. by eexists. }
  unfold wp in H. destruct H as [m ->]. done.
Qed.

(** The pages of the order list partition it: when nothing fails, the orders of
    the first [K] pages one after the other are exactly the orders of the
    provider in the institutions of the currency and with the status, each once,
    by time of creation, for any page size and as soon as [K] pages are enough
    (and the product does not overflow a 64-bit integer). *)
Theorem order_pages_partition (K n : nat) ordering provider currency status w :
  w_faults w = [] -> currency <> "" -> is_Some (db_provider_currencies (w_db w) !! (pp_id provider, currency)) ->
  (1 <= n)%nat -> Z.of_nat (K * n) < 2 ^ 63 ->
  let listed := List.filter
    (listed_order (pp_id provider) (institution_codes (w_db w) currency) (status_filter status)) (lock_rows (w_db w)) in
  (length listed <= K * n)%nat ->
  exists sorted, sorted ≡ₚ listed /\
    StronglySorted (created_before lo_created_at (String.eqb ordering "asc")) sorted /\
    concat (map (fun i => page_orders (Z.of_nat (S i)) (Z.of_nat n) ordering provider currency status w) (seq 0 K)) =
    map (lock_response None) sorted.
Proof.
  intros E Hc Hpc Hn Hov listed Hlen.
  exists (ordered lo_created_at (String.eqb ordering "asc") listed). split_and!; [apply ordered_perm|apply ordered_sorted|].
  rewrite <- (slices_concat n (ordered _ _ listed) K) at 1 by (by rewrite ordered_perm).
  rewrite concat_map, map_map. f_equal. apply map_ext_in. intros i [_ Hi]%in_seq.
  rewrite page_orders_slice; [|done|done|done|lia|lia|]. 
  - unfold slice. f_equal. replace (Z.to_nat ((Z.of_nat (S i) - 1) * Z.of_nat n)) with (i * n)%nat by lia.
    by rewrite Nat2Z.id.
  - nia.
Qed.

(** The balance endpoint stores what it is told: when nothing fails and the
    three numbers parse, the row has exactly these balances and no other row
    changed, so the row is consistent only if the provider's numbers are: no
    check stands between the request and the table. *)
Theorem balance_endpoint_unchecked provider currency sa st sr a t r pc w :
  w_faults w = [] -> d_parse sa = Some a -> d_parse st = Some t -> d_parse sr = Some r ->
  db_provider_currencies (w_db w) !! (pp_id provider, currency) = Some pc ->
  wp (UpdateProviderBalanceEndpoint (Some provider) (Some (currency, sa, st, sr))) (fun out w' =>
    (exists res, out = Ret res /\ ar_code res = 200) /\
    exists pc', db_provider_currencies (w_db w') = <[(pp_id provider, currency) := pc']> (db_provider_currencies (w_db w)) /\
      pc_available_balance pc' = a /\ pc_total_balance pc' = t /\ pc_reserved_balance pc' = r /\
      (b_consistent pc' <->
        (0 <= d_val a)%Q /\ (0 <= d_val r)%Q /\ (0 <= d_val t)%Q /\ (d_val a + d_val r <= d_val t)%Q)) w.
Proof.
  intros E Ha Ht Hr Hpc. unfold UpdateProviderBalanceEndpoint, UpdateProviderBalance, query_pc, update_pc.
  rewrite Ha, Ht, Hr. repeat run_ok. rewrite Hpc. unfold api_success. repeat run_ok. split; [by eexists|].
  exists (set_balances a t r (w_now w) pc). split; [exact (f_equal db_provider_currencies (alter_is_put _ _ _ _ _ Hpc))|].
  split_and!; try done. split; [by intros []|by intros (?&?&?&?)].
Qed.
End provider_spec.

(** ** Witnesses on the seeded database *)

#[export] Instance sample_http : HttpServices := {| parse_uuid s := if String.eqb s "" then None else Some s |}.

Definition s_success : FulfillLockOrderPayload := mkFLOP "psp1" "tx1" (Some VSuccess) "".
Definition s_new_tx : FulfillLockOrderPayload := mkFLOP "psp1" "tx2" (Some VSuccess) "".
(** A balance on which the order [o1] (1900 in fiat) is reserved. *)
Definition s_reserved : World := s_world (s_pc 100 1900 5000) [].
Definition s_other_order : LockPaymentOrder := lo_apply 0 (set_status_only LProcessing) s_lock_order.
Definition s_two_orders : World :=
  set_db (set_lock_orders (<["o2" := s_other_order]> (db_lock_orders (w_db s_reserved))) (w_db s_reserved)) s_reserved.

Lemma s_found_two : fulfillment_found (w_db s_two_orders) "tx1" s_fulfillment s_lock_order s_prov s_currency.
Proof. split; [reflexivity|reflexivity|reflexivity|]. by exists s_bucket. Defined.


Lemma fulfill_validates_other_order_witness :
  exists o', db_lock_orders (w_db (FulfillOrder (Some s_success) (Some s_provider) "o2" s_two_orders).2) !! "o2" = Some o' /\
    lo_status o' = LValidated.
Proof.
  pose proof (fulfill_validates_other_order s_success s_provider "o2" "o2" s_fulfillment s_lock_order s_other_order
    s_prov s_currency s_two_orders (s_priced (s_pc 100 1900 2000)) eq_refl eq_refl s_found_two ltac:(discriminate) ltac:(discriminate) eq_refl) as H.
  assert (E : (FulfillOrder (Some s_success) (Some s_provider) "o2" s_two_orders).1 =
    Ret (mkResponse 200 "success" "Order fulfilled successfully" (Some tt))) by (vm_compute; reflexivity).
  unfold wp in H. exact (proj1 (H _ E eq_refl)).
Defined.

Lemma fulfill_new_panics_witness :
  (FulfillOrder (Some s_new_tx) (Some s_provider) "o1" s_reserved).1 = Panic.
Proof.
  refine (proj1 (fulfill_new_panics s_new_tx s_provider "o1" "o1" s_lock_order VSuccess s_reserved _ _ _ _ _ _ _ _));
    [reflexivity|reflexivity|discriminate|reflexivity|reflexivity|reflexivity|reflexivity|reflexivity].
Defined.

Definition s_queue_key : string := bucket_key s_cur (pb_min_amount s_bucket) (pb_max_amount s_bucket).
Definition s_queue_world : World :=
  set_redis (mkRedis {[ s_queue_key := ["p1:USDT:1:1:9"; s_prov +:+ ":USDT:950:1:1000"; "p2:USDT:1:1:9"] ]} ∅ ∅) s_reserved.

Lemma drop_from_queue_removes_witness :
  get_list s_queue_key (w_redis (drop_from_queue 9 s_queue_key s_prov (-1) s_queue_world).2) =
  ["p1:USDT:1:1:9"; "p2:USDT:1:1:9"].
Proof.
  pose proof (drop_from_queue_removes 9 s_queue_key s_prov s_queue_world eq_refl) as H.
  unfold wp in H. destruct H as (_ & _ & H); [apply (bool_decide_unpack _); vm_compute; exact I|vm_compute; lia|].
  rewrite H. vm_compute. reflexivity.
Defined.

Lemma cancel_order_correct_witness :
  w_db (CancelOrder s_order_conf 9 (Some "Insufficient funds") (Some s_provider) "o1" s_queue_world).2 =
  put_pc (s_prov, s_cur) (released_row (fiat_amount (lo_amount s_lock_order) (lo_rate s_lock_order))
    (w_now s_queue_world) (s_pc 100 1900 5000))
    (cancelled_db s_order_conf s_provider "Insufficient funds" "o1" s_lock_order s_queue_world).
Proof.
  pose proof (cancel_order_correct s_order_conf 9 "Insufficient funds" s_provider "o1" "o1" s_lock_order s_bucket s_currency
    s_queue_world eq_refl eq_refl eq_refl eq_refl) as H.
  unfold wp in H. destruct H as (r & Hr & H); [vm_compute; lia|]. rewrite bool_decide_eq_true_2 in H by reflexivity.
  refine (proj2 (proj2 H (s_pc 100 1900 5000) eq_refl eq_refl _ _)); [apply s_pc_consistent; lia|vm_compute; discriminate].
Defined.

Lemma validated_webhook_is_stale_witness :
  w_events (notify_validated "mh1" s_reserved).2 = [EvWebhook "p1" PPending].
Proof.
  rewrite (validated_webhook_is_stale "mh1" s_payment_order s_reserved); reflexivity.
Defined.

Lemma stats_ignores_local_stablecoins_witness :
  (Stats (Some s_provider) s_cur s_reserved).2 = s_reserved.
Proof.
  refine (proj1 (stats_ignores_local_stablecoins s_provider s_cur s_reserved _ _ _));
    [reflexivity|discriminate|by exists (s_pc 100 1900 5000)].
Defined.

Lemma order_pages_partition_witness :
  exists sorted, sorted ≡ₚ [s_lock_order] /\
    page_orders 1 10 "asc" s_provider s_cur "" s_reserved ++ [] = map (lock_response None) sorted.
Proof.
  destruct (order_pages_partition 1 10 "asc" s_provider s_cur "" s_reserved) as (sorted & H1 & _ & H2);
    [reflexivity|discriminate|by exists (s_pc 100 1900 5000)|lia|vm_compute; reflexivity|vm_compute; lia|].
  exists sorted. split; [exact H1|exact H2].
Defined.

Lemma balance_endpoint_unchecked_witness :
  exists pc, db_provider_currencies (w_db (UpdateProviderBalanceEndpoint (Some s_provider)
    (Some (s_cur, "500", "10", "0")) s_reserved).2) !! (s_prov, s_cur) = Some pc /\ ~ b_consistent pc.
Proof.
  destruct (balance_endpoint_unchecked s_provider s_cur "500" "10" "0" (d_int 500) (d_int 10) (d_int 0)
    (s_pc 100 1900 5000) s_reserved eq_refl ltac:(vm_compute; reflexivity) ltac:(vm_compute; reflexivity)
    ltac:(vm_compute; reflexivity) eq_refl) as [_ (pc & H1 & _ & _ & _ & H2)].
  exists pc. split; [rewrite H1; apply lookup_insert_eq|]. rewrite H2. intros (_ & _ & _ & H). vm_compute in H. by apply H.
Defined.
