(* ===== verification/Webhooks.v ===== *)
(** * Webhook notifications of senders

    [SendPaymentOrderWebhook] (utils/utils.go) and the task that retries failed
    notifications, [RetryFailedWebhookNotifications] (tasks/tasks.go).  A payload
    is the JSON object it is serialised to.  [with_webhooks] puts the real
    notification in the place of the one the handlers of orders are proved
    against. *)

From S2P Require Import Prelude Decimal Schema Store Samples Transactions Balance Utils Services Http Orders.
Local Open Scope go_scope.
Local Open Scope string_scope.
Local Open Scope list_scope.

(** What the notifications reach beyond the database. *)
Class WebhookServices `{O : DecimalOps} := {
  (** [time.Time.MarshalJSON] *)
  format_time : Z -> string;
  (** [GenerateHMACSignature] *)
  sign_hmac : list (string * json) -> string -> string;
  (** the status code a webhook answers with *)
  webhook_status : World -> string -> list (string * json) -> Z
}.

Definition status_text (st : PayStatus) : string :=
  match st with
  | PInitiated => "initiated" | PProcessing => "processing" | PPending => "pending"
  | PValidated => "validated" | PExpired => "expired" | PSettled => "settled" | PRefunded => "refunded"
  end.

(** The event of a status; [None] when the sender is not told. *)
Definition webhook_event (st : PayStatus) : option string :=
  match st with
  | PPending => Some "payment_order.pending"
  | PValidated => Some "payment_order.validated"
  | PExpired => Some "payment_order.expired"
  | PSettled => Some "payment_order.settled"
  | PRefunded => Some "payment_order.refunded"
  | PInitiated | PProcessing => None
  end.

Definition baseDelay : Z := 120000000000.
Definition maxCumulativeTime : Z := 86400000000000.

(** [time.Duration(math.Pow(2, n))]: the conversion truncates, and gives the least
    integer when the power does not fit (amd64). *)
Definition pow_duration (n : Z) : Z :=
  if (n <? 0)%Z then 0 else if (n <? 63)%Z then 2 ^ n else - 2 ^ 63.
Definition retry_delay (attemptNumber : Z) : Z := wrap64 (baseDelay * pow_duration (attemptNumber - 1)).

Definition attempt_retry (now next : Z) (st : AttemptStatus) (a : WebhookRetryAttempt) : WebhookRetryAttempt :=
  mkWRA (wr_id a) (wr_attempt_number a + 1) next (wr_payload a) (wr_signature a) (wr_webhook_url a) st
    (wr_created_at a) now.
Definition attempt_done (now : Z) (a : WebhookRetryAttempt) : WebhookRetryAttempt :=
  mkWRA (wr_id a) (wr_attempt_number a) (wr_next_retry_time a) (wr_payload a) (wr_signature a)
    (wr_webhook_url a) ASuccess (wr_created_at a) now.

(** Failed and due. *)
Definition due (now : Z) (a : WebhookRetryAttempt) : bool :=
  bool_decide (wr_status a = AFailed) && (wr_next_retry_time a <=? now)%Z.

Section webhooks.
Context {O : DecimalOps} {SV : @Services O} {WS : @WebhookServices O}.

(** ** The table of attempts *)

(** Rows are never deleted, so the serial id is the position. *)
Definition create_attempt (payload : list (string * json)) (signature url : string) : M unit :=
  bindM ext (fun _ w =>
    (Ret tt, set_attempts (w_attempts w ++
      [mkWRA (Z.of_nat (length (w_attempts w)) + 1) 1 (w_now w + baseDelay) payload signature url AFailed
         (w_now w) (w_now w)]) w)).
Definition update_attempt (id : Z) (f : WebhookRetryAttempt -> WebhookRetryAttempt) : M unit :=
  bindM ext (fun _ w =>
    if existsb (fun a => (wr_id a =? id)%Z) (w_attempts w)
    then (Ret tt, set_attempts (map (fun a => if (wr_id a =? id)%Z then f a else a) (w_attempts w)) w)
    else (Err ENotFound, w)).

(** ** Sending *)

(** [StructToMap(payloadStruct)], serialised. *)
Definition webhook_payload (event : string) (po : PaymentOrder) (sender currency : string) (net : Network)
    (recipient : Recipient) : list (string * json) :=
  [("event", JStr event);
   ("data", JObj
     [("id", JStr (po_id po)); ("amount", JStr (d_string (po_amount po)));
      ("amountInUSD", JStr (d_string d_zero)); ("amountPaid", JStr (d_string (po_amount_paid po)));
      ("amountReturned", JStr (d_string (po_amount_returned po)));
      ("percentSettled", JStr (d_string (po_percent_settled po)));
      ("senderFee", JStr (d_string (po_sender_fee po))); ("networkFee", JStr (d_string (po_network_fee po)));
      ("rate", JStr (d_string (po_rate po))); ("network", JStr (nw_identifier net));
      ("gatewayId", JStr (po_gateway_id po)); ("senderId", JStr sender);
      ("recipient", JObj
        [("institution", JStr (re_institution recipient));
         ("accountIdentifier", JStr (re_account_identifier recipient));
         ("accountName", JStr (re_account_name recipient)); ("memo", JStr (re_memo recipient));
         ("providerId", JStr (re_provider_id recipient)); ("metadata", JNull);
         ("currency", JStr currency); ("nonce", JStr "")]);
      ("fromAddress", JStr (po_from_address po)); ("returnAddress", JStr (po_return_address po));
      ("reference", JStr (po_reference po)); ("updatedAt", JStr (format_time (po_updated_at po)));
      ("createdAt", JStr (format_time (po_created_at po))); ("txHash", JStr (po_tx_hash po));
      ("status", JStr (status_text (po_status po)))])].

(** An edge of the order, queried unless it is loaded. *)
Definition query_edge {A} (po : PaymentOrder) (edge : option A) (get : PaymentOrder -> A) : M A :=
  match edge with
  | Some a => retM a
  | None =>
      let! d := read_db None in
      match db_payment_orders d !! po_id po with Some o => retM (get o) | None => errM ENotFound end
  end.

(** The currency edge of the institution. *)
Definition institution_currency (code : string) : M (option FiatCurrency) :=
  let! d := read_db None in
  let! i := only (List.filter (fun i => String.eqb (in_code i) code) (db_institutions d)) in
  retM (c ← in_fiat_currency i; db_currencies d !! c).

(** [profile] is the sender edge of the order; [recipient] and [token] are edges
    that are queried when the caller did not load them. *)
Definition SendPaymentOrderWebhook (profile : option SenderProfile) (recipient : option Recipient)
    (token : option Token) (po : PaymentOrder) : M unit :=
  match profile with
  | None => retM tt
  | Some profile =>
      if String.eqb (sp_webhook_url profile) "" then retM tt
      else
        match webhook_event (po_status po) with
        | None => retM tt
        | Some event =>
            let! recipient := query_edge po recipient po_recipient in
            let! token := query_edge po token po_token in
            let! currency := institution_currency (re_institution recipient) in
            let! currency := deref currency in
            let payload := webhook_payload event po (sp_id profile) (fc_code currency) (tk_network token) recipient in
            let! d := read_db None in
            match db_senders d !! sp_id profile ≫= sp_api_key with
            | None => errM ENotFound
            | Some secret =>
                match decrypt_secret secret with
                | None => errM (EMsg "decrypt")
                | Some key =>
                    let signature := sign_hmac payload key in
                    do? ext orelse e => (create_attempt payload signature (sp_webhook_url profile)) in
                    emit (EvPost (sp_webhook_url profile) payload)
                end
            end
        end
  end.

(** As the handlers call it, with the sender edge loaded. *)
Definition notify_sender (po : PaymentOrder) : M unit :=
  let! w := getM in
  SendPaymentOrderWebhook (p ← po_sender_profile po; db_senders (w_db w) !! p) None None po.

(** ** Retrying *)

(** The sender of an attempt that is given up is told by e-mail. *)
Definition report_expired `{HS : HttpServices} (a : WebhookRetryAttempt) : M unit :=
  let! data := as_map (json_get "data" (wr_payload a)) in
  let! senderId := as_string (json_get "senderId" data) in
  match parse_uuid senderId with
  | None => errM (EMsg "RetryFailedWebhookNotifications.FailedExtraction")
  | Some uid =>
      let! profile := wrapM "RetryFailedWebhookNotifications.CouldNotFetchProfile"
        (let! d := read_db None in
         match db_senders d !! uid with Some p => retM p | None => errM ENotFound end) in
      do! wrapM "RetryFailedWebhookNotifications.SendWebhookFailureEmail" ext in
      emit (EvFailureEmail (sp_user_email profile) (sp_user_first_name profile))
  end.

(** Sends the notification again: whether that failed. *)
Definition post_attempt (a : WebhookRetryAttempt) : M bool :=
  let? u := ext orelse e => (retM true) in
  let! w := getM in
  do! emit (EvPost (wr_webhook_url a) (wr_payload a)) in
  retM (205 <=? webhook_status w (wr_webhook_url a) (wr_payload a))%Z.

(** The next try, or the end after 24 hours. *)
Definition attempt_failed `{HS : HttpServices} (a : WebhookRetryAttempt) : M unit :=
  let! w := getM in
  let attemptNumber := wr_attempt_number a + 1 in
  let nextRetryTime := w_now w + retry_delay attemptNumber in
  let expired := (maxCumulativeTime <? nextRetryTime - (wr_created_at a - baseDelay))%Z in
  do! ifM expired (report_expired a) in
  wrapM "RetryFailedWebhookNotifications"
    (update_attempt (wr_id a) (attempt_retry (w_now w) nextRetryTime (if expired then AAttemptExpired else AFailed))).

(** One iteration of the loop. *)
Definition retry_attempt `{HS : HttpServices} (a : WebhookRetryAttempt) : M unit :=
  let! failed := post_attempt a in
  if failed then attempt_failed a
  else
    let! w := getM in
    wrapM "RetryFailedWebhookNotifications" (update_attempt (wr_id a) (attempt_done (w_now w))).

Fixpoint retry_attempts `{HS : HttpServices} (attempts : list WebhookRetryAttempt) : M unit :=
  match attempts with
  | [] => retM tt
  | a :: rest => do! retry_attempt a in retry_attempts rest
  end.

Definition RetryFailedWebhookNotifications `{HS : HttpServices} : M unit :=
  do? ext orelse e => (errM (EWrap "RetryFailedWebhookNotifications" e)) in
  let! w := getM in
  retry_attempts (List.filter (due (w_now w)) (w_attempts w)).

End webhooks.

(** The handlers of orders with the real notification. *)
Definition with_webhooks {O : DecimalOps} (SV : @Services O) (WS : @WebhookServices O) (OS : @OrderServices O)
    : @OrderServices O := {|
  new_uuid := @new_uuid O OS;
  recipient_of := @recipient_of O OS;
  parse_split_id := @parse_split_id O OS;
  build_rpc_url := @build_rpc_url O OS;
  aml_answer := @aml_answer O OS;
  send_webhook := notify_sender;
  delete_webhook := @delete_webhook O OS
|}.
