(* ===== verification/WebhookClaims.v ===== *)
(** * Webhook notifications: claims

    A notification is posted or scheduled for a retry; the recorded
    attempts are bounded, the posts are not ([webhook_retries_bounded]); what one run of the retry task does; and the
    notifications that the handlers of orders lose. *)

From S2P Require Import Prelude Decimal Schema Store Samples Transactions Balance Utils Services Http Orders OrderClaims Webhooks.
Local Open Scope go_scope.
Local Open Scope string_scope.
Local Open Scope list_scope.

Section webhook_spec.
Context {O : DecimalOps} {SV : @Services O} {WS : @WebhookServices O} {HS : HttpServices}.

(** ** Sending *)

(** What a notification leaves behind: a post, a scheduled attempt, or neither. *)
Definition posted (url : string) (payload : list (string * json)) (w w' : World) : Prop :=
  w_events w' = w_events w ++ [EvPost url payload] /\ w_attempts w' = w_attempts w.
Definition scheduled (url : string) (payload : list (string * json)) (w w' : World) : Prop :=
  w_events w' = w_events w /\ exists signature, w_attempts w' = w_attempts w ++
    [mkWRA (Z.of_nat (length (w_attempts w)) + 1) 1 (w_now w + baseDelay) payload signature url AFailed
       (w_now w) (w_now w)].
Definition silent (w w' : World) : Prop := w_events w' = w_events w /\ w_attempts w' = w_attempts w.

(** The sender is told of the order's status. *)
Definition notified (profile : option SenderProfile) (po : PaymentOrder) : option (SenderProfile * string) :=
  p ← profile; if String.eqb (sp_webhook_url p) "" then None
               else e ← webhook_event (po_status po); Some (p, e).

Record unmoved (w w' : World) : Prop := {
  um_db : w_db w' = w_db w;
  um_redis : w_redis w' = w_redis w;
  um_txs : w_txs w' = w_txs w;
  um_now : w_now w' = w_now w
}.

#[local] Instance unmoved_preorder : PreOrder unmoved.
Proof. split; [by split|]. intros w1 w2 w3 [] []. split; congruence. Qed.

Definition sent_to (p : SenderProfile) (event : string) (w : World) (o : outcome unit) (w' : World) : Prop :=
  unmoved w w' /\
  ((o = Ret tt /\ exists payload, json_get "event" payload = Some (JStr event) /\
      (posted (sp_webhook_url p) payload w w' \/ scheduled (sp_webhook_url p) payload w w')) \/
   (o <> Ret tt /\ silent w w')) /\
  (institutions_priced (w_db w) -> o <> Panic).

Definition sent (profile : option SenderProfile) (po : PaymentOrder) (w : World) (o : outcome unit) (w' : World) : Prop :=
  match notified profile po with
  | None => o = Ret tt /\ w' = w
  | Some (p, event) => sent_to p event w o w'
  end.

Lemma query_edge_wp {A} po (edge : option A) get w :
  wp (query_edge po edge get) (fun o w' => reads_only w w' /\ o <> Panic) w.
Proof. unfold query_edge. destruct edge; repeat (ro_step; try done). Qed.

(** No currency only when an institution has none. *)
Lemma institution_currency_wp code w :
  wp (institution_currency code) (fun o w' => reads_only w w' /\ o <> Panic /\
    (o = Ret None -> ~ institutions_priced (w_db w))) w.
Proof.
  unfold institution_currency. wp_step. eapply wp_read_db; [reflexivity|intros fs|done].
  wp_step. apply only_filter; [intros i Hi Hp|done|done]. wp_step. split_and!; [done|done|].
  intros [= Hn] Hall. destruct (Hall i Hi) as (c & fc & Hc & Hfc). by rewrite Hc in Hn; simpl in Hn; rewrite Hfc in Hn.
Qed.

Lemma SendPaymentOrderWebhook_wp profile recipient token po w :
  wp (SendPaymentOrderWebhook profile recipient token po) (sent profile po w) w.
Proof.
  unfold SendPaymentOrderWebhook, sent, notified.
  destruct profile as [p|]; [|by wp_step]. simpl. case_match; [by wp_step|].
  destruct (webhook_event (po_status po)) as [event|]; [|by wp_step]. simpl.
  assert (Herr : forall e w', reads_only w w' -> sent_to p event w (Err e) w').
  { intros e w' (Hd & Hr & Ht & He & Hn & _ & Ha). split; [by split|]. split; [by right|done]. }
  fold (sent_to p event w). wp_step. eapply wp_mono; [apply query_edge_wp|].
  intros [rc|e|] w1 [R1 Hp1]; [|by apply Herr|done].
  wp_step. eapply wp_mono; [apply query_edge_wp|].
  intros [tk|e|] w2 [R2%(reads_only_trans _ _ _ R1) Hp2]; [|by apply Herr|done].
  wp_step. eapply wp_mono; [apply institution_currency_wp|].
  intros [fc|e|] w3 (R3%(reads_only_trans _ _ _ R2) & Hp3 & Hfc); [|by apply Herr|done].
  do 2 wp_step. destruct fc as [fc|].
  2: { destruct R3 as (Hd & Hr & Ht & He & Hn & _ & Ha). split; [by split|]. split; [by right|].
       intros Hi. destruct (Hfc eq_refl). by rewrite (proj1 R2). }
  wp_step. eapply wp_read_db; [reflexivity|intros fs4|intros fs4; by apply Herr].
  do 2 (case_match; [|by apply Herr]).
  pose proof R3 as (Hd & Hr & Ht & He & Hn & _ & Ha).
  unfold create_attempt. wp_step. apply wp_ext; intros fs5.
  - wp_step. split; [by split|]. split; [left|done]. split; [done|]. eexists. split; cycle 1.
    { left. split; simpl; [by rewrite He|done]. } done.
  - wp_step. apply wp_ext; intros fs6; [|by apply Herr]. unfold wp; simpl. split; [by split|]. split; [left|done].
    split; [done|]. eexists. split; cycle 1.
    { right. split; [done|]. eexists. simpl. by rewrite Ha, Hn. } done.
Qed.

Lemma notify_sender_wp po w :
  wp (notify_sender po) (sent (p ← po_sender_profile po; db_senders (w_db w) !! p) po w) w.
Proof. unfold notify_sender. do 2 wp_step. apply SendPaymentOrderWebhook_wp. Qed.

(** The real notification is what the handlers of orders rely on. *)
#[export] Instance with_webhooks_laws OS : OrderLaws (with_webhooks SV WS OS).
Proof.
  split; intros po w; [|intros Hi]; (eapply wp_mono; [apply notify_sender_wp|]); intros o w' H; unfold sent in H;
    (destruct (notified _ po) as [[p event]|]; [|by destruct H as [-> ->]]).
  - by destruct H as ([] & _ & _).
  - by apply H.
Qed.

(** A notification, whatever fails: when the sender has a webhook and the status is
    one that is told, the call returns without an error exactly when the event was
    posted once or one retry was scheduled in two minutes; with an error or a panic
    nothing was posted and nothing scheduled.  The database and Redis are unchanged,
    and the answer of the webhook plays no part: a rejected event counts as posted. *)
Theorem webhook_posted_or_scheduled p recipient token po event w :
  sp_webhook_url p <> "" -> webhook_event (po_status po) = Some event ->
  wp (SendPaymentOrderWebhook (Some p) recipient token po) (fun o w' =>
    w_db w' = w_db w /\ w_redis w' = w_redis w /\
    if is_ret o then
      exists payload, json_get "event" payload = Some (JStr event) /\
        (posted (sp_webhook_url p) payload w w' \/ scheduled (sp_webhook_url p) payload w w')
    else silent w w') w.
Proof.
  intros Hu He. eapply wp_mono; [apply SendPaymentOrderWebhook_wp|]. intros o w'. unfold sent, notified. simpl.
  rewrite (proj2 (String.eqb_neq _ _) Hu), He. simpl. intros ([] & [[-> H]|[Hne H]] & _).
  - done.
  - by destruct o as [[]|e|].
Qed.

(** ** The schedule of the retries *)

(** A failed attempt: a number of at most nine, each delay twice the one before. *)
Definition attempt_ok (a : WebhookRetryAttempt) : Prop :=
  wr_status a = AFailed ->
  (1 <= wr_attempt_number a <= 9)%Z /\
  (wr_created_at a + (2 ^ wr_attempt_number a - 1) * baseDelay <= wr_next_retry_time a)%Z.

Record attempts_ok (l : list WebhookRetryAttempt) : Prop := {
  ao_ids : forall i a, l !! i = Some a -> wr_id a = (Z.of_nat i + 1)%Z;
  ao_rows : Forall attempt_ok l
}.




Definition put_attempt (id : Z) (f : WebhookRetryAttempt -> WebhookRetryAttempt) : list WebhookRetryAttempt -> list WebhookRetryAttempt :=
  map (fun a => if (wr_id a =? id)%Z then f a else a).

Lemma attempts_ids_inj l a b : attempts_ok l -> a ∈ l -> b ∈ l -> wr_id a = wr_id b -> a = b.
Proof.
  intros [H1 _] [i Hi]%list_elem_of_lookup [j Hj]%list_elem_of_lookup E.
  pose proof (H1 _ _ Hi). pose proof (H1 _ _ Hj). replace j with i in Hj by lia. by simplify_eq.
Qed.











(** ** One run of the task *)

Definition has_attempt (id : Z) (l : list WebhookRetryAttempt) : bool := existsb (fun a => (wr_id a =? id)%Z) l.
Definition attempt_post (a : WebhookRetryAttempt) : Event := EvPost (wr_webhook_url a) (wr_payload a).

Lemma has_attempt_put id id' f l :
  (forall b, wr_id (f b) = wr_id b) -> has_attempt id (put_attempt id' f l) = has_attempt id l.
Proof.
  intros Hf. induction l as [|a l IH]; [done|]. simpl. rewrite IH. f_equal. case_match; by rewrite ?Hf.
Qed.

Definition accepts (a : WebhookRetryAttempt) : Prop :=
  forall w, (webhook_status w (wr_webhook_url a) (wr_payload a) < 205)%Z.

Lemma retry_attempt_delivers a w :
  w_faults w = [] -> has_attempt (wr_id a) (w_attempts w) = true -> accepts a ->
  retry_attempt a w = (Ret tt, set_attempts (put_attempt (wr_id a) (attempt_done (w_now w)) (w_attempts w))
                                 (set_events (w_events w ++ [attempt_post a]) w)).
Proof.
  intros Hf Hin Hacc. unfold retry_attempt, post_attempt, bindM, tryM, ext, getM, emit, retM. rewrite Hf.
  rewrite (proj2 (Z.leb_gt _ _) (Hacc w)). unfold wrapM, update_attempt, tryM, bindM, ext, retM. simpl. rewrite Hf.
  cbn [w_attempts set_events]. unfold has_attempt in Hin. by rewrite Hin.
Qed.

Lemma retry_attempts_deliver l : forall w,
  w_faults w = [] -> Forall (fun a => has_attempt (wr_id a) (w_attempts w) = true /\ accepts a) l ->
  retry_attempts l w = (Ret tt, set_attempts
    (map (fun a => if has_attempt (wr_id a) l then attempt_done (w_now w) a else a) (w_attempts w))
    (set_events (w_events w ++ map attempt_post l) w)).
Proof.
  induction l as [|a l IH]; intros w Hf Hall; simpl.
  - rewrite map_id, app_nil_r. by destruct w.
  - apply Forall_cons in Hall as [[Ha Hacc] Hall]. unfold bindM. rewrite retry_attempt_delivers by done.
    rewrite IH; [|done|].
    + simpl. rewrite <- app_assoc. unfold set_attempts, set_events; simpl. do 2 f_equal.
      unfold put_attempt. rewrite map_map. apply map_ext. intros x. rewrite (Z.eqb_sym (wr_id a)).
      destruct (wr_id x =? wr_id a)%Z; simpl; [|done]. by destruct (has_attempt (wr_id x) l).
    + eapply Forall_impl; [exact Hall|]. intros b [Hb Hb2]. split; [|done]. simpl. by rewrite has_attempt_put.
Qed.

Lemma has_due l a now : attempts_ok l -> a ∈ l -> has_attempt (wr_id a) (List.filter (due now) l) = due now a.
Proof.
  intros Hl Ha. apply eq_bool_prop_intro. rewrite !Is_true_true. unfold has_attempt. rewrite existsb_exists. split.
  - intros (b & [Hb%list_elem_of_In Hd]%filter_In & E%Z.eqb_eq). by rewrite <- (attempts_ids_inj l b a).
  - intros Hd. exists a. split; [|apply Z.eqb_refl]. apply filter_In. by split; [apply list_elem_of_In|].
Qed.

(** When nothing fails and the webhooks accept, one run of the retry task posts
    every attempt that is due exactly once, in order, marks these attempts as
    successful and changes nothing else. *)
Theorem retry_delivers_due w :
  w_faults w = [] -> attempts_ok (w_attempts w) ->
  (forall a, a ∈ w_attempts w -> due (w_now w) a = true -> accepts a) ->
  RetryFailedWebhookNotifications w = (Ret tt,
    set_attempts (map (fun a => if due (w_now w) a then attempt_done (w_now w) a else a) (w_attempts w))
      (set_events (w_events w ++ map attempt_post (List.filter (due (w_now w)) (w_attempts w))) w)).
Proof.
  intros Hf Hl Hacc. unfold RetryFailedWebhookNotifications, tryM, ext, bindM, getM. rewrite Hf.
  rewrite retry_attempts_deliver; [|done|].
  - unfold set_attempts, set_events; simpl. do 2 f_equal. apply map_ext_in. intros a Ha%list_elem_of_In. by rewrite has_due.
  - apply Forall_forall. intros a [Ha%list_elem_of_In Hd]%list_elem_of_In%filter_In. split; [|by apply Hacc].
    rewrite <- (has_due (w_attempts w) a (w_now w)) in Hd by done. unfold has_attempt in *.
    apply existsb_exists in Hd as (b & [Hb _]%filter_In & E). apply existsb_exists. eauto.
Qed.

(** The first due attempt has run out of time and its sender is gone. *)
Record stuck (a : WebhookRetryAttempt) (uid : string) (w : World) : Prop := {
  sk_first : exists rest, List.filter (due (w_now w)) (w_attempts w) = a :: rest;
  sk_rejected : forall w', (205 <= webhook_status w' (wr_webhook_url a) (wr_payload a))%Z;
  sk_expired : (maxCumulativeTime <
    w_now w + retry_delay (wr_attempt_number a + 1) - (wr_created_at a - baseDelay))%Z;
  sk_sender : exists data s, json_get "data" (wr_payload a) = Some (JObj data) /\
    json_get "senderId" data = Some (JStr s) /\ parse_uuid s = Some uid;
  sk_gone : db_senders (w_db w) !! uid = None
}.

Lemma retry_blocked_run a uid w : w_faults w = [] -> stuck a uid w ->
  exists e, RetryFailedWebhookNotifications w = (Err e, set_events (w_events w ++ [attempt_post a]) w).
Proof.
  intros Hf [(rest & E) Hrej Hexp (data & s & J1 & J2 & J3) Hgone].
  exists (EWrap "RetryFailedWebhookNotifications.CouldNotFetchProfile" ENotFound).
  unfold RetryFailedWebhookNotifications, tryM, ext, bindM, getM. rewrite Hf, E. simpl.
  unfold retry_attempt, post_attempt, bindM, tryM, ext, getM, emit, retM. rewrite Hf.
  rewrite (proj2 (Z.leb_le _ _) (Hrej w)). unfold attempt_failed, bindM, getM, ifM.
  cbn [w_now set_events]. rewrite (proj2 (Z.ltb_lt _ _) Hexp).
  unfold report_expired, bindM, as_map, as_string, retM. rewrite J1, J2, J3.
  unfold wrapM, tryM, bindM, read_db, ext, bindM. cbn [w_faults set_events]. rewrite Hf. simpl. by rewrite Hgone.
Qed.

(** One attempt can block all the others: when the first due attempt has run out
    of time and its sender no longer exists, the task posts that attempt, returns
    an error and leaves the table as it was, so that the next run does the same
    and the attempts behind it are never sent. *)
Theorem retry_blocked_by_first a uid w :
  w_faults w = [] -> stuck a uid w ->
  exists e w', RetryFailedWebhookNotifications w = (Err e, w') /\ w_attempts w' = w_attempts w /\
    w_events w' = w_events w ++ [attempt_post a] /\ stuck a uid w'.
Proof.
  intros Hf Hs. destruct (retry_blocked_run a uid w Hf Hs) as [e He]. eexists e, _. split; [exact He|].
  split_and!; [done|done|]. destruct Hs; by split.
Qed.




(** ** With the handlers of orders *)

(** The expiry of an order is never told to its sender: when the receive address
    of an order that is still initiated runs out, the order is marked as expired,
    but the notification is built from the row that was read before, whose status
    has no event: nothing is posted and nothing scheduled for a retry. *)
Theorem expiry_never_notified (OS : @OrderServices O) conf a po w :
  w_faults w = [] -> db_payment_orders (w_db w) !! po_id po = Some po -> po_status po = PInitiated ->
  ra_valid_until a <> 0 -> ra_status a <> AUsed -> ra_status a <> AExpired ->
  (w_now w - two_minutes <= ra_valid_until a < w_now w)%Z -> HasPrefix (po_recipient_memo po) "P#P" = false ->
  wp (@HandleReceiveAddressValidity O (with_webhooks SV WS OS) conf a po) (fun o w' => o = Ret tt /\
    db_payment_orders (w_db w') !! po_id po = Some (po_set_status (w_now w) PExpired po) /\ silent w w') w.
Proof.
  intros Hf Hpo Hst Hv Hu He [Hr1 Hr2] Hm. unfold HandleReceiveAddressValidity. do 2 wp_step.
  rewrite (proj2 (Z.eqb_neq _ _) Hv), !bool_decide_eq_false_2, Hm by (done || congruence).
  rewrite (proj2 (Z.ltb_ge _ _) Hr1), (proj2 (Z.ltb_lt _ _) Hr2). cbn [negb andb]. repeat run_ok.
  eapply wp_mono; [apply notify_sender_wp|]. intros o w' H. unfold sent in H.
  replace (notified _ po) with (@None (SenderProfile * string)) in H.
  - destruct H as [-> ->]. wp_step. split; [done|]. split; [|done]. simpl. by rewrite lookup_alter_eq, Hpo.
  - unfold notified. rewrite Hst. destruct (po_sender_profile po) as [i|]; [|done]. simpl.
    destruct (_ !! i); [|done]. simpl. by destruct (String.eqb _ _).
Qed.

End webhook_spec.

(** ** Witnesses on the seeded database *)

#[export] Instance sample_webhooks : WebhookServices := {|
  format_time _ := "1970-01-01T00:00:00Z";
  sign_hmac _ _ := "signature";
  webhook_status _ url _ := if String.eqb url "https://sender.example/hook" then 200 else 500
|}.
#[local] Instance sample_uuid : HttpServices := {| parse_uuid s := Some s |}.

Definition s_settled_po : PaymentOrder := po_set_status 0 PSettled s_payment_order.
Definition s_attempt (id n next : Z) (url sender : string) : WebhookRetryAttempt :=
  mkWRA id n next [("event", JStr "payment_order.settled"); ("data", JObj [("senderId", JStr sender)])]
    "signature" url AFailed 0 0.
(** two attempts that are due, one that is not, at one hour *)
Definition s_attempts : list WebhookRetryAttempt :=
  [s_attempt 1 1 baseDelay "https://sender.example/hook" "s1";
   s_attempt 2 5 (31 * baseDelay) "https://sender.example/hook" "s1";
   s_attempt 3 5 (31 * baseDelay) "https://sender.example/hook" "s1"].
Definition s_at (now : Z) (l : list WebhookRetryAttempt) : World :=
  mkWorld (s_db (s_pc 100 0 100)) ∅ 0 s_redis [] now [] l.

Lemma s_attempts_ok : attempts_ok s_attempts.
Proof.
  split.
  - intros i a Hi. by repeat (destruct i as [|i]; [by injection Hi as <-|]).
  - do 3 (apply Forall_cons; split; [intros _; unfold baseDelay; simpl; lia|]). by apply Forall_nil.
Qed.

Lemma webhook_posted_or_scheduled_witness :
  exists payload, json_get "event" payload = Some (JStr "payment_order.settled") /\
    posted "https://sender.example/hook" payload (s_at 0 [])
      (SendPaymentOrderWebhook (Some s_sender) None None s_settled_po (s_at 0 [])).2.
Proof.
  destruct (webhook_posted_or_scheduled s_sender None None s_settled_po "payment_order.settled" (s_at 0 []))
    as (_ & _ & H); [discriminate|reflexivity|].
  destruct H as (payload & H1 & [H2|[_ (sg & H2)]]); [by exists payload|by vm_compute in H2].
Defined.


Lemma retry_delivers_due_witness :
  (RetryFailedWebhookNotifications (s_at (40 * baseDelay) s_attempts)).1 = Ret tt /\
  map wr_status (w_attempts (RetryFailedWebhookNotifications (s_at (40 * baseDelay) s_attempts)).2) =
    [ASuccess; ASuccess; ASuccess].
Proof.
  rewrite retry_delivers_due; [split; reflexivity|reflexivity|exact s_attempts_ok|].
  intros a Ha _ w. simpl in Ha. by repeat (apply elem_of_cons in Ha as [->|Ha]; [|]); try apply not_elem_of_nil in Ha.
Defined.

(** The first attempt's sender is gone and its webhook rejects. *)
Definition s_stuck_attempt : WebhookRetryAttempt := s_attempt 1 9 (511 * baseDelay) "https://gone.example" "s9".
Definition s_stuck : World := s_at (600 * baseDelay) (s_stuck_attempt :: drop 1 s_attempts).

Lemma retry_blocked_by_first_witness :
  exists e, (RetryFailedWebhookNotifications s_stuck).1 = Err e /\
    w_attempts (RetryFailedWebhookNotifications s_stuck).2 = w_attempts s_stuck.
Proof.
  destruct (retry_blocked_by_first s_stuck_attempt "s9" s_stuck) as (e & w' & H1 & H2 & _); [reflexivity| |].
  - split; [by eexists|intros w'; vm_compute; discriminate|by vm_compute| |reflexivity]. by eexists _, _.
  - exists e. by rewrite H1.
Defined.

Definition s_initiated_po : PaymentOrder := po_set_status 0 PInitiated s_payment_order.
Definition s_initiated : World :=
  mkWorld (set_payment_orders {[ "p1" := s_initiated_po ]} s_addr_db) ∅ 0 s_redis [] 1000 [] [].

Lemma expiry_never_notified_witness :
  silent s_initiated
    (@HandleReceiveAddressValidity _ (with_webhooks sample_services sample_webhooks sample_order_services) s_order_conf
       s_address s_initiated_po s_initiated).2.
Proof.
  refine (proj2 (proj2 (expiry_never_notified sample_order_services s_order_conf s_address s_initiated_po s_initiated
    _ _ _ _ _ _ _ _))); try reflexivity; try discriminate. split; vm_compute; [discriminate|reflexivity].
Defined.
