(* ===== verification/Tasks.v ===== *)
(** * Scheduled tasks (tasks/tasks.go)

    The synchronisation of fulfilments with the provider nodes, the
    reassignment of orders whose request expired, the validity of receive
    addresses, market rates, provider balances and the retry of stale
    operations.  The tasks only log most of their errors; a failed type assertion
    or a nil edge still panics.  Goroutines that share a variable are steps of a
    relation ([stale_step]). *)

From S2P Require Import Prelude Decimal Schema Store Samples Transactions Balance Utils Services Queue Orders Rows Http Provider.
Local Open Scope go_scope.
Local Open Scope string_scope.
Local Open Scope list_scope.

(** What the tasks reach beyond the database and the provider nodes. *)
Class TaskServices `{O : DecimalOps} := {
  (** whether the text of a failed request to a host contains 400 *)
  mentions_400 : World -> string -> bool;
  (** the answers of the exchanges that quote a currency *)
  quidax_answer : World -> string -> HttpResponse;
  binance_answer : World -> string -> HttpResponse;
  (** the order in which the answers of the provider nodes arrive *)
  arrival : World -> list string -> list string
}.

(** types.OrderService: what submits gateway transactions. *)
Record OrderService `{O : DecimalOps} := mkOrderService {
  CreateOrder : string -> M unit;
  RefundOrder : Network -> string -> M unit;
  SettleOrder : string -> M unit
}.
Arguments mkOrderService {O}.

Section tasks.
Context {O : DecimalOps} {OS : @OrderServices O} {SV : @Services O} {TS : @TaskServices O} {HS : HttpServices}.
Variable conf : Config.

(** ** Fulfilments *)

(** A lock order with the edges the task loads. *)
Record SyncOrder := mkSync {
  sy_row : LockPaymentOrder;
  sy_provider : option ProviderProfile;
  sy_fulfillments : list LockOrderFulfillment;
  sy_currency : option FiatCurrency
}.

Definition has_fulfillment (d : DB) (o : LockPaymentOrder) (p : LockOrderFulfillment -> bool) : bool :=
  existsb p (fulfillments_of d (lo_id o)).
Definition validation_is (st : ValidationStatus) (f : LockOrderFulfillment) : bool :=
  bool_decide (lf_validation_status f = st).

Definition thirty_seconds : Z := 30000000000.

(** The lock orders that need attention. *)
Definition unvalidated (d : DB) (now : Z) (o : LockPaymentOrder) : bool :=
  let cutoff := now - cf_order_fulfillment_validity conf in
  (bool_decide (lo_status o = LFulfilled) &&
   (has_fulfillment d o (fun f => validation_is VFailed f && negb (validation_is VSuccess f) &&
                                  negb (validation_is VPending f)) ||
    has_fulfillment d o (fun f => validation_is VPending f && (lf_updated_at f <=? cutoff)%Z &&
                                  negb (cutoff <? lf_updated_at f)%Z) ||
    has_fulfillment d o (validation_is VSuccess))) ||
  (bool_decide (lo_status o = LCancelled) &&
   (has_fulfillment d o (validation_is VPending) || negb (has_fulfillment d o (fun _ => true)))) ||
  (bool_decide (lo_status o = LProcessing) && (lo_updated_at o <=? now - thirty_seconds)%Z &&
   negb (has_fulfillment d o (fun _ => true))).

Definition sync_order (d : DB) (o : LockPaymentOrder) : SyncOrder :=
  mkSync o (p ← lo_provider o; db_providers d !! p) (fulfillments_of d (lo_id o))
    (b ← lo_provision_bucket o; db_currencies d !! pb_currency b).

Definition sync_fields (o : SyncOrder) : LockPaymentOrderFields :=
  let order := sy_row o in
  mkLPOF (lo_id order) (Some (lo_token order)) (lo_gateway_id order) (lo_amount order) (lo_rate order) d_zero d_zero
    (lo_block_number order) "" (lo_institution order) (lo_account_identifier order) (lo_account_name order)
    "" "" "" (lo_memo order) "" ((fun b => mkBucketRef b (sy_currency o)) <$> lo_provision_bucket order) 0 0 true.

Definition reassignCancelledOrder (qfuel depth : nat) (o : SyncOrder) (fulfillment : option LockOrderFulfillment)
    : M unit :=
  let! provider := deref (sy_provider o) in
  let order := sy_row o in
  if negb (bool_decide (pp_visibility_mode provider = VisPrivate)) &&
     (lo_cancellation_count order <? cf_refund_cancellation_count conf)%Z then
    do? RPush (order_exclude_key (lo_id order)) [pp_id provider] orelse e => (retM tt) in
    do? update_lock_one None (lo_id order) (mkLPOU (Some LPending) (Some None) None [] []) orelse e => (retM tt) in
    let assign : M unit := logged (AssignLockPaymentOrder conf qfuel depth (sync_fields o)) in
    match fulfillment with
    | None => assign
    | Some f => do? delete_fulfillment (lf_id f) orelse e => (retM tt) in assign
    end
  else retM tt.

(** What asking a node for the state of a transfer ends in. *)
Inductive TxStatus :=
  | TxNoSecret
  | TxUnreachable
  | TxRejected
  | TxAnswer (data : list (string * json)).

Definition ask_tx_status (o : SyncOrder) (provider : ProviderProfile) (fields : gmap string string) : M TxStatus :=
  let! key := deref (pp_api_key provider) in
  match decrypt_secret key with
  | None => retM TxNoSecret
  | Some _ =>
      let! fc := deref (sy_currency o) in
      let payload := <["orderId" := lo_id (sy_row o)]> (<["currency" := fc_code fc]> fields) in
      do? ext orelse e => (retM TxUnreachable) in
      let! w := getM in
      do! emit (EvProviderCall (pp_id provider) "/tx_status" payload) in
      match ParseJSONResponse (provider_answer w (pp_id provider) "/tx_status" payload) with
      | (Some _, _) => retM TxRejected
      | (None, data) => retM (TxAnswer data)
      end
  end.

(** The log and the status of a validated order; an error ends the iteration. *)
Definition validate_order (o : LockPaymentOrder) (txId psp : string) : M unit :=
  let? log := create_log None TOrderValidated (nw_identifier (tk_network (lo_token o)))
                (json_text [("TransactionID", txId); ("PSP", psp)])
  orelse e => (retM tt) in
  do? update_lock_one None (lo_id o) (set_status_log LValidated [log]) orelse e => (retM tt) in
  retM tt.

Definition mark_fulfilled (o : LockPaymentOrder) : M unit :=
  do? update_lock_one None (lo_id o) (set_status_only LFulfilled) orelse e => (retM tt) in retM tt.

(** An order without fulfilments: its node is asked. *)
Definition sync_unfulfilled (o : SyncOrder) (provider : ProviderProfile) : M unit :=
  let order := sy_row o in
  let! r := ask_tx_status o provider ∅ in
  match r with
  | TxNoSecret => retM tt
  | TxUnreachable =>
      let! w := getM in
      if mentions_400 w (pp_host_identifier provider)
      then do? update_lock_one None (lo_id order) (set_status_only LPending) orelse e => (retM tt) in retM tt
      else retM tt
  | TxRejected =>
      let! w := getM in
      if bool_decide (lo_status order = LProcessing) &&
         (lo_updated_at order + cf_order_fulfillment_validity conf * 2 <? w_now w)%Z
      then logged (delete_lock_one (lo_id order))
      else retM tt
  | TxAnswer data =>
      let! m := as_map (json_get "data" data) in
      let! status := as_string (json_get "status" m) in
      let! psp := as_string (json_get "psp" m) in
      let! txId := as_string (json_get "txId" m) in
      if String.eqb status "failed" then
        let! verr := as_string (json_get "error" m) in
        do? create_fulfillment (lo_id order) txId psp VFailed verr orelse e => (retM tt) in
        mark_fulfilled order
      else if String.eqb status "success" then
        do? create_fulfillment (lo_id order) txId psp VSuccess "" orelse e => (retM tt) in
        validate_order order txId psp
      else retM tt
  end.

(** One fulfilment of an order. *)
Definition sync_fulfillment (qfuel depth : nat) (o : SyncOrder) (provider : ProviderProfile)
    (f : LockOrderFulfillment) : M unit :=
  let order := sy_row o in
  match lf_validation_status f with
  | VPending =>
      let! r := ask_tx_status o provider {[ "psp" := lf_psp f; "txId" := lf_tx_id f ]} in
      match r with
      | TxNoSecret | TxUnreachable | TxRejected => retM tt
      | TxAnswer data =>
          let! m := as_map (json_get "data" data) in
          let! status := as_string (json_get "status" m) in
          if String.eqb status "failed" then
            let! verr := as_string (json_get "error" m) in
            do? update_fulfillment None (lf_id f) VFailed (Some verr) orelse e => (retM tt) in
            mark_fulfilled order
          else if String.eqb status "success" then
            do? update_fulfillment None (lf_id f) VSuccess None orelse e => (retM tt) in
            validate_order order (lf_tx_id f) (lf_psp f)
          else retM tt
      end
  | VFailed => reassignCancelledOrder qfuel depth o (Some f)
  | VSuccess => validate_order order (lf_tx_id f) (lf_psp f)
  end.

Fixpoint sync_fulfillments (qfuel depth : nat) (o : SyncOrder) (provider : ProviderProfile)
    (fs : list LockOrderFulfillment) : M unit :=
  match fs with
  | [] => retM tt
  | f :: rest =>
      do! sync_fulfillment qfuel depth o provider f in
      sync_fulfillments qfuel depth o provider rest
  end.

Definition sync_one (qfuel depth : nat) (o : SyncOrder) : M unit :=
  match sy_provider o with
  | None => retM tt
  | Some provider =>
      match sy_fulfillments o with
      | [] => if bool_decide (lo_status (sy_row o) = LCancelled)
              then reassignCancelledOrder qfuel depth o None
              else sync_unfulfilled o provider
      | fs => sync_fulfillments qfuel depth o provider fs
      end
  end.

Fixpoint sync_orders (qfuel depth : nat) (orders : list SyncOrder) : M unit :=
  match orders with
  | [] => retM tt
  | o :: rest => do! sync_one qfuel depth o in sync_orders qfuel depth rest
  end.

Definition SyncLockOrderFulfillments (qfuel depth : nat) : M unit :=
  let? d := read_db None orelse e => (retM tt) in
  let! w := getM in
  sync_orders qfuel depth (map (sync_order d) (List.filter (unvalidated d (w_now w)) (lock_rows d))).

(** ** Expired order requests *)

(** The edges that are not loaded stay nil: the token and the bucket's currency. *)
Definition stale_fields (order : LockPaymentOrder) : LockPaymentOrderFields :=
  mkLPOF (lo_id order) None (lo_gateway_id order) (lo_amount order) (lo_rate order) d_zero d_zero
    (lo_block_number order) "" (lo_institution order) (lo_account_identifier order) (lo_account_name order)
    "" "" "" (lo_memo order) "" ((fun b => mkBucketRef b None) <$> lo_provision_bucket order) 0 0 false.

(** One message of the channel; the log entry of a failed query dereferences the nil
    order. *)
Definition reassign_stale (qfuel depth : nat) (payload : string) : M unit :=
  match parse_uuid (default "" (last (split_on "_" payload))) with
  | None => retM tt
  | Some orderUUID =>
      let? order := (let! d := read_db None in
                     match db_lock_orders d !! orderUUID with Some o => retM o | None => errM ENotFound end)
      orelse e => (panicM) in
      logged (AssignLockPaymentOrder conf qfuel depth (stale_fields order))
  end.

Fixpoint ReassignStaleOrderRequest (qfuel depth : nat) (messages : list string) : M unit :=
  match messages with
  | [] => retM tt
  | m :: rest => do! reassign_stale qfuel depth m in ReassignStaleOrderRequest qfuel depth rest
  end.

(** The patterns that [SubscribeToRedisKeyspaceEvents] subscribes to; their only
    special character is the final star. *)
Definition keyspace_patterns : list string :=
  ["__keyevent@0__:expired:order_request_*"; "__keyevent@0__:del:order_request_*"].

(** ** Receive addresses *)

Definition order_of_address (d : DB) (a : ReceiveAddress) : option PaymentOrder :=
  head (List.filter (fun o => bool_decide (po_receive_address o = Some (ra_id a))) (payment_rows d)).

(** A zero [valid_until] stands for NULL. *)
Definition address_due (d : DB) (now : Z) (a : ReceiveAddress) : bool :=
  negb (ra_valid_until a =? 0)%Z && (ra_valid_until a <=? now)%Z &&
  match order_of_address d a with
  | None => false
  | Some po => negb (bool_decide (ra_status a = AUsed)) || bool_decide (po_status po = PInitiated)
  end.

Fixpoint handle_addresses (d : DB) (addresses : list ReceiveAddress) : M unit :=
  match addresses with
  | [] => retM tt
  | a :: rest =>
      let! po := deref (order_of_address d a) in
      do! logged (HandleReceiveAddressValidity conf a po) in
      handle_addresses d rest
  end.

(** The task; it has the name of the function it calls for each address. *)
Definition TaskHandleReceiveAddressValidity : M unit :=
  let! d := wrapM "HandleReceiveAddressValidity" (read_db None) in
  let! w := getM in
  handle_addresses d (List.filter (address_due d (w_now w)) (map snd (map_to_list (db_receive_addresses d)))).

(** ** Market rates *)

Definition supportedCurrencies : list string := ["KES"; "NGN"; "GHS"; "TZS"; "UGX"; "XOF"; "BRL"].

(** The price of an NGN ticker: the buy price unless it is zero, else the lower of
    the last price and the middle of high and low. *)
Definition ticker_price (buy last_ high low : string) : M dec :=
  let parse (s : string) : M dec := match d_parse s with Some x => retM x | None => errM (EMsg "ComputeMarketRate") end in
  if String.eqb buy "0.0" || String.eqb buy "0" then
    let! highPrice := parse high in
    let! lowPrice := parse low in
    let midpoint := d_div (d_add highPrice lowPrice) (d_int 2) in
    let! lastPrice := parse last_ in
    parse (if d_lt midpoint lastPrice then d_string midpoint else d_string lastPrice)
  else parse buy.

(** The prices of the advertisements. *)
Fixpoint adv_prices (data : list json) : M (list dec) :=
  match data with
  | [] => retM []
  | item :: rest =>
      let! fields := as_map (Some item) in
      match json_get "adv" fields with
      | Some (JObj adv) =>
          let! price := as_string (json_get "price" adv) in
          let! prices := adv_prices rest in
          retM (match d_parse price with Some x => x :: prices | None => prices end)
      | _ => adv_prices rest
      end
  end.

Definition fetchExternalRate (currency : string) : M dec :=
  let currency := ToUpper currency in
  let failed : M dec := errM (EMsg "ComputeMarketRate") in
  if negb (ContainsString supportedCurrencies currency) then failed
  else
    do? ext orelse e => (failed) in
    let! w := getM in
    if String.eqb currency "NGN" then
      match ParseJSONResponse (quidax_answer w currency) with
      | (Some _, _) => failed
      | (None, data) =>
          let! m := as_map (json_get "data" data) in
          let! ticker := as_map (json_get "ticker" m) in
          let! buy := as_string (json_get "buy" ticker) in
          let! last_ := as_string (json_get "last" ticker) in
          let! high := as_string (json_get "high" ticker) in
          let! low := as_string (json_get "low" ticker) in
          ticker_price buy last_ high low
      end
    else
      match ParseJSONResponse (binance_answer w currency) with
      | (Some _, _) => failed
      | (None, data) =>
          match json_get "data" data with
          | Some (JArr (item :: items)) =>
              let! prices := adv_prices (item :: items) in
              retM (Median prices)
          | _ => failed
          end
      end.

(** The fixed rates of active providers for dollar stablecoins: of every
    currency. *)
Definition market_config (d : DB) (t : ProviderOrderToken) : bool :=
  (String.eqb (tk_symbol (pot_token t)) "USDT" || String.eqb (tk_symbol (pot_token t)) "USDC") &&
  bool_decide (pot_conversion_rate_type t = RFixed) &&
  match db_providers d !! pot_provider t with Some p => pp_is_active p | None => false end.
Definition market_rates (d : DB) : list dec :=
  map pot_fixed_conversion_rate (List.filter (market_config d) (db_order_tokens d)).

Definition set_market_rate (r : dec) (fc : FiatCurrency) : FiatCurrency :=
  mkFC (fc_id fc) (fc_code fc) (fc_short_name fc) (fc_decimals fc) (fc_symbol fc) (fc_name fc) r (fc_is_enabled fc).

(** The rate of a currency. *)
Definition accepted_rate (externalRate : dec) (d : DB) : dec :=
  let median := Median (market_rates d) in
  if d_gt (AbsPercentageDeviation externalRate median) (cf_percent_deviation_from_external_rate conf)
  then externalRate else median.

Fixpoint update_rates (currencies : list FiatCurrency) : M unit :=
  match currencies with
  | [] => retM tt
  | fc :: rest =>
      do! (let? externalRate := fetchExternalRate (fc_code fc) orelse e => (retM tt) in
           let? d := read_db None orelse e => (retM tt) in
           do? modify_db None (fun d' =>
                 match db_currencies d' !! fc_code fc with
                 | None => inl ENotFound
                 | Some fc' => inr (set_currencies
                     (<[fc_code fc := set_market_rate (accepted_rate externalRate d) fc']> (db_currencies d')) d', tt)
                 end) orelse e => (retM tt) in
           retM tt) in
      update_rates rest
  end.

Definition ComputeMarketRate : M unit :=
  let! d := wrapM "ComputeMarketRate" (read_db None) in
  update_rates (List.filter fc_is_enabled (map snd (map_to_list (db_currencies d)))).

(** ** Provider balances *)

Record ProviderBalance := mkBalance {
  bl_available : dec;
  bl_total : dec;
  bl_reserved : dec;
  bl_last_updated : Z
}.

(** Whether [json.Unmarshal] accepts a value for a type, with exact keys: null and
    missing keys leave the zero value. *)
Definition fits_string (v : json) : bool := match v with JNull | JStr _ => true | _ => false end.
Definition fits_int (v : json) : bool :=
  match v with
  | JNull => true
  | JNum s => let l := String.list_ascii_of_string s in
              let l := match l with a :: r => if Ascii.eqb a "-" then r else l | [] => [] end in
              (0 <? length l)%nat && forallb is_digit l
  | _ => false
  end.
Definition fits_list (fits : json -> bool) (v : json) : bool :=
  match v with JNull => true | JArr l => forallb fits l | _ => false end.
Definition fits_map (fits : json -> bool) (v : json) : bool :=
  match v with JNull => true | JObj l => forallb (fun f => fits (snd f)) l | _ => false end.
Definition fits_struct (checks : list (string * (json -> bool))) (v : json) : bool :=
  match v with
  | JNull => true
  | JObj fields => forallb (fun c => match json_get (fst c) fields with None => true | Some v => snd c v end) checks
  | _ => false
  end.

(** types.ProviderInfoResponse *)
Definition fits_info : json -> bool :=
  fits_struct
    [("status", fits_string); ("message", fits_string);
     ("data", fits_struct
       [("balances", fits_list (fits_struct
          [("availableBalance", fits_string); ("psp", fits_string); ("snapshotTime", fits_string);
           ("status", fits_string); ("totalBalance", fits_string)]));
        ("serviceInfo", fits_struct
          [("currencies", fits_list fits_string); ("lastUpdated", fits_string); ("totalPSPs", fits_int);
           ("version", fits_string)]);
        ("totalBalances", fits_map (fits_struct
          [("availableBalance", fits_string); ("totalBalance", fits_string)]))])].

(** A field of a value that fits. *)
Definition sub_fields (k : string) (fields : list (string * json)) : list (string * json) :=
  match json_get k fields with Some (JObj l) => l | _ => [] end.
Definition sub_string (k : string) (fields : list (string * json)) : string :=
  match json_get k fields with Some (JStr s) => s | _ => "" end.

(** [response.Data.TotalBalances]: available and total by currency; [None] when the
    decoding fails. *)
Definition info_balances (data : list (string * json)) : option (gmap string (string * string)) :=
  if fits_info (JObj data) then
    let entry (v : json) : string * string :=
      match v with JObj f => (sub_string "availableBalance" f, sub_string "totalBalance" f) | _ => ("", "") end in
    Some (list_to_map (map (fun e => (fst e, entry (snd e))) (sub_fields "totalBalances" (sub_fields "data" data))))
  else None.

(** A balance that does not parse or is negative is left out. *)
Definition parse_balance (now : Z) (b : string * string) : option ProviderBalance :=
  a ← d_parse (fst b);
  if d_lt a d_zero then None
  else t ← d_parse (snd b);
       if d_lt t d_zero then None else Some (mkBalance a t d_zero now).

Definition fetchProviderBalances (providerID : string) : M (gmap string ProviderBalance) :=
  let? d := read_db None orelse e => (errM (EMsg "failed to get provider")) in
  match db_providers d !! providerID with
  | None => errM (EMsg "failed to get provider")
  | Some provider =>
      if String.eqb (pp_host_identifier provider) "" then errM (EMsg "no host identifier")
      else
        do? ext orelse e => (errM (EMsg "failed to call provider /info endpoint")) in
        let! w := getM in
        do! emit (EvProviderCall providerID "/info" ∅) in
        match ParseJSONResponse (provider_answer w providerID "/info" ∅) with
        | (Some _, _) => errM (EMsg "failed to parse response")
        | (None, data) =>
            match info_balances data with
            | None => errM (EMsg "failed to parse response data")
            | Some m => retM (omap (parse_balance (w_now w)) m)
            end
        end
  end.

Definition updateProviderBalance (providerID currency : string) (b : ProviderBalance) : M unit :=
  let! r := attemptM (query_pc None providerID currency) in
  let! w := getM in
  match r with
  | inr _ =>
      do? update_pc None providerID currency (set_balances (bl_available b) (bl_total b) (bl_reserved b) (w_now w))
      orelse e => (errM (EMsg "failed to update provider currency")) in
      retM tt
  | inl e =>
      if IsNotFound e then
        let? d := read_db None orelse e' => (errM (EMsg "failed to get provider")) in
        match db_providers d !! providerID with
        | None => errM (EMsg "failed to get provider")
        | Some _ =>
            let? d := read_db None orelse e' => (errM (EMsg "failed to get fiat currency")) in
            match db_currencies d !! currency with
            | None => errM (EMsg "failed to get fiat currency")
            | Some _ =>
                do? modify_db None (fun d =>
                      match db_provider_currencies d !! (providerID, currency) with
                      | Some _ => inl (EMsg "unique constraint")
                      | None => inr (put_pc (providerID, currency)
                          (mkPC (bl_available b) (bl_total b) (bl_reserved b) true (w_now w)) d, tt)
                      end)
                orelse e' => (errM (EMsg "failed to create provider currency")) in
                retM tt
            end
        end
      else errM (EMsg "failed to query provider currency")
  end.

(** The updates of one provider: how many failed. *)
Fixpoint update_balances (providerID : string) (balances : list (string * ProviderBalance)) : M nat :=
  match balances with
  | [] => retM 0%nat
  | (currency, b) :: rest =>
      let! r := attemptM (Retry 3 (updateProviderBalance providerID currency b)) in
      let! n := update_balances providerID rest in
      retM (match r with inl _ => S n | inr _ => n end)
  end.

Fixpoint collect_balances (providers : list string) : M nat :=
  match providers with
  | [] => retM 0%nat
  | p :: rest =>
      let! r := attemptM (fetchProviderBalances p) in
      let! errors := (match r with
                      | inl _ => retM 1%nat
                      | inr balances => update_balances p (map_to_list balances)
                      end) in
      let! more := collect_balances rest in
      retM (errors + more)%nat
  end.

Definition balances_wanted (d : DB) (p : ProviderProfile) : bool :=
  negb (String.eqb (pp_host_identifier p) "") && pp_is_active p &&
  existsb (fun row => String.eqb (fst (fst row)) (pp_id p) && pc_is_available (snd row))
    (map_to_list (db_provider_currencies d)).

(** The answers are handled one after the other as they arrive; fetching one reads
    nothing that handling another changes. *)
Definition FetchProviderBalances : M unit :=
  let! d := read_db None in
  let providers := map pp_id (List.filter (balances_wanted d) (map snd (map_to_list (db_providers d)))) in
  if (length providers =? 0)%nat then retM tt
  else
    let! w := getM in
    let! errorCount := collect_balances (arrival w providers) in
    if (length providers <? 2 * errorCount)%nat
    then errM (EMsg "more than 50% of providers failed balance fetch")
    else retM tt.

(** ** Stale operations *)

Definition five_minutes : Z := 300000000000.
Definition fifteen_minutes : Z := 900000000000.

Definition service_for (tron evm : OrderService) (net : Network) : OrderService :=
  if HasPrefix (nw_identifier net) "tron" then tron else evm.

(** Initiated orders whose receive address was paid; an empty gateway id stands
    for NULL. *)
Definition create_due (d : DB) (now : Z) (o : PaymentOrder) : bool :=
  bool_decide (po_status o = PInitiated) &&
  existsb (fun a => String.eqb (ra_address a) (po_receive_address_text o) && bool_decide (ra_status a = AUsed))
    (map snd (map_to_list (db_receive_addresses d))) &&
  String.eqb (po_gateway_id o) "" &&
  ((now - five_minutes <=? po_updated_at o)%Z || HasPrefix (po_recipient_memo o) "P#P").

Definition settle_due (d : DB) (now : Z) (o : LockPaymentOrder) : bool :=
  bool_decide (lo_status o = LValidated) && has_fulfillment d o (validation_is VSuccess) &&
  (lo_updated_at o <? now - five_minutes)%Z && (now - fifteen_minutes <=? lo_updated_at o)%Z.

Definition only_failed (f : LockOrderFulfillment) : bool :=
  validation_is VFailed f && negb (validation_is VSuccess f) && negb (validation_is VPending f).

Definition refund_due (d : DB) (now : Z) (o : LockPaymentOrder) : bool :=
  negb (String.eqb (lo_gateway_id o) "") && (now - five_minutes <=? lo_updated_at o)%Z &&
  (((bool_decide (lo_status o = LPending) || bool_decide (lo_status o = LCancelled)) &&
    (lo_created_at o <=? now - cf_order_refund_timeout conf)%Z &&
    (negb (has_fulfillment d o (fun _ => true)) || has_fulfillment d o only_failed)) ||
   (match p ← lo_provider o; db_providers d !! p with
    | Some p => bool_decide (pp_visibility_mode p = VisPrivate) | None => false end &&
    bool_decide (lo_status o = LFulfilled) && has_fulfillment d o only_failed)).

(** The bodies of the goroutines; [SetNillableMessageHash(nil)] sets nothing. *)
Definition create_one (tron evm : OrderService) (o : PaymentOrder) : M unit :=
  if d_ge (po_amount_paid o) (d_add (d_add (po_amount o) (po_network_fee o)) (po_sender_fee o)) then
    let set (st : PayStatus) : M unit :=
      let! w := getM in
      logged (modify_db None (fun d =>
        match db_payment_orders d !! po_id o with
        | None => inl ENotFound
        | Some o' => inr (set_payment_orders (<[po_id o := po_set_status (w_now w) st o']> (db_payment_orders d)) d, tt)
        end)) in
    do! set PPending in
    do! set PInitiated in
    logged (CreateOrder (service_for tron evm (tk_network (po_token o))) (po_id o))
  else retM tt.
Definition settle_one (tron evm : OrderService) (o : LockPaymentOrder) : M unit :=
  logged (SettleOrder (service_for tron evm (tk_network (lo_token o))) (lo_id o)).
Definition refund_one (tron evm : OrderService) (o : LockPaymentOrder) : M unit :=
  let net := tk_network (lo_token o) in
  logged (RefundOrder (service_for tron evm net) net (lo_gateway_id o)).
Fixpoint for_each {A} (f : A -> M unit) (l : list A) : M unit :=
  match l with [] => retM tt | a :: rest => do! f a in for_each f rest end.

(** [RetryStaleUserOperations] and its goroutines.  [lockOrders] is one variable:
    the settlement goroutine and the assignment of the refund query share it, and
    a [range] reads it when the loop starts. *)
Record StaleState := mkStale {
  ss_world : World;
  ss_lockOrders : list LockPaymentOrder;
  (** statements executed, and goroutines started and not yet run *)
  ss_pc : nat;
  ss_create : option (list PaymentOrder);
  ss_settle : bool;
  ss_refund : bool;
  ss_result : option (outcome unit)
}.
Definition stale_init (w : World) : StaleState := mkStale w [] 0 None false false None.

Definition stale_error : outcome unit := Err (EMsg "RetryStaleUserOperations").

(** One query of lock orders by the main goroutine. *)
Definition lock_query (due : DB -> Z -> LockPaymentOrder -> bool) : M (list LockPaymentOrder) :=
  let! d := read_db None in
  let! w := getM in
  retM (List.filter (due d (w_now w)) (lock_rows d)).
Definition payment_query : M (list PaymentOrder) :=
  let! d := read_db None in
  let! w := getM in
  retM (List.filter (create_due d (w_now w)) (payment_rows d)).

Definition stale_query (pc : nat) : M unit :=
  match pc with
  | 0%nat => do! payment_query in retM tt
  | 1%nat => do! lock_query settle_due in retM tt
  | _ => do! lock_query refund_due in retM tt
  end.

Inductive stale_step (tron evm : OrderService) : StaleState -> StaleState -> Prop :=
  | st_query_create w lo c s r orders w' :
      payment_query w = (Ret orders, w') ->
      stale_step tron evm (mkStale w lo 0 c s r None) (mkStale w' lo 1 (Some orders) s r None)
  | st_query_settle w lo c s r orders w' :
      lock_query settle_due w = (Ret orders, w') ->
      stale_step tron evm (mkStale w lo 1 c s r None) (mkStale w' orders 2 c true r None)
  | st_query_refund w lo c s r orders w' :
      lock_query refund_due w = (Ret orders, w') ->
      stale_step tron evm (mkStale w lo 2 c s r None) (mkStale w' orders 3 c s true (Some (Ret tt)))
  | st_query_error w lo pc c s r e w' :
      (pc < 3)%nat -> stale_query pc w = (Err e, w') ->
      stale_step tron evm (mkStale w lo pc c s r None) (mkStale w' [] 3 c s r (Some stale_error))
  | st_run_create w lo pc orders s r res o w' :
      for_each (create_one tron evm) orders w = (o, w') ->
      stale_step tron evm (mkStale w lo pc (Some orders) s r res) (mkStale w' lo pc None s r res)
  | st_run_settle w lo pc c r res o w' :
      for_each (settle_one tron evm) lo w = (o, w') ->
      stale_step tron evm (mkStale w lo pc c true r res) (mkStale w' lo pc c false r res)
  | st_run_refund w lo pc c s res o w' :
      for_each (refund_one tron evm) lo w = (o, w') ->
      stale_step tron evm (mkStale w lo pc c s true res) (mkStale w' lo pc c s false res).

End tasks.
