(* ===== verification/TaskClaims.v ===== *)
(** * Scheduled tasks: claims

    An invariant rule for the synchronisation of fulfilments ([sync_invariant])
    and its instance for the balances, what one synchronisation does, and the behaviours of
    the other tasks; with their witnesses. *)

From S2P Require Import Prelude Decimal Schema Store Samples Transactions Balance Utils Services Queue QueueSteps QueueClaims Orders OrderClaims Rows Http Provider Tasks.
Local Open Scope go_scope.
Local Open Scope string_scope.
Local Open Scope list_scope.

(** ** Outside a transaction *)

Section direct.
Context {O : DecimalOps}.

(** What the statements of the tasks do to the database. *)
Inductive sync_write (now : Z) : DB -> DB -> Prop :=
  | sw_order d id o st p logs :
      db_lock_orders d !! id = Some o -> p = None \/ p = Some None ->
      sync_write now d (put_lock_order (lo_apply now (mkLPOU (Some st) p None [] logs) o) id d)
  | sw_log d st network metadata : sync_write now d (with_log st network metadata now d)
  | sw_new_fulfillment d order txId psp st verr o :
      db_lock_orders d !! order = Some o ->
      sync_write now d (set_next_id (db_next_id d + 1)
        (set_fulfillments (db_fulfillments d ++ [mkLOF (db_next_id d) txId psp st verr now order]) d))
  | sw_fulfillment d id st verr : sync_write now d (validate_rows now id st verr d)
  | sw_drop_fulfillment d id :
      sync_write now d (set_fulfillments (List.filter (fun f => negb (lf_id f =? id)%Z) (db_fulfillments d)) d)
  | sw_drop_order d id :
      sync_write now d (set_fulfillments (List.filter (fun f => negb (String.eqb (lf_order f) id)) (db_fulfillments d))
                         (set_lock_orders (delete id (db_lock_orders d)) d)).

(** Assertions about the database alone. *)
Definition keeps {A} (P : DB -> Prop) (m : M A) : Prop := forall w, P (w_db w) -> wp m (fun _ w' => P (w_db w')) w.
Definition closed (P : DB -> Prop) : Prop := forall now d d', P d -> sync_write now d d' -> P d'.

Lemma keeps_ret {A} P (a : A) : keeps P (retM a).
Proof. by intros w. Qed.
Lemma keeps_get P : keeps P getM.
Proof. by intros w. Qed.
Lemma keeps_deref {A} P (p : option A) : keeps P (deref p).
Proof. intros w H. by destruct p. Qed.
Lemma keeps_emit P e : keeps P (emit e).
Proof. by intros w. Qed.
Lemma keeps_ext P : keeps P ext.
Proof. intros w H. by apply wp_ext. Qed.
Lemma keeps_push P key vs : keeps P (RPush key vs).
Proof. intros w H. by apply wp_put_redis. Qed.
Lemma keeps_as_map P v : keeps P (as_map v).
Proof. intros w H. unfold as_map. by repeat case_match. Qed.
Lemma keeps_as_string P v : keeps P (as_string v).
Proof. intros w H. unfold as_string. by repeat case_match. Qed.
Lemma keeps_bind {A B} P (m : M A) (k : A -> M B) : keeps P m -> (forall a, keeps P (k a)) -> keeps P (bindM m k).
Proof. intros Hm Hk w H. wp_step. eapply wp_mono; [by apply Hm|]. intros [a|e|] w' H'; [by apply Hk|done|done]. Qed.
Lemma keeps_try {A B} P (m : M A) (h : error -> M B) (k : A -> M B) :
  keeps P m -> (forall e, keeps P (h e)) -> (forall a, keeps P (k a)) -> keeps P (tryM m h k).
Proof.
  intros Hm Hh Hk w H. wp_step. eapply wp_mono; [by apply Hm|]. intros [a|e|] w' H'; [by apply Hk|by apply Hh|done].
Qed.

(** One statement that is a [sync_write] when it succeeds. *)
Lemma wp_modify_keeps {A} (P : DB -> Prop) now (f : DB -> error + (DB * A)) w :
  closed P -> P (w_db w) -> (forall d' a, f (w_db w) = inr (d', a) -> sync_write now (w_db w) d') ->
  wp (modify_db None f) (fun _ w' => P (w_db w')) w.
Proof.
  intros Hc H Hf. apply wp_modify_direct; intros fs; [|done].
  destruct (f (w_db w)) as [e|[d a]] eqn:E; [done|]. by eapply Hc, Hf.
Qed.

Lemma keeps_update_order P id st p logs :
  closed P -> p = None \/ p = Some None -> keeps P (update_lock_one None id (mkLPOU (Some st) p None [] logs)).
Proof.
  intros Hc Hp w H. unfold update_lock_one. do 2 wp_step. apply (wp_modify_keeps P (w_now w)); [done|done|].
  intros d' a. destruct (_ !! id) as [o|] eqn:Ho; [|done].
  destruct Hp as [-> | ->]; simpl; intros [= <- <-]; apply sw_order; eauto.
Qed.
Lemma keeps_log P st network metadata : closed P -> keeps P (create_log None st network metadata).
Proof.
  intros Hc w H. unfold create_log. do 2 wp_step. apply (wp_modify_keeps P (w_now w)); [done|done|].
  intros d' a [= <- <-]. apply sw_log.
Qed.
Lemma keeps_new_fulfillment P order txId psp st verr : closed P -> keeps P (create_fulfillment order txId psp st verr).
Proof.
  intros Hc w H. unfold create_fulfillment. do 2 wp_step. apply (wp_modify_keeps P (w_now w)); [done|done|].
  intros d' a. destruct (_ !! order) as [o|] eqn:Ho; [|done]. simpl. intros [= <- <-]. by eapply sw_new_fulfillment.
Qed.
Lemma keeps_fulfillment P id st verr : closed P -> keeps P (update_fulfillment None id st verr).
Proof.
  intros Hc w H. unfold update_fulfillment. do 2 wp_step. apply (wp_modify_keeps P (w_now w)); [done|done|].
  intros d' a. case_match; [|done]. intros [= <- <-]. apply sw_fulfillment.
Qed.
Lemma keeps_drop_fulfillment P id : closed P -> keeps P (delete_fulfillment id).
Proof.
  intros Hc w H. apply (wp_modify_keeps P (w_now w)); [done|done|].
  intros d' a. case_match; [|done]. intros [= <- <-]. apply sw_drop_fulfillment.
Qed.
Lemma keeps_drop_order P id : closed P -> keeps P (delete_lock_one id).
Proof.
  intros Hc w H. apply (wp_modify_keeps P (w_now w)); [done|done|].
  intros d' a. case_match; [|done]. intros [= <- <-]. apply sw_drop_order.
Qed.

End direct.

Create HintDb keeps.
#[export] Hint Resolve keeps_ret keeps_get keeps_deref keeps_emit keeps_ext keeps_push keeps_as_map keeps_as_string
  keeps_log keeps_new_fulfillment keeps_fulfillment keeps_drop_fulfillment keeps_drop_order : keeps.
#[export] Hint Extern 1 (keeps _ (update_lock_one _ _ _)) => (apply keeps_update_order; [assumption|auto]) : keeps.

(** Composition of handlers; case analysis on what the code matches on. *)
Ltac keeps_step :=
  lazymatch goal with
  | |- keeps _ (bindM _ _) => apply keeps_bind; [|intros ?]
  | |- keeps _ (tryM _ _ _) => apply keeps_try; [|intros ?|intros ?]
  | |- keeps _ (logged _) => apply keeps_try; [|intros ?|intros ?]
  | |- keeps _ (match ?x with _ => _ end) => destruct x
  | |- keeps _ _ => eauto with keeps
  end.

(** ** The rule *)

Section sync_rule.
Context {O : DecimalOps} {SV : @Services O} {TS : @TaskServices O} (conf : Config).
Variable P : DB -> Prop.
Variable good : LockPaymentOrder -> Prop.
Hypothesis P_closed : closed P.
Hypothesis P_assign : forall qfuel depth o,
  good (sy_row o) -> keeps P (AssignLockPaymentOrder conf qfuel depth (sync_fields o)).

Lemma keeps_reassign qfuel depth o f : good (sy_row o) -> keeps P (reassignCancelledOrder conf qfuel depth o f).
Proof. intros Hg. unfold reassignCancelledOrder. repeat keeps_step. Qed.
Lemma keeps_ask o provider fields : keeps P (ask_tx_status o provider fields).
Proof. unfold ask_tx_status. repeat keeps_step. Qed.
Lemma keeps_validate o txId psp : keeps P (validate_order o txId psp).
Proof. unfold validate_order, set_status_log. repeat keeps_step. Qed.
Lemma keeps_mark o : keeps P (mark_fulfilled o).
Proof. unfold mark_fulfilled, set_status_only. repeat keeps_step. Qed.
#[local] Hint Resolve keeps_reassign keeps_ask keeps_validate keeps_mark : keeps.

Lemma keeps_unfulfilled o provider : keeps P (sync_unfulfilled conf o provider).
Proof. unfold sync_unfulfilled, set_status_only. repeat keeps_step. Qed.
Lemma keeps_sync_fulfillment qfuel depth o provider f :
  good (sy_row o) -> keeps P (sync_fulfillment conf qfuel depth o provider f).
Proof. intros Hg. unfold sync_fulfillment. repeat keeps_step. Qed.
#[local] Hint Resolve keeps_unfulfilled keeps_sync_fulfillment : keeps.
Lemma keeps_sync_fulfillments qfuel depth o provider fs :
  good (sy_row o) -> keeps P (sync_fulfillments conf qfuel depth o provider fs).
Proof. intros Hg. induction fs as [|f fs IH]; simpl; repeat keeps_step. Qed.
#[local] Hint Resolve keeps_sync_fulfillments : keeps.
Lemma keeps_sync_one qfuel depth o : good (sy_row o) -> keeps P (sync_one conf qfuel depth o).
Proof.
  intros Hg. unfold sync_one. destruct (sy_provider o); [|apply keeps_ret].
  destruct (sy_fulfillments o); repeat keeps_step.
Qed.

Lemma keeps_sync_orders qfuel depth l :
  Forall (fun o => good (sy_row o)) l -> keeps P (sync_orders conf qfuel depth l).
Proof. induction 1 as [|o l Ho Hl IH]; simpl; repeat keeps_step. by apply keeps_sync_one. Qed.

(** What is closed under the statements and under assignment is an invariant of
    the task. *)
Lemma sync_invariant qfuel depth w :
  (forall id o, db_lock_orders (w_db w) !! id = Some o -> good o) -> P (w_db w) ->
  wp (SyncLockOrderFulfillments conf qfuel depth) (fun _ w' => P (w_db w')) w.
Proof.
  intros Hgood HP. unfold SyncLockOrderFulfillments. wp_step.
  eapply wp_read_db; [reflexivity|intros fs|intros fs; by wp_step]. do 2 wp_step.
  match goal with |- wp (sync_orders _ _ _ ?l) _ _ => assert (Hall : Forall (fun o => good (sy_row o)) l) end.
  { apply Forall_forall. intros x (o & -> & [Ho _]%list_elem_of_In%filter_In)%list_elem_of_fmap.
    apply list_elem_of_In, lock_rows_lookup in Ho as [id Ho]. by eapply Hgood. }
  eapply (keeps_sync_orders qfuel depth); [exact Hall|exact HP].
Qed.

End sync_rule.

(** ** Three invariants *)

Section sync_claims.
Context {O : DecimalOps} {L : DecimalLaws O} {SV : @Services O} {SL : ServicesLaws SV} {TS : @TaskServices O}.
Variable conf : Config.

(** Assignment of an order without a bucket or a currency stops before it changes
    anything. *)
Lemma assign_unloaded qfuel depth order w :
  of_provider_id order = "" -> (br ← of_provision_bucket order; br_currency br) = None ->
  wp (AssignLockPaymentOrder conf qfuel (S depth) order) (fun o w' => reads_only w w' /\ o <> Ret tt) w.
Proof.
  intros Hp Hc. cbn [AssignLockPaymentOrder]. rewrite Hp. simpl. unfold LRange, assign_from_queue.
  do 2 wp_step. wp_step; [|done]. wp_step. do 2 wp_step. destruct (of_provision_bucket order) as [br|]; [|done].
  do 2 wp_step. simpl in Hc. by rewrite Hc.
Qed.

(** The rule of assignment for assertions about the database alone. *)
Lemma assign_keeps (P : DB -> Prop) qfuel depth order tk :
  of_token order = Some tk -> of_provider_id order = "" ->
  (0 <= d_val (of_amount order))%Q -> (0 <= d_val (of_rate order))%Q ->
  (forall d m, P d -> P (set_payment_orders m d)) ->
  (forall d k pc amount now, P d -> db_provider_currencies d !! k = Some pc -> (0 <= d_val amount)%Q ->
     (d_val amount <= d_val (pc_available_balance pc))%Q -> P (put_pc k (reserved_row amount now pc) d)) ->
  keeps (fun d => rates_nonneg d /\ P d) (AssignLockPaymentOrder conf qfuel depth order).
Proof.
  intros Htk Hp Ha Hr Hrate Hput w HP.
  destruct (br ← of_provision_bucket order; br_currency br) as [fc|] eqn:Hc.
  2: { destruct depth as [|depth]; [done|]. eapply wp_mono; [by apply assign_unloaded|]. by intros o w' [(-> & _) _]. }
  destruct (of_provision_bucket order) as [br|] eqn:Hb; [|done]. simpl in Hc.
  eapply (assign_invariant conf order tk br fc Htk Hb Hc
    (fun w => rates_nonneg (w_db w) /\ P (w_db w)) (fun _ => True) (fun r => 0 <= d_val r)%Q); [..|exact HP].
  - by intros w1 w2 H (-> & _).
  - done.
  - intros p r w1 _ Hr1 [H1 H2]. eapply wp_mono; [by apply (send_wp _ _ br fc)|].
    intros o w2 [_ _ _ Hout]. destruct o as [[]|e|]; [|by rewrite Hout|done].
    destruct Hout as (pc & Hpc & Hle & -> & _). split; [exact H1|]. apply Hput; [done|done| |done].
    by apply fiat_amount_nonneg.
  - intros key w1 _ HI. eapply wp_mono; [apply rotate_wp|]. by intros o w2 [].
  - intros p w1 _ HI. unfold RPush. by repeat wp_step.
  - intros w1 r now [H1 H2] _. split; [done|]. by apply Hrate.
  - intros p sy w1 [H1 _]. by apply GetProviderRate_nonneg.
  - by rewrite val_zero.
  - exists (of_provider_id order), (of_rate order). split; [apply order_variant|done].
Qed.

(** Orders with a negative amount or rate do not exist. *)
Definition nonneg_order (o : LockPaymentOrder) : Prop := (0 <= d_val (lo_amount o))%Q /\ (0 <= d_val (lo_rate o))%Q.
Definition orders_nonneg (d : DB) : Prop := forall id o, db_lock_orders d !! id = Some o -> nonneg_order o.

(** The three invariants by one lemma. *)
Lemma sync_keeps (P : DB -> Prop) qfuel depth w :
  (forall d m, P d -> P (set_payment_orders m d)) ->
  (forall d k pc amount now, P d -> db_provider_currencies d !! k = Some pc -> (0 <= d_val amount)%Q ->
     (d_val amount <= d_val (pc_available_balance pc))%Q -> P (put_pc k (reserved_row amount now pc) d)) ->
  closed P -> orders_nonneg (w_db w) -> rates_nonneg (w_db w) -> P (w_db w) ->
  wp (SyncLockOrderFulfillments conf qfuel depth) (fun _ w' => P (w_db w')) w.
Proof.
  intros Hrate Hput Hc Ho Hr HP.
  eapply wp_mono; [apply (sync_invariant conf (fun d => rates_nonneg d /\ P d) nonneg_order)|by intros o w' [_ H]].
  - intros now d d' [H1 H2] Hw. split; [|by eapply Hc]. by destruct Hw.
  - intros qf dp o [Ha1 Ha2]. by apply (assign_keeps P qf dp _ (lo_token (sy_row o))).
  - exact Ho.
  - done.
Qed.

(** C10: the synchronisation of fulfilments keeps every provider balance consistent,
    whatever fails and whatever the provider nodes answer. *)
Theorem sync_preserves_consistency qfuel depth w :
  orders_nonneg (w_db w) -> rates_nonneg (w_db w) -> db_consistent (w_db w) ->
  wp (SyncLockOrderFulfillments conf qfuel depth) (fun _ w' => db_consistent (w_db w')) w.
Proof.
  intros Ho Hr Hd. apply sync_keeps; [done| |intros now d d' H Hw; destruct Hw; exact H|done|done|done].
  intros d [p c] pc amount now H Hpc H0 Hle. apply db_consistent_put; [done|].
  apply reserved_row_consistent; [by apply (H _ _ Hpc)|done|done].
Qed.

(** No reservation shrinks. *)
Definition reserved_grows (d d' : DB) : Prop := forall k pc, db_provider_currencies d !! k = Some pc ->
  exists pc', db_provider_currencies d' !! k = Some pc' /\
    (d_val (pc_reserved_balance pc) <= d_val (pc_reserved_balance pc'))%Q.

(** The synchronisation never gives a reservation back, whatever it does with the
    orders: when it takes a failed or cancelled order away from its provider and
    assigns it again, the first provider keeps the amount reserved, and the next
    one reserves it too. *)
Theorem sync_never_releases qfuel depth w :
  orders_nonneg (w_db w) -> rates_nonneg (w_db w) ->
  wp (SyncLockOrderFulfillments conf qfuel depth) (fun _ w' => reserved_grows (w_db w) (w_db w')) w.
Proof.
  intros Ho Hr. apply sync_keeps; [done| |intros now d d' H Hw; destruct Hw; exact H|done|done|].
  - intros d k pc amount now H Hpc H0 _ k' pc0 Hpc0. destruct (H _ _ Hpc0) as (pc1 & Hpc1 & Hle).
    simpl. destruct (decide (k' = k)) as [->|Hne].
    + rewrite lookup_insert_eq. eexists. split; [done|]. simplify_eq. simpl. rewrite val_add. lra.
    + rewrite lookup_insert_ne by done. by exists pc1.
  - intros k pc Hpc. exists pc. split; [done|lra].
Qed.

End sync_claims.

(** ** What the tasks do *)

Section task_claims.
Context {O : DecimalOps} {L : DecimalLaws O} {OS : @OrderServices O} {SV : @Services O} {TS : @TaskServices O}
  {HS : HttpServices}.
Variable conf : Config.

(** An order in progress whose node can be asked and answers [data]. *)
Record answered (o : SyncOrder) (provider : ProviderProfile) (fc : FiatCurrency) (data : list (string * json)) : Prop := {
  an_provider : sy_provider o = Some provider;
  an_none : sy_fulfillments o = [];
  an_status : lo_status (sy_row o) = LProcessing;
  an_currency : sy_currency o = Some fc;
  an_secret : exists key secret, pp_api_key provider = Some key /\ decrypt_secret key = Some secret;
  an_answer : forall w payload, ParseJSONResponse (provider_answer w (pp_id provider) "/tx_status" payload) = (None, data)
}.

Definition tx_status_payload (o : SyncOrder) (fc : FiatCurrency) : gmap string string :=
  <["orderId" := lo_id (sy_row o)]> (<["currency" := fc_code fc]> ∅).

Lemma ask_answered o provider fc data (Q : outcome TxStatus -> World -> Prop) w :
  w_faults w = [] -> answered o provider fc data ->
  Q (Ret (TxAnswer data)) (set_events (w_events w ++ [EvProviderCall (pp_id provider) "/tx_status" (tx_status_payload o fc)]) w) ->
  wp (ask_tx_status o provider ∅) Q w.
Proof.
  intros Hf [H1 H2 H3 H4 (key & secret & H5 & H6) H7] HQ. unfold ask_tx_status. rewrite H5. do 2 wp_step. rewrite H6.
  do 2 wp_step. rewrite H4. wp_step. apply wp_ext_ok; [done|]. do 4 wp_step. rewrite H7. by wp_step.
Qed.

Lemma sync_one_unfulfilled qfuel depth o provider fc data :
  answered o provider fc data -> sync_one conf qfuel depth o = sync_unfulfilled conf o provider.
Proof. intros [H1 H2 H3 _ _ _]. unfold sync_one. by rewrite H1, H2, bool_decide_eq_false_2 by (by rewrite H3). Qed.

(** When the node of an order in progress reports a successful transfer and
    nothing fails, the order gets a successful fulfilment with the transfer's id,
    a log and the status validated; no balance changes, and the settlement is left
    to the task that retries stale operations. *)
Theorem sync_validates_order qfuel depth o provider fc data m psp txId w :
  w_faults w = [] -> answered o provider fc data -> db_lock_orders (w_db w) !! lo_id (sy_row o) = Some (sy_row o) ->
  json_get "data" data = Some (JObj m) -> json_get "status" m = Some (JStr "success") ->
  json_get "psp" m = Some (JStr psp) -> json_get "txId" m = Some (JStr txId) ->
  wp (sync_one conf qfuel depth o) (fun out w' => out = Ret tt /\
    db_fulfillments (w_db w') = db_fulfillments (w_db w) ++
      [mkLOF (db_next_id (w_db w)) txId psp VSuccess "" (w_now w) (lo_id (sy_row o))] /\
    db_lock_orders (w_db w') = <[lo_id (sy_row o) :=
      lo_apply (w_now w) (set_status_log LValidated [db_next_id (w_db w) + 1]) (sy_row o)]> (db_lock_orders (w_db w)) /\
    db_provider_currencies (w_db w') = db_provider_currencies (w_db w) /\
    w_events w' = w_events w ++ [EvProviderCall (pp_id provider) "/tx_status" (tx_status_payload o fc)]) w.
Proof.
  intros Hf Ha Ho J1 J2 J3 J4. rewrite (sync_one_unfulfilled _ _ _ _ _ _ Ha). unfold sync_unfulfilled. wp_step.
  eapply ask_answered; [done|exact Ha|]. unfold as_map, as_string. rewrite J1. do 2 wp_step. rewrite J2. do 2 wp_step.
  rewrite J3. do 2 wp_step. rewrite J4. do 2 wp_step. cbn [String.eqb Ascii.eqb Bool.eqb].
  unfold create_fulfillment, validate_order, create_log, update_lock_one. do 3 wp_step.
  apply wp_modify_direct_ok; [done|]. cbn [w_db set_events]. rewrite Ho. cbn [missing]. do 3 wp_step.
  apply wp_modify_direct_ok; [done|]. cbn [insert_log]. do 3 wp_step. apply wp_modify_direct_ok; [done|].
  simpl. rewrite Ho. simpl. wp_step. by split_and!.
Qed.

(** One malformed answer stops the whole run: when the node of an order in
    progress answers with a JSON object that has no object [data], the task panics
    at that order, nothing was changed, and the orders behind it are not looked
    at. *)
Theorem sync_malformed_answer_panics qfuel depth o rest provider fc data w :
  w_faults w = [] -> answered o provider fc data ->
  match json_get "data" data with Some (JObj _) => False | _ => True end ->
  (sync_orders conf qfuel depth (o :: rest) w).1 = Panic /\
  w_db (sync_orders conf qfuel depth (o :: rest) w).2 = w_db w.
Proof.
  intros Hf Ha Hd. change (wp (sync_orders conf qfuel depth (o :: rest)) (fun out w' => out = Panic /\ w_db w' = w_db w) w).
  simpl. wp_step. rewrite (sync_one_unfulfilled _ _ _ _ _ _ Ha). unfold sync_unfulfilled. wp_step.
  eapply ask_answered; [done|exact Ha|]. unfold as_map. wp_step.
  destruct (json_get "data" data) as [[]|]; try (by wp_step); done.
Qed.

(** The request of an order that expires is never reassigned: every message that
    names an order ends the handler in a panic, because a stored order is loaded
    without the currency of its bucket, and a missing one is dereferenced for the log;
    no database row changes. *)
Theorem reassign_stale_panics qfuel depth payload rest id w :
  w_faults w = [] -> parse_uuid (default "" (last (split_on "_" payload))) = Some id ->
  (ReassignStaleOrderRequest conf qfuel (S depth) (payload :: rest) w).1 = Panic /\
  w_db (ReassignStaleOrderRequest conf qfuel (S depth) (payload :: rest) w).2 = w_db w.
Proof.
  intros Hf Hid.
  change (wp (ReassignStaleOrderRequest conf qfuel (S depth) (payload :: rest)) (fun out w' => out = Panic /\ w_db w' = w_db w) w).
  cbn [ReassignStaleOrderRequest]. wp_step. unfold reassign_stale. rewrite Hid. do 2 wp_step.
  eapply wp_read_db_ok; [done|reflexivity|].
  destruct (db_lock_orders (w_db w) !! id) as [o|]; [|by repeat wp_step]. wp_step. unfold logged. wp_step.
  cbn [AssignLockPaymentOrder stale_fields of_provider_id of_id of_provision_bucket negb String.eqb andb].
  unfold LRange, assign_from_queue. do 2 wp_step. apply wp_get_redis_ok; [done|]. do 3 wp_step. cbn [of_provision_bucket].
  unfold stale_fields at 1. cbn [of_provision_bucket]. destruct (lo_provision_bucket o) as [b|]; simpl; [|done].
  by do 2 wp_step.
Qed.

(** Redis publishes an event of a key on this channel, with the key as message. *)
Definition keyevent_channel (event : string) : string := "__keyevent@0__:" +:+ event.
(** A pattern whose only special character is a final star. *)
Definition pattern_matches (pattern channel : string) : bool :=
  HasPrefix channel (String.substring 0 (String.length pattern - 1) pattern).
Definition has_colon (s : string) : bool := existsb (Ascii.eqb ":") (String.list_ascii_of_string s).

Lemma prefix_colon p : forall s, HasPrefix s p = true -> has_colon p = true -> has_colon s = true.
Proof.
  induction p as [|a p IH]; intros [|b s]; try done. unfold has_colon. simpl.
  destruct (Ascii.eqb_spec b a) as [->|Hne]; simpl.
  - unfold HasPrefix. simpl. destruct (ascii_dec a a); [|done]. rewrite !orb_true_iff. intros H [H1|H1]; [by left|right].
    by apply IH.
  - unfold HasPrefix. simpl. by destruct (ascii_dec a b); [subst|].
Qed.

(** The subscription to expired order requests never delivers anything: Redis
    names the channel of an event after the event alone, and no event has a colon
    in its name, while the patterns expect the key behind the event. *)
Theorem stale_subscription_never_fires event pattern :
  has_colon event = false -> pattern ∈ keyspace_patterns -> pattern_matches pattern (keyevent_channel event) = false.
Proof.
  intros He Hp. apply not_true_is_false. intros Hm.
  assert (exists p, has_colon p = true /\ HasPrefix event p = true) as (p & H1 & H2).
  { unfold pattern_matches, keyevent_channel in Hm.
    apply elem_of_cons in Hp as [->|Hp]; [|apply list_elem_of_singleton in Hp as ->].
    - exists "expired:order_request_". split; [done|exact Hm].
    - exists "del:order_request_". split; [done|exact Hm]. }
  pose proof (prefix_colon _ _ H2 H1) as Hc. by rewrite Hc in He.
Qed.

(** *** Market rates *)

(** Reading the exchanges changes nothing. *)
Lemma adv_prices_reads l : forall w, wp (adv_prices l) (fun _ w' => reads_only w w') w.
Proof.
  induction l as [|v l IH]; intros w; simpl; [by wp_step|]. unfold as_map, as_string. wp_step. repeat (wp_step; try done).
  all: try apply IH. eapply wp_mono; [apply IH|]. intros out w' Hw. destruct out; by repeat wp_step.
Qed.
Lemma fetch_rate_reads c w : wp (fetchExternalRate c) (fun _ w' => reads_only w w') w.
Proof.
  unfold fetchExternalRate, ticker_price, as_map, as_string. wp_step; [by wp_step|]. wp_step.
  apply wp_ext; intros fs; [|by wp_step]. repeat (wp_step; try done).
  eapply wp_mono; [apply adv_prices_reads|]. intros out w' Hw. destruct out; by repeat wp_step.
Qed.

(** The exchange quotes [r] for the currency, at some moment of the run. *)
Definition quoted (c : string) (r : dec) : Prop := exists w, (fetchExternalRate c w).1 = Ret r.

(** The rate that a run leaves for a currency [c] that had [fc]. *)
Definition rate_ok (c : string) (fc fc' : FiatCurrency) : Prop :=
  fc' = fc \/ exists external r, quoted c external /\ fc' = set_market_rate r fc /\
    (r = external \/ (d_val (AbsPercentageDeviation external r) <= d_val (cf_percent_deviation_from_external_rate conf))%Q).

Definition rates_ok (d d' : DB) : Prop :=
  exists m, d' = set_currencies m d /\ forall c, match db_currencies d !! c, m !! c with
    | Some fc, Some fc' => rate_ok c fc fc' | None, None => True | _, _ => False end.

Lemma rates_ok_refl d : rates_ok d d.
Proof. exists (db_currencies d). split; [by destruct d|]. intros c. destruct (_ !! c); [by left|done]. Qed.

Lemma accepted_rate_ok c external d fc :
  quoted c external -> rate_ok c fc (set_market_rate (accepted_rate conf external d) fc).
Proof.
  intros Hq. right. exists external, (accepted_rate conf external d). do 2 (split; [done|]). unfold accepted_rate.
  destruct (d_gt _ _) eqn:E; [by left|right]. dec_to_q. lra.
Qed.

Lemma rates_ok_put external d0 d1 d c fc :
  quoted c external -> rates_ok d0 d1 -> db_currencies d1 !! c = Some fc ->
  rates_ok d0 (set_currencies (<[c := set_market_rate (accepted_rate conf external d) fc]> (db_currencies d1)) d1).
Proof.
  intros Hq (m & -> & Hm) Hfc. simpl in Hfc. eexists. split; [reflexivity|]. intros c'. simpl.
  destruct (decide (c' = c)) as [->|Hne]; [|rewrite lookup_insert_ne by done; apply Hm].
  rewrite lookup_insert_eq. specialize (Hm c). rewrite Hfc in Hm. destruct (db_currencies d0 !! c) as [fc0|]; [|done].
  destruct (accepted_rate_ok c external d fc Hq) as [E|(e & r & Hq' & E & Hr)].
  - rewrite E. exact Hm.
  - rewrite E. right. exists e, r. split; [done|]. split; [|exact Hr]. destruct Hm as [->|(e' & r' & _ & -> & _)]; done.
Qed.

(** A run of the market rate task, whatever fails and whatever the exchanges
    answer, changes nothing but market rates, and a rate that it sets for a
    currency is what the exchange quoted for that currency or differs from it by
    no more than the configured percentage. *)
Theorem market_rate_within_deviation w :
  wp (ComputeMarketRate conf) (fun _ w' => rates_ok (w_db w) (w_db w') /\ w_redis w' = w_redis w) w.
Proof.
  unfold ComputeMarketRate. do 2 wp_step.
  eapply wp_read_db; [reflexivity|intros fs|intros fs; split; [apply rates_ok_refl|done]].
  generalize (List.filter fc_is_enabled (map snd (map_to_list (db_currencies (w_db w))))). intros l.
  assert (H0 : rates_ok (w_db w) (w_db (set_faults fs w)) /\ w_redis (set_faults fs w) = w_redis w)
    by (split; [apply rates_ok_refl|done]).
  revert H0. generalize (set_faults fs w). induction l as [|fc l IH]; intros w1 [H1 H2]; simpl; [by wp_step|].
  wp_step. eapply (wp_mono _ (fun o w' => rates_ok (w_db w) (w_db w') /\ w_redis w' = w_redis w)).
  2: { intros [[]|e|] w2 H; [by apply IH|done|done]. }
  wp_step. eapply wp_mono; [exact (wp_this _ _ _ (fetch_rate_reads _ _))|]. intros [ext_|e|] w2 [Hq (Hd2 & Hr2 & _)];
    [|wp_step; rewrite Hd2, Hr2; by split|rewrite Hd2, Hr2; by split].
  wp_step. eapply wp_read_db; [reflexivity|intros fs3|intros fs3; wp_step; simpl; rewrite Hd2, Hr2; by split].
  wp_step. apply wp_modify_direct; intros fs4; [|wp_step; simpl; rewrite Hd2, Hr2; by split].
  cbn [w_db set_faults]. destruct (_ !! fc_code fc) as [fc'|] eqn:Hfc; wp_step; simpl; rewrite ?Hr2;
    (split; [|done]); [|by rewrite Hd2]. apply rates_ok_put; [by exists w1|by rewrite Hd2|done].
Qed.

(** *** Balances *)

(** A reservation, the fetch of the provider's balance at the next start, and the
    release of the order; the first and the last in their transactions. *)
Definition restart_bookings (p c : string) (amount : dec) (b : ProviderBalance) : M unit :=
  let! t := begin_tx in
  do! ReserveBalance p c amount (Some t) in
  do! commit_tx t in
  do! updateProviderBalance p c b in
  let! t := begin_tx in
  do! ReleaseReservedBalance p c amount (Some t) in
  commit_tx t.

(** Fetching balances forgets the reservations of orders that are still open: the
    reserved balance is set to zero.  When such an order is released afterwards,
    nothing fails, and the balance ends with a negative reservation and with more
    available than the provider reported. *)
Theorem fetch_forgets_reservations p c amount pc b w :
  w_faults w = [] -> db_provider_currencies (w_db w) !! (p, c) = Some pc ->
  (0 < d_val amount)%Q -> (d_val amount <= d_val (pc_available_balance pc))%Q -> bl_reserved b = d_zero ->
  wp (restart_bookings p c amount b) (fun o w' => o = Ret tt /\ exists pc',
    db_provider_currencies (w_db w') !! (p, c) = Some pc' /\
    (d_val (pc_reserved_balance pc') == - d_val amount)%Q /\
    (d_val (pc_available_balance pc') == d_val (bl_available b) + d_val amount)%Q /\ ~ b_consistent pc') w.
Proof.
  intros Hf Hpc H0 Hle Hb.
  assert (Hlt : d_lt (pc_available_balance pc) amount = false) by (dec_to_q; lra).
  assert (Hz : d_eqb d_zero d_zero = true) by (apply d_eqb_spec; done).
  unfold restart_bookings, ReserveBalance, ReleaseReservedBalance, updateProviderBalance, query_pc, update_pc.
  repeat run_ok. rewrite Hpc. repeat run_ok. row_lookup. repeat run_ok. row_lookup. rewrite Hb, Hz.
  rewrite andb_false_r. repeat run_ok. split; [done|]. eexists. split.
  { cbn [db_provider_currencies set_pcs]. rewrite !lookup_alter_eq, Hpc. reflexivity. }
  cbn [fmap option_fmap option_map pc_reserved_balance pc_available_balance set_available_reserved set_balances].
  rewrite val_sub, val_zero, val_add. split_and!; [lra|lra|]. intros [_ Hr _ _].
  cbn [pc_reserved_balance set_available_reserved] in Hr. rewrite val_sub, val_zero in Hr. lra.
Qed.

(** *** Stale operations *)

Definition settle_list (w : World) : list LockPaymentOrder :=
  List.filter (settle_due (w_db w) (w_now w)) (lock_rows (w_db w)).
Definition refund_list (w : World) : list LockPaymentOrder :=
  List.filter (refund_due conf (w_db w) (w_now w)) (lock_rows (w_db w)).
Definition create_list (w : World) : list PaymentOrder :=
  List.filter (create_due (w_db w) (w_now w)) (payment_rows (w_db w)).

Lemma lock_query_ok due w :
  w_faults w = [] -> lock_query due w = (Ret (List.filter (due (w_db w) (w_now w)) (lock_rows (w_db w))), w).
Proof. intros Hf. unfold lock_query, read_db, bindM, ext, getM, retM. by rewrite Hf. Qed.

(** One run of the retry task can pass the wrong orders to the settlement: the two
    queries of lock orders assign the same variable, and the settlement goroutine
    reads it when it starts to run.  When nothing fails in the queries, one
    schedule settles the orders that were selected for settlement, and another
    calls the settlement for the orders that were selected for a refund and leaves
    the first ones alone. *)
Theorem stale_settlement_races (tron evm : OrderService) w :
  w_faults w = [] ->
  let settle := for_each (settle_one tron evm) in
  let refund := for_each (refund_one tron evm) in
  (exists w' , settle (refund_list w) w = ((settle (refund_list w) w).1, w') /\
     rtc (stale_step conf tron evm) (stale_init w)
       (mkStale (refund (refund_list w) w').2 (refund_list w) 3 (Some (create_list w)) false false (Some (Ret tt)))) /\
  (forall w', settle (settle_list w) w = (Ret tt, w') -> w_faults w' = [] ->
     rtc (stale_step conf tron evm) (stale_init w)
       (mkStale (refund (refund_list w') w').2 (refund_list w') 3 (Some (create_list w)) false false (Some (Ret tt)))).
Proof.
  intros Hf settle refund.
  assert (Hstart : rtc (stale_step conf tron evm) (stale_init w)
    (mkStale w (settle_list w) 2 (Some (create_list w)) true false None)).
  { eapply rtc_l; [|eapply rtc_l; [|apply rtc_refl]].
    - apply st_query_create. unfold payment_query, read_db, bindM, ext, getM, retM. by rewrite Hf.
    - apply st_query_settle. by apply lock_query_ok. }
  split.
  - destruct (settle (refund_list w) w) as [o1 w1] eqn:E1. exists w1. split; [done|].
    etransitivity; [exact Hstart|]. eapply rtc_l; [apply st_query_refund; by apply lock_query_ok|].
    eapply rtc_l; [by eapply st_run_settle|]. destruct (refund (refund_list w) w1) as [o2 w2] eqn:E2.
    eapply rtc_l; [by eapply st_run_refund|]. apply rtc_refl.
  - intros w1 E1 Hf1. etransitivity; [exact Hstart|]. eapply rtc_l; [by eapply st_run_settle|].
    eapply rtc_l; [apply st_query_refund; by apply lock_query_ok|].
    destruct (refund (refund_list w1) w1) as [o2 w2] eqn:E2. eapply rtc_l; [by eapply st_run_refund|]. apply rtc_refl.
Qed.

End task_claims.

(** ** Witnesses on the seeded database *)

#[export] Instance sample_tasks : TaskServices := {|
  mentions_400 _ _ := false;
  quidax_answer _ _ := mkResp 200 (BObject [("data", JObj [("ticker", JObj
    [("buy", JStr "0"); ("last", JStr "1600"); ("high", JStr "1700"); ("low", JStr "1400")])])]);
  binance_answer _ _ := mkResp 500 BOther;
  arrival _ l := l
|}.
#[local] Instance sample_task_uuid : HttpServices := {| parse_uuid s := Some s |}.

Definition s_tasks_world : World := s_world (s_pc 100 1900 2000) [].

Lemma s_order_row pc id o : db_lock_orders (s_db pc) !! id = Some o -> id = "o1" /\ o = s_lock_order.
Proof. simpl. by intros [<- <-]%lookup_singleton_Some. Qed.
Lemma s_orders_nonneg pc : orders_nonneg (s_db pc).
Proof. intros id o [_ ->]%s_order_row. split; vm_compute; discriminate. Qed.

Lemma sync_preserves_consistency_witness :
  db_consistent (w_db (SyncLockOrderFulfillments s_order_conf 9 9 s_tasks_world).2).
Proof.
  apply sync_preserves_consistency; [apply s_orders_nonneg|apply s_rates_nonneg|].
  apply s_db_consistent, s_pc_consistent; lia.
Defined.

Lemma sync_never_releases_witness :
  reserved_grows (w_db s_tasks_world) (w_db (SyncLockOrderFulfillments s_order_conf 9 9 s_tasks_world).2).
Proof. apply sync_never_releases; [apply s_orders_nonneg|apply s_rates_nonneg]. Defined.

(** Nodes that answer a status, well formed or not. *)
Definition node_services (fields : list (string * json)) : Services := {|
  scan_buckets := sample_scan;
  shuffle l := l;
  decrypt_secret s := Some s;
  provider_answer _ _ _ _ := mkResp 200 (BObject fields)
|}.
Definition s_success_data : list (string * json) :=
  [("data", JObj [("status", JStr "success"); ("psp", JStr "psp1"); ("txId", JStr "tx7")])].
Definition s_asked : SyncOrder := mkSync s_lock_order (Some s_provider) [] (Some s_currency).

Lemma s_answered fields : answered (SV := node_services fields) s_asked s_provider s_currency fields.
Proof. split; try reflexivity. by eexists _, _. Qed.

Lemma sync_validates_order_witness :
  db_fulfillments (w_db (sync_one (SV := node_services s_success_data) s_order_conf 9 9 s_asked s_tasks_world).2) =
    [s_fulfillment; mkLOF 1 "tx7" "psp1" VSuccess "" 1000 "o1"].
Proof.
  destruct (sync_validates_order (SV := node_services s_success_data) s_order_conf 9 9 s_asked s_provider s_currency
    s_success_data [("status", JStr "success"); ("psp", JStr "psp1"); ("txId", JStr "tx7")] "psp1" "tx7" s_tasks_world)
    as (_ & H & _); [reflexivity|apply s_answered|reflexivity..|]. exact H.
Defined.

Lemma sync_malformed_answer_panics_witness :
  (sync_orders (SV := node_services [("message", JStr "ok")]) s_order_conf 9 9 [s_asked; s_asked] s_tasks_world).1 = Panic.
Proof.
  apply (sync_malformed_answer_panics (SV := node_services [("message", JStr "ok")]) s_order_conf 9 9 s_asked [s_asked]
    s_provider s_currency [("message", JStr "ok")] s_tasks_world); [reflexivity|apply s_answered|exact I].
Defined.

Lemma reassign_stale_panics_witness :
  (ReassignStaleOrderRequest s_order_conf 9 9 ["order_request_o1"] s_tasks_world).1 = Panic.
Proof. by apply (reassign_stale_panics s_order_conf 9 8 "order_request_o1" [] "o1" s_tasks_world). Defined.

Lemma stale_subscription_never_fires_witness :
  pattern_matches "__keyevent@0__:expired:order_request_*" (keyevent_channel "expired") = false.
Proof. apply stale_subscription_never_fires; [reflexivity|by left]. Defined.

Lemma fetch_forgets_reservations_witness :
  exists pc', db_provider_currencies (w_db (restart_bookings s_prov s_cur (d_int 60) (mkBalance (d_int 40) (d_int 100) d_zero 0)
    (s_world (s_pc 100 0 100) [])).2) !! (s_prov, s_cur) = Some pc' /\ ~ b_consistent pc'.
Proof.
  destruct (fetch_forgets_reservations s_prov s_cur (d_int 60) (s_pc 100 0 100) (mkBalance (d_int 40) (d_int 100) d_zero 0)
    (s_world (s_pc 100 0 100) [])) as (_ & pc' & H1 & _ & _ & H2);
    [reflexivity|reflexivity|reflexivity|vm_compute; discriminate|reflexivity|].
  exists pc'. split; [exact H1|exact H2].
Defined.

(** A gateway that only notes what it is asked to do. *)
Definition s_gateway : OrderService :=
  mkOrderService (fun _ => retM tt) (fun net id => emit (EvRefund (nw_identifier net) id)) (fun id => emit (EvSettle id)).
Lemma market_rate_within_deviation_witness :
  rates_ok s_order_conf (s_db (s_pc 100 1900 2000)) (w_db (ComputeMarketRate s_order_conf s_tasks_world).2).
Proof. exact (proj1 (market_rate_within_deviation s_order_conf s_tasks_world)). Defined.

Lemma stale_settlement_races_witness :
  exists w', rtc (stale_step s_order_conf s_gateway s_gateway) (stale_init s_tasks_world)
    (mkStale (for_each (refund_one s_gateway s_gateway) (refund_list s_order_conf s_tasks_world) w').2
       (refund_list s_order_conf s_tasks_world) 3 (Some (create_list s_tasks_world)) false false (Some (Ret tt))).
Proof.
  destruct (stale_settlement_races s_order_conf s_gateway s_gateway s_tasks_world eq_refl) as [(w' & _ & H) _].
  exists w'. exact H.
Defined.
