(* ===== verification/Calm.v ===== *)
(** * Code that reads and calls out but writes nothing

    [calm P m] says that every run of [m] leaves the database, Redis, the open
    transactions and the clock as they are and ends in an outcome of [P], whatever
    fails.  It is closed under the constructs of the handlers, so [calm_tac] follows
    the code; the calls of [Utils], [Services] and [Orders] that the endpoints and
    the indexing share are calm. *)

From S2P Require Import Prelude Decimal Schema Store Samples Transactions Balance Utils Services Queue QueueSteps Orders.
Local Open Scope go_scope.
Local Open Scope string_scope.
Local Open Scope list_scope.

Section calm.
Context {O : DecimalOps}.

(** Nothing changed but what happened outside and the failures to come. *)
Definition idle (w w' : World) : Prop :=
  w_db w' = w_db w /\ w_redis w' = w_redis w /\ w_txs w' = w_txs w /\ w_now w' = w_now w.

Lemma idle_refl w : idle w w.
Proof. done. Qed.
Lemma idle_trans w1 w2 w3 : idle w1 w2 -> idle w2 w3 -> idle w1 w3.
Proof. unfold idle. intros (?&?&?&?) (?&?&?&?). split_and!; congruence. Qed.
Lemma idle_reads w w' : reads_only w w' -> idle w w'.
Proof. by intros (?&?&?&?&?&?&?). Qed.

(** Every run leaves the state as it is and ends in an outcome of [P]. *)
Definition calm {A} (P : outcome A -> Prop) (m : M A) : Prop := forall w, wp m (fun o w' => idle w w' /\ P o) w.
Definition any {A} (o : outcome A) : Prop := True.

Lemma calm_ret {A} (P : outcome A -> Prop) a : P (Ret a) -> calm P (retM a).
Proof. by intros H w. Qed.
Lemma calm_err {A} (P : outcome A -> Prop) e : P (Err e) -> calm P (errM e).
Proof. by intros H w. Qed.
Lemma calm_panic {A} (P : outcome A -> Prop) : P Panic -> calm P panicM.
Proof. by intros H w. Qed.
Lemma calm_get : calm any getM.
Proof. done. Qed.
Lemma calm_emit e : calm any (emit e).
Proof. done. Qed.
Lemma calm_deref {A} (p : option A) : calm any (deref p).
Proof. by destruct p. Qed.
Lemma calm_div a b : calm any (go_div a b).
Proof. intros w. unfold go_div. by destruct (d_is_zero b). Qed.
Lemma calm_only {A} (l : list A) : calm any (only l).
Proof. by destruct l as [|? []]. Qed.
Lemma calm_first {A} (l : list A) : calm any (first l).
Proof. by destruct l. Qed.
Lemma calm_ext : calm any ext.
Proof. intros w. by apply wp_ext. Qed.
Lemma calm_read : calm any (read_db None).
Proof. intros w. eapply wp_read_db; [reflexivity|done|done]. Qed.
Lemma calm_get_redis : calm any get_redis.
Proof. intros w. by apply wp_get_redis. Qed.

Lemma calm_bind {A B} (P : outcome B -> Prop) (m : M A) (k : A -> M B) :
  calm any m -> (forall a, calm P (k a)) -> (forall e, P (Err e)) -> P Panic -> calm P (bindM m k).
Proof.
  intros Hm Hk He Hp w. apply wp_bind. eapply wp_mono; [apply Hm|]. intros [a|e|] w1 [H1 _]; [|done|done].
  eapply wp_mono; [apply Hk|]. intros o w2 [H2 HP]. split; [by eapply idle_trans|done].
Qed.
Lemma calm_try {A B} (P : outcome B -> Prop) (m : M A) (h : error -> M B) (k : A -> M B) :
  calm any m -> (forall e, calm P (h e)) -> (forall a, calm P (k a)) -> P Panic -> calm P (tryM m h k).
Proof.
  intros Hm Hh Hk Hp w. apply wp_try. eapply wp_mono; [apply Hm|]. intros [a|e|] w1 [H1 _]; [| |done].
  - eapply wp_mono; [apply Hk|]. intros o w2 [H2 HP]. split; [by eapply idle_trans|done].
  - eapply wp_mono; [apply Hh|]. intros o w2 [H2 HP]. split; [by eapply idle_trans|done].
Qed.
Lemma calm_attempt {A} (m : M A) : calm any m -> calm any (attemptM m).
Proof. intros H. apply calm_try; [exact H|intros e; by apply calm_ret|intros a; by apply calm_ret|done]. Qed.
Lemma calm_weaken {A} (P : outcome A -> Prop) (m : M A) : calm P m -> calm any m.
Proof. intros H w. eapply wp_mono; [apply H|]. by intros o w' [? _]. Qed.

End calm.

Create HintDb calm.
#[export] Hint Resolve calm_get calm_emit calm_deref calm_div calm_only calm_first calm_ext calm_read calm_get_redis : calm.

(** Follow the code; the leaves are outcomes and calls that are known to be calm. *)
Ltac calm_tac :=
  repeat first
    [ assumption
    | done
    | solve [auto with calm]
    | apply calm_ret | apply calm_err | apply calm_panic
    | apply calm_attempt
    | apply calm_bind; [|intros ?|intros ?|]
    | apply calm_try; [|intros ?|intros ?|]
    | match goal with |- calm _ (match ?x with _ => _ end) => destruct x end
    | match goal with |- calm _ (let '(_, _) := ?x in _) => destruct x end ].

(** ** Calls *)

Section calls.
Context {O : DecimalOps} {L : DecimalLaws O} {SV : @Services O} {SL : ServicesLaws SV}.

Lemma calm_provider_call p meth path payload : calm any (CallProviderWithHMAC p meth path payload).
Proof. unfold CallProviderWithHMAC. calm_tac. Qed.
Lemma calm_institution code b : calm any (GetInstitutionByCode code b).
Proof. unfold GetInstitutionByCode. calm_tac. Qed.
#[local] Hint Resolve calm_provider_call calm_institution : calm.

Lemma calm_scan c : calm any (scan_buckets c).
Proof. intros w. eapply wp_mono; [apply scan_buckets_reads|]. intros o w' [H _]. by split; [apply idle_reads|]. Qed.
#[local] Hint Resolve calm_scan : calm.
Lemma calm_sufficient p c amount : calm any (query_sufficient p c amount).
Proof. unfold query_sufficient. calm_tac. Qed.
Lemma calm_lrange key : calm any (LRange key).
Proof. unfold LRange. calm_tac. Qed.
#[local] Hint Resolve calm_sufficient calm_lrange : calm.
Lemma calm_rate_in_buckets keys p s amount : calm any (provider_rate_in_buckets keys p s amount).
Proof. induction keys as [|key keys IH]; simpl; calm_tac. Qed.
Lemma calm_find_rate providers s n amount bd : forall best,
  calm any (findSuitableProviderRate_loop providers s n amount bd best).
Proof. induction providers as [|data rest IH]; intros best; simpl; calm_tac. Qed.
#[local] Hint Resolve calm_rate_in_buckets calm_find_rate : calm.
Lemma calm_bucket_rate keys s n amount : forall best, calm any (validateBucketRate_loop keys s n amount best).
Proof. induction keys as [|key keys IH]; intros best; simpl; unfold findSuitableProviderRate; calm_tac. Qed.
#[local] Hint Resolve calm_bucket_rate : calm.
Lemma calm_validate_rate c tk fc amount p n : calm any (ValidateRate (scan_buckets c) tk fc amount p n).
Proof.
  unfold ValidateRate, validateProviderRate, validateBucketRate, getProviderRateFromRedis. calm_tac.
Qed.
Lemma calm_token_rate q c s amount r : calm any (GetTokenRateFromQueue q (scan_buckets c) s amount r).
Proof.
  intros w. eapply wp_mono; [apply (GetTokenRateFromQueue_reads _ _ _ _ _ w); [apply scan_buckets_reads|apply reads_only_refl]|].
  intros o w' H. by split; [apply idle_reads|].
Qed.

End calls.
#[export] Hint Resolve calm_provider_call calm_institution calm_scan calm_sufficient calm_lrange calm_validate_rate calm_token_rate : calm.
