(* ===== verification/Payments.v ===== *)
(** * Payment orders: the builder of ent and updates of rows

    The create builder of a payment order (ent/paymentorder_create.go) with its
    checks, and the inserts of rows that belong to an order.  The sender endpoints
    and the indexing of transfers create orders with it. *)

From S2P Require Import Prelude Decimal Schema Store Samples Transactions Balance Utils Services Queue Orders Rows.
Local Open Scope go_scope.
Local Open Scope string_scope.
Local Open Scope list_scope.

Section payments.
Context {O : DecimalOps} {OS : @OrderServices O}.

(** What a create builder has been told to set.  The code never sets the gateway
    id, the message hash and the status. *)
Record PaymentOrderCreate := mkPOC {
  cp_amount : option dec;
  cp_amount_paid : option dec;
  cp_amount_returned : option dec;
  cp_percent_settled : option dec;
  cp_sender_fee : option dec;
  cp_network_fee : option dec;
  cp_protocol_fee : option dec;
  cp_rate : option dec;
  cp_tx_hash : option string;
  cp_block_number : option Z;
  cp_from_address : option string;
  cp_return_address : option string;
  cp_receive_address_text : option string;
  cp_fee_percent : option dec;
  cp_fee_address : option string;
  cp_reference : option string;
  cp_amount_in_usd : option dec;
  (** edges *)
  cp_token : option Token;
  cp_linked_address : option Z;
  cp_receive_address : option Z;
  cp_transactions : list Z;
  cp_sender_profile : option string
}.

(** [check], in its order. *)
Definition payment_check (c : PaymentOrderCreate) : option error :=
  if missing (cp_amount c) then Some (EValidation "amount")
  else if missing (cp_amount_paid c) then Some (EValidation "amount_paid")
  else if missing (cp_amount_returned c) then Some (EValidation "amount_returned")
  else if missing (cp_percent_settled c) then Some (EValidation "percent_settled")
  else if missing (cp_sender_fee c) then Some (EValidation "sender_fee")
  else if missing (cp_network_fee c) then Some (EValidation "network_fee")
  else if missing (cp_protocol_fee c) then Some (EValidation "protocol_fee")
  else if missing (cp_rate c) then Some (EValidation "rate")
  else if too_long 70 (cp_tx_hash c) then Some (EValidation "tx_hash")
  else if too_long 60 (cp_from_address c) then Some (EValidation "from_address")
  else if too_long 60 (cp_return_address c) then Some (EValidation "return_address")
  else if missing (cp_receive_address_text c) then Some (EValidation "receive_address_text")
  else if too_long 60 (cp_receive_address_text c) then Some (EValidation "receive_address_text")
  else if missing (cp_fee_percent c) then Some (EValidation "fee_percent")
  else if too_long 60 (cp_fee_address c) then Some (EValidation "fee_address")
  else if too_long 70 (cp_reference c) then Some (EValidation "reference")
  else if missing (cp_amount_in_usd c) then Some (EValidation "amount_in_usd")
  else if missing (cp_token c) then Some (EValidation "token")
  else None.

Definition no_recipient : Recipient := mkRecipient "" "" "" "" "" "".

(** The row that the builder describes, defaults applied; its recipient is inserted
    after it. *)
Definition payment_build (id : string) (now : Z) (c : PaymentOrderCreate) (tk : Token) : PaymentOrder :=
  mkPO id (default d_zero (cp_amount c)) (default d_zero (cp_amount_paid c)) (default d_zero (cp_amount_returned c))
    (default d_zero (cp_percent_settled c)) (default d_zero (cp_sender_fee c)) (default d_zero (cp_network_fee c))
    (default d_zero (cp_protocol_fee c)) (default d_zero (cp_rate c)) (default "" (cp_tx_hash c))
    (default 0 (cp_block_number c)) (default "" (cp_from_address c)) (default "" (cp_return_address c))
    (default "" (cp_receive_address_text c)) (default d_zero (cp_fee_percent c)) (default "" (cp_fee_address c))
    "" "" (default "" (cp_reference c)) PInitiated (default d_zero (cp_amount_in_usd c)) tk (cp_linked_address c)
    (cp_receive_address c) no_recipient None (cp_transactions c) (cp_sender_profile c) now now.

(** The insert: the foreign keys must exist, and a receive address belongs to at
    most one order. *)
Definition insert_payment_order (o : PaymentOrder) (d : DB) : error + (DB * PaymentOrder) :=
  if negb (missing (db_payment_orders d !! po_id o)) then inl (EMsg "unique constraint")
  else if match po_sender_profile o with Some s => missing (db_senders d !! s) | None => false end
  then inl (EMsg "foreign key constraint")
  else if match po_linked_address o with
          | Some l => negb (existsb (fun a => (la_id a =? l)%Z) (db_linked_addresses d)) | None => false end
  then inl (EMsg "foreign key constraint")
  else if match po_receive_address o with
          | Some a => missing (db_receive_addresses d !! a) ||
                      existsb (fun o' => bool_decide (po_receive_address o' = Some a)) (payment_rows d)
          | None => false end
  then inl (EMsg "constraint")
  else inr (set_payment_orders (<[po_id o := o]> (db_payment_orders d)) d, o).

(** [Save]: nothing is sent to the database when a check fails. *)
Definition payment_save (h : handle) (c : PaymentOrderCreate) : M PaymentOrder :=
  match payment_check c, cp_token c with
  | Some e, _ => errM e
  | None, None => errM (EValidation "token")
  | None, Some tk =>
      let! w := getM in
      modify_db h (insert_payment_order (payment_build (new_uuid w) (w_now w) c tk))
  end.

Definition set_webhook (id : string) (o : PaymentOrder) : PaymentOrder :=
  mkPO (po_id o) (po_amount o) (po_amount_paid o) (po_amount_returned o) (po_percent_settled o) (po_sender_fee o)
    (po_network_fee o) (po_protocol_fee o) (po_rate o) (po_tx_hash o) (po_block_number o) (po_from_address o)
    (po_return_address o) (po_receive_address_text o) (po_fee_percent o) (po_fee_address o) (po_gateway_id o)
    (po_message_hash o) (po_reference o) (po_status o) (po_amount_in_usd o) (po_token o) (po_linked_address o)
    (po_receive_address o) (po_recipient o) (Some id) (po_transactions o) (po_sender_profile o) (po_created_at o)
    (po_updated_at o).
Definition set_recipient (r : Recipient) (o : PaymentOrder) : PaymentOrder :=
  mkPO (po_id o) (po_amount o) (po_amount_paid o) (po_amount_returned o) (po_percent_settled o) (po_sender_fee o)
    (po_network_fee o) (po_protocol_fee o) (po_rate o) (po_tx_hash o) (po_block_number o) (po_from_address o)
    (po_return_address o) (po_receive_address_text o) (po_fee_percent o) (po_fee_address o) (po_gateway_id o)
    (po_message_hash o) (po_reference o) (po_status o) (po_amount_in_usd o) (po_token o) (po_linked_address o)
    (po_receive_address o) r (po_payment_webhook o) (po_transactions o) (po_sender_profile o) (po_created_at o)
    (po_updated_at o).

(** The insert of a row with an edge to the order: the order must exist. *)
Definition with_order (h : handle) (id : string) (f : PaymentOrder -> PaymentOrder) : M unit :=
  modify_db h (fun d =>
    match db_payment_orders d !! id with
    | None => inl (EMsg "foreign key constraint")
    | Some o => inr (set_payment_orders (<[id := f o]> (db_payment_orders d)) d, tt)
    end).

End payments.

Section payments_spec.
Context {O : DecimalOps} {OS : @OrderServices O}.

Definition put_order (o : PaymentOrder) (id : string) (d : DB) : DB :=
  set_payment_orders (<[id := o]> (db_payment_orders d)) d.

Lemma insert_payment_inr o d d' o' :
  insert_payment_order o d = inr (d', o') ->
  o' = o /\ d' = put_order o (po_id o) d /\ db_payment_orders d !! po_id o = None /\
  forall a, po_receive_address o = Some a -> forall o'', o'' ∈ payment_rows d -> po_receive_address o'' <> Some a.
Proof.
  unfold insert_payment_order. destruct (db_payment_orders d !! po_id o) eqn:E; [done|]. cbn [missing negb].
  repeat (case_match; try done); intros [= <- <-]; (split_and!; [done|done|done|]); intros a Ha; simplify_eq;
    intros o'' Hin Heq;
    match goal with H : _ || existsb _ _ = false |- _ => apply orb_false_iff in H as [_ H]; apply not_true_iff_false in H end;
    match goal with H : existsb _ _ <> true |- _ => apply H end;
    apply existsb_exists; exists o''; (split; [by apply list_elem_of_In|by apply bool_decide_eq_true_2]).
Qed.

Lemma with_order_in w0 tx d id f o (Q : outcome unit -> World -> Prop) w :
  in_tx w0 tx d w -> db_payment_orders d !! id = Some o ->
  (forall w', in_tx w0 tx (put_order (f o) id d) w' -> Q (Ret tt) w') ->
  (forall w', in_tx w0 tx d w' -> Q (Err EFault) w') -> wp (with_order (Some tx) id f) Q w.
Proof.
  intros H Ho Hok Hbad. unfold with_order. eapply wp_in_modify; [exact H| |exact Hbad]. by rewrite Ho.
Qed.

End payments_spec.
