(* ===== verification/Sender.v ===== *)
(** * The sender endpoints (controllers/sender/sender.go)

    Initiation of a payment order, its parts in the order of the code, and what a
    sender reads: its orders and its statistics; with [ValidateAccount] and
    [IsValidTronAddress] of utils/utils.go and [CreateTransferWebhook] of
    services/engine.go, which only the initiation calls.  A part that can end the
    request returns the answer or its result.  Formatted messages keep their
    constant part. *)

From S2P Require Import Prelude Decimal Schema Store Samples Transactions Balance Utils Services Queue Orders Rows Payments Http.
Local Open Scope go_scope.
Local Open Scope string_scope.
Local Open Scope list_scope.

(** [x, ok := m; if !ok { return }; k], where the failing side has answered. *)
Notation "'let*' x ':=' m 'in' k" :=
  (bindM m (fun r => match r with inl response => retM response | inr x => k end))
  (at level 10, x name, m at level 100, k at level 200) : go_scope.
(** The same inside a part. *)
Notation "'let**' x ':=' m 'in' k" :=
  (bindM m (fun r => match r with inl response => retM (inl response) | inr x => k end))
  (at level 10, x name, m at level 100, k at level 200) : go_scope.

(** What the initiation reaches beyond the database, Redis and provider nodes. *)
Class SenderServices `{O : DecimalOps} := {
  (** [base58check.Decode] succeeds *)
  base58check_ok : string -> bool;
  (** a fresh Tron wallet with its encrypted key; [None] when encryption fails *)
  tron_wallet : World -> option (string * string);
  (** the answer to the creation of a transfer webhook for an order *)
  insight_answer : World -> Z -> string -> HttpResponse;
  (** whether the account check reports before the rate check *)
  account_first : World -> bool
}.

(** The configuration of the server that the initiation reads. *)
Record SenderConf := mkSenderConf { sc_use_alchemy : bool; sc_server_url : string }.

(** ** Payloads and answers (types/types.go) *)

Section payloads.
Context {O : DecimalOps}.

Record NewPaymentOrderPayload := mkNPO {
  np_amount : dec;
  np_token : string;
  np_rate : dec;
  np_network : string;
  np_recipient : PaymentOrderRecipient;
  np_reference : string;
  np_return_address : string;
  np_fee_percent : dec;
  np_fee_address : string
}.

Record ReceiveAddressResponse := mkRAR {
  rr_id : string;
  rr_amount : dec;
  rr_token : string;
  rr_network : string;
  rr_receive_address : string;
  rr_valid_until : Z;
  rr_sender_fee : dec;
  rr_transaction_fee : dec;
  rr_reference : string
}.

(** The data of an error: [ErrorData], or a map of strings. *)
Inductive ErrorInfo := FieldError (field message : string) | ContextInfo (fields : list (string * string)).

Record PaymentOrderResponse := mkPORS {
  pr_id : string;
  pr_amount : dec;
  pr_amount_in_usd : dec;
  pr_amount_paid : dec;
  pr_amount_returned : dec;
  pr_token : string;
  pr_sender_fee : dec;
  pr_transaction_fee : dec;
  pr_rate : dec;
  pr_network : string;
  pr_gateway_id : string;
  pr_recipient : PaymentOrderRecipient;
  pr_from_address : string;
  pr_return_address : string;
  pr_receive_address : string;
  pr_fee_address : string;
  pr_reference : string;
  pr_created_at : Z;
  pr_updated_at : Z;
  pr_tx_hash : string;
  pr_status : PayStatus;
  (** the logs, when the endpoint loads them *)
  pr_transactions : option (list TransactionLog)
}.

Record SenderPaymentOrderList := mkSPOL {
  sl_total : Z;
  sl_page : Z;
  sl_page_size : Z;
  sl_orders : list PaymentOrderResponse
}.

Record SenderStatsResponse := mkSSR { ss_total_orders : Z; ss_total_volume : dec; ss_total_fees : dec }.

End payloads.

Section sender.
Context {O : DecimalOps} {OS : @OrderServices O} {SV : @Services O} {HS : HttpServices} {SS : @SenderServices O}.
Variable conf : Config.
Variable sconf : SenderConf.

(** ** Validation of the payload *)

Definition InitiateResponse : Type := ApiResponse (ErrorInfo + ReceiveAddressResponse).

Definition answer {A} (code : Z) (message : string) (info : option ErrorInfo) : M (InitiateResponse + A) :=
  retM (inl (mkResponse code "error" message (inl <$> info))).
Definition invalid {A} (field message : string) : M (InitiateResponse + A) :=
  answer 400 "Failed to validate payload" (Some (FieldError field message)).
Definition init_failed {A} (info : list (string * string)) : M (InitiateResponse + A) :=
  answer 500 "Failed to initiate payment order" (match info with [] => None | _ => Some (ContextInfo info) end).

Definition token_offered (symbol network : string) (t : Token) : bool :=
  String.eqb (tk_symbol t) symbol && String.eqb (nw_identifier (tk_network t)) network && tk_is_enabled t.

Definition find_token (symbol network : string) : M (InitiateResponse + Token) :=
  let? tk := (let! d := read_db None in only (List.filter (token_offered symbol network) (db_tokens d)))
  orelse e => (if IsNotFound e then invalid "Token" "Provided token is not supported"
               else answer 500 "Failed to fetch token" None) in
  retM (inr tk).

Definition IsValidTronAddress (address : string) : bool :=
  if negb (String.length address =? 34)%nat || negb (HasPrefix address "T") then false
  else base58check_ok address.

(** The format of an address on the network, and the message when it is wrong. *)
Definition address_error (network address : string) : option string :=
  if negb (HasPrefix network "tron")
  then if IsValidEthereumAddress address then None else Some "Invalid Ethereum address"
  else if IsValidTronAddress address then None else Some "Invalid Tron address".

(** The fee the order is charged: a partner may override the configured one. *)
Definition fee_terms (sender : SenderProfile) (payload : NewPaymentOrderPayload) (so : SenderOrderToken)
    : M (InitiateResponse + dec * string) :=
  if String.eqb (np_fee_address payload) "" then retM (inr (so_fee_percent so, so_fee_address so))
  else if negb (sp_is_partner sender) then invalid "FeeAddress" "FeeAddress is not allowed"
  else if d_is_zero (np_fee_percent payload) then invalid "FeePercent" "FeePercent must be greater than zero"
  else match address_error (np_network payload) (np_fee_address payload) with
       | Some message => invalid "FeeAddress" message
       | None => retM (inr (np_fee_percent payload, np_fee_address payload))
       end.

Definition return_address (payload : NewPaymentOrderPayload) (so : SenderOrderToken) : M (InitiateResponse + string) :=
  if String.eqb (np_return_address payload) "" then retM (inr (so_refund_address so))
  else match address_error (np_network payload) (np_return_address payload) with
       | Some message => invalid "ReturnAddress" message
       | None => retM (inr (np_return_address payload))
       end.

(** The sender's configuration of the token with the overrides of the payload:
    fee percentage, fee address and return address. *)
Definition sender_terms (sender : SenderProfile) (payload : NewPaymentOrderPayload) (tk : Token)
    : M (InitiateResponse + dec * string * string) :=
  let? so := (let! d := read_db None in
              only (List.filter (fun s => (so_token s =? tk_id tk)%Z && String.eqb (so_sender s) (sp_id sender))
                      (db_sender_tokens d)))
  orelse e => (invalid "Token" "Provided token is not configured") in
  if String.eqb (so_fee_address so) "" || String.eqb (so_refund_address so) ""
  then invalid "Token" "Fee address or refund address is not configured"
  else
    let** fee := fee_terms sender payload so in
    let** ret := return_address payload so in
    retM (inr (fst fee, snd fee, ret)).

(** [^\[a-zA-Z0-9\-_\]+$] *)
Definition reference_char (a : ascii) : bool :=
  in_range "a" "z" a || in_range "A" "Z" a || in_range "0" "9" a || Ascii.eqb a "-" || Ascii.eqb a "_".
Definition valid_reference (s : string) : bool :=
  negb (String.eqb s "") && forallb reference_char (String.list_ascii_of_string s).

(** References are unique among the orders of all senders. *)
Definition check_reference (reference : string) : M (InitiateResponse + unit) :=
  if String.eqb reference "" then retM (inr tt)
  else if negb (valid_reference reference) then invalid "Reference" "Reference must be alphanumeric"
  else
    let? d := read_db None orelse e => (init_failed [("context", "reference_check")]) in
    if existsb (fun o => String.eqb (po_reference o) reference) (payment_rows d)
    then invalid "Reference" "Reference already exists"
    else retM (inr tt).

(** The institution with its currency; the edge is dereferenced without a check,
    and it is nil when the currency is disabled. *)
Definition find_institution (code : string) (tk : Token) : M (InitiateResponse + Institution * FiatCurrency) :=
  let? res := (let! d := read_db None in
               let! i := first (List.filter (fun i => String.eqb (in_code i) code) (db_institutions d)) in
               retM (i, c ← in_fiat_currency i; fc ← db_currencies d !! c; if fc_is_enabled fc then Some fc else None))
  orelse e => (if IsNotFound e then invalid "Recipient" "Provided institution is not supported"
               else answer 500 "Failed to validate institution" (Some (ContextInfo [("context", "institution_fetch")]))) in
  let! fc := deref (snd res) in
  if negb (EqualFold (tk_base_currency tk) (fc_code fc)) && negb (EqualFold (tk_base_currency tk) "USD")
  then answer 400 (tk_symbol tk +:+ " can only be converted to " +:+ tk_base_currency tk) None
  else retM (inr (fst res, fc)).

(** *** The account *)

Definition can_verify (d : DB) (currency : string) (p : ProviderProfile) : bool :=
  has_available_currency d (pp_id p) currency && negb (String.eqb (pp_host_identifier p) "") && pp_is_active p &&
  bool_decide (pp_visibility_mode p = VisPublic).

(** The first provider that names the account; errors of a provider are logged. *)
Fixpoint verify_with (providers : list ProviderProfile) (institution account : string) : M string :=
  match providers with
  | [] => errM (EMsg "failed to verify account with any provider")
  | p :: rest =>
      let? data := CallProviderWithHMAC (pp_id p) "POST" "/verify_account"
                     (<["institution" := institution]> {["accountIdentifier" := account]})
      orelse e => (verify_with rest institution account) in
      match json_get "data" data with
      | Some (JStr name) =>
          if negb (String.eqb name "") && negb (String.eqb name "OK") then retM name
          else verify_with rest institution account
      | _ => verify_with rest institution account
      end
  end.

Definition ValidateAccount (institutionCode accountIdentifier : string) : M string :=
  let? res := GetInstitutionByCode institutionCode true
  orelse e => (errM (EMsg (if IsNotFound e then "institution is not supported" else "failed to fetch institution"))) in
  if bool_decide (in_type (fst res) = IMobileMoney) then retM "OK"
  else
    let! fc := deref (snd res) in
    let? d := read_db None orelse e => (errM (EMsg "failed to fetch providers")) in
    match List.filter (can_verify d (fc_code fc)) (map snd (map_to_list (db_providers d))) with
    | [] => errM (EMsg "no available providers found for currency")
    | providers => verify_with providers institutionCode accountIdentifier
    end.

(** *** Account and rate *)

(** The two goroutines run to their end; the results are looked at in the order in
    which they arrive, and the first error answers. *)
Definition validate_both (payload : NewPaymentOrderPayload) (tk : Token) (fc : FiatCurrency)
    : M (InitiateResponse + string * dec) :=
  let recipient := np_recipient payload in
  let account := attemptM (ValidateAccount (rc_institution recipient) (rc_account_identifier recipient)) in
  let rate := attemptM (ValidateRate (scan_buckets (fc_code fc)) tk fc (np_amount payload)
                          (rc_provider_id recipient) (np_network payload)) in
  let bad_account := invalid "Recipient" "Account validation failed" in
  let bad_rate := invalid "Rate" "Rate validation failed" in
  let! w := getM in
  if account_first w then
    let! a := account in
    let! r := rate in
    match a, r with
    | inl _, _ => bad_account
    | inr _, inl _ => bad_rate
    | inr name, inr rate => retM (inr (name, rate))
    end
  else
    let! r := rate in
    let! a := account in
    match r, a with
    | inl _, _ => bad_rate
    | inr _, inl _ => bad_account
    | inr rate, inr name => retM (inr (name, rate))
    end.

(** The validated account name; the rate must not be below the achievable one by
    more than a thousandth. *)
Definition validate_quote (payload : NewPaymentOrderPayload) (tk : Token) (fc : FiatCurrency)
    : M (InitiateResponse + string) :=
  let** both := validate_both payload tk fc in
  let achievableRate := snd both in
  let tolerance := d_mul achievableRate (d_new 1 (-3)) in
  if d_lt (np_rate payload) (d_sub achievableRate tolerance)
  then invalid "Rate" "Provided rate is not achievable"
  else retM (inr (fst both)).

(** *** The named provider *)

Definition provider_token_for (p : string) (tk : Token) (currency : string) (t : ProviderOrderToken) : bool :=
  String.eqb (pot_network t) (nw_identifier (tk_network tk)) && String.eqb (pot_provider t) p &&
  (tk_id (pot_token t) =? tk_id tk)%Z && String.eqb (pot_currency t) currency.

(** The amount in the unit of a provider's limits. *)
Definition amount_for_limits (qfuel : nat) (payload : NewPaymentOrderPayload) (tk : Token) (fc : FiatCurrency)
    : M (InitiateResponse + dec) :=
  if EqualFold (tk_base_currency tk) (fc_code fc) && negb (String.eqb (tk_base_currency tk) "USD") then
    let? rate := GetTokenRateFromQueue qfuel (scan_buckets (fc_code fc)) "USDT" (np_amount payload) (fc_market_rate fc)
    orelse e => (init_failed [("context", "token_rate_queue")]) in
    let! amount := go_div (np_amount payload) rate in
    retM (inr amount)
  else retM (inr (np_amount payload)).

(** The amount must suit a private provider. *)
Definition check_provider (qfuel : nat) (payload : NewPaymentOrderPayload) (tk : Token) (fc : FiatCurrency)
    : M (InitiateResponse + unit) :=
  let p := rc_provider_id (np_recipient payload) in
  if String.eqb p "" then retM (inr tt)
  else
    let? res := (let! d := read_db None in
                 let! t := only (List.filter (provider_token_for p tk (fc_code fc)) (db_order_tokens d)) in
                 retM (t, db_providers d !! pot_provider t))
    orelse e => (if IsNotFound e
                 then invalid "Recipient" "The specified provider does not support the selected token"
                 else answer 500 "Failed to fetch provider settings" None) in
    let! provider := deref (snd res) in
    if bool_decide (pp_visibility_mode provider = VisPrivate) then
      let** amount := amount_for_limits qfuel payload tk fc in
      if d_lt amount (pot_min_order_amount (fst res))
      then answer 400 "The amount is below the minimum order amount for the specified provider" None
      else if d_gt amount (pot_max_order_amount (fst res))
      then answer 400 "The amount is beyond the maximum order amount for the specified provider" None
      else retM (inr tt)
    else retM (inr tt).

(** ** The receive address *)

(** [ReceiveAddress.Create()...Save]: the next id. *)
Definition create_address (row : Z -> ReceiveAddress) : M ReceiveAddress :=
  modify_db None (fun d =>
    let a := row (db_next_id d) in
    inr (set_next_id (db_next_id d + 1)
           (set_receive_addresses (<[db_next_id d := a]> (db_receive_addresses d)) d), a)).

Definition CreateTronAddress : M (string * string) :=
  let! w := getM in
  match tron_wallet w with
  | Some wallet => retM wallet
  | None => errM (EMsg "failed to encrypt salt")
  end.

Definition tron_row (address salt : string) (validUntil id : Z) : ReceiveAddress :=
  mkRA id address AUnused false "" 0 0 0 0 0 0 "" validUntil salt.
Definition order_row (pool : ReceiveAddress) (now validUntil id : Z) : ReceiveAddress :=
  mkRA id (ra_address pool) APoolAssigned true (ra_network_identifier pool) (ra_chain_id pool) now 0 0 0 0 ""
    validUntil "".
Definition count_use (times now : Z) (a : ReceiveAddress) : ReceiveAddress :=
  mkRA (ra_id a) (ra_address a) (ra_status a) (ra_is_deployed a) (ra_network_identifier a) (ra_chain_id a)
    (ra_assigned_at a) (ra_recycled_at a) times (ra_last_indexed_block a) now (ra_tx_hash a) (ra_valid_until a)
    (ra_salt a).

Definition in_pool (network : string) (a : ReceiveAddress) : bool :=
  bool_decide (ra_status a = APoolReady) && ra_is_deployed a && String.eqb (ra_network_identifier a) network.
Definition address_rows (d : DB) : list ReceiveAddress := map snd (map_to_list (db_receive_addresses d)).

(** The least used address of the pool; a new row for the order with the same
    address; the use is counted from what was read, and a failure of it is
    logged. *)
Definition pool_address (network : string) : M (InitiateResponse + ReceiveAddress) :=
  let? pool := (let! d := read_db None in
                first (ordered ra_times_used true (List.filter (in_pool network) (address_rows d))))
  orelse e => (if IsNotFound e
               then answer 503 "No receive addresses available in pool. Please contact support."
                      (Some (ContextInfo [("network", network);
                        ("message", "Address pool is empty. Add addresses using pool management tools.")]))
               else answer 500 "Failed to query address pool" (Some (ContextInfo [("network", network)]))) in
  let! w := getM in
  let? a := create_address (order_row pool (w_now w) (w_now w + cf_receive_address_validity conf))
  orelse e => (init_failed []) in
  do! logged (modify_db None (fun d =>
        match db_receive_addresses d !! ra_id pool with
        | None => inl ENotFound
        | Some row => inr (set_receive_addresses
            (<[ra_id pool := count_use (ra_times_used pool + 1) (w_now w) row]> (db_receive_addresses d)) d, tt)
        end)) in
  retM (inr a).

Definition tron_address : M (InitiateResponse + ReceiveAddress) :=
  let? wallet := CreateTronAddress orelse e => (init_failed [("context", "create_tron_address")]) in
  let! w := getM in
  let? a := create_address (tron_row (fst wallet) (snd wallet) (w_now w + cf_receive_address_validity conf))
  orelse e => (init_failed []) in
  retM (inr a).

(** The address of the order as the handler holds it.  For a private order its
    validity is cleared there; the row keeps it. *)
Definition receive_address (payload : NewPaymentOrderPayload) (tk : Token) : M (InitiateResponse + ReceiveAddress) :=
  let** a := (if HasPrefix (np_network payload) "tron" then tron_address
              else pool_address (nw_identifier (tk_network tk))) in
  retM (inr (if HasPrefix (rc_memo (np_recipient payload)) "P#P" then set_valid_until 0 a else a)).

(** ** The order *)

(** [Amount], [FeePercent] and [Rate] of the request with what was derived. *)
Definition order_builder (sender : SenderProfile) (payload : NewPaymentOrderPayload) (tk : Token)
    (terms : dec * string * string) (senderFee usd : dec) (a : ReceiveAddress) (log : Z) : PaymentOrderCreate :=
  let '(feePercent, feeAddress, returnAddress) := terms in
  mkPOC (Some (np_amount payload)) (Some (d_int 0)) (Some (d_int 0)) (Some (d_int 0)) (Some senderFee)
    (Some (nw_fee (tk_network tk))) (Some (d_int 0)) (Some (np_rate payload)) None None None (Some returnAddress)
    (Some (ra_address a)) (Some feePercent) (Some feeAddress) (Some (np_reference payload)) (Some usd) (Some tk) None
    (Some (ra_id a)) [log] (Some (sp_id sender)).

(** The request to the chain service and its answer. *)
Definition CreateTransferWebhook (chainID : Z) (toAddress orderID : string) : M (string * string) :=
  if (chainID =? 56)%Z || (chainID =? 1135)%Z then errM (EMsg "webhook creation not supported")
  else
    do? ext orelse e => (errM (EWrap "failed to create transfer webhook" e)) in
    let! w := getM in
    do! emit (EvTransferWebhook orderID toAddress) in
    match ParseJSONResponse (insight_answer w chainID orderID) with
    | (Some e, _) => errM (EWrap "failed to parse JSON response" e)
    | (None, data) =>
        match json_get "data" data with
        | Some (JObj fields) =>
            match json_get "id" fields, json_get "webhook_secret" fields with
            | Some (JStr id), Some (JStr secret) => retM (id, secret)
            | Some (JStr _), _ => errM (EMsg "invalid response structure: missing or invalid 'webhook_secret' field")
            | _, _ => errM (EMsg "invalid response structure: missing or invalid 'id' field")
            end
        | _ => errM (EMsg "invalid response structure: missing 'data' field")
        end
    end.

(** [PaymentWebhook.Create()...Save]; of the row the model keeps the id. *)
Definition webhook_save (h : handle) (order webhookID secret : string) : M unit :=
  let url := sc_server_url sconf +:+ "/v1/insight/webhook" in
  if String.eqb webhookID "" || too_long 100 (Some webhookID) then errM (EValidation "webhook_id")
  else if String.eqb secret "" || too_long 100 (Some secret) then errM (EValidation "webhook_secret")
  else if too_long 255 (Some url) then errM (EValidation "callback_url")
  else with_order h order (set_webhook webhookID).

(** The webhook that watches the address; [true] when the request has to end. *)
Definition watch_address (tx : nat) (payload : NewPaymentOrderPayload) (tk : Token) (a : ReceiveAddress) (order : string)
    : M bool :=
  if negb (HasPrefix (np_network payload) "tron") && negb (sc_use_alchemy sconf) then
    let chainID := nw_chain_id (tk_network tk) in
    let? created := CreateTransferWebhook chainID (ra_address a) order
    orelse e => (retM (negb (chainID =? 56)%Z && negb (chainID =? 1135)%Z)) in
    do? webhook_save (Some tx) order (fst created) (snd created) orelse e => (retM true) in
    retM false
  else retM false.

Definition order_recipient (payload : NewPaymentOrderPayload) (accountName : string) : Recipient :=
  let r := np_recipient payload in
  mkRecipient (rc_institution r) (rc_account_identifier r) accountName (rc_memo r) (rc_provider_id r) (rc_metadata r).

Definition sender_fee (feePercent amount : dec) : dec := d_round (d_div (d_mul feePercent amount) (d_int 100)) 4.

(** The order and its log, its webhook and its recipient, in one transaction. *)
Definition store_payment_order (sender : SenderProfile) (payload : NewPaymentOrderPayload) (tk : Token)
    (terms : dec * string * string) (ins : Institution) (fc : FiatCurrency) (accountName : string) (a : ReceiveAddress)
    : M (InitiateResponse + PaymentOrder) :=
  let? tx := begin_tx orelse e => (init_failed []) in
  let failed : M (InitiateResponse + PaymentOrder) := do! rollback_tx tx in init_failed [] in
  let senderFee := sender_fee (fst (fst terms)) (np_amount payload) in
  let? log := create_log (Some tx) TOrderInitiated (nw_identifier (tk_network tk))
                (json_text [("ReceiveAddress", ra_address a); ("SenderID", sp_id sender)]) orelse e => (failed) in
  let! usd := amount_in_usd (np_amount payload) tk ins (Some fc) in
  let? order := payment_save (Some tx) (order_builder sender payload tk terms senderFee usd a log) orelse e => (failed) in
  let! ends := watch_address tx payload tk a (po_id order) in
  if ends then failed
  else
    do? with_order (Some tx) (po_id order) (set_recipient (order_recipient payload accountName)) orelse e => (failed) in
    do? commit_tx tx orelse e => (init_failed []) in
    retM (inr order).

Definition InitiatePaymentOrder (qfuel : nat) (bound : option NewPaymentOrderPayload) (sender : option SenderProfile)
    : M InitiateResponse :=
  match bound, sender with
  | None, _ => retM (mkResponse 400 "error" "Failed to validate payload" None)
  | Some _, None => retM (mkResponse 401 "error" "Invalid API key or token" None)
  | Some payload, Some sender =>
      let* tk := find_token (np_token payload) (np_network payload) in
      let* terms := sender_terms sender payload tk in
      let* u := check_reference (np_reference payload) in
      let* ins := find_institution (rc_institution (np_recipient payload)) tk in
      let* accountName := validate_quote payload tk (snd ins) in
      let* u := check_provider qfuel payload tk (snd ins) in
      let* a := receive_address payload tk in
      let* order := store_payment_order sender payload tk terms (fst ins) (snd ins) accountName a in
      retM (mkResponse 201 "success" "Payment order initiated successfully" (Some (inr
        (mkRAR (po_id order) (po_amount order) (np_token payload) (nw_identifier (tk_network tk)) (ra_address a)
           (ra_valid_until a) (sender_fee (fst (fst terms)) (np_amount payload)) (nw_fee (tk_network tk))
           (po_reference order)))))
  end.

(** ** Reading *)

Definition owned_by (sender : SenderProfile) (o : PaymentOrder) : bool :=
  bool_decide (po_sender_profile o = Some (sp_id sender)).

Definition response_recipient (o : PaymentOrder) (ins : Institution) (fc : FiatCurrency) : PaymentOrderRecipient :=
  let r := po_recipient o in
  mkPOR (in_name ins) (re_account_identifier r) (re_account_name r) (re_memo r) (re_provider_id r) "" (fc_code fc) "".

Definition payment_response (transactions : option (list TransactionLog)) (o : PaymentOrder) (ins : Institution)
    (fc : FiatCurrency) : PaymentOrderResponse :=
  mkPORS (po_id o) (po_amount o) (po_amount_in_usd o) (po_amount_paid o) (po_amount_returned o)
    (tk_symbol (po_token o)) (po_sender_fee o) (po_network_fee o) (po_rate o)
    (nw_identifier (tk_network (po_token o))) (po_gateway_id o) (response_recipient o ins fc) (po_from_address o)
    (po_return_address o) (po_receive_address_text o) (po_fee_address o) (po_reference o) (po_created_at o)
    (po_updated_at o) (po_tx_hash o) (po_status o) transactions.

(** By id when the parameter is a UUID, by reference otherwise. *)
Definition requested_order (param : string) (o : PaymentOrder) : bool :=
  match parse_uuid param with
  | Some id => String.eqb (po_id o) id
  | None => String.eqb (po_reference o) param
  end.

Definition GetPaymentOrderByID (param : string) (sender : option SenderProfile) : M (ApiResponse PaymentOrderResponse) :=
  match sender with
  | None => api_error 401 "Invalid API key or token"
  | Some sender =>
      let? res := (let! d := read_db None in
                   let! o := only (List.filter (fun o => requested_order param o && owned_by sender o) (payment_rows d)) in
                   retM (d, o))
      orelse e => (if IsNotFound e then api_error 404 "Payment order not found"
                   else api_error 500 "Failed to fetch payment order") in
      let '(d, o) := res in
      let transactions := List.filter (fun l => existsb (Z.eqb (tl_id l)) (po_transactions o)) (db_tx_logs d) in
      let? ins := GetInstitutionByCode (re_institution (po_recipient o)) false
      orelse e => (api_error 500 "Failed to fetch payment order") in
      let! fc := deref (snd ins) in
      api_success 200 "The order has been successfully retrieved" (payment_response (Some transactions) o (fst ins) fc)
  end.

(** [statusMap]; other values do not filter. *)
Definition payment_status_filter (param : string) : option PayStatus :=
  if String.eqb param "initiated" then Some PInitiated
  else if String.eqb param "pending" then Some PPending
  else if String.eqb param "expired" then Some PExpired
  else if String.eqb param "settled" then Some PSettled
  else if String.eqb param "refunded" then Some PRefunded
  else None.

(** The value of a filter that names an existing row. *)
Definition known_filter (param : string) (known : DB -> bool) : M (option string) :=
  if String.eqb param "" then retM None
  else let! d := read_db None in retM (if known d then Some param else None).

Definition listed_payment (sender : SenderProfile) (st : option PayStatus) (token network : option string)
    (o : PaymentOrder) : bool :=
  owned_by sender o &&
  match st with Some st => bool_decide (po_status o = st) | None => true end &&
  match token with Some s => String.eqb (tk_symbol (po_token o)) s | None => true end &&
  match network with Some s => String.eqb (nw_identifier (tk_network (po_token o))) s | None => true end.

Fixpoint payment_responses (orders : list PaymentOrder) : M (list PaymentOrderResponse) :=
  match orders with
  | [] => retM []
  | o :: rest =>
      let! ins := GetInstitutionByCode (re_institution (po_recipient o)) false in
      let! fc := deref (snd ins) in
      let! responses := payment_responses rest in
      retM (payment_response None o (fst ins) fc :: responses)
  end.

Definition GetPaymentOrders (sender : option SenderProfile) (ordering : string) (page pageSize : option Z)
    (status token network : string) : M (ApiResponse SenderPaymentOrderList) :=
  match sender with
  | None => api_error 401 "Invalid API key or token"
  | Some sender =>
      let failed : M (ApiResponse SenderPaymentOrderList) := api_error 500 "Failed to fetch payment orders" in
      let '(page, offset, pageSize) := Paginate page pageSize in
      let? token := known_filter token (fun d => existsb (fun t => String.eqb (tk_symbol t) token) (db_tokens d))
      orelse e => (failed) in
      let? network := known_filter network
                        (fun d => existsb (fun n => String.eqb (nw_identifier n) network) (db_networks d))
      orelse e => (failed) in
      let query := listed_payment sender (payment_status_filter status) token network in
      let? d := read_db None orelse e => (failed) in
      let count := Z.of_nat (length (List.filter query (payment_rows d))) in
      let? rows := (let! d := read_db None in
                    page_rows po_created_at (String.eqb ordering "asc") offset pageSize
                      (List.filter query (payment_rows d)))
      orelse e => (failed) in
      let? orders := payment_responses rows orelse e => (failed) in
      api_success 200 "Payment orders retrieved successfully" (mkSPOL count page pageSize orders)
  end.

(** *** Statistics *)

Definition settled_with_base (sender : SenderProfile) (usd : bool) (o : PaymentOrder) : bool :=
  owned_by sender o && Bool.eqb (String.eqb (tk_base_currency (po_token o)) "USD") usd &&
  bool_decide (po_status o = PSettled).

(** [Sum(field)]; no rows give zero. *)
Definition sum_field (field : PaymentOrder -> dec) (l : list PaymentOrder) : dec :=
  foldl (fun s o => d_add s (field o)) d_zero l.

(** Volume and fees of orders in local stablecoins, in dollars. *)
Fixpoint local_volume (orders : list PaymentOrder) (sum fees : dec) : M (dec * dec) :=
  match orders with
  | [] => retM (sum, fees)
  | o :: rest =>
      let! ins := GetInstitutionByCode (re_institution (po_recipient o)) false in
      let! fc := deref (snd ins) in
      let! amount := go_div (po_amount o) (fc_market_rate fc) in
      let! fee := (if d_gt (po_sender_fee o) d_zero then go_div (po_sender_fee o) (fc_market_rate fc)
                   else retM (po_sender_fee o)) in
      local_volume rest (d_add sum amount) (d_add fees fee)
  end.

Definition SenderStats (sender : option SenderProfile) : M (ApiResponse SenderStatsResponse) :=
  match sender with
  | None => api_error 401 "Invalid API key or token"
  | Some sender =>
      let failed : M (ApiResponse SenderStatsResponse) := api_error 500 "Failed to fetch sender stats" in
      let? d := read_db None orelse e => (failed) in
      let usd := List.filter (settled_with_base sender true) (payment_rows d) in
      let? d := read_db None orelse e => (failed) in
      let? local := local_volume (List.filter (settled_with_base sender false) (payment_rows d)) d_zero d_zero
      orelse e => (failed) in
      let? d := read_db None orelse e => (failed) in
      api_success 200 "Sender stats retrieved successfully"
        (mkSSR (Z.of_nat (length (List.filter (owned_by sender) (payment_rows d))))
           (d_add (sum_field po_amount usd) (fst local)) (d_add (sum_field po_sender_fee usd) (snd local)))
  end.

End sender.
