(* ===== verification/SenderClaims.v ===== *)
(** * Theorems about the sender endpoints

    The parts of the initiation before its writes are calm.  The theorems are about
    the whole initiation, its checks one by one, and what the reading endpoints
    show; with their witnesses. *)

From stdpp Require Import sorting.
From S2P Require Import Prelude Decimal Schema Store Samples Transactions Balance Utils Services Queue QueueSteps Calm.
From S2P Require Import Orders OrderClaims Rows Payments Http Sender.
Local Open Scope go_scope.
Local Open Scope string_scope.
Local Open Scope list_scope.

Section parts.
Context {O : DecimalOps} {L : DecimalLaws O} {OS : @OrderServices O} {SV : @Services O} {SL : ServicesLaws SV}.
Context {HS : HttpServices} {SS : @SenderServices O}.

(** An answer that ends the request early is not a success. *)
Definition refused {A} (o : outcome (InitiateResponse + A)) : Prop :=
  match o with Ret (inl r) => ar_code r <> 201 | _ => True end.

Lemma calm_answer {A} code msg info : code <> 201 -> calm (@refused A) (answer code msg info).
Proof. intros H. by apply calm_ret. Qed.
Lemma calm_invalid {A} field msg : calm (@refused A) (invalid field msg).
Proof. by apply calm_answer. Qed.
Lemma calm_init_failed {A} info : calm (@refused A) (init_failed info).
Proof. by apply calm_answer. Qed.

(** *** The account *)

Lemma calm_verify l i a : calm any (verify_with l i a).
Proof. induction l as [|p l IH]; simpl; calm_tac. Qed.
Hint Resolve calm_verify : calm.
Lemma calm_validate_account i a : calm any (ValidateAccount i a).
Proof. unfold ValidateAccount. calm_tac. Qed.

Hint Resolve calm_validate_account : calm.

(** *** The parts before the first write *)

Hint Resolve calm_answer calm_invalid calm_init_failed : calm.
Lemma calm_find_token s n : calm refused (find_token s n).
Proof. unfold find_token. calm_tac. Qed.
Lemma calm_fee_terms sender payload so : calm refused (fee_terms sender payload so).
Proof. unfold fee_terms. calm_tac. Qed.
Lemma calm_return_address payload so : calm refused (return_address payload so).
Proof. unfold return_address. calm_tac. Qed.

Lemma calm_part {A B} (m : M (InitiateResponse + A)) (k : A -> M (InitiateResponse + B)) :
  calm refused m -> (forall a, calm refused (k a)) -> calm refused (let** a := m in k a).
Proof.
  intros Hm Hk w. apply wp_bind. eapply wp_mono; [apply Hm|]. intros [[r|a]|e|] w1 [H1 Hr]; [done| |done|done].
  eapply wp_mono; [apply Hk|]. intros o w2 [H2 HP]. split; [by eapply idle_trans|done].
Qed.

Lemma calm_sender_terms sender payload tk : calm refused (sender_terms sender payload tk).
Proof.
  unfold sender_terms. apply calm_try; [calm_tac|intros e; calm_tac|intros so|done].
  destruct (_ || _); [calm_tac|]. apply calm_part; [apply calm_fee_terms|]. intros fee. apply calm_part; [apply calm_return_address|]. intros ret. by apply calm_ret.
Qed.
Lemma calm_reference r : calm refused (check_reference r).
Proof. unfold check_reference. calm_tac. Qed.
Lemma calm_find_institution code tk : calm refused (find_institution code tk).
Proof. unfold find_institution. calm_tac. Qed.
Lemma calm_validate_both payload tk fc : calm refused (validate_both payload tk fc).
Proof. unfold validate_both. calm_tac. Qed.
Lemma calm_validate_quote payload tk fc : calm refused (validate_quote payload tk fc).
Proof. unfold validate_quote. apply calm_part; [apply calm_validate_both|]. intros both. calm_tac. Qed.
Lemma calm_check_provider q payload tk fc : calm refused (check_provider q payload tk fc).
Proof.
  unfold check_provider, amount_for_limits. destruct (String.eqb _ _); [calm_tac|].
  apply calm_try; [calm_tac|intros e; calm_tac|intros res|done]. apply calm_bind; [calm_tac|intros p|done|done].
  destruct (bool_decide _); [|calm_tac]. apply calm_part; [calm_tac|]. intros amount. calm_tac.
Qed.

(** *** What a part that goes on has established *)

Lemma find_token_found s n tk w :
  (find_token s n w).1 = Ret (inr tk) -> tk ∈ db_tokens (w_db w) /\ token_offered s n tk = true.
Proof.
  pattern (find_token s n w).1. cut (wp (find_token s n) (fun o _ => o = Ret (inr tk) ->
    tk ∈ db_tokens (w_db w) /\ token_offered s n tk = true) w); [done|].
  unfold find_token, invalid, answer. do 2 wp_step. eapply wp_read_db; [reflexivity|intros fs|by repeat wp_step].
  apply only_filter; [|by intros _; repeat wp_step|by repeat wp_step]. intros a H1 H2. wp_step. by intros [= <-].
Qed.

(** The terms: the configured ones, or those of the payload, which only a partner
    may give for the fee. *)
Record terms_ok (sender : SenderProfile) (payload : NewPaymentOrderPayload) (tk : Token) (d : DB)
    (terms : dec * string * string) : Prop := {
  to_row : exists so, so ∈ db_sender_tokens d /\ so_token so = tk_id tk /\ so_sender so = sp_id sender /\
    terms.1.1 = (if String.eqb (np_fee_address payload) "" then so_fee_percent so else np_fee_percent payload) /\
    terms.1.2 = (if String.eqb (np_fee_address payload) "" then so_fee_address so else np_fee_address payload) /\
    terms.2 = (if String.eqb (np_return_address payload) "" then so_refund_address so else np_return_address payload);
  to_partner : np_fee_address payload <> "" ->
    sp_is_partner sender = true /\ ~ (d_val (np_fee_percent payload) == 0)%Q /\
    address_error (np_network payload) (np_fee_address payload) = None;
  to_return : np_return_address payload <> "" ->
    address_error (np_network payload) (np_return_address payload) = None
}.

Lemma fee_terms_ok sender payload so fee w :
  (fee_terms sender payload so w).1 = Ret (inr fee) ->
  fee = (if String.eqb (np_fee_address payload) "" then (so_fee_percent so, so_fee_address so)
         else (np_fee_percent payload, np_fee_address payload)) /\
  (np_fee_address payload <> "" -> sp_is_partner sender = true /\ ~ (d_val (np_fee_percent payload) == 0)%Q /\
     address_error (np_network payload) (np_fee_address payload) = None).
Proof.
  unfold fee_terms, d_is_zero. destruct (String.eqb_spec (np_fee_address payload) ""); [by intros [= <-]|].
  destruct (sp_is_partner sender); [simpl|done]. destruct (d_eqb _ _) eqn:E; [done|].
  destruct (address_error _ _) eqn:E2; [done|]. intros [= <-]. split; [done|]. intros _. split_and!; [done| |done].
  dec_to_q. exact E.
Qed.
Lemma return_address_ok payload so ret w :
  (return_address payload so w).1 = Ret (inr ret) ->
  ret = (if String.eqb (np_return_address payload) "" then so_refund_address so else np_return_address payload) /\
  (np_return_address payload <> "" -> address_error (np_network payload) (np_return_address payload) = None).
Proof.
  unfold return_address. destruct (String.eqb_spec (np_return_address payload) ""); [by intros [= <-]|].
  destruct (address_error _ _); [done|]. by intros [= <-].
Qed.

Lemma sender_terms_ok sender payload tk terms w :
  (sender_terms sender payload tk w).1 = Ret (inr terms) -> terms_ok sender payload tk (w_db w) terms.
Proof.
  cut (wp (sender_terms sender payload tk) (fun o _ => o = Ret (inr terms) ->
    terms_ok sender payload tk (w_db w) terms) w); [done|].
  unfold sender_terms, invalid, answer. do 2 wp_step. eapply wp_read_db; [reflexivity|intros fs|intros fs; by wp_step].
  apply only_filter; [|by intros _|by wp_step]. intros so H1 [H2%Z.eqb_eq H3%String.eqb_eq]%andb_true_iff.
  wp_step; [by wp_step|].
  wp_step. eapply wp_mono; [exact (wp_this _ _ _ (calm_fee_terms sender payload so _))|].
  intros [[r|fee]|e|] w1 [Hfee _]; [done| |done|done]. apply fee_terms_ok in Hfee as [-> Hp].
  wp_step. eapply wp_mono; [exact (wp_this _ _ _ (calm_return_address payload so _))|].
  intros [[r|ret]|e|] w2 [Hret _]; [done| |done|done]. apply return_address_ok in Hret as [-> Hr].
  wp_step. intros [= <-]. split; [|done|done]. exists so. split_and!; try done; simpl; by destruct (String.eqb (np_fee_address payload) _).
Qed.

Lemma check_reference_ok r u w :
  (check_reference r w).1 = Ret (inr u) ->
  r = "" \/ valid_reference r = true /\ forall o, o ∈ payment_rows (w_db w) -> po_reference o <> r.
Proof.
  cut (wp (check_reference r) (fun o _ => o = Ret (inr u) ->
    r = "" \/ valid_reference r = true /\ forall o, o ∈ payment_rows (w_db w) -> po_reference o <> r) w); [done|].
  unfold check_reference, invalid, init_failed, answer. destruct (String.eqb_spec r ""); [by left|].
  destruct (valid_reference r); [simpl|by wp_step]. wp_step.
  eapply wp_read_db; [reflexivity|intros fs|intros fs; by wp_step].
  destruct (existsb _ _) eqn:E; [by wp_step|]. wp_step. intros _. right. split; [done|]. intros o Ho Hr.
  apply not_true_iff_false in E. apply E, existsb_exists. exists o. split; [by apply list_elem_of_In|by apply String.eqb_eq].
Qed.

Record institution_ok (d : DB) (code : string) (tk : Token) (ins : Institution) (fc : FiatCurrency) : Prop := {
  io_ins : ins ∈ db_institutions d /\ in_code ins = code;
  io_fc : exists c, in_fiat_currency ins = Some c /\ db_currencies d !! c = Some fc /\ fc_is_enabled fc = true;
  io_base : EqualFold (tk_base_currency tk) (fc_code fc) = true \/ EqualFold (tk_base_currency tk) "USD" = true
}.
Lemma find_institution_ok code tk ins w :
  (find_institution code tk w).1 = Ret (inr ins) -> institution_ok (w_db w) code tk (fst ins) (snd ins).
Proof.
  cut (wp (find_institution code tk) (fun o _ => o = Ret (inr ins) ->
    institution_ok (w_db w) code tk (fst ins) (snd ins)) w); [done|].
  unfold find_institution, invalid, answer. do 2 wp_step. eapply wp_read_db; [reflexivity|intros fs|intros fs; simpl; by wp_step].
  wp_step. destruct (List.filter _ _) as [|i l] eqn:E; [simpl; by wp_step|]. cbn [first]. do 4 wp_step. destruct (snd _) as [fc|] eqn:Efc; [|done].
  assert (Hin : In i (List.filter (fun i => String.eqb (in_code i) code) (db_institutions (w_db w)))) by (rewrite E; by left).
  apply filter_In in Hin as [Hin%list_elem_of_In Hc%String.eqb_eq]. cbn [snd] in *.
  destruct (negb _ && negb _) eqn:Eb; [by wp_step|]. wp_step. intros [= <-]. split; [done| |].
  - cbn [fst snd]. destruct (in_fiat_currency i) as [c|]; [|done]. exists c. simpl in *.
    destruct (db_currencies (w_db w) !! c) as [fc0|]; [|done]. simpl in *. by destruct (fc_is_enabled fc0) eqn:?; simplify_eq.
  - cbn [fst snd]. by apply andb_false_iff in Eb as [?%negb_false_iff|?%negb_false_iff]; [left|right].
Qed.

(** The rate and the account were validated in states like [w]. *)
Record quote_ok (payload : NewPaymentOrderPayload) (tk : Token) (fc : FiatCurrency) (w : World) (name : string) : Prop := {
  qo_rate : exists w1 quote, idle w w1 /\
    (ValidateRate (scan_buckets (fc_code fc)) tk fc (np_amount payload) (rc_provider_id (np_recipient payload))
       (np_network payload) w1).1 = Ret quote /\ (d_val quote * (999 # 1000) <= d_val (np_rate payload))%Q;
  qo_name : exists w1, idle w w1 /\
    (ValidateAccount (rc_institution (np_recipient payload)) (rc_account_identifier (np_recipient payload)) w1).1 = Ret name
}.

Lemma attempt_run {A} (m : M A) w : (attemptM m w).1 = match (m w).1 with
  | Ret a => Ret (inr a) | Err e => Ret (inl e) | Panic => Panic end.
Proof. unfold attemptM, tryM. by destruct (m w) as [[a|e|] w']. Qed.

Lemma validate_both_ok payload tk fc name quote w :
  (validate_both payload tk fc w).1 = Ret (inr (name, quote)) ->
  exists w1 w2, idle w w1 /\ idle w w2 /\
    (ValidateRate (scan_buckets (fc_code fc)) tk fc (np_amount payload) (rc_provider_id (np_recipient payload))
       (np_network payload) w1).1 = Ret quote /\
    (ValidateAccount (rc_institution (np_recipient payload)) (rc_account_identifier (np_recipient payload)) w2).1 = Ret name.
Proof.
  set (mr := ValidateRate _ _ _ _ _ _). set (ma := ValidateAccount _ _).
  assert (Hr : calm any (attemptM mr)) by (apply calm_attempt, calm_validate_rate).
  assert (Ha : calm any (attemptM ma)) by (apply calm_attempt, calm_validate_account).
  cut (wp (validate_both payload tk fc) (fun o _ => o = Ret (inr (name, quote)) ->
    exists w1 w2, idle w w1 /\ idle w w2 /\ (mr w1).1 = Ret quote /\ (ma w2).1 = Ret name) w); [done|].
  unfold validate_both, invalid, answer. fold mr ma. do 2 wp_step. destruct (account_first w).
  - wp_step. eapply wp_mono; [exact (wp_this _ _ _ (Ha w))|]. intros [a|e|] w1 [E1 [I1 _]]; [|done|done].
    wp_step. eapply wp_mono; [exact (wp_this _ _ _ (Hr w1))|]. intros [r|e|] w2 [E2 [I2 _]]; [|done|done].
    rewrite attempt_run in E1. rewrite attempt_run in E2. destruct a as [e|n], r as [e'|q]; try (by wp_step). wp_step. intros [= -> ->].
    exists w1, w. split_and!; [done|done| |]; [by destruct (mr w1).1; simplify_eq|by destruct (ma w).1; simplify_eq].
  - wp_step. eapply wp_mono; [exact (wp_this _ _ _ (Hr w))|]. intros [r|e|] w1 [E1 [I1 _]]; [|done|done].
    wp_step. eapply wp_mono; [exact (wp_this _ _ _ (Ha w1))|]. intros [a|e|] w2 [E2 [I2 _]]; [|done|done].
    rewrite attempt_run in E1. rewrite attempt_run in E2. destruct a as [e|n], r as [e'|q]; try (by wp_step). wp_step. intros [= -> ->].
    exists w, w1. split_and!; [done|done| |]; [by destruct (mr w).1; simplify_eq|by destruct (ma w1).1; simplify_eq].
Qed.

Lemma validate_quote_ok payload tk fc name w :
  (validate_quote payload tk fc w).1 = Ret (inr name) -> quote_ok payload tk fc w name.
Proof.
  cut (wp (validate_quote payload tk fc) (fun o _ => o = Ret (inr name) -> quote_ok payload tk fc w name) w); [done|].
  unfold validate_quote, invalid, answer. wp_step.
  eapply wp_mono; [exact (wp_this _ _ _ (calm_validate_both payload tk fc w))|].
  intros [[r|[n quote]]|e|] w1 [E _]; [done| |done|done]. cbn [fst snd].
  apply validate_both_ok in E as (w2 & w3 & I2 & I3 & E2 & E3).
  destruct (d_lt _ _) eqn:Elt; [by wp_step|]. wp_step. intros [= ->]. split; [|by exists w3].
  exists w2, quote. split_and!; [done|done|]. dec_to_q.
  assert (Hn : (d_val (d_new 1 (-3)) == 1 # 1000)%Q) by (rewrite (val_new 1 3) by lia; reflexivity).
  rewrite Hn in Elt. lra.
Qed.

(** A named provider serves the token in the currency; a private one the amount. *)
Definition provider_ok (q : nat) (payload : NewPaymentOrderPayload) (tk : Token) (fc : FiatCurrency) (w : World) : Prop :=
  rc_provider_id (np_recipient payload) = "" \/
  exists t p, t ∈ db_order_tokens (w_db w) /\
    provider_token_for (rc_provider_id (np_recipient payload)) tk (fc_code fc) t = true /\
    db_providers (w_db w) !! pot_provider t = Some p /\
    (pp_visibility_mode p = VisPrivate -> exists w1 amount, idle w w1 /\
       (amount_for_limits q payload tk fc w1).1 = Ret (inr amount) /\
       (d_val (pot_min_order_amount t) <= d_val amount <= d_val (pot_max_order_amount t))%Q).

Lemma calm_amount_for_limits q payload tk fc : calm refused (amount_for_limits q payload tk fc).
Proof. unfold amount_for_limits. calm_tac. Qed.

Lemma check_provider_ok q payload tk fc u w :
  (check_provider q payload tk fc w).1 = Ret (inr u) -> provider_ok q payload tk fc w.
Proof.
  cut (wp (check_provider q payload tk fc) (fun o _ => o = Ret (inr u) -> provider_ok q payload tk fc w) w); [done|].
  unfold check_provider, invalid, answer. destruct (String.eqb_spec (rc_provider_id (np_recipient payload)) ""); [by left|].
  do 2 wp_step. eapply wp_read_db; [reflexivity|intros fs|intros fs; simpl; by wp_step].
  wp_step. apply only_filter; [|intros _; simpl; by wp_step|simpl; by wp_step]. intros t H1 H2. do 3 wp_step. cbn [fst snd].
  destruct (db_providers (w_db w) !! pot_provider t) as [p|] eqn:Hp; [|done].
  destruct (bool_decide _) eqn:Hv; [|wp_step; intros _; right; exists t, p; split_and!; [done|done|done|];
    intros Hpv; by apply bool_decide_eq_false_1 in Hv].
  wp_step. eapply wp_mono; [exact (wp_this _ _ _ (calm_amount_for_limits q payload tk fc _))|].
  intros [[r|amount]|e|] w1 [E [I1 _]]; [done| |done|done].
  destruct (d_lt _ _) eqn:E1; [by wp_step|]. destruct (d_gt _ _) eqn:E2; [by wp_step|]. wp_step. intros _. right.
  exists t, p. split_and!; [done|done|done|]. intros _. eexists _, amount. split_and!; [|exact E|dec_to_q; lra|dec_to_q; lra].
  done.
Qed.

End parts.

Section initiation.
Context {O : DecimalOps} {L : DecimalLaws O} {OS : @OrderServices O} {SV : @Services O} {SL : ServicesLaws SV}.
Context {HS : HttpServices} {SS : @SenderServices O}.
Variable conf : Config.
Variable sconf : SenderConf.

(** ** The receive address *)

(** Rows are stored under their id, and ids are given out in order. *)
Definition addresses_wf (d : DB) : Prop :=
  forall i a, db_receive_addresses d !! i = Some a -> ra_id a = i /\ (i < db_next_id d)%Z.

(** Only receive addresses changed. *)
Definition addresses_only (d d' : DB) : Prop := exists m n, d' = set_next_id n (set_receive_addresses m d).
Lemma addresses_only_refl d : addresses_only d d.
Proof. exists (db_receive_addresses d), (db_next_id d). by destruct d. Qed.

(** The least used address of the network's pool. *)
Definition least_used (d : DB) (network : string) (pool : ReceiveAddress) : Prop :=
  pool ∈ address_rows d /\ in_pool network pool = true /\
  forall b, b ∈ address_rows d -> in_pool network b = true -> (ra_times_used pool <= ra_times_used b)%Z.

Lemma ordered_head_least d network pool l :
  ordered ra_times_used true (List.filter (in_pool network) (address_rows d)) = pool :: l -> least_used d network pool.
Proof.
  intros E. set (rows := List.filter _ _) in E.
  pose proof (ordered_perm ra_times_used true rows) as Hperm.
  pose proof (ordered_sorted ra_times_used true rows) as Hs. rewrite E in Hperm, Hs.
  inversion Hs as [|? ? _ Hall]; subst. rewrite Forall_forall in Hall.
  assert (Hin : forall b, b ∈ pool :: l <-> b ∈ address_rows d /\ in_pool network b = true).
  { intros b. rewrite Hperm. unfold rows. by rewrite list_elem_of_In, filter_In, <- list_elem_of_In. }
  destruct (proj1 (Hin pool) ltac:(left)) as [H1 H2]. split_and!; [done|done|].
  intros b Hb1 Hb2. pose proof (proj2 (Hin b) (conj Hb1 Hb2)) as Hb.
  apply elem_of_cons in Hb as [->|Hb]; [done|exact (Hall b Hb)].
Qed.

(** What the handler holds and what the row of the order says. *)
Record address_given (payload : NewPaymentOrderPayload) (tk : Token) (w : World) (d' : DB) (a : ReceiveAddress) : Prop := {
  ag_new : db_receive_addresses (w_db w) !! ra_id a = None;
  ag_row : exists row, db_receive_addresses d' !! ra_id a = Some row /\ ra_address row = ra_address a /\
    ra_valid_until row = (w_now w + cf_receive_address_validity conf)%Z /\
    ra_valid_until a = (if HasPrefix (rc_memo (np_recipient payload)) "P#P" then 0 else ra_valid_until row);
  ag_pool : HasPrefix (np_network payload) "tron" = false ->
    exists pool, least_used (w_db w) (nw_identifier (tk_network tk)) pool /\ ra_address a = ra_address pool
}.

(** The result of a part that writes only receive addresses. *)
Definition address_result (w : World) (P : DB -> ReceiveAddress -> Prop) (o : outcome (InitiateResponse + ReceiveAddress))
    (w' : World) : Prop :=
  refused o /\ addresses_only (w_db w) (w_db w') /\ w_redis w' = w_redis w /\ w_txs w' = w_txs w /\
  w_now w' = w_now w /\ forall a, o = Ret (inr a) -> P (w_db w') a.

Lemma wp_create_address row (Q : outcome ReceiveAddress -> World -> Prop) w :
  (forall fs, Q (Ret (row (db_next_id (w_db w))))
     (set_db (set_next_id (db_next_id (w_db w) + 1) (set_receive_addresses
        (<[db_next_id (w_db w) := row (db_next_id (w_db w))]> (db_receive_addresses (w_db w))) (w_db w))) (set_faults fs w))) ->
  (forall fs, Q (Err EFault) (set_faults fs w)) -> wp (create_address row) Q w.
Proof. intros Hok Hbad. unfold create_address. by apply wp_modify_direct. Qed.

Lemma addresses_fresh d : addresses_wf d -> db_receive_addresses d !! db_next_id d = None.
Proof. intros H. destruct (_ !! _) as [a|] eqn:E; [|done]. apply H in E as [_ E]. lia. Qed.

Definition row_valid (w : World) (d' : DB) (a : ReceiveAddress) : Prop :=
  db_receive_addresses (w_db w) !! ra_id a = None /\ db_receive_addresses d' !! ra_id a = Some a /\
  ra_valid_until a = (w_now w + cf_receive_address_validity conf)%Z.

Lemma tron_address_wp w :
  addresses_wf (w_db w) -> wp (tron_address conf) (address_result w (row_valid w)) w.
Proof.
  intros Hwf. unfold tron_address, CreateTronAddress, init_failed, answer.
  pose proof (addresses_only_refl (w_db w)) as Hd. repeat wp_step; try by split_and!.
  apply wp_create_address; intros fs; wp_step; [|by split_and!].
  split_and!; try done; [by eexists _, _|]. intros a [= <-]. split_and!; [by apply addresses_fresh| |done].
  simpl. by rewrite lookup_insert_eq.
Qed.

Lemma pool_address_wp network w :
  addresses_wf (w_db w) -> wp (pool_address conf network) (address_result w (fun d' a => row_valid w d' a /\
    exists pool, least_used (w_db w) network pool /\ ra_address a = ra_address pool)) w.
Proof.
  intros Hwf. pose proof (addresses_only_refl (w_db w)) as Hd. pose proof (addresses_fresh _ Hwf) as Hfresh.
  unfold pool_address, init_failed, answer. do 2 wp_step.
  eapply wp_read_db; [reflexivity|intros fs|intros fs; simpl; wp_step; by split_and!].
  destruct (ordered _ _ _) as [|pool l] eqn:E; [simpl; wp_step; by split_and!|]. apply ordered_head_least in E.
  cbn [first]. do 4 wp_step. apply wp_create_address; intros fs1; [|wp_step; by split_and!].
  assert (Hne : ra_id pool <> db_next_id (w_db w)).
  { destruct E as [Hin _]. unfold address_rows in Hin. apply list_elem_of_fmap in Hin as ([i a] & -> & Hin).
    apply elem_of_map_to_list, Hwf in Hin as [<- Hlt]. simpl. lia. }
  assert (Hres : forall w', db_receive_addresses (w_db w') !! db_next_id (w_db w) = Some (order_row pool (w_now w)
      (w_now w + cf_receive_address_validity conf) (db_next_id (w_db w))) ->
      addresses_only (w_db w) (w_db w') -> w_redis w' = w_redis w ->
      w_txs w' = w_txs w -> w_now w' = w_now w ->
      address_result w (fun d' a => row_valid w d' a /\
        exists pool, least_used (w_db w) network pool /\ ra_address a = ra_address pool)
        (Ret (inr (order_row pool (w_now w) (w_now w + cf_receive_address_validity conf) (db_next_id (w_db w))))) w').
  { intros w' Hm Hw' H1 H2 H3. split_and!; try done. intros a [= <-]. split; [by split_and!|]. by exists pool. }
  unfold logged. do 2 wp_step. cbn [w_db set_faults set_db w_now]. apply wp_modify_direct; intros fs2.
  - destruct (_ !! ra_id pool) as [row|] eqn:Erow; do 2 wp_step; (apply Hres; [|by eexists _, _|done..]).
    + cbn [w_db set_db set_faults db_receive_addresses set_receive_addresses set_next_id]. by rewrite lookup_insert_ne, lookup_insert_eq.
    + cbn [w_db set_db set_faults db_receive_addresses set_receive_addresses set_next_id]. by rewrite lookup_insert_eq.
  - do 2 wp_step. apply Hres; [|by eexists _, _|done..]. cbn [w_db set_db set_faults db_receive_addresses set_receive_addresses set_next_id]. by rewrite lookup_insert_eq.
Qed.

Lemma receive_address_wp payload tk w :
  addresses_wf (w_db w) ->
  wp (receive_address conf payload tk) (address_result w (address_given payload tk w)) w.
Proof.
  intros Hwf. unfold receive_address. wp_step.
  eapply (wp_mono _ (address_result w (fun d' a => row_valid w d' a /\ (HasPrefix (np_network payload) "tron" = false ->
    exists pool, least_used (w_db w) (nw_identifier (tk_network tk)) pool /\ ra_address a = ra_address pool)))).
  { destruct (HasPrefix (np_network payload) "tron").
    - eapply wp_mono; [by apply tron_address_wp|]. intros o w' (H1 & H2 & H3 & H4 & H5 & H6). split_and!; try done.
      intros a Ha. split; [by apply H6|done].
    - eapply wp_mono; [by apply pool_address_wp|]. intros o w' (H1 & H2 & H3 & H4 & H5 & H6). split_and!; try done.
      intros a Ha. by destruct (H6 a Ha). }
  intros [[r|a]|e|] w' (H1 & H2 & H3 & H4 & H5 & H6); try by split_and!.
  wp_step. split_and!; try done. intros a' [= <-]. destruct (H6 a eq_refl) as [(Hn & Hr & Hv) Hp].
  destruct (HasPrefix (rc_memo _) _) eqn:Em; split; try done; exists a; rewrite ?Em; by split_and!.
Qed.

(** ** The order *)

(** The order of the database, with the webhook when one was created. *)
Definition with_webhook (wh : option string) (o : PaymentOrder) : PaymentOrder :=
  match wh with Some id => set_webhook id o | None => o end.
(** Whatever the chain service answers, the transaction shows the order, with a
    webhook or without. *)
Lemma watch_address_wp w0 tx d payload tk a id o w :
  in_tx w0 tx d w -> db_payment_orders d !! id = Some o ->
  wp (watch_address sconf tx payload tk a id) (fun out w' => exists b w1 d', out = Ret b /\ idle w0 w1 /\ in_tx w1 tx d' w' /\
    exists wh, d' = put_order (with_webhook wh o) id d) w.
Proof.
  intros H Ho.
  assert (Hd : d = put_order (with_webhook None o) id d).
  { unfold put_order. simpl. rewrite insert_id by done. by destruct d. }
  assert (Hsame : forall (b : bool) w1 w', idle w0 w1 -> in_tx w1 tx d w' -> exists b0 w1' d', Ret b = Ret b0 /\ idle w0 w1' /\
    in_tx w1' tx d' w' /\ exists wh, d' = put_order (with_webhook wh o) id d).
  { intros b w1 w' Hi Hin. exists b, w1, d. split_and!; [done|done|done|]. by exists None. }
  unfold watch_address, CreateTransferWebhook. repeat (wp_step; try (by eapply Hsame)).
  apply wp_ext; intros fs; [|repeat wp_step; eapply Hsame; [apply idle_refl|by apply in_tx_faults]].
  set (e := EvTransferWebhook id (ra_address a)).
  assert (H1 : in_tx (set_events (w_events w ++ [e]) w0) tx d (set_events (w_events w ++ [e]) (set_faults fs w)))
    by (apply (in_tx_emit w0 tx d (set_faults fs w)); by apply in_tx_faults).
  assert (Hi : idle w0 (set_events (w_events w ++ [e]) w0)) by done.
  do 4 wp_step. cbn [set_faults w_events]. fold e.
  unfold webhook_save. repeat (wp_step; try (by eapply Hsame)).
  eapply with_order_in; [exact H1|exact Ho|intros w2 H2|intros w2 H2; wp_step; by eapply Hsame].
  wp_step. eexists false, _, _. split_and!; [done|exact Hi|exact H2|]. by eexists (Some _).
Qed.

(** What a stored order is. *)
Record stored (sender : SenderProfile) (payload : NewPaymentOrderPayload) (tk : Token) (terms : dec * string * string)
    (ins : Institution) (fc : FiatCurrency) (name : string) (a : ReceiveAddress) (w : World) (d' : DB) (o : PaymentOrder)
    : Prop := {
  sd_row : o = payment_build (po_id o) (w_now w) (order_builder sender payload tk terms
    (sender_fee terms.1.1 (np_amount payload))
    (CalculatePaymentOrderAmountInUSD (np_amount payload) (Some tk) (Some ins) (Some fc)) a (db_next_id (w_db w))) tk;
  sd_new : db_payment_orders (w_db w) !! po_id o = None;
  sd_address : forall o', o' ∈ payment_rows (w_db w) -> po_receive_address o' <> Some (ra_id a);
  sd_db : exists wh, d' = put_order (set_recipient (order_recipient payload name) (with_webhook wh o)) (po_id o)
    (with_log TOrderInitiated (nw_identifier (tk_network tk))
       (json_text [("ReceiveAddress", ra_address a); ("SenderID", sp_id sender)]) (w_now w) (w_db w))
}.

Definition store_result (w : World) (P : DB -> PaymentOrder -> Prop) (out : outcome (InitiateResponse + PaymentOrder))
    (w' : World) : Prop :=
  refused out /\ w_redis w' = w_redis w /\ w_txs w' ⊆ w_txs w /\ w_now w' = w_now w /\
  match out with Ret (inr o) => P (w_db w') o | _ => w_db w' = w_db w end.

Lemma store_failed w P w0 tx d w1 :
  idle w w0 -> in_tx w0 tx d w1 ->
  wp (do! rollback_tx tx in init_failed []) (store_result w P) w1.
Proof.
  intros (I1 & I2 & I3 & I4) []. unfold init_failed, answer. do 3 wp_step.
  split_and!; try done; simpl; try congruence. rewrite it_txs, I3. apply delete_subseteq.
Qed.

Lemma order_builder_keys id now sender payload tk terms fee usd a log :
  let c := order_builder sender payload tk terms fee usd a log in
  cp_token c = Some tk /\ po_receive_address (payment_build id now c tk) = Some (ra_id a).
Proof. unfold order_builder. by destruct terms as [[] ?]. Qed.

Lemma store_payment_order_wp sender payload tk terms ins fc name a w :
  wp (store_payment_order sconf sender payload tk terms ins fc name a)
    (store_result w (stored sender payload tk terms ins fc name a w)) w.
Proof.
  set (P := stored _ _ _ _ _ _ _ _ _). pose proof (fun d w1 tx => store_failed w P w tx d w1 (idle_refl w)) as Hfail.
  unfold store_payment_order. wp_step.
  apply wp_in_begin; [intros tx w1 H1|intros fs; unfold init_failed, answer; wp_step; by split_and!].
  wp_step. eapply create_log_in; [exact H1|intros w2 H2|intros w2; apply Hfail].
  unfold amount_in_usd. do 2 wp_step. set (d2 := with_log _ _ _ _ _) in H2. set (c := order_builder _ _ _ _ _ _ _ _).
  destruct (order_builder_keys (new_uuid w2) (w_now w) sender payload tk terms (sender_fee terms.1.1 (np_amount payload))
    (CalculatePaymentOrderAmountInUSD (np_amount payload) (Some tk) (Some ins) (Some fc)) a (db_next_id (w_db w)))
    as [Htk Hra]. fold c in Htk, Hra. unfold payment_save. wp_step. rewrite Htk.
  destruct (payment_check c); [wp_step; by eapply Hfail|]. do 2 wp_step.
  rewrite (it_now _ _ _ _ H2). set (row := payment_build _ _ c tk). fold row in Hra.
  eapply wp_in_modify; [exact H2| |intros w3; apply Hfail].
  destruct (insert_payment_order row d2) as [e|[d3 o3]] eqn:Eins; [intros w3; apply Hfail|].
  apply insert_payment_inr in Eins as (-> & -> & Enew & Eaddr). intros w3 H3. specialize (Eaddr _ Hra).
  set (d3 := put_order row (po_id row) d2) in H3.
  assert (Ho3 : db_payment_orders d3 !! po_id row = Some row) by apply lookup_insert_eq.
  wp_step. eapply wp_mono; [by apply (watch_address_wp w tx d3 payload tk a (po_id row) row)|].
  intros out w4 (b & w5 & d4 & -> & I5 & H4 & wh & ->).
  destruct b; [by eapply store_failed|]. wp_step.
  eapply with_order_in; [exact H4|apply lookup_insert_eq|intros w6 H6|intros w6; by apply store_failed].
  wp_step. eapply wp_in_commit_closed; [exact H6| |].
  - intros w7 Hd Hn Hr Ht. wp_step. destruct I5 as (I1 & I2 & I3 & I4). split_and!; [done|congruence| |congruence|].
    { rewrite Ht, I3. apply delete_subseteq. }
    split.
    + done.
    + exact Enew.
    + exact Eaddr.
    + exists wh. rewrite Hd. unfold d3, put_order. cbn [db_payment_orders set_payment_orders].
      by rewrite !insert_insert_eq.
  - intros w7 Hd Hn Hr Ht. unfold init_failed, answer. wp_step. destruct I5 as (I1 & I2 & I3 & I4).
    split_and!; [done|congruence| |congruence|congruence]. rewrite Ht, I3. apply delete_subseteq.
Qed.

(** ** The whole request *)

(** A 201: what was checked, the order, its address and the answer. *)
Record initiated (q : nat) (payload : NewPaymentOrderPayload) (sender : SenderProfile) (w : World) (r : InitiateResponse)
    (w' : World) : Prop := {
  in_reference : np_reference payload = "" \/ valid_reference (np_reference payload) = true /\
    forall o, o ∈ payment_rows (w_db w) -> po_reference o <> np_reference payload;
  in_order : exists tk terms ins fc name a o w1,
    (tk ∈ db_tokens (w_db w) /\ token_offered (np_token payload) (np_network payload) tk = true) /\
    terms_ok sender payload tk (w_db w) terms /\
    institution_ok (w_db w) (rc_institution (np_recipient payload)) tk ins fc /\
    quote_ok payload tk fc w name /\ provider_ok q payload tk fc w /\
    addresses_only (w_db w) (w_db w1) /\ w_now w1 = w_now w /\ address_given payload tk w (w_db w1) a /\
    stored sender payload tk terms ins fc name a w1 (w_db w') o /\
    ar_data r = Some (inr (mkRAR (po_id o) (np_amount payload) (np_token payload) (nw_identifier (tk_network tk))
      (ra_address a) (ra_valid_until a) (po_sender_fee o) (nw_fee (tk_network tk)) (np_reference payload)))
}.

Definition initiate_result (q : nat) (payload : NewPaymentOrderPayload) (sender : SenderProfile) (w : World)
    (out : outcome InitiateResponse) (w' : World) : Prop :=
  w_redis w' = w_redis w /\ w_txs w' ⊆ w_txs w /\ w_now w' = w_now w /\
  match out with
  | Ret r => if (ar_code r =? 201)%Z then initiated q payload sender w r w' else addresses_only (w_db w) (w_db w')
  | _ => addresses_only (w_db w) (w_db w')
  end.

Lemma initiate_stopped q payload sender w o w' :
  w_redis w' = w_redis w -> w_txs w' ⊆ w_txs w -> w_now w' = w_now w -> addresses_only (w_db w) (w_db w') ->
  match o with Ret r => ar_code r <> 201 | _ => True end -> initiate_result q payload sender w o w'.
Proof.
  intros H1 H2 H3 H4 H5. split_and!; try done. destruct o as [r|e|]; try done.
  by rewrite (proj2 (Z.eqb_neq _ _) H5).
Qed.

(** What was checked in a state like [w] holds of [w]. *)
Lemma quote_ok_idle payload tk fc w w0 name : idle w w0 -> quote_ok payload tk fc w0 name -> quote_ok payload tk fc w name.
Proof.
  intros H [(w1 & quote & I1 & H1) (w2 & I2 & H2)].
  split; [exists w1, quote|exists w2]; (split; [by eapply idle_trans|done]).
Qed.
Lemma provider_ok_idle q payload tk fc w w0 : idle w w0 -> provider_ok q payload tk fc w0 -> provider_ok q payload tk fc w.
Proof.
  intros H [Hp|(t & p & H1 & H2 & H3 & H4)]; [by left|right]. rewrite (proj1 H) in H1, H3. exists t, p.
  split_and!; try done. intros (w1 & amount & I1 & H5)%H4. exists w1, amount. split; [by eapply idle_trans|done].
Qed.
Lemma address_given_idle payload tk w w0 d' a : w_db w0 = w_db w -> w_now w0 = w_now w ->
  address_given payload tk w0 d' a -> address_given payload tk w d' a.
Proof. intros Hd Hn [H1 H2 H3]. rewrite Hd in H1, H3. rewrite Hn in H2. by split. Qed.

(** A calm part of the request. *)
Lemma wp_part {A} q payload sender (m : M (InitiateResponse + A)) k (P : A -> Prop) w w0 :
  idle w w0 -> calm refused m -> (forall a, (m w0).1 = Ret (inr a) -> P a) ->
  (forall a w1, idle w w1 -> P a -> wp (k a) (initiate_result q payload sender w) w1) ->
  wp (let* a := m in k a) (initiate_result q payload sender w) w0.
Proof.
  intros H0 Hm HP Hk. wp_step. eapply wp_mono; [exact (wp_this _ _ _ (Hm w0))|].
  intros [[r|a]|e|] w1 [E [I1%(idle_trans _ _ _ H0) Hr]]; [|by apply Hk; [|apply HP]| |].
  all: try wp_step; destruct I1 as (Hd & Hrd & Ht & Hn); apply initiate_stopped; try done; try (by rewrite Ht);
    rewrite Hd; apply addresses_only_refl.
Qed.

(** C12: initiating a payment order, whatever fails and whatever the providers, the rate
    queues and the chain service answer.  When the endpoint answers 201, the token
    is enabled on the network, the fee and return address are the sender's own or
    allowed overrides, the reference is well-formed and new, the currency of the
    institution is enabled, a provider named the account, the rate is at least
    99.9 % of a rate that validates for the amount, a named provider serves it, the
    address is the least used of the pool, and exactly this order with its log is
    committed; the answer is that of the committed rows.  Any other end, a panic
    included, has written nothing but receive addresses.  No transaction is left
    open. *)
Theorem initiate_order_correct q payload sender w :
  addresses_wf (w_db w) ->
  wp (InitiatePaymentOrder conf sconf q (Some payload) (Some sender)) (initiate_result q payload sender w) w.
Proof.
  intros Hwf. unfold InitiatePaymentOrder.
  eapply wp_part; [apply idle_refl|apply calm_find_token|intros ?; apply find_token_found|intros tk w1 I1 Htk].
  eapply wp_part; [exact I1|apply calm_sender_terms|intros ?; apply sender_terms_ok|intros terms w2 I2 Hterms].
  rewrite (proj1 I1) in Hterms.
  eapply wp_part; [exact I2|apply calm_reference|intros ?; apply check_reference_ok|intros u w3 I3 Href].
  rewrite (proj1 I2) in Href.
  eapply wp_part; [exact I3|apply calm_find_institution|intros ?; apply find_institution_ok|intros [ins fc] w4 I4 Hins].
  rewrite (proj1 I3) in Hins. cbn [fst snd] in *.
  eapply wp_part; [exact I4|apply calm_validate_quote|intros ?; apply validate_quote_ok|intros name w5 I5 Hquote].
  eapply wp_part; [exact I5|apply calm_check_provider|intros ?; apply check_provider_ok|intros u' w6 I6 Hprov].
  apply (quote_ok_idle _ _ _ _ _ _ I4) in Hquote. apply (provider_ok_idle _ _ _ _ _ _ I5) in Hprov.
  destruct I6 as (Hd6 & Hr6 & Ht6 & Hn6).
  wp_step. eapply wp_mono; [apply receive_address_wp; by rewrite Hd6|].
  intros out w7 (Hr & Hd7 & Hr7 & Ht7 & Hn7 & Haddr). rewrite Hd6 in Hd7.
  destruct out as [[r|a]|e|]; try wp_step; try (apply initiate_stopped; try done; try congruence; by rewrite Ht7, Ht6).
  specialize (Haddr a eq_refl).
  eapply wp_mono; [apply store_payment_order_wp|]. intros out w8 (Hrf & Hr8 & Ht8 & Hn8 & Hst).
  assert (Hrest : w_redis w8 = w_redis w /\ w_txs w8 ⊆ w_txs w /\ w_now w8 = w_now w)
    by (rewrite <- Ht6, <- Ht7; split_and!; [congruence|done|congruence]). destruct Hrest as (H1 & H2 & H3).
  destruct out as [[r|o]|e|]; try wp_step; try (apply initiate_stopped; try done; by rewrite Hst).
  split_and!; try done. cbn [ar_code]. split; [done|].
  exists tk, terms, ins, fc, name, a, o, w7. split_and!; try done.
  - apply Htk.
  - apply Htk.
  - congruence.
  - by eapply address_given_idle.
  - cbn [ar_data]. rewrite (sd_row _ _ _ _ _ _ _ _ _ _ _ Hst). unfold payment_build, order_builder. by destruct terms as [[] ?].
Qed.
End initiation.

(** ** The checks one by one *)

Section checks.
Context {O : DecimalOps} {L : DecimalLaws O} {OS : @OrderServices O} {SV : @Services O} {SL : ServicesLaws SV}.
Context {HS : HttpServices} {SS : @SenderServices O}.

Definition at_rate (r : dec) (payload : NewPaymentOrderPayload) : NewPaymentOrderPayload :=
  mkNPO (np_amount payload) (np_token payload) r (np_network payload) (np_recipient payload) (np_reference payload)
    (np_return_address payload) (np_fee_percent payload) (np_fee_address payload).

(** The check that the rate is achievable bounds it from below only: a payload that
    passes also passes with any higher rate, however far above what the providers
    offer. *)
Theorem rate_check_one_sided payload tk fc name r w w' :
  validate_quote payload tk fc w = (Ret (inr name), w') -> (d_val (np_rate payload) <= d_val r)%Q ->
  validate_quote (at_rate r payload) tk fc w = (Ret (inr name), w').
Proof.
  unfold validate_quote. change (validate_both (at_rate r payload) tk fc) with (validate_both payload tk fc).
  unfold bindM. destruct (validate_both payload tk fc w) as [[[x|both]|e|] w1]; [done| |done|done].
  destruct (d_lt (np_rate payload) _) eqn:E; [done|]. intros H Hle.
  assert (d_lt (np_rate (at_rate r payload)) (d_sub (snd both) (d_mul (snd both) (d_new 1 (-3)))) = false) as ->; [|done].
  apply d_lt_spec_false in E. apply d_lt_spec_false. cbn [at_rate np_rate]. lra.
Qed.

(** An institution whose currency is disabled makes the initiation panic: the query
    loads no currency and its code is read all the same. *)
Theorem disabled_currency_panics code tk i l w :
  w_faults w = [] ->
  List.filter (fun i => String.eqb (in_code i) code) (db_institutions (w_db w)) = i :: l ->
  (forall c fc, in_fiat_currency i = Some c -> db_currencies (w_db w) !! c = Some fc -> fc_is_enabled fc = false) ->
  (find_institution code tk w).1 = Panic.
Proof.
  intros Hf Hi Hd. cut (wp (find_institution code tk) (fun o _ => o = Panic) w); [done|].
  unfold find_institution. do 2 run_ok. run_ok. rewrite Hi. cbn [first]. do 4 wp_step. cbn [snd].
  destruct (in_fiat_currency i) as [c|]; [|done]. simpl. destruct (db_currencies (w_db w) !! c) as [fc|] eqn:E; [|done].
  simpl. by rewrite (Hd c fc eq_refl E).
Qed.

(** ** Reading *)

(** The endpoints that read show a sender only its own orders and write nothing. *)
Lemma calm_response_list l : calm any (payment_responses l).
Proof. induction l as [|o l IH]; simpl; [by apply calm_ret|]. unfold GetInstitutionByCode. calm_tac. Qed.

Lemma responses_of l : forall w rs w', payment_responses l w = (Ret rs, w') -> map pr_id rs = map po_id l.
Proof.
  induction l as [|o l IH]; intros w rs w'; simpl; [by intros [= <- _]|]. unfold bindM.
  destruct (GetInstitutionByCode _ _ w) as [[ins|e|] w1]; [|done|done].
  destruct (deref _ w1) as [[fc|e|] w2]; [|done|done].
  destruct (payment_responses l w2) as [[rs'|e|] w3] eqn:E; [|done|done]. intros [= <- _]. simpl. f_equal. by eapply IH.
Qed.

Lemma known_filter_wp param known w :
  wp (known_filter param known) (fun o w' => idle w w' /\ forall v, o = Ret v -> v = None \/ v = Some param) w.
Proof.
  unfold known_filter. destruct (String.eqb _ _); [by split; [|intros v [= <-]; left]|].
  wp_step. eapply wp_read_db; [reflexivity|intros fs|by intros fs]. wp_step.
  split; [done|]. intros v [= <-]. destruct (known _); auto.
Qed.

Lemma slice_bound {A} (created : A -> Z) asc offset limit rows :
  (1 <= limit)%Z -> (Z.of_nat (length (slice offset limit (ordered created asc rows))) <= limit)%Z.
Proof. intros H. unfold slice. rewrite length_take. lia. Qed.
Lemma slice_sub {A} (created : A -> Z) asc offset limit rows a :
  a ∈ slice offset limit (ordered created asc rows) -> a ∈ rows.
Proof.
  unfold slice. intros H%list_elem_of_In. rewrite <- (ordered_perm created asc rows).
  assert (Hd : In a (drop (Z.to_nat offset) (ordered created asc rows))).
  { rewrite <- (take_drop (Z.to_nat limit) (drop _ _)). apply in_or_app. by left. }
  apply list_elem_of_In. rewrite <- (take_drop (Z.to_nat offset) (ordered created asc rows)). apply in_or_app. by right.
Qed.

(** The list contains only orders of the sender that pass its filters, no more than
    a page of them, and counts all of them.  Nothing is written. *)
Theorem sender_lists_own_orders sender ordering page pageSize status token network w :
  wp (GetPaymentOrders (Some sender) ordering page pageSize status token network) (fun out w' =>
    idle w w' /\ forall r l, out = Ret r -> ar_data r = Some l ->
      ar_code r = 200 /\ (Z.of_nat (length (sl_orders l)) <= sl_page_size l)%Z /\
      exists known_token known_network,
        let query := listed_payment sender (payment_status_filter status) known_token known_network in
        (known_token = None \/ known_token = Some token) /\ (known_network = None \/ known_network = Some network) /\
        sl_total l = Z.of_nat (length (List.filter query (payment_rows (w_db w)))) /\
        forall id, id ∈ map pr_id (sl_orders l) ->
          exists o, o ∈ payment_rows (w_db w) /\ po_id o = id /\ query o = true) w.
Proof.
  unfold GetPaymentOrders, api_error, api_success. destruct (Paginate page pageSize) as [[pg offset] size] eqn:Ep.
  apply Paginate_positive in Ep as [_ Hsize]. wp_step. eapply wp_mono; [apply known_filter_wp|].
  intros [kt|e|] w1 [I1 H1]; [|wp_step; by split; [|intros r l [= <-]]|by split]. specialize (H1 kt eq_refl).
  wp_step. eapply wp_mono; [apply known_filter_wp|].
  intros [kn|e|] w2 [I2%(idle_trans _ _ _ I1) H2]; [|wp_step; by split; [|intros r l [= <-]]|by split].
  specialize (H2 kn eq_refl). rewrite <- (proj1 I2). set (query := listed_payment _ _ kt kn).
  wp_step. eapply wp_read_db; [reflexivity|intros fs|intros fs; wp_step; by split; [|intros r l [= <-]]].
  do 2 wp_step. eapply wp_read_db; [reflexivity|intros fs'|intros fs'; wp_step; by split; [|intros r l [= <-]]].
  unfold page_rows. destruct (offset <? 0)%Z; [do 2 wp_step; by split; [|intros r l [= <-]]|]. do 2 wp_step.
  set (rows := slice _ _ _). eapply wp_mono; [exact (wp_full _ _ _ (calm_response_list rows _))|].
  intros out w3 [E [I3 _]]. assert (I : idle w w3) by (by eapply idle_trans; [|exact I3]).
  destruct out as [rs|e|]; [|wp_step; by split; [|intros r l [= <-]]|by split].
  wp_step. split; [done|]. intros r l [= <-]. cbn [ar_data]. intros [= <-].
  pose proof (responses_of _ _ _ _ E) as Hids. split; [done|]. cbn [sl_orders sl_page_size sl_total].
  split; [rewrite <- (length_map pr_id), Hids, length_map; by apply slice_bound|].
  exists kt, kn. split_and!; [done|done|done|]. intros id Hid. rewrite Hids in Hid.
  apply list_elem_of_In, in_map_iff in Hid as (o & <- & Ho%list_elem_of_In%slice_sub%list_elem_of_In).
  apply filter_In in Ho as [Ho1%list_elem_of_In Ho2]. by exists o.
Qed.

(** *** Statistics *)

(** The sum of a column, as a number. *)
Definition column (f : PaymentOrder -> Q) (l : list PaymentOrder) : Q := foldr (fun o s => (f o + s)%Q) 0%Q l.

(** The market rate of the currency an order pays out in. *)
Definition payout_rate (d : DB) (o : PaymentOrder) : option dec :=
  match List.filter (fun i => String.eqb (in_code i) (re_institution (po_recipient o))) (db_institutions d) with
  | [i] => c ← in_fiat_currency i; fc ← db_currencies d !! c; Some (fc_market_rate fc)
  | _ => None
  end.
(** An amount of a local stablecoin in dollars; a fee that is not positive counts
    as it is. *)
Definition in_dollars (d : DB) (o : PaymentOrder) (amount : dec) : Q :=
  d_val (d_div amount (default d_zero (payout_rate d o))).
Definition fee_in_dollars (d : DB) (o : PaymentOrder) : Q :=
  if d_gt (po_sender_fee o) d_zero then in_dollars d o (po_sender_fee o) else d_val (po_sender_fee o).

Lemma sum_field_column (f : PaymentOrder -> dec) l : (d_val (sum_field f l) == column (fun o => d_val (f o)) l)%Q.
Proof.
  unfold sum_field. cut (forall s, (d_val (foldl (fun s o => d_add s (f o)) s l) == d_val s + column (fun o => d_val (f o)) l)%Q).
  { intros H. rewrite H, val_zero. ring. }
  induction l as [|o l IH]; intros s; simpl; [ring|]. rewrite IH, val_add. ring.
Qed.

Lemma local_volume_wp l : forall sum fees w,
  wp (local_volume l sum fees) (fun out w' => idle w w' /\ forall v, out = Ret v ->
    (d_val v.1 == d_val sum + column (fun o => in_dollars (w_db w) o (po_amount o)) l)%Q /\
    (d_val v.2 == d_val fees + column (fee_in_dollars (w_db w)) l)%Q) w.
Proof.
  induction l as [|o l IH]; intros sum fees w; simpl.
  { wp_step. split; [done|]. intros v [= <-]. simpl. split; ring. }
  unfold GetInstitutionByCode. do 2 wp_step. eapply wp_read_db; [reflexivity|intros fs|by intros fs].
  wp_step. apply wp_only; [intros i Hi|by intros e]. do 3 wp_step. cbn [fst snd negb orb].
  destruct (c ← in_fiat_currency i; _) as [fc|] eqn:Efc; [|by split].
  assert (Hrate : payout_rate (w_db w) o = Some (fc_market_rate fc)).
  { unfold payout_rate. rewrite Hi. destruct (in_fiat_currency i) as [c|]; [|done]. simpl in *.
    destruct (db_currencies (w_db w) !! c); by simplify_eq/=. }
  assert (Hd : forall x, in_dollars (w_db w) o x = d_val (d_div x (fc_market_rate fc)))
    by (intros x; unfold in_dollars; by rewrite Hrate).
  do 2 wp_step. destruct (d_is_zero (fc_market_rate fc)) eqn:Ez; [by split|].
  set (fee := if d_gt (po_sender_fee o) d_zero then d_div (po_sender_fee o) (fc_market_rate fc) else po_sender_fee o).
  assert (Hf : fee_in_dollars (w_db w) o = d_val fee) by (unfold fee_in_dollars, fee; rewrite Hd; by destruct (d_gt _ _)).
  wp_step. eapply (wp_mono _ (fun out w' => w' = set_faults fs w /\ out = Ret fee)).
  { unfold fee, go_div. rewrite Ez. by destruct (d_gt _ _). }
  intros out w1 [-> ->]. eapply wp_mono; [apply IH|]. intros out w2 [I2 H2]. split; [done|].
  intros v Hv. destruct (H2 v Hv) as [H3 H4]. rewrite H3, H4, !val_add, Hd, Hf. cbn [w_db set_faults]. split; ring.
Qed.

(** The statistics of a sender: the number of all its orders, and volume and fees of
    its settled ones, dollar stablecoins as they are and others converted at the
    market rate of the currency they pay out in.  Nothing is written. *)
Theorem sender_stats_correct sender w :
  wp (SenderStats (Some sender)) (fun out w' => idle w w' /\ forall r s, out = Ret r -> ar_data r = Some s ->
    let usd := List.filter (settled_with_base sender true) (payment_rows (w_db w)) in
    let local := List.filter (settled_with_base sender false) (payment_rows (w_db w)) in
    ar_code r = 200 /\
    ss_total_orders s = Z.of_nat (length (List.filter (owned_by sender) (payment_rows (w_db w)))) /\
    (d_val (ss_total_volume s) == column (fun o => d_val (po_amount o)) usd +
       column (fun o => in_dollars (w_db w) o (po_amount o)) local)%Q /\
    (d_val (ss_total_fees s) == column (fun o => d_val (po_sender_fee o)) usd +
       column (fee_in_dollars (w_db w)) local)%Q) w.
Proof.
  unfold SenderStats, api_error, api_success.
  wp_step. eapply wp_read_db; [reflexivity|intros fs|intros fs; wp_step; by split; [|intros r l [= <-]]].
  wp_step. eapply wp_read_db; [reflexivity|intros fs1|intros fs1; wp_step; by split; [|intros r l [= <-]]].
  cbn [w_db set_faults]. wp_step. eapply wp_mono; [apply local_volume_wp|]. cbn [w_db set_faults].
  intros [v|e|] w1 [I1 H1]; [|wp_step; by split; [|intros r l [= <-]]|by split].
  destruct (H1 v eq_refl) as [H2 H3]. pose proof (proj1 I1) as Hd. cbn [w_db set_faults] in Hd.
  wp_step. eapply wp_read_db; [reflexivity|intros fs2|intros fs2; wp_step; by split; [|intros r l [= <-]]].
  wp_step. split; [done|]. intros r s [= <-]. cbn [ar_data]. intros [= <-]. rewrite Hd.
  split; [done|]. cbn [ss_total_orders ss_total_volume ss_total_fees]. split; [done|].
  rewrite !val_add, !sum_field_column, H2, H3, val_zero. split; ring.
Qed.

End checks.

(** ** Witnesses on the seeded database *)

(** A node that names the account, and a chain service that creates webhooks. *)
#[local] Instance s_sender_nodes : Services := {|
  scan_buckets := sample_scan;
  shuffle l := l;
  decrypt_secret s := Some s;
  provider_answer _ _ _ _ := mkResp 200 (BObject [("data", JStr "ADA LOVELACE")])
|}.
#[local] Instance s_sender_nodes_laws : ServicesLaws s_sender_nodes.
Proof. destruct sample_services_laws as [H1 H2 H3 H4]. split; [exact H1|exact H2|exact H3|exact H4]. Qed.
#[local] Instance s_sender_services : SenderServices := {|
  base58check_ok _ := true;
  tron_wallet _ := Some ("Twallet", "key");
  insight_answer _ _ _ := mkResp 200 (BObject [("data", JObj [("id", JStr "wh1"); ("webhook_secret", JStr "s")])]);
  account_first _ := true
|}.
#[local] Instance s_sender_uuid : HttpServices := {| parse_uuid s := Some s |}.

Definition s_sender_conf : SenderConf := mkSenderConf false "https://api.example".
Definition s_pool : ReceiveAddress := mkRA 1 "0xpool" APoolReady true "base" 8453 0 0 3 0 0 "" 0 "".
Definition s_local_token : Token := mkTok 2 "cNGN" "0xc1" 6 true "NGN" s_network.
Definition s_sender_db : DB :=
  let d := s_db (s_pc 5000 0 5000) in
  mkDB (db_provider_currencies d) (db_providers d) (db_currencies d) (db_order_tokens d) (db_buckets d)
    (db_lock_orders d) (db_fulfillments d) (db_payment_orders d) (db_tx_logs d) {[ 1 := s_pool ]}
    [s_token; s_local_token] (db_institutions d) 2 (db_networks d) (db_senders d)
    [mkSOT (d_int 1) "0xfee" "0xret" "s1" 1; mkSOT (d_int 1) "0xfee" "0xret" "s1" 2] [] (mkAccounts ∅ ∅ [] ∅ []).
Definition s_sender_world : World :=
  mkWorld s_sender_db ∅ 0 (mkRedis {[ "bucket_NGN_100_100000" := ["AtGaDPqT:USDT:950:1:1000"] ]} ∅ ∅) [] 1000 [] [].
Definition s_request (token : string) (amount rate : Z) : NewPaymentOrderPayload :=
  mkNPO (d_int amount) token (d_int rate) "base" (mkPOR "ABNGNGLA" "1234567890" "x" "rent" "" "{}" "" "") "ref-1" ""
    (d_int 0) "".

Lemma s_addresses_wf : addresses_wf s_sender_db.
Proof. intros i a. cbn. intros [<- <-]%lookup_singleton_Some. by split. Qed.

Lemma initiate_order_correct_witness :
  let res := InitiatePaymentOrder s_order_conf s_sender_conf 9 (Some (s_request "USDT" 2 950)) (Some s_sender) s_sender_world in
  exists r, res.1 = Ret r /\ initiated s_order_conf 9 (s_request "USDT" 2 950) s_sender s_sender_world r res.2.
Proof.
  intros res. pose proof (initiate_order_correct s_order_conf s_sender_conf 9 (s_request "USDT" 2 950) s_sender
    s_sender_world s_addresses_wf) as (_ & _ & _ & H).
  assert (Hc : match res.1 with Ret r => ar_code r | _ => 0 end = 201) by vm_refl.
  change (match res.1 with
    | Ret r => if (ar_code r =? 201)%Z then initiated s_order_conf 9 (s_request "USDT" 2 950) s_sender s_sender_world r res.2
               else addresses_only s_sender_db (w_db res.2)
    | _ => addresses_only s_sender_db (w_db res.2) end) in H.
  destruct res.1 as [r|e|]; [|done|done]. exists r. split; [done|]. rewrite Hc in H. exact H.
Defined.

Lemma rate_check_one_sided_witness :
  exists w', validate_quote (at_rate (d_int 1000000) (s_request "USDT" 2 950)) s_token s_currency s_sender_world =
    (Ret (inr "ADA LOVELACE"), w').
Proof.
  set (run := validate_quote (s_request "USDT" 2 950) s_token s_currency s_sender_world).
  assert (H : run.1 = Ret (inr "ADA LOVELACE")) by vm_refl.
  exists run.2. refine (rate_check_one_sided (s_request "USDT" 2 950) s_token s_currency "ADA LOVELACE" (d_int 1000000)
    s_sender_world run.2 _ _); [|vm_compute; discriminate].
  rewrite <- H. exact (surjective_pairing run).
Defined.

Lemma disabled_currency_panics_witness :
  (find_institution "ABNGNGLA" s_token (mkWorld (mkDB ∅ ∅ ∅ [] [] ∅ [] ∅ [] ∅ []
     [mkIns "ABNGNGLA" "Access Bank" IBank (Some s_cur)] 1 [] ∅ [] [] (mkAccounts ∅ ∅ [] ∅ [])) ∅ 0 s_redis [] 1000 [] [])).1 = Panic.
Proof. by eapply disabled_currency_panics. Defined.

Lemma sender_lists_own_orders_witness :
  idle s_sender_world (GetPaymentOrders (Some s_sender) "asc" None (Some 5) "" "USDT" "" s_sender_world).2.
Proof. exact (proj1 (sender_lists_own_orders s_sender "asc" None (Some 5) "" "USDT" "" s_sender_world)). Defined.

Lemma sender_stats_correct_witness : idle s_sender_world (SenderStats (Some s_sender) s_sender_world).2.
Proof. exact (proj1 (sender_stats_correct s_sender s_sender_world)). Defined.

(** The amount of an order in a stablecoin of the payout currency is not checked at
    all: an order of a negative amount, with a negative fee, is accepted. *)
Example negative_amount_accepted :
  let res := InitiatePaymentOrder s_order_conf s_sender_conf 9 (Some (s_request "cNGN" (-5) 1)) (Some s_sender) s_sender_world in
  (match res.1 with Ret r => ar_code r | _ => 0 end) = 201 /\
  (fun o => (po_status o, d_lt (po_amount o) d_zero, d_lt (po_sender_fee o) d_zero)) <$>
    db_payment_orders (w_db res.2) !! "new-order" = Some (PInitiated, true, true).
Proof. vm_compute. split; reflexivity. Qed.
