(* ===== verification/Indexer.v ===== *)
(** * Indexed events (services/common/indexer.go)

    What the indexers do with the transfers and gateway events they read from the
    chain: a transfer to the receive address of an order pays the order; a transfer
    to a linked address is to create one; created, settled and refunded events go
    to the handlers of [Orders].  The goroutines of a batch run in the order of the
    batch; [deposit_step] is the interleaving of the goroutines that a transfer
    starts.  All callers pass one address, and events whose ids are distinct. *)

From Stdlib Require Import DecimalString.
From S2P Require Import Prelude Decimal Schema Store Samples Transactions Balance Utils Services Queue Orders Rows Payments Http Tasks.
Local Open Scope go_scope.
Local Open Scope string_scope.
Local Open Scope list_scope.

Section indexer.
Context {O : DecimalOps} {OS : @OrderServices O} {SV : @Services O}.
Variable conf : Config.
Variable service : OrderService.

(** ** Deposits *)

(** *** Updates of rows *)

(** What [paymentOrderUpdate] has been told to set before the deposit. *)
Record DepositUpdate := mkDU {
  du_return_address : option string;
  du_amount : option dec;
  du_rate : option dec
}.

(** The order with the deposit. *)
Definition deposited (now : Z) (u : DepositUpdate) (event : TokenTransferEvent) (log : Z) (o : PaymentOrder) : PaymentOrder :=
  mkPO (po_id o) (default (po_amount o) (du_amount u)) (tt_value event) (po_amount_returned o) (po_percent_settled o)
    (po_sender_fee o) (po_network_fee o) (po_protocol_fee o) (default (po_rate o) (du_rate u)) (tt_tx_hash event)
    (tt_block_number event) (tt_from event) (default (po_return_address o) (du_return_address u))
    (po_receive_address_text o) (po_fee_percent o) (po_fee_address o) (po_gateway_id o) (po_message_hash o)
    (po_reference o) PPending (po_amount_in_usd o) (po_token o) (po_linked_address o) (po_receive_address o)
    (po_recipient o) (po_payment_webhook o) (po_transactions o ++ [log]) (po_sender_profile o) (po_created_at o) now.

Definition address_used (now : Z) (event : TokenTransferEvent) (a : ReceiveAddress) : ReceiveAddress :=
  mkRA (ra_id a) (ra_address a) AUsed (ra_is_deployed a) (ra_network_identifier a) (ra_chain_id a) (ra_assigned_at a)
    (ra_recycled_at a) (ra_times_used a) (tt_block_number event) now (tt_tx_hash event) (ra_valid_until a) (ra_salt a).

(** [receiveAddress.Update()...Save]: an error when the row is gone. *)
Definition mark_used (a : ReceiveAddress) (event : TokenTransferEvent) : M unit :=
  let! w := getM in
  modify_db None (fun d =>
    match db_receive_addresses d !! ra_id a with
    | None => inl ENotFound
    | Some row => inr (set_receive_addresses
                         (<[ra_id a := address_used (w_now w) event row]> (db_receive_addresses d)) d, tt)
    end).

(** *** Amounts *)

Definition order_fees (po : PaymentOrder) : dec := d_add (po_network_fee po) (po_sender_fee po).
Definition order_amount_with_fees (po : PaymentOrder) : dec :=
  d_round (d_add (po_amount po) (order_fees po)) (tk_decimals (po_token po)).

(** Equal to the expected amount, or within one per cent of it. *)
Definition transfer_matches (po : PaymentOrder) (event : TokenTransferEvent) : bool :=
  let expected := order_amount_with_fees po in
  let tolerance := d_mul expected (d_new 1 (-2)) in
  d_eqb (tt_value event) expected ||
  d_ge (tt_value event) (d_sub expected tolerance) && d_le (tt_value event) (d_add expected tolerance).

(** The new amount of an order that got another amount. *)
Definition adjusted_amount (po : PaymentOrder) (event : TokenTransferEvent) : dec :=
  let decimals := tk_decimals (po_token po) in
  let newOrderAmount := d_sub (tt_value event) (d_round (order_fees po) decimals) in
  if d_gt newOrderAmount d_zero then d_round newOrderAmount decimals else tt_value event.

Definition thirty_minutes : Z := 1800000000000.

(** The order is older than half an hour, names a provider and is a "P#P" one. *)
Definition rate_outdated (now : Z) (po : PaymentOrder) : bool :=
  HasPrefix (po_recipient_memo po) "P#P" && negb (String.eqb (re_provider_id (po_recipient po)) "") &&
  (po_created_at po <? now - thirty_minutes)%Z.

(** The provider of the user who sent the order. *)
Definition own_provider (d : DB) (po : PaymentOrder) (p : ProviderProfile) : bool :=
  match s ← po_sender_profile po; db_senders d !! s with
  | Some s => String.eqb (pp_user_email p) (sp_user_email s)
  | None => false
  end.

(** The current rate of that provider. *)
Definition current_rate (po : PaymentOrder) : M dec :=
  let! d := read_db None in
  let! provider := only (List.filter (own_provider d po) (map snd (map_to_list (db_providers d)))) in
  let! ins := GetInstitutionByCode (re_institution (po_recipient po)) true in
  let! fc := deref (snd ins) in
  GetProviderRate (pp_id provider) (tk_symbol (po_token po)) (fc_code fc).

(** What changes besides the deposit itself. *)
Definition deposit_update (po : PaymentOrder) (event : TokenTransferEvent) : M DepositUpdate :=
  let ret := if String.eqb (po_return_address po) "" then Some (tt_from event) else None in
  if transfer_matches po event then retM (mkDU ret None None)
  else
    let! w := getM in
    if rate_outdated (w_now w) po then
      let! rate := current_rate po in
      retM (mkDU ret (Some (adjusted_amount po event)) (Some rate))
    else retM (mkDU ret (Some (adjusted_amount po event)) None).

(** *** The transfer *)

(** The transfer has been indexed before: some address or the order has its hash,
    or a log.  A failed query of the logs counts as none. *)
Definition deposit_seen (a : ReceiveAddress) (po : PaymentOrder) (event : TokenTransferEvent) : M bool :=
  let! d := read_db None in
  if existsb (fun r => String.eqb (ra_tx_hash r) (tt_tx_hash event)) (map snd (map_to_list (db_receive_addresses d))) &&
     negb (bool_decide (ra_status a = AUnused))
  then retM true
  else if String.eqb (po_tx_hash po) (tt_tx_hash event) then retM true
  else
    let! log := attemptM (let! d := read_db None in
                          first (List.filter (fun l => String.eqb (tl_tx_hash l) (tt_tx_hash event)) (db_tx_logs d))) in
    retM (match log with inr _ => true | inl _ => false end).

Definition json_field (key value : string) : string := json_quote key +:+ ":" +:+ value.
Definition deposit_metadata (a : ReceiveAddress) (event : TokenTransferEvent) : string :=
  "{" +:+ json_field "transactionData" ("{" +:+ join_with ","
    [json_field "blockNumber" (NilZero.string_of_int (Z.to_int (tt_block_number event)));
     json_field "from" (json_quote (tt_from event)); json_field "to" (json_quote (ra_address a));
     json_field "value" (json_quote (d_string (tt_value event)))] +:+ "}") +:+ "}".

Definition unpaid (po : PaymentOrder) (event : TokenTransferEvent) : bool :=
  (String.eqb (po_tx_hash po) "" || String.eqb (po_tx_hash po) (tt_tx_hash event)) &&
  bool_decide (po_status po = PInitiated).

(** The deposit in its transaction; without an unpaid order the transaction stays
    open, as after every error. *)
Definition record_deposit (a : ReceiveAddress) (po : PaymentOrder) (event : TokenTransferEvent) : M unit :=
  let! tx := msgM "UpdateReceiveAddressStatus.db" begin_tx in
  let! u := msgM "UpdateReceiveAddressStatus.db" (deposit_update po event) in
  if unpaid po event then
    let! w := getM in
    let! log := msgM "UpdateReceiveAddressStatus.transactionlog" (modify_db (Some tx) (insert_log TCryptoDeposited ""
                  (nw_identifier (tk_network (po_token po))) (tt_tx_hash event) (deposit_metadata a event) (w_now w))) in
    do! msgM "UpdateReceiveAddressStatus.db" (write_db (Some tx) (fun d => set_payment_orders
          (alter (deposited (w_now w) u event log) (po_id po) (db_payment_orders d)) d)) in
    msgM "UpdateReceiveAddressStatus.db" (commit_tx tx)
  else retM tt.

(** The deposit, the address, and the order on chain. *)
Definition deposit_apply (a : ReceiveAddress) (po : PaymentOrder) (event : TokenTransferEvent) : M bool :=
  do! record_deposit a po event in
  if d_gt (tt_value event) d_zero then
    do! msgM "UpdateReceiveAddressStatus.db" (mark_used a event) in
    do! msgM "UpdateReceiveAddressStatus.CreateOrder" (CreateOrder service (po_id po)) in
    retM true
  else
    do! msgM "UpdateReceiveAddressStatus.HandleReceiveAddressValidity" (HandleReceiveAddressValidity conf a po) in
    retM false.

Definition UpdateReceiveAddressStatus (a : ReceiveAddress) (po : PaymentOrder) (event : TokenTransferEvent) : M bool :=
  if negb (EqualFold (tt_to event) (ra_address a)) then retM false
  else
    let! seen := msgM "UpdateReceiveAddressStatus.db" (deposit_seen a po event) in
    if seen then retM false else deposit_apply a po event.

(** *** The orders of an address *)

(** The receive address of an order that waits for a payment. *)
Definition awaiting (d : DB) (now : Z) (addresses : list string) (po : PaymentOrder) : option ReceiveAddress :=
  a ← (i ← po_receive_address po; db_receive_addresses d !! i);
  if (bool_decide (ra_status a = AUnused) || bool_decide (ra_status a = APoolAssigned)) &&
     ((ra_valid_until a =? 0)%Z || (now <? ra_valid_until a)%Z) &&
     existsb (fun addr => String.eqb (ToLower (ra_address a)) (ToLower addr)) addresses &&
     bool_decide (po_status po = PInitiated) && String.eqb (po_tx_hash po) ""
  then Some a else None.

Definition awaiting_orders (d : DB) (now : Z) (addresses : list string) : list (PaymentOrder * ReceiveAddress) :=
  omap (fun po => a ← awaiting d now addresses po; Some (po, a)) (payment_rows d).

(** The event of an address, letter case aside. *)
Definition event_for (addressToEvent : list (string * TokenTransferEvent)) (address : string) : option TokenTransferEvent :=
  snd <$> List.find (fun e => EqualFold (fst e) address) addressToEvent.

Definition pay_order (addressToEvent : list (string * TokenTransferEvent)) (row : PaymentOrder * ReceiveAddress) : M unit :=
  match event_for addressToEvent (ra_address (snd row)) with
  | None => retM tt
  | Some event => do? UpdateReceiveAddressStatus (snd row) (fst row) event orelse e => (retM tt) in retM tt
  end.

Definition ProcessReceiveAddresses (unknownAddresses : list string)
    (addressToEvent : list (string * TokenTransferEvent)) : M unit :=
  let! d := wrapM "processReceiveAddresses.fetchOrders" (read_db None) in
  let! w := getM in
  for_each (pay_order addressToEvent) (awaiting_orders d (w_now w) unknownAddresses).

(** ** Linked addresses *)

(** An order that the transfer has created before. *)
Definition linked_indexed (d : DB) (la : LinkedAddress) (event : TokenTransferEvent) (o : PaymentOrder) : bool :=
  String.eqb (po_from_address o) (tt_from event) && d_eqb (po_amount o) (tt_value event) &&
  existsb (fun l => bool_decide (po_linked_address o = Some (la_id l)) && String.eqb (la_address l) (la_address la) &&
                    (la_last_indexed_block l =? tt_block_number event)%Z) (db_linked_addresses d).

(** The builder of the order: neither the protocol fee nor the dollar amount is
    set. *)
Definition linked_builder (la : LinkedAddress) (event : TokenTransferEvent) (tk : Token) (rate : dec) : PaymentOrderCreate :=
  mkPOC (Some (tt_value event)) (Some (tt_value event)) (Some (d_int 0)) (Some (d_int 0)) (Some (d_int 0))
    (Some (nw_fee (tk_network tk))) None (Some rate) (Some (tt_tx_hash event)) (Some (tt_block_number event))
    (Some (tt_from event)) (Some (la_address la)) (Some (la_address la)) (Some (d_int 0)) None None None (Some tk)
    (Some (la_id la)) None [] None.

Definition linked_used (event : TokenTransferEvent) (la : LinkedAddress) : LinkedAddress :=
  mkLA (la_id la) (la_address la) (la_institution la) (la_account_identifier la) (la_account_name la) (la_metadata la)
    (la_owner_address la) (tt_block_number event) (tt_tx_hash event).

(** [UpdateOneID(id)...Save] *)
Definition update_linked (h : handle) (id : Z) (event : TokenTransferEvent) : M unit :=
  modify_db h (fun d =>
    if existsb (fun l => (la_id l =? id)%Z) (db_linked_addresses d)
    then inr (set_linked_addresses (map (fun l => if (la_id l =? id)%Z then linked_used event l else l)
                (db_linked_addresses d)) d, tt)
    else inl ENotFound).

(** The order is saved outside the transaction, its recipient inside. *)
Definition store_linked_order (la : LinkedAddress) (event : TokenTransferEvent) (tk : Token) (rate : dec) : M unit :=
  let! tx := begin_tx in
  let fails {A} (e : error) : M A := do! rollback_tx tx in errM e in
  let? order := payment_save None (linked_builder la event tk rate) orelse e => (fails e) in
  do? with_order (Some tx) (po_id order) (set_recipient (mkRecipient (la_institution la) (la_account_identifier la)
        (la_account_name la) "" "" (la_metadata la))) orelse e => (fails e) in
  do? update_linked (Some tx) (la_id la) event orelse e => (fails e) in
  do! commit_tx tx in
  CreateOrder service (po_id order).

(** One transfer to a linked address; every error is logged. *)
Definition linked_transfer (qfuel : nat) (la : LinkedAddress) (event : TokenTransferEvent) (tk : Token) : M unit :=
  let! d := read_db None in
  let! found := attemptM (only (List.filter (linked_indexed d la event) (payment_rows d))) in
  match found with
  | inr _ => retM tt
  | inl e =>
      if negb (IsNotFound e) then errM e
      else
        let! ins := GetInstitutionByCode (la_institution la) true in
        let! fc := deref (snd ins) in
        if negb (EqualFold (tk_base_currency tk) (fc_code fc)) && negb (EqualFold (tk_base_currency tk) "USD") then retM tt
        else
          let! rate := (if negb (EqualFold (tk_base_currency tk) (fc_code fc))
                        then GetTokenRateFromQueue qfuel (scan_buckets (fc_code fc)) (tk_symbol tk) (tt_value event)
                               (fc_market_rate fc)
                        else retM (d_int 1)) in
          store_linked_order la event tk rate
  end.

Definition process_linked (qfuel : nat) (addressToEvent : list (string * TokenTransferEvent)) (tk : Token)
    (la : LinkedAddress) : M unit :=
  match snd <$> List.find (fun e => String.eqb (fst e) (la_address la)) addressToEvent with
  | None => retM tt
  | Some event => do? linked_transfer qfuel la event tk orelse e => (retM tt) in retM tt
  end.

Definition ProcessLinkedAddresses (qfuel : nat) (unknownAddresses : list string)
    (addressToEvent : list (string * TokenTransferEvent)) (tk : Token) : M unit :=
  let? d := read_db None orelse e => (retM tt) in
  for_each (process_linked qfuel addressToEvent tk)
    (List.filter (fun l => ContainsString unknownAddresses (la_address l)) (db_linked_addresses d)).

Definition ProcessTransfers (qfuel : nat) (unknownAddresses : list string)
    (addressToEvent : list (string * TokenTransferEvent)) (tk : Token) : M unit :=
  do! ProcessReceiveAddresses unknownAddresses addressToEvent in
  ProcessLinkedAddresses qfuel unknownAddresses addressToEvent tk.

(** ** Gateway events *)

Definition ProcessCreatedOrders (qfuel depth : nat) (network : Network) (orderIds : list string)
    (orderIdToEvent : gmap string OrderCreatedEvent) : M unit :=
  for_each (fun id =>
    match orderIdToEvent !! id with
    | None => retM tt
    | Some event => logged (CreateLockPaymentOrder conf qfuel network event (RefundOrder service)
                              (AssignLockPaymentOrder conf qfuel depth))
    end) orderIds.

(** The left join with payment orders on the message hash: one row per order of
    the same hash, or one without; [NULL] is not equal to anything. *)
Definition joined (d : DB) (lo : LockPaymentOrder) : list (option PaymentOrder) :=
  match List.filter (fun po => negb (String.eqb (lo_message_hash lo) "") &&
                              String.eqb (po_message_hash po) (lo_message_hash lo)) (payment_rows d) with
  | [] => [None]
  | l => map Some l
  end.

(** The lock orders of the join rows that satisfy the condition, with repetition. *)
Definition joined_orders (d : DB) (orderIds : list string) (cond : LockPaymentOrder -> option PaymentOrder -> bool)
    : list LockPaymentOrder :=
  concat (map (fun lo => map (fun _ => lo) (List.filter (cond lo) (joined d lo)))
    (List.filter (fun lo => ContainsString orderIds (lo_gateway_id lo)) (lock_rows d))).

Definition po_status_not (st : PayStatus) (po : option PaymentOrder) : bool :=
  match po with Some po => negb (bool_decide (po_status po = st)) | None => false end.
Definition to_settle (lo : LockPaymentOrder) (po : option PaymentOrder) : bool :=
  bool_decide (lo_status lo = LValidated) || po_status_not PSettled po.
Definition to_refund (lo : LockPaymentOrder) (po : option PaymentOrder) : bool :=
  bool_decide (lo_status lo = LPending) || bool_decide (lo_status lo = LCancelled) || po_status_not PRefunded po.

Definition ProcessSettledOrders (network : Network) (orderIds : list string)
    (orderIdToEvent : gmap string OrderSettledEvent) : M unit :=
  let! d := wrapM "IndexOrderSettled.fetchLockOrders" (read_db None) in
  for_each (fun lo =>
    match orderIdToEvent !! lo_gateway_id lo with
    | None => retM tt
    | Some event => logged (UpdateOrderStatusSettled network event (lo_message_hash lo))
    end) (joined_orders d orderIds to_settle).

(** The fee of the event, which the orders of the gateway id share, is divided in
    place for each of them. *)
Fixpoint refund_orders (orders : list LockPaymentOrder) (orderIdToEvent : gmap string OrderRefundedEvent) : M unit :=
  match orders with
  | [] => retM tt
  | lo :: rest =>
      match orderIdToEvent !! lo_gateway_id lo with
      | None => refund_orders rest orderIdToEvent
      | Some event =>
          let event := mkORE (or_block_number event) (or_tx_hash event) (from_subunit (or_fee event) (lo_token lo))
                         (or_order_id event) in
          do! logged (UpdateOrderStatusRefunded (tk_network (lo_token lo)) event (lo_message_hash lo)) in
          refund_orders rest (<[lo_gateway_id lo := event]> orderIdToEvent)
      end
  end.

Definition ProcessRefundedOrders (orderIds : list string) (orderIdToEvent : gmap string OrderRefundedEvent) : M unit :=
  let! d := wrapM "IndexOrderRefunded.fetchLockOrders" (read_db None) in
  refund_orders (joined_orders d orderIds to_refund) orderIdToEvent.

(** ** Addresses of providers *)

Definition serves_token (d : DB) (tk : Token) (currency : string) (t : ProviderOrderToken) : bool :=
  (tk_id (pot_token t) =? tk_id tk)%Z && String.eqb (pot_currency t) currency && negb (String.eqb (pot_address t) "") &&
  has_available_currency d (pot_provider t) currency &&
  match db_providers d !! pot_provider t with Some p => pp_is_active p | None => false end.

Definition GetProviderAddresses (tk : Token) (currency : string) : M (list string) :=
  let! d := wrapM "failed to get provider order tokens" (read_db None) in
  retM (map pot_address (List.filter (serves_token d tk currency) (db_order_tokens d))).

(** The provider, the bucket and its currency are edges of the loaded order. *)
Definition GetProviderAddressFromLockOrder (provider : option string) (bucket : option (option FiatCurrency)) (tk : Token)
    : M string :=
  match provider, bucket with
  | None, _ => errM (EMsg "lock order has no provider")
  | Some _, None => errM (EMsg "lock order has no provision bucket")
  | Some p, Some currency =>
      let! fc := deref currency in
      let! t := wrapM "failed to get provider order token"
                  (let! d := read_db None in
                   only (List.filter (fun t => String.eqb (pot_provider t) p && (tk_id (pot_token t) =? tk_id tk)%Z &&
                           String.eqb (pot_currency t) (fc_code fc) && negb (String.eqb (pot_address t) ""))
                          (db_order_tokens d))) in
      retM (pot_address t)
  end.

(** ** The goroutines of one transfer *)

(** Where the goroutine of an order is: it has not started, it has looked whether
    the transfer is known, it has finished. *)
Inductive phase := Waiting | Checked (seen : bool) | Finished.

(** The checks and the deposit of different goroutines interleave. *)
Inductive deposit_step (rows : list (PaymentOrder * ReceiveAddress)) (event : TokenTransferEvent)
    : World * list phase -> World * list phase -> Prop :=
  | ds_check w ps i po a seen w' :
      rows !! i = Some (po, a) -> ps !! i = Some Waiting -> EqualFold (tt_to event) (ra_address a) = true ->
      deposit_seen a po event w = (Ret seen, w') ->
      deposit_step rows event (w, ps) (w', <[i := Checked seen]> ps)
  | ds_fail w ps i po a e w' :
      rows !! i = Some (po, a) -> ps !! i = Some Waiting -> deposit_seen a po event w = (Err e, w') ->
      deposit_step rows event (w, ps) (w', <[i := Finished]> ps)
  | ds_skip w ps i : ps !! i = Some (Checked true) -> deposit_step rows event (w, ps) (w, <[i := Finished]> ps)
  | ds_apply w ps i po a out w' :
      rows !! i = Some (po, a) -> ps !! i = Some (Checked false) -> deposit_apply a po event w = (out, w') ->
      out <> Panic -> deposit_step rows event (w, ps) (w', <[i := Finished]> ps).

End indexer.
