(* ===== verification/IndexerClaims.v ===== *)
(** * Theorems about indexed events

    What a transfer does to the order it pays, that a transfer with a log is done,
    what happens when orders share an address, and that transfers to linked
    addresses are never recorded; with their witnesses. *)

From Stdlib Require Import Qabs.
From S2P Require Import Prelude Decimal Schema Store Samples Transactions Balance Utils Services Queue QueueSteps Calm.
From S2P Require Import Orders OrderClaims Rows Payments Http Tasks TaskClaims Indexer.
Local Open Scope go_scope.
Local Open Scope string_scope.
Local Open Scope list_scope.

(** Altering a row that is there. *)
Lemma alter_known {A} (f : A -> A) (i : string) (m : gmap string A) x : m !! i = Some x -> alter f i m = <[i := f x]> m.
Proof.
  intros H. apply map_eq. intros j. destruct (decide (j = i)) as [->|Hne].
  - by rewrite lookup_alter_eq, lookup_insert_eq, H.
  - by rewrite lookup_alter_ne, lookup_insert_ne.
Qed.

Section deposits.
Context {O : DecimalOps} {L : DecimalLaws O} {OS : @OrderServices O} {SV : @Services O} {SL : ServicesLaws SV}.
Variable conf : Config.
Variable service : OrderService.

(** ** One deposit *)

(** What the deposit sets besides itself. *)
Record deposit_terms (po : PaymentOrder) (event : TokenTransferEvent) (u : DepositUpdate) : Prop := {
  dt_return : du_return_address u = if String.eqb (po_return_address po) "" then Some (tt_from event) else None;
  dt_amount : du_amount u = if transfer_matches po event then None else Some (adjusted_amount po event);
  dt_rate : transfer_matches po event = true -> du_rate u = None
}.

Lemma calm_get_rate p s c : calm any (GetProviderRate p s c).
Proof. unfold GetProviderRate. calm_tac. Qed.
Hint Resolve calm_get_rate : calm.

Lemma calm_deposit_update po event :
  calm (fun o => forall u, o = Ret u -> deposit_terms po event u) (deposit_update po event).
Proof.
  unfold deposit_update, current_rate. destruct (transfer_matches po event) eqn:E.
  { apply calm_ret. intros u [= <-]. by split; [|rewrite E|]. }
  assert (Hs : forall r, deposit_terms po event (mkDU (if String.eqb (po_return_address po) "" then Some (tt_from event)
      else None) (Some (adjusted_amount po event)) r)) by (intros r; split; [done|by rewrite E|congruence]).
  apply calm_bind; [calm_tac|intros w|done|done]. destruct (rate_outdated _ _).
  - apply calm_bind; [calm_tac|intros r|done|done]. apply calm_ret. intros u [= <-]. apply Hs.
  - apply calm_ret. intros u [= <-]. apply Hs.
Qed.

(** The database with the deposit. *)
Definition with_deposit (a : ReceiveAddress) (po : PaymentOrder) (event : TokenTransferEvent) (u : DepositUpdate)
    (now : Z) (d : DB) : DB :=
  put_order (deposited now u event (db_next_id d) po) (po_id po)
    (set_next_id (db_next_id d + 1) (set_tx_logs (db_tx_logs d ++
       [mkTL (db_next_id d) "" TCryptoDeposited (nw_identifier (tk_network (po_token po))) (tt_tx_hash event)
          (deposit_metadata a event) now]) d)).

Lemma record_deposit_wp a po event w :
  db_payment_orders (w_db w) !! po_id po = Some po -> unpaid po event = true ->
  wp (record_deposit a po event) (fun out w' => w_now w' = w_now w /\ w_redis w' = w_redis w /\
    (out = Ret tt /\ (exists u, deposit_terms po event u /\ w_db w' = with_deposit a po event u (w_now w) (w_db w)) \/
     out <> Ret tt /\ w_db w' = w_db w)) w.
Proof.
  intros Hpo Hun. unfold record_deposit. do 2 wp_step.
  apply wp_in_begin; [intros tx w1 H1|intros fs; split_and!; [done|done|by right]].
  do 2 wp_step. eapply wp_mono; [apply calm_deposit_update|]. intros out w2 [(Hd2 & Hr2 & Ht2 & Hn2) Hu].
  assert (H2 : w_now w2 = w_now w /\ w_redis w2 = w_redis w /\ w_db w2 = w_db w)
    by (destruct H1; split_and!; congruence). destruct H2 as (Hn & Hr & Hd).
  destruct out as [u|e|]; [|split_and!; [done|done|by right]|split_and!; [done|done|by right]]. specialize (Hu u eq_refl).
  rewrite Hun. do 4 wp_step.
  assert (Hv2 : exists g, w_txs w2 !! tx = Some g /\ g (w_db w2) = w_db w).
  { rewrite Ht2, Hd2. apply (in_tx_fun w _ _ _ H1). }
  destruct Hv2 as (g & Hg & Hgd).
  eapply wp_modify_tx; [exact Hg|intros fs|intros fs; split_and!; [done|done|by right]]. simpl.
  rewrite Hgd. do 2 wp_step. eapply wp_write_tx; [simpl; apply lookup_insert_eq|intros fs2|intros fs2; split_and!; [done|done|by right]].
  wp_step. eapply wp_commit; [simpl; apply lookup_insert_eq|intros fs3|intros fs3; split_and!; [done|done|by right]].
  split_and!; [done|done|left]. split; [done|]. exists u. split; [done|]. simpl. rewrite Hgd, Hn.
  unfold with_deposit, put_order. f_equal. by apply alter_known.
Qed.

Lemma calm_deposit_seen a po event : calm any (deposit_seen a po event).
Proof. unfold deposit_seen. calm_tac. Qed.

(** The address of the order after the deposit. *)
Definition with_address_used (a : ReceiveAddress) (event : TokenTransferEvent) (now : Z) (d : DB) : DB :=
  set_receive_addresses (<[ra_id a := address_used now event a]> (db_receive_addresses d)) d.

(** The order on chain: what a run of [CreateOrder] makes of the outcome. *)
Definition order_created (po : PaymentOrder) (w1 : World) (out : outcome bool) (w' : World) : Prop :=
  match CreateOrder service (po_id po) w1 with
  | (Ret _, w2) => out = Ret true /\ w' = w2
  | (Err _, w2) => out = Err (EMsg "UpdateReceiveAddressStatus.CreateOrder") /\ w' = w2
  | (Panic, w2) => out = Panic /\ w' = w2
  end.

Lemma mark_used_wp a event (Q : outcome unit -> World -> Prop) w :
  db_receive_addresses (w_db w) !! ra_id a = Some a ->
  (forall fs, Q (Ret tt) (set_db (with_address_used a event (w_now w) (w_db w)) (set_faults fs w))) ->
  (forall fs, Q (Err EFault) (set_faults fs w)) -> wp (mark_used a event) Q w.
Proof.
  intros Ha Hok Hbad. unfold mark_used. do 2 wp_step. apply wp_modify_direct; [intros fs|done]. rewrite Ha. apply Hok.
Qed.

(** What the transfer did: nothing; or the deposit is recorded and the address is
    not; or both, and the order was then created from that state. *)
Definition deposit_result (a : ReceiveAddress) (po : PaymentOrder) (event : TokenTransferEvent) (w : World)
    (out : outcome bool) (w' : World) : Prop :=
  w_db w' = w_db w /\ out <> Ret true \/
  exists u, deposit_terms po event u /\
    let d1 := with_deposit a po event u (w_now w) (w_db w) in
    (w_db w' = d1 /\ (exists e, out = Err e) \/
     exists w1, w_db w1 = with_address_used a event (w_now w) d1 /\ order_created po w1 out w').

Lemma deposit_wp a po event w :
  db_payment_orders (w_db w) !! po_id po = Some po -> db_receive_addresses (w_db w) !! ra_id a = Some a ->
  po_status po = PInitiated -> po_tx_hash po = "" -> (0 < d_val (tt_value event))%Q ->
  wp (UpdateReceiveAddressStatus conf service a po event) (deposit_result a po event w) w.
Proof.
  intros Hpo Ha Hst Htx Hv. unfold UpdateReceiveAddressStatus. destruct (EqualFold _ _); cbn [negb]; [|by left].
  do 2 wp_step. eapply wp_mono; [apply calm_deposit_seen|]. intros out w1 [(Hd1 & Hr1 & Ht1 & Hn1) _].
  assert (Hbad : forall w2 o, w_db w2 = w_db w1 -> o <> Ret true -> deposit_result a po event w o w2)
    by (intros; left; split; congruence).
  destruct out as [[]|e|]; cbn beta iota; [by apply Hbad| |by apply Hbad|by apply Hbad].
  unfold deposit_apply. wp_step.
  eapply wp_mono; [apply (record_deposit_wp a po event w1); [by rewrite Hd1|]|].
  { unfold unpaid. rewrite Htx. by rewrite bool_decide_eq_true_2. }
  intros out w2 (Hn2 & _ & [(-> & u & Hu & Hd2)|[Hne Hd2]]).
  2:{ destruct out as [[]|e|]; [done|by apply Hbad|by apply Hbad]. }
  rewrite Hd1, Hn1 in Hd2. rewrite Hn1 in Hn2.
  assert (d_gt (tt_value event) d_zero = true) as -> by (dec_to_q; lra).
  do 2 wp_step. apply mark_used_wp; [by rewrite Hd2| |].
  2:{ intros fs. right. exists u. split; [done|]. left. split; [done|]. by eexists. }
  intros fs. cbn beta iota. do 2 wp_step. unfold wp.
  destruct (CreateOrder service (po_id po) _) as [out w3] eqn:E.
  assert (H : forall r, match out with Ret _ => r = Ret true | Err _ => r = Err (EMsg "UpdateReceiveAddressStatus.CreateOrder")
      | Panic => r = Panic end -> deposit_result a po event w r w3).
  { intros r Hr. right. exists u. split; [done|]. right. eexists. split; [|unfold order_created; rewrite E; by destruct out].
    simpl. by rewrite Hn2, Hd2. }
  destruct out as [[]|e|]; by apply H.
Qed.

(** C13: a transfer to the receive address of an order that is not paid, whatever fails:
    either the database is as before and nothing was created; or the order is
    pending with the transfer's hash, block, sender and amount paid, a log of it
    exists, and its amount is kept when the transfer matches and set to what was
    sent less the fees otherwise, in one commit; then, unless marking the address
    fails, the address is used and the order is created on chain once. *)
Theorem deposit_correct a po event w :
  db_payment_orders (w_db w) !! po_id po = Some po -> db_receive_addresses (w_db w) !! ra_id a = Some a ->
  po_status po = PInitiated -> po_tx_hash po = "" -> (0 < d_val (tt_value event))%Q ->
  wp (UpdateReceiveAddressStatus conf service a po event) (deposit_result a po event w) w.
Proof. apply deposit_wp. Qed.

(** ** Amounts *)

(** Matching means: within one per cent of the order's amount and fees. *)
Lemma transfer_matches_iff po event :
  (0 <= d_val (order_amount_with_fees po))%Q ->
  transfer_matches po event = true <->
  (d_val (order_amount_with_fees po) * (99 # 100) <= d_val (tt_value event) <=
   d_val (order_amount_with_fees po) * (101 # 100))%Q.
Proof.
  intros H0. unfold transfer_matches.
  assert (Hn : (d_val (d_new 1 (-2)) == 1 # 100)%Q) by (rewrite (val_new 1 2) by lia; reflexivity).
  rewrite orb_true_iff, andb_true_iff, d_eqb_spec, d_ge_spec, d_le_spec, val_sub, val_add, val_mul, Hn.
  split; [intros [E|[E1 E2]]; [rewrite E|]; lra|intros [E1 E2]; right; lra].
Qed.

(** How the amount of a paid order relates to what was paid.  When the transfer
    matches, the order keeps its amount, so that amount and fees may exceed what
    arrived by one per cent.  Otherwise amount and fees, each rounded to the
    token's decimals, are what arrived up to half a unit, unless the fees are as
    large as the transfer: then no fee is taken off. *)
Theorem deposit_amount_bounds po event u :
  (0 <= d_val (order_amount_with_fees po))%Q -> 0 <= tk_decimals (po_token po) -> deposit_terms po event u ->
  match du_amount u with
  | None => (Qabs (d_val (tt_value event) - d_val (order_amount_with_fees po)) <=
             d_val (order_amount_with_fees po) * (1 # 100))%Q
  | Some amount =>
      let fees := d_val (d_round (order_fees po) (tk_decimals (po_token po))) in
      if d_gt (d_sub (tt_value event) (d_round (order_fees po) (tk_decimals (po_token po)))) d_zero
      then (Qabs (d_val amount + fees - d_val (tt_value event)) <= 1 # 2 * Z.to_pos (10 ^ tk_decimals (po_token po)))%Q
      else amount = tt_value event /\ (d_val (tt_value event) <= fees)%Q
  end.
Proof.
  intros H0 Hd [_ Ha _]. rewrite Ha. destruct (transfer_matches po event) eqn:E.
  - apply transfer_matches_iff in E; [|done]. apply Qabs_case; intros; lra.
  - cbn zeta. unfold adjusted_amount. destruct (d_gt _ _) eqn:Eg.
    + pose proof (round_bound (d_sub (tt_value event) (d_round (order_fees po) (tk_decimals (po_token po)))) _ Hd) as Hr.
      rewrite val_sub in Hr.
      set (r := d_val (d_round (d_sub _ _) _)) in *. set (f := d_val (d_round (order_fees po) _)) in *.
      assert (Er : (r + f - d_val (tt_value event) == r - (d_val (tt_value event) - f))%Q) by ring.
      rewrite Er. exact Hr.
    + split; [done|]. dec_to_q. lra.
Qed.

(** ** Once *)

(** A transfer that has a log is known. *)
Lemma deposit_seen_logged a po event w :
  w_faults w = [] -> (exists l, l ∈ db_tx_logs (w_db w) /\ tl_tx_hash l = tt_tx_hash event) ->
  deposit_seen a po event w = (Ret true, w).
Proof.
  intros Hf (l & Hl & Hh). unfold deposit_seen, read_db, ext, bindM. rewrite Hf. cbn [view fmap option_fmap option_map].
  destruct (existsb _ _ && _); [done|]. destruct (String.eqb _ _); [done|].
  unfold attemptM, tryM. rewrite Hf. cbn [view fmap option_fmap option_map].
  destruct (List.filter _ _) as [|x r] eqn:E; [|done]. exfalso.
  assert (Hin : In l (List.filter (fun l => String.eqb (tl_tx_hash l) (tt_tx_hash event)) (db_tx_logs (w_db w)))).
  { apply filter_In. split; [by apply list_elem_of_In|by apply String.eqb_eq]. }
  by rewrite E in Hin.
Qed.

(** A transfer that has a log is done: when no query fails, its event changes
    nothing, for whatever order and address it is processed. *)
Theorem deposit_replay_ignored a po event w :
  w_faults w = [] -> (exists l, l ∈ db_tx_logs (w_db w) /\ tl_tx_hash l = tt_tx_hash event) ->
  UpdateReceiveAddressStatus conf service a po event w = (Ret false, w).
Proof.
  intros Hf Hl. unfold UpdateReceiveAddressStatus. destruct (EqualFold _ _); [|done]. cbn [negb].
  unfold bindM, msgM, tryM. by rewrite (deposit_seen_logged a po event w).
Qed.

(** ** Linked addresses *)

(** Neither the database nor Redis changed. *)
Definition unrecorded {A} (w : World) (out : outcome A) (w' : World) : Prop :=
  w_db w' = w_db w /\ w_redis w' = w_redis w.

Lemma calm_unrecorded {A B} (m : M A) (k : A -> M B) w0 w :
  calm any m -> unrecorded w0 (Ret tt) w -> (forall a w', unrecorded w0 (Ret tt) w' -> wp (k a) (unrecorded w0) w') ->
  wp (bindM m k) (unrecorded w0) w.
Proof.
  intros Hm [Hd Hr] Hk. wp_step. eapply wp_mono; [apply Hm|]. intros out w1 [(Hd1 & Hr1 & _) _].
  assert (H1 : unrecorded w0 (Ret tt) w1) by (split; congruence).
  destruct out as [a|e|]; [by apply Hk|exact H1|exact H1].
Qed.

(** The builder has no protocol fee, so the order is refused before the database
    sees it. *)
Lemma store_linked_order_unrecorded la event tk rate w0 w :
  unrecorded w0 (Ret tt) w -> wp (store_linked_order service la event tk rate) (unrecorded w0) w.
Proof.
  intros [Hd Hr]. unfold store_linked_order. wp_step. apply wp_begin; intros fs; [|by split].
  wp_step. change (payment_save None (linked_builder la event tk rate)) with (@errM _ PaymentOrder (EValidation "protocol_fee")).
  do 3 wp_step. wp_step. by split.
Qed.

Lemma linked_transfer_unrecorded q la event tk w : wp (linked_transfer service q la event tk) (unrecorded w) w.
Proof.
  unfold linked_transfer. apply calm_unrecorded; [calm_tac|done|intros d w1 H1].
  apply calm_unrecorded; [calm_tac|done|intros [e|o] w2 H2]; [|exact H2].
  destruct (negb (IsNotFound e)); [exact H2|].
  apply calm_unrecorded; [calm_tac|done|intros ins w3 H3].
  apply calm_unrecorded; [calm_tac|done|intros fc w4 H4].
  destruct (_ && _); [exact H4|].
  apply calm_unrecorded; [destruct (negb _); calm_tac|done|intros rate w5 H5]. by apply store_linked_order_unrecorded.
Qed.

Lemma process_linked_unrecorded q addresses addressToEvent tk w :
  wp (ProcessLinkedAddresses service q addresses addressToEvent tk) (fun out w' =>
    w_db w' = w_db w /\ w_redis w' = w_redis w /\ (out = Ret tt \/ out = Panic)) w.
Proof.
  unfold ProcessLinkedAddresses. wp_step. eapply wp_read_db; [reflexivity|intros fs|intros fs; split_and!; [done|done|by left]].
  assert (H : forall l w1, unrecorded w (Ret tt) w1 -> wp (for_each (process_linked service q addressToEvent tk) l)
    (fun out w' => w_db w' = w_db w /\ w_redis w' = w_redis w /\ (out = Ret tt \/ out = Panic)) w1).
  2:{ by apply H. }
  induction l as [|la l IH]; intros w1 [Hd Hr]; [split_and!; [done|done|by left]|]. cbn [for_each]. wp_step.
  unfold process_linked. destruct (snd <$> _) as [event|]; [|apply wp_ret; by apply IH].
  wp_step. eapply wp_mono; [apply linked_transfer_unrecorded|]. intros out w2 [Hd2 Hr2].
  destruct out as [[]|e|]; [apply wp_ret|apply wp_ret|split_and!; [congruence|congruence|by right]]; apply IH; split; congruence.
Qed.

(** Transfers to linked addresses are never recorded: whatever they are and
    whatever fails, no order is stored, the linked address does not get the
    transfer's hash and block, no order is created on chain (the claim is for every
    order service), and the caller is told nothing. *)
Theorem linked_deposit_never_recorded q addresses addressToEvent tk w :
  wp (ProcessLinkedAddresses service q addresses addressToEvent tk) (fun out w' =>
    w_db w' = w_db w /\ w_redis w' = w_redis w /\ (out = Ret tt \/ out = Panic)) w.
Proof. apply process_linked_unrecorded. Qed.

(** ** Orders that share an address *)

(** An order that the transfer would pay: a row of the query, with its address. *)
Record payable (event : TokenTransferEvent) (w : World) (row : PaymentOrder * ReceiveAddress) : Prop := {
  pa_order : db_payment_orders (w_db w) !! po_id row.1 = Some row.1;
  pa_address : db_receive_addresses (w_db w) !! ra_id row.2 = Some row.2;
  pa_edge : po_receive_address row.1 = Some (ra_id row.2);
  pa_status : po_status row.1 = PInitiated;
  pa_hash : po_tx_hash row.1 = "";
  pa_to : EqualFold (tt_to event) (ra_address row.2) = true;
  pa_matches : transfer_matches row.1 event = true
}.

(** Neither an address nor a log has the hash of the transfer. *)
Record fresh_transfer (event : TokenTransferEvent) (d : DB) : Prop := {
  ft_hash : tt_tx_hash event <> "";
  ft_addresses : forall i r, db_receive_addresses d !! i = Some r -> ra_tx_hash r <> tt_tx_hash event;
  ft_logs : forall l, l ∈ db_tx_logs d -> tl_tx_hash l <> tt_tx_hash event
}.

Definition paid_by (event : TokenTransferEvent) (w : World) (row : PaymentOrder * ReceiveAddress) : Prop :=
  exists o, db_payment_orders (w_db w) !! po_id row.1 = Some o /\ po_amount_paid o = tt_value event /\
    po_tx_hash o = tt_tx_hash event.

(** The order has its receive address. *)
Definition addressed (id : string) (d : DB) : Prop :=
  exists o i a, db_payment_orders d !! id = Some o /\ po_id o = id /\ po_receive_address o = Some i /\
    db_receive_addresses d !! i = Some a.

(** What the creation of an order on chain leaves alone, whether it succeeds or
    not: other orders, what its order was paid, addresses and logs. *)
Record frames (s : OrderService) : Prop := {
  fr_panic : forall id w, addressed id (w_db w) -> (CreateOrder s id w).1 <> Panic;
  fr_faults : forall id w, addressed id (w_db w) -> w_faults w = [] -> w_faults (CreateOrder s id w).2 = [];
  fr_addresses : forall id w, addressed id (w_db w) ->
    db_receive_addresses (w_db (CreateOrder s id w).2) = db_receive_addresses (w_db w);
  fr_logs : forall id w, addressed id (w_db w) -> db_tx_logs (w_db (CreateOrder s id w).2) = db_tx_logs (w_db w);
  fr_others : forall id w j, addressed id (w_db w) -> j <> id ->
    db_payment_orders (w_db (CreateOrder s id w).2) !! j = db_payment_orders (w_db w) !! j;
  fr_paid : forall id w o, addressed id (w_db w) -> db_payment_orders (w_db w) !! id = Some o ->
    exists o', db_payment_orders (w_db (CreateOrder s id w).2) !! id = Some o' /\
      po_amount_paid o' = po_amount_paid o /\ po_tx_hash o' = po_tx_hash o
}.

Lemma deposit_seen_fresh event w row :
  w_faults w = [] -> payable event w row -> fresh_transfer event (w_db w) ->
  deposit_seen row.2 row.1 event w = (Ret false, w).
Proof.
  intros Hf [] []. unfold deposit_seen, read_db, ext, bindM, attemptM, tryM. rewrite Hf. cbn [view fmap option_fmap option_map].
  assert (existsb (fun r => String.eqb (ra_tx_hash r) (tt_tx_hash event))
    (map snd (map_to_list (db_receive_addresses (w_db w)))) = false) as ->.
  { apply not_true_iff_false. intros (r & Hin & H%String.eqb_eq)%existsb_exists.
    apply in_map_iff in Hin as ([i r'] & <- & Hin%list_elem_of_In%elem_of_map_to_list). by eapply ft_addresses0. }
  cbn [andb]. rewrite pa_hash0. destruct (String.eqb_spec "" (tt_tx_hash event)); [done|].
  rewrite Hf. cbn [view fmap option_fmap option_map].
  destruct (List.filter _ _) as [|x r] eqn:E; [done|]. exfalso.
  assert (Hin : In x (List.filter (fun l => String.eqb (tl_tx_hash l) (tt_tx_hash event)) (db_tx_logs (w_db w))))
    by (rewrite E; by left).
  apply filter_In in Hin as [Hin H%String.eqb_eq]. apply (ft_logs0 x); [by apply list_elem_of_In|done].
Qed.

(** The deposit when nothing fails: the state from which the order is created. *)
Definition settled_deposit (event : TokenTransferEvent) (row : PaymentOrder * ReceiveAddress) (w : World) : DB :=
  with_address_used row.2 event (w_now w) (with_deposit row.2 row.1 event
    (mkDU (if String.eqb (po_return_address row.1) "" then Some (tt_from event) else None) None None) (w_now w) (w_db w)).

Lemma record_deposit_ok event w row :
  w_faults w = [] -> payable event w row ->
  wp (record_deposit row.2 row.1 event) (fun out w' => out = Ret tt /\ w_faults w' = [] /\ w_now w' = w_now w /\
    w_db w' = with_deposit row.2 row.1 event
      (mkDU (if String.eqb (po_return_address row.1) "" then Some (tt_from event) else None) None None) (w_now w) (w_db w)) w.
Proof.
  intros Hf []. unfold record_deposit, deposit_update, unpaid. rewrite pa_matches0, pa_status0, pa_hash0. cbn [String.eqb orb].
  rewrite bool_decide_eq_true_2 by done. cbn [andb]. do 2 wp_step. apply wp_begin_ok; [done|].
  do 6 wp_step. wp_step. eapply wp_modify_tx_ok; [done|simpl; apply lookup_insert_eq|]. simpl.
  do 2 wp_step. eapply wp_write_tx_ok; [done|simpl; apply lookup_insert_eq|].
  wp_step. eapply wp_commit_ok; [done|simpl; apply lookup_insert_eq|]. split_and!; [done|done|done|].
  simpl. unfold with_deposit, put_order. f_equal. by apply alter_known.
Qed.

Lemma deposit_apply_ok event w row :
  w_faults w = [] -> (0 < d_val (tt_value event))%Q -> payable event w row ->
  exists w1, w_faults w1 = [] /\ w_db w1 = settled_deposit event row w /\
    (deposit_apply conf service row.2 row.1 event w).2 = (CreateOrder service (po_id row.1) w1).2 /\
    ((CreateOrder service (po_id row.1) w1).1 <> Panic -> (deposit_apply conf service row.2 row.1 event w).1 <> Panic).
Proof.
  intros Hf Hv Hp. pose proof (record_deposit_ok event w row Hf Hp) as Hr. unfold wp in Hr.
  destruct (record_deposit row.2 row.1 event w) as [out w1] eqn:E. simpl in Hr. destruct Hr as (-> & Hf1 & Hn1 & Hd1).
  assert (Hm : mark_used row.2 event w1 = (Ret tt, set_db (settled_deposit event row w) w1)).
  { unfold mark_used, getM, modify_db, ext, bindM. rewrite Hf1. cbn [view fmap option_fmap option_map]. rewrite Hd1.
    cbn [with_deposit put_order set_payment_orders set_next_id set_tx_logs db_receive_addresses].
    rewrite (pa_address _ _ _ Hp). cbn. unfold settled_deposit. by rewrite Hn1. }
  exists (set_db (settled_deposit event row w) w1). split; [done|]. split; [done|].
  unfold deposit_apply, bindM, msgM, tryM. rewrite E. cbn [retM].
  assert (d_gt (tt_value event) d_zero = true) as -> by (dec_to_q; lra). rewrite Hm. cbn [retM].
  destruct (CreateOrder service _ _) as [[[]|e|] w2]; by split.
Qed.

(** What the deposit of one order means for it and for the others. *)
Lemma deposit_apply_frame event w row :
  frames service -> w_faults w = [] -> (0 < d_val (tt_value event))%Q -> payable event w row ->
  let w' := (deposit_apply conf service row.2 row.1 event w).2 in
  (deposit_apply conf service row.2 row.1 event w).1 <> Panic /\ w_faults w' = [] /\ paid_by event w' row /\
  (exists l, l ∈ db_tx_logs (w_db w') /\ tl_tx_hash l = tt_tx_hash event) /\
  (forall j, j <> po_id row.1 -> db_payment_orders (w_db w') !! j = db_payment_orders (w_db w) !! j) /\
  (forall i, i <> ra_id row.2 -> db_receive_addresses (w_db w') !! i = db_receive_addresses (w_db w) !! i).
Proof.
  intros [Fp Ff Fa Fl Fo Fd] Hf Hv Hp. destruct (deposit_apply_ok event w row Hf Hv Hp) as (w1 & Hf1 & Hd1 & E & Hpan).
  assert (Had : addressed (po_id row.1) (w_db w1)).
  { rewrite Hd1. eexists _, (ra_id row.2), _. split_and!; [apply lookup_insert_eq|done|apply Hp|apply lookup_insert_eq]. }
  cbn zeta. rewrite E. split; [by apply Hpan, Fp|]. split; [by apply Ff|]. split_and!.
  - destruct (Fd (po_id row.1) w1 (deposited (w_now w) (mkDU (if String.eqb (po_return_address row.1) "" then Some (tt_from event)
      else None) None None) event (db_next_id (w_db w)) row.1) Had) as (o' & Ho & Hpaid & Hh).
    { rewrite Hd1. apply lookup_insert_eq. }
    exists o'. by split.
  - eexists (mkTL _ _ _ _ _ _ _). split; [rewrite Fl, Hd1 by done; simpl; apply elem_of_app; right; apply list_elem_of_singleton; reflexivity|done].
  - intros j Hj. rewrite Fo by done. rewrite Hd1. simpl. by rewrite lookup_insert_ne.
  - intros i Hi. rewrite Fa, Hd1 by done. simpl. by rewrite lookup_insert_ne.
Qed.

(** Receive addresses are reused, so two orders can wait for a payment at one
    address.  One transfer that matches both pays one order or two, as the
    goroutines are scheduled: when the second looks for the transfer after the
    first has recorded it, the second order stays as it was; when both look first,
    both orders are paid with the whole transfer and created on chain. *)
Theorem shared_address_paid_twice event w row1 row2 :
  frames service -> w_faults w = [] -> (0 < d_val (tt_value event))%Q -> fresh_transfer event (w_db w) ->
  payable event w row1 -> payable event w row2 -> po_id row1.1 <> po_id row2.1 -> ra_id row1.2 <> ra_id row2.2 ->
  let runs := rtc (deposit_step conf service [row1; row2] event) (w, [Waiting; Waiting]) in
  (exists w', runs (w', [Finished; Finished]) /\ paid_by event w' row1 /\
     db_payment_orders (w_db w') !! po_id row2.1 = Some row2.1) /\
  (exists w', runs (w', [Finished; Finished]) /\ paid_by event w' row1 /\ paid_by event w' row2).
Proof.
  intros Hfr Hf Hv Hfresh H1 H2 Hpo Hra runs.
  pose proof (deposit_seen_fresh event w row1 Hf H1 Hfresh) as S1.
  pose proof (deposit_seen_fresh event w row2 Hf H2 Hfresh) as S2.
  destruct (deposit_apply_frame event w row1 Hfr Hf Hv H1) as (N1 & F1 & P1 & L1 & O1 & A1).
  destruct row1 as [po1 a1], row2 as [po2 a2]. cbn [fst snd] in *.
  destruct (deposit_apply conf service a1 po1 event w) as [o1 w1] eqn:E1. cbn [fst snd] in *.
  assert (Hp2 : db_payment_orders (w_db w1) !! po_id po2 = Some po2) by (rewrite O1 by done; apply H2).
  assert (Hstart : runs (w, <[0%nat := Checked false]> [Waiting; Waiting])).
  { eapply rtc_l; [|apply rtc_refl]. eapply (ds_check _ _ _ _ _ _ 0%nat); [done|done|apply H1|exact S1]. }
  split.
  - exists w1. split; [|by split].
    unfold runs; etransitivity; [exact Hstart|]. eapply rtc_l; [eapply (ds_apply _ _ _ _ _ _ 0%nat); [done|done|exact E1|done]|].
    eapply rtc_l; [eapply (ds_check _ _ _ _ _ _ 1%nat); [done|done|apply H2|by apply deposit_seen_logged]|].
    eapply rtc_l; [by eapply (ds_skip _ _ _ _ _ _ 1%nat)|]. apply rtc_refl.
  - assert (H2' : payable event w1 (po2, a2)).
    { destruct H2. split; try done. cbn [fst snd] in *. by rewrite A1. }
    destruct (deposit_apply_frame event w1 (po2, a2) Hfr F1 Hv H2') as (N2 & F2 & P2 & _ & O2 & _). cbn [fst snd] in *.
    destruct (deposit_apply conf service a2 po2 event w1) as [o2 w2] eqn:E2. cbn [fst snd] in *.
    exists w2. split; [|split; [|done]].
    + unfold runs; etransitivity; [exact Hstart|].
      eapply rtc_l; [eapply (ds_check _ _ _ _ _ _ 1%nat); [done|done|apply H2|exact S2]|].
      eapply rtc_l; [eapply (ds_apply _ _ _ _ _ _ 0%nat); [done|done|exact E1|done]|].
      eapply rtc_l; [eapply (ds_apply _ _ _ _ _ _ 1%nat); [done|done|exact E2|done]|]. apply rtc_refl.
    + destruct P1 as (o & Ho & Hr). exists o. cbn [fst] in *. by rewrite O2.
Qed.

End deposits.

(** ** Witnesses on the seeded database *)

(** Two orders that wait at one address of the pool. *)
Definition s_address (i : Z) : ReceiveAddress := mkRA i "0xPool" APoolAssigned true "base" 8453 0 0 1 0 0 "" 0 "".
Definition s_waiting (id : string) (i : Z) : PaymentOrder :=
  mkPO id (d_int 2) (d_int 0) (d_int 0) (d_int 0) (d_int 0) (d_int 0) (d_int 0) (d_int 950) "" 0 "" "" "0xPool"
    (d_int 0) "" "" "" "" PInitiated (d_int 2) s_token None (Some i)
    (mkRecipient "ABNGNGLA" "1234567890" "OK" "rent" "" "{}") None [] (Some "s1") 0 0.
Definition s_transfer (value : Z) : TokenTransferEvent := mkTTE 9 "0xhash" "0xfrom" "0xpool" (d_int value).
Definition s_linked : LinkedAddress := mkLA 1 "0xlinked" "ABNGNGLA" "1234567890" "OK" "{}" "0xowner" 0 "".
Definition s_index_world : World :=
  let d := set_linked_addresses [s_linked] (s_db (s_pc 5000 0 5000)) in
  let d := set_receive_addresses {[ 1 := s_address 1; 2 := s_address 2 ]} d in
  mkWorld (set_payment_orders {[ "p1" := s_waiting "p1" 1; "p2" := s_waiting "p2" 2 ]} d) ∅ 0
    (mkRedis {[ "bucket_NGN_100_100000" := ["AtGaDPqT:USDT:950:1:1000"] ]} ∅ ∅) [] 1000 [] [].

Lemma s_payable id i :
  db_payment_orders (w_db s_index_world) !! id = Some (s_waiting id i) ->
  db_receive_addresses (w_db s_index_world) !! i = Some (s_address i) ->
  payable (s_transfer 2) s_index_world (s_waiting id i, s_address i).
Proof. intros H1 H2. split; [exact H1|exact H2|done|done|done|vm_refl|vm_refl]. Qed.

Lemma s_fresh value : fresh_transfer (s_transfer value) (w_db s_index_world).
Proof.
  split; [done| |by intros l ?%elem_of_nil]. intros i r H. cbn in H.
  apply lookup_insert_Some in H as [[_ <-]|[_ [_ <-]%lookup_singleton_Some]]; done.
Qed.

Lemma deposit_correct_witness :
  deposit_result s_gateway (s_address 1) (s_waiting "p1" 1) (s_transfer 2) s_index_world
    (UpdateReceiveAddressStatus s_order_conf s_gateway (s_address 1) (s_waiting "p1" 1) (s_transfer 2) s_index_world).1
    (UpdateReceiveAddressStatus s_order_conf s_gateway (s_address 1) (s_waiting "p1" 1) (s_transfer 2) s_index_world).2.
Proof. apply (deposit_correct s_order_conf s_gateway); [vm_refl|vm_refl|done|done|vm_compute; reflexivity]. Defined.

Lemma deposit_amount_bounds_witness :
  (Qabs (d_val (d_round (d_int 3) 6) + 0 - 3) <= 1 # 2 * 1000000)%Q.
Proof.
  refine (deposit_amount_bounds (s_waiting "p1" 1) (s_transfer 3)
    (mkDU (Some "0xfrom") (Some (adjusted_amount (s_waiting "p1" 1) (s_transfer 3))) None) _ _ _);
    [vm_compute; discriminate|vm_compute; discriminate|]. split; [done|vm_refl|done].
Defined.

Lemma deposit_replay_ignored_witness :
  let w := set_db (set_tx_logs [mkTL 1 "" TCryptoDeposited "base" "0xhash" "" 0] (w_db s_index_world)) s_index_world in
  UpdateReceiveAddressStatus s_order_conf s_gateway (s_address 2) (s_waiting "p2" 2) (s_transfer 2) w = (Ret false, w).
Proof.
  intros w. apply (deposit_replay_ignored s_order_conf s_gateway); [done|].
  eexists. split; [apply list_elem_of_singleton; reflexivity|done].
Defined.

Lemma linked_deposit_never_recorded_witness :
  let w' := (ProcessLinkedAddresses s_gateway 9 ["0xlinked"] [("0xlinked", s_transfer 2)] s_token s_index_world).2 in
  w_db w' = w_db s_index_world.
Proof. exact (proj1 (linked_deposit_never_recorded s_gateway 9 ["0xlinked"] [("0xlinked", s_transfer 2)] s_token s_index_world)). Defined.

(** The token of a transfer is not compared with the token of the order: a transfer
    of another token pays it. *)
Example other_token_pays :
  let res := ProcessTransfers s_order_conf s_gateway 9 ["0xpool"] [("0xpool", s_transfer 2)]
               (mkTok 2 "cNGN" "0xc1" 6 true "NGN" s_network) s_index_world in
  (fun o => (po_status o, po_tx_hash o, tk_symbol (po_token o))) <$> db_payment_orders (w_db res.2) !! "p1" =
    Some (PPending, "0xhash", "USDT").
Proof. vm_compute. reflexivity. Qed.
