(* ===== verification/Gateway.v ===== *)
(** * Gateway transactions (services/order/evm.go, services/manager.go)

    The order service of EVM networks: it builds the calls of the gateway contract
    from the stored orders and hands them to the active chain service.  [evm_service]
    is the instance of [OrderService] that the tasks and the indexing of transfers
    run with.  The ABI encoder, the encryption and the chain services are
    parameters. *)

From S2P Require Import Prelude Decimal Schema Store Samples Transactions Balance Utils Ethereum Services Queue Calm Orders Rows Payments Http Tasks.
Local Open Scope go_scope.
Local Open Scope string_scope.
Local Open Scope list_scope.

(** An argument of a contract method. *)
Inductive AbiValue :=
  | AAddress (a : list Z)
  | AUint (z : Z)
  | ABytes32 (b : list ascii)
  | AString (s : string).

Class GatewayServices `{O : DecimalOps} := {
  (** USE_ALCHEMY_SERVICE *)
  use_alchemy : bool;
  (** the smart account of the aggregator *)
  aggregator_account : string;
  (** what a failed [SetString] leaves in a [big.Int] *)
  undefined_int : string -> Z;
  (** [EncryptOrderRecipient], with a random nonce *)
  encrypt_recipient : World -> Recipient -> option string;
  (** go-ethereum: [Pack] of a method of a contract *)
  abi_pack : string -> string -> list AbiValue -> option (list Z);
  (** the answer of the engine to a batch *)
  engine_answer : World -> Z -> string -> list TxCall -> HttpResponse;
  (** [AlchemyService.SendTransactionBatch] *)
  alchemy_batch : Z -> string -> list TxCall -> M string
}.

(** The Alchemy service only reads the database. *)
Class GatewayLaws `{O : DecimalOps} (G : GatewayServices) : Prop := {
  alchemy_calm : forall chain address calls, calm any (alchemy_batch chain address calls)
}.

(** [strings.ReplaceAll(id, "-", "")] *)
Fixpoint without_dashes (s : string) : string :=
  match s with
  | "" => ""
  | String c r => if Ascii.eqb c "-" then without_dashes r else String c (without_dashes r)
  end.

Section gateway.
Context {O : DecimalOps} {OS : @OrderServices O} {SV : @Services O} {EC : EthCommon} {G : @GatewayServices O}.

(** ** Chain services *)

(** [data["result"]["transactions"][0]["id"]], with unchecked assertions. *)
Definition engine_queue_id (data : list (string * json)) : M string :=
  let! result := as_map (json_get "result" data) in
  let! transactions := as_list (json_get "transactions" result) in
  match transactions with
  | [] => panicM
  | t :: _ => let! t := as_map (Some t) in as_string (json_get "id" t)
  end.

(** [EngineService.SendTransactionBatch] *)
Definition engine_batch (chainID : Z) (address : string) (txPayload : list TxCall) : M string :=
  do! wrapM "failed to send transaction batch" ext in
  let! w := getM in
  do! emit (EvBatch chainID address txPayload) in
  match ParseJSONResponse (engine_answer w chainID address txPayload) with
  | (Some e, _) => errM (EWrap "failed to parse JSON response" e)
  | (None, data) => engine_queue_id data
  end.

(** [ServiceManager.SendTransactionBatch] *)
Definition SendTransactionBatch (chainID : Z) (address : string) (txPayload : list TxCall) : M string :=
  if use_alchemy then alchemy_batch chainID address txPayload else engine_batch chainID address txPayload.

(** ** Call data *)

Definition to_subunit (amount : dec) (decimals : Z) : Z := ToSubunit undefined_int amount decimals.

Definition packed (what contract method : string) (args : list AbiValue) : M (list Z) :=
  match abi_pack contract method args with
  | Some data => retM data
  | None => errM (EMsg ("failed to pack " +:+ what +:+ " ABI"))
  end.

Definition approveCallData (spender : list Z) (amount : Z) : M (list Z) :=
  packed "approve" "ERC20Token" "approve" [AAddress spender; AUint amount].

(** types.CreateOrderParams, in the order of the method's parameters. *)
Definition CreateOrderParams (order : PaymentOrder) (encryptedOrderRecipient : string) : list AbiValue :=
  let decimals := tk_decimals (po_token order) in
  [AAddress (HexToAddress (tk_contract_address (po_token order)));
   AUint (to_subunit (po_amount order) decimals);
   AUint (d_bigint (d_mul (po_rate order) (d_int 100)));
   AAddress (HexToAddress (po_fee_address order));
   AUint (to_subunit (po_sender_fee order) decimals);
   AAddress (HexToAddress (po_return_address order));
   AString encryptedOrderRecipient].

Definition createOrderCallData (order : PaymentOrder) (encryptedOrderRecipient : string) : M (list Z) :=
  packed "createOrder" "Gateway" "createOrder" (CreateOrderParams order encryptedOrderRecipient).

(** [hex.DecodeString(id\[2:\])], which panics on a shorter text. *)
Definition decode_id (what id : string) : M (list Z) :=
  match String.list_ascii_of_string id with
  | _ :: _ :: r => match hex_decode r with Some b => retM b | None => errM (EMsg ("failed to decode " +:+ what)) end
  | _ => panicM
  end.

(** The token configuration of the order's provider, with an address. *)
Definition settlement_token (order : LockPaymentOrder) (provider currency : string) (t : ProviderOrderToken) : bool :=
  String.eqb (pot_network t) (nw_identifier (tk_network (lo_token order))) && String.eqb (pot_provider t) provider &&
  (tk_id (pot_token t) =? tk_id (lo_token order))%Z && String.eqb (pot_currency t) currency &&
  negb (String.eqb (pot_address t) "").

Definition settleCallData (order : LockPaymentOrder) : M (list Z) :=
  let! ins := wrapM "failed to get institution" (GetInstitutionByCode (lo_institution order) true) in
  let! provider := deref (lo_provider order) in
  let! fc := deref (snd ins) in
  let! token := wrapM "failed to fetch provider order token"
                  (let! d := read_db None in
                   only (List.filter (settlement_token order provider (fc_code fc)) (db_order_tokens d))) in
  let orderPercent := d_float_uint (d_mul (lo_order_percent order) (d_int 1000)) in
  let! orderID := decode_id "orderID" (lo_gateway_id order) in
  packed "settle" "Gateway" "settle"
    [ABytes32 (StringToByte32 (without_dashes (lo_id order))); ABytes32 (StringToByte32 (string_of_bytes orderID));
     AAddress (HexToAddress (pot_address token)); AUint orderPercent].

Definition refundCallData (fee : Z) (orderId : string) : M (list Z) :=
  let! decodedOrderID := decode_id "orderId" orderId in
  packed "refund" "Gateway" "refund" [AUint fee; ABytes32 (StringToByte32 (string_of_bytes decodedOrderID))].

(** ** Creating an order *)

(** [strings.Split(id, "-")\[0\]] *)
Definition id_prefix (id : string) : string := match split_on "-" id with p :: _ => p | [] => "" end.
Definition step_name (id step : string) : string := id_prefix id +:+ " - " +:+ step.

(** The order with its receive and linked address. *)
Definition fetch_order (orderID : string) : M (PaymentOrder * option ReceiveAddress * option LinkedAddress) :=
  let! d := read_db None in
  match db_payment_orders d !! orderID with
  | None => errM ENotFound
  | Some o => retM (o, (i ← po_receive_address o; db_receive_addresses d !! i),
                    (i ← po_linked_address o; List.find (fun l => (la_id l =? i)%Z) (db_linked_addresses d)))
  end.

Definition set_rate (now : Z) (rate usd : dec) (o : PaymentOrder) : PaymentOrder :=
  mkPO (po_id o) (po_amount o) (po_amount_paid o) (po_amount_returned o) (po_percent_settled o) (po_sender_fee o)
    (po_network_fee o) (po_protocol_fee o) rate (po_tx_hash o) (po_block_number o) (po_from_address o)
    (po_return_address o) (po_receive_address_text o) (po_fee_percent o) (po_fee_address o) (po_gateway_id o)
    (po_message_hash o) (po_reference o) (po_status o) usd (po_token o) (po_linked_address o)
    (po_receive_address o) (po_recipient o) (po_payment_webhook o) (po_transactions o) (po_sender_profile o)
    (po_created_at o) now.

(** The trigger on payment_orders, calculate_total_amount and check_payment_order_amount of
    the migration 20250721080600: an update of an order that is paid in full, keeps its
    status and has no gateway id raises an exception. *)
Definition check_payment_order_amount (old new : PaymentOrder) : bool :=
  let total_amount := d_round (d_add (d_add (po_amount old) (po_sender_fee old)) (po_network_fee old))
                        (tk_decimals (po_token new)) in
  d_ge (po_amount_paid old) total_amount && bool_decide (po_status old = po_status new) &&
  String.eqb (po_gateway_id old) "".

(** An update of one row, which the trigger may refuse. *)
Definition triggered (id : string) (f : PaymentOrder -> PaymentOrder) (o : PaymentOrder) (d : DB) : (error + DB * unit)%type :=
  if check_payment_order_amount o (f o) then inl (EMsg "Duplicate payment order")
  else inr (put_order (f o) id d, tt).

(** The rate of an order of a linked address is taken again from the queue. *)
Definition refresh_rate (qfuel : nat) (order : PaymentOrder) : M PaymentOrder :=
  let step := step_name (po_id order) in
  let! ins := wrapM (step "CreateOrder.fetchInstitution") (GetInstitutionByCode (re_institution (po_recipient order)) false) in
  let! fc := deref (snd ins) in
  let! rate := wrapM (step "CreateOrder.getRate")
                 (GetTokenRateFromQueue qfuel (scan_buckets (fc_code fc)) (tk_symbol (po_token order)) (po_amount order)
                    (fc_market_rate fc)) in
  if d_eqb rate (po_rate order) then retM order
  else
    let! usd := amount_in_usd (po_amount order) (po_token order) (fst ins) (snd ins) in
    let! w := getM in
    do! wrapM (step "CreateOrder.updateOrder") (modify_db None (fun d =>
          match db_payment_orders d !! po_id order with
          | None => inr (d, tt)
          | Some o => triggered (po_id order) (set_rate (w_now w) rate usd) o d
          end)) in
    let! fresh := wrapM (step "CreateOrder.refreshOrder") (fetch_order (po_id order)) in
    retM (fst (fst fresh)).

(** The order and the account that pays for it. *)
Definition paying_account (qfuel : nat) (loaded : PaymentOrder * option ReceiveAddress * option LinkedAddress)
    : M (PaymentOrder * string) :=
  match loaded with
  | (order, Some a, _) => retM (order, ra_address a)
  | (order, None, Some l) => let! order := refresh_rate qfuel order in retM (order, la_address l)
  | (order, None, None) => retM (order, "")
  end.

Definition set_message_hash (now : Z) (hash : string) (o : PaymentOrder) : PaymentOrder :=
  mkPO (po_id o) (po_amount o) (po_amount_paid o) (po_amount_returned o) (po_percent_settled o) (po_sender_fee o)
    (po_network_fee o) (po_protocol_fee o) (po_rate o) (po_tx_hash o) (po_block_number o) (po_from_address o)
    (po_return_address o) (po_receive_address_text o) (po_fee_percent o) (po_fee_address o) (po_gateway_id o)
    hash (po_reference o) PPending (po_amount_in_usd o) (po_token o) (po_linked_address o)
    (po_receive_address o) (po_recipient o) (po_payment_webhook o) (po_transactions o) (po_sender_profile o)
    (po_created_at o) now.

(** [order.Update()...Save]: an error when the row is gone or the trigger refuses. *)
Definition update_payment_one (id : string) (f : PaymentOrder -> PaymentOrder) : M unit :=
  modify_db None (fun d =>
    match db_payment_orders d !! id with
    | None => inl ENotFound
    | Some o => triggered id f o d
    end).

(** The update builder with the message hash: its length is checked first. *)
Definition save_message_hash (id hash : string) : M unit :=
  if too_long 400 (Some hash) then errM (EValidation "message_hash")
  else let! w := getM in update_payment_one id (set_message_hash (w_now w) hash).

(** The two calls of the batch. *)
Definition create_calls (order : PaymentOrder) (approve create : list Z) : list TxCall :=
  [mkCall (tk_contract_address (po_token order)) (hex_string approve) "0";
   mkCall (nw_gateway_contract_address (tk_network (po_token order))) (hex_string create) "0"].

(** From the message hash on. *)
Definition submit_order (order : PaymentOrder) (address : string) : M unit :=
  let step := step_name (po_id order) in
  let! w := getM in
  match encrypt_recipient w (po_recipient order) with
  | None => errM (EWrap (step "CreateOrder.encryptOrderRecipient") (EMsg "failed to encrypt message"))
  | Some encrypted =>
      do! wrapM (step "CreateOrder.updateMessageHash") (save_message_hash (po_id order) encrypted) in
      let! w := getM in
      do! wrapM (step "CreateOrder.updateStatus")
            (update_payment_one (po_id order) (po_set_status (w_now w) PInitiated)) in
      let! create := wrapM (step "CreateOrder.createOrderCallData") (createOrderCallData order encrypted) in
      let! approve := wrapM (step "CreateOrder.approveCallData")
                        (approveCallData (HexToAddress (nw_gateway_contract_address (tk_network (po_token order))))
                           (to_subunit (d_add (po_amount order) (po_sender_fee order)) (tk_decimals (po_token order)))) in
      do! wrapM (step "CreateOrder.sendTransactionBatch")
            (SendTransactionBatch (nw_chain_id (tk_network (po_token order))) address (create_calls order approve create)) in
      retM tt
  end.

Definition evm_create_order (qfuel : nat) (orderID : string) : M unit :=
  let! loaded := wrapM (step_name orderID "CreateOrder.fetchOrder") (fetch_order orderID) in
  let! r := paying_account qfuel loaded in
  let '(order, address) := r in
  if negb (String.eqb (po_message_hash order) "") then retM tt else submit_order order address.

(** ** Refunding and settling *)

Definition gateway_call (order : LockPaymentOrder) (data : list Z) : list TxCall :=
  [mkCall (nw_gateway_contract_address (tk_network (lo_token order))) (hex_string data) "0"].

Definition of_gateway (network : Network) (orderID : string) (o : LockPaymentOrder) : bool :=
  String.eqb (lo_gateway_id o) orderID && String.eqb (nw_identifier (tk_network (lo_token o))) (nw_identifier network).

Definition evm_refund_order (network : Network) (orderID : string) : M unit :=
  let step := step_name orderID in
  let! lockOrder := wrapM (step "RefundOrder.fetchLockOrder")
                      (let! d := read_db None in first (List.filter (of_gateway network orderID) (lock_rows d))) in
  let fee := to_subunit (d_int 0) (tk_decimals (lo_token lockOrder)) in
  let! data := wrapM (step "RefundOrder.refundCallData") (refundCallData fee (lo_gateway_id lockOrder)) in
  do! wrapM (step "RefundOrder.sendTransaction")
        (SendTransactionBatch (nw_chain_id (tk_network (lo_token lockOrder))) aggregator_account (gateway_call lockOrder data)) in
  retM tt.

(** A validated order with a successful fulfilment. *)
Definition to_be_settled (d : DB) (orderID : string) (o : LockPaymentOrder) : bool :=
  String.eqb (lo_id o) orderID && bool_decide (lo_status o = LValidated) && has_fulfillment d o (validation_is VSuccess).

Definition evm_settle_order (orderID : string) : M unit :=
  let step := step_name orderID in
  let! order := wrapM (step "SettleOrder.fetchOrder")
                  (let! d := read_db None in only (List.filter (to_be_settled d orderID) (lock_rows d))) in
  let! data := wrapM (step "SettleOrder.settleCallData") (settleCallData order) in
  do! wrapM (step "SettleOrder.sendTransaction")
        (SendTransactionBatch (nw_chain_id (tk_network (lo_token order))) aggregator_account (gateway_call order data)) in
  retM tt.

(** [NewOrderEVM] *)
Definition evm_service (qfuel : nat) : OrderService :=
  mkOrderService (evm_create_order qfuel) evm_refund_order evm_settle_order.

End gateway.
