(* ===== verification/GatewayClaims.v ===== *)
(** * Theorems about gateway transactions

    What creating, settling and refunding an order sends to the chain and leaves in
    the database, what the calls carry, and how the order service works together
    with the deposits and the retry task; that the trigger on payment orders stops the
    creation of an order that was paid in full ([full_deposit_never_created]); with
    their witnesses. *)

From Stdlib Require Import Qabs DecimalString DecimalZ.
From S2P Require Import Prelude Decimal Schema Store Samples Transactions Balance Utils Ethereum Services Queue QueueSteps Calm.
From S2P Require Import Orders OrderClaims Rows Payments Http Tasks TaskClaims Indexer IndexerClaims Gateway.
Local Open Scope go_scope.
Local Open Scope string_scope.
Local Open Scope list_scope.

Section gateway_claims.
Context {O : DecimalOps} {L : DecimalLaws O} {OS : @OrderServices O} {SV : @Services O} {SL : ServicesLaws SV}.
Context {EC : EthCommon} {G : @GatewayServices O} {GL : GatewayLaws G}.

(** ** Sending a batch *)

Lemma calm_as_map v : calm any (as_map v).
Proof. unfold as_map. calm_tac. Qed.
Lemma calm_as_list v : calm any (as_list v).
Proof. unfold as_list. calm_tac. Qed.
Lemma calm_as_string v : calm any (as_string v).
Proof. unfold as_string. calm_tac. Qed.
Hint Resolve calm_as_map calm_as_list calm_as_string : calm.
Lemma calm_queue_id data : calm any (engine_queue_id data).
Proof. unfold engine_queue_id. calm_tac. Qed.
Hint Resolve calm_queue_id : calm.
Lemma calm_engine chain address calls : calm any (engine_batch chain address calls).
Proof. unfold engine_batch. calm_tac. Qed.
Lemma calm_batch chain address calls : calm any (SendTransactionBatch chain address calls).
Proof. unfold SendTransactionBatch. destruct use_alchemy; [apply alchemy_calm|apply calm_engine]. Qed.
Lemma calm_packed what c m args : calm any (packed what c m args).
Proof. unfold packed. calm_tac. Qed.
Hint Resolve calm_batch calm_packed : calm.

(** The engine takes the batch once, or not at all. *)
Lemma queue_id_quiet data w : w_events (engine_queue_id data w).2 = w_events w.
Proof.
  unfold engine_queue_id, bindM.
  destruct (json_get "result" data) as [[]|]; try done. cbn [as_map retM].
  destruct (json_get "transactions" fields) as [[| | | |l|]|]; try done. cbn [as_list retM].
  destruct l as [|[] l]; try done. cbn [as_map retM]. by destruct (json_get "id" fields0) as [[]|].
Qed.

Lemma engine_batch_events chain address calls w :
  wp (engine_batch chain address calls) (fun out w' =>
    w_events w' = w_events w /\ out = Err (EWrap "failed to send transaction batch" EFault) \/
    w_events w' = w_events w ++ [EvBatch chain address calls]) w.
Proof.
  unfold engine_batch. do 2 wp_step. apply wp_ext; intros fs; [|by left]. do 3 wp_step. cbn [fst snd].
  destruct (ParseJSONResponse _) as [[e|] data]; [by right|]. right.
  pose proof (queue_id_quiet data (set_events (w_events (set_faults fs w) ++ [EvBatch chain address calls]) (set_faults fs w))) as H.
  exact H.
Qed.

(** ** Creating an order *)

(** An order that waits to be created, paid from its receive address. *)
Record creatable (d : DB) (id : string) (o : PaymentOrder) (a : ReceiveAddress) : Prop := {
  cb_order : db_payment_orders d !! id = Some o;
  cb_id : po_id o = id;
  cb_address : exists i, po_receive_address o = Some i /\ db_receive_addresses d !! i = Some a
}.

(** How the outcome of the last call is reported. *)
Definition reported {A} (msg : string) (r : outcome A) : outcome unit :=
  match r with Ret _ => Ret tt | Err e => Err (EWrap msg e) | Panic => Panic end.

(** The order once it has a message hash. *)
Definition announced (now : Z) (hash : string) (o : PaymentOrder) : PaymentOrder :=
  po_set_status now PInitiated (set_message_hash now hash o).

(** The batch that creates the order, for calls that the encoder accepts. *)
Definition create_batch (o : PaymentOrder) (hash : string) (calls : list TxCall) : Prop :=
  exists approve create,
    abi_pack "ERC20Token" "approve" [AAddress (HexToAddress (nw_gateway_contract_address (tk_network (po_token o))));
      AUint (to_subunit (d_add (po_amount o) (po_sender_fee o)) (tk_decimals (po_token o)))] = Some approve /\
    abi_pack "Gateway" "createOrder" (CreateOrderParams o hash) = Some create /\ calls = create_calls o approve create.

(** Where a run of [CreateOrder] ended: with nothing changed; with the message hash
    saved and the status pending; with the order announced and nothing sent; or
    with the batch handed to the chain service in that state. *)
Inductive created (id : string) (o : PaymentOrder) (a : ReceiveAddress) (w : World) : outcome unit -> World -> Prop :=
  | cr_none e w' : w_db w' = w_db w -> w_events w' = w_events w -> created id o a w (Err e) w'
  | cr_hash h e w' : w_db w' = put_order (set_message_hash (w_now w) h o) id (w_db w) ->
      w_events w' = w_events w -> created id o a w (Err e) w'
  | cr_announced h e w' : w_db w' = put_order (announced (w_now w) h o) id (w_db w) ->
      w_events w' = w_events w -> created id o a w (Err e) w'
  | cr_sent h calls w1 w' r :
      w_db w1 = put_order (announced (w_now w) h o) id (w_db w) -> w_events w1 = w_events w ->
      w_redis w1 = w_redis w -> create_batch o h calls ->
      SendTransactionBatch (nw_chain_id (tk_network (po_token o))) (ra_address a) calls w1 = (r, w') ->
      created id o a w (reported (step_name id "CreateOrder.sendTransactionBatch") r) w'.

Lemma put_order_twice (o o' : PaymentOrder) id d : put_order o' id (put_order o id d) = put_order o' id d.
Proof. unfold put_order. cbn. by rewrite insert_insert_eq. Qed.

Lemma submit_order_wp id o a w :
  creatable (w_db w) id o a -> wp (submit_order o (ra_address a)) (created id o a w) w.
Proof.
  intros [Ho Hid _]. unfold submit_order. rewrite Hid. do 2 wp_step.
  destruct (encrypt_recipient w (po_recipient o)) as [h|]; [|by apply cr_none].
  do 2 wp_step. unfold save_message_hash. destruct (too_long 400 (Some h)) eqn:Elen; [by apply cr_none|].
  do 2 wp_step. unfold update_payment_one. apply wp_modify_direct; intros fs; [rewrite Ho|by apply cr_none].
  unfold triggered at 1. destruct (check_payment_order_amount _ _); [by apply cr_none|].
  do 4 wp_step. apply wp_modify_direct; intros fs2; [|by eapply cr_hash].
  cbn [w_db set_db set_faults put_order set_payment_orders db_payment_orders w_now]. rewrite lookup_insert_eq.
  unfold triggered. destruct (check_payment_order_amount _ _); [by eapply cr_hash|]. rewrite put_order_twice.
  set (w2 := set_db _ _). assert (Hdb : w_db w2 = put_order (announced (w_now w) h o) id (w_db w)) by done.
  assert (Hev : w_events w2 = w_events w) by done. assert (Hr : w_redis w2 = w_redis w) by done. clearbody w2.
  unfold createOrderCallData, approveCallData, packed. do 2 wp_step.
  destruct (abi_pack "Gateway" "createOrder" _) as [create|] eqn:Ec; [|by eapply cr_announced].
  do 3 wp_step. destruct (abi_pack "ERC20Token" "approve" _) as [approve|] eqn:Ea; [|by eapply cr_announced].
  do 3 wp_step. unfold wp. destruct (SendTransactionBatch _ _ _ w2) as [r w3] eqn:Es.
  assert (H : created id o a w (reported (step_name id "CreateOrder.sendTransactionBatch") r) w3).
  { eapply cr_sent; [exact Hdb|exact Hev|exact Hr|exists approve, create; by split_and!|exact Es]. }
  by destruct r.
Qed.

Lemma fetch_order_wp (Q : outcome (PaymentOrder * option ReceiveAddress * option LinkedAddress) -> World -> Prop) id o a w :
  creatable (w_db w) id o a ->
  (forall fs l, Q (Ret (o, Some a, l)) (set_faults fs w)) -> (forall fs, Q (Err EFault) (set_faults fs w)) ->
  wp (fetch_order id) Q w.
Proof.
  intros [Ho _ (i & Hi & Ha)] Hok Hbad. unfold fetch_order. wp_step. eapply wp_read_db; [reflexivity|intros fs|done].
  cbn beta iota. rewrite Ho, Hi. wp_step. cbn [mbind option_bind]. rewrite Ha. apply Hok.
Qed.

Lemma evm_create_order_wp q id o a w :
  creatable (w_db w) id o a -> po_message_hash o = "" -> wp (evm_create_order q id) (created id o a w) w.
Proof.
  intros Hc Hh. unfold evm_create_order. do 2 wp_step. apply (fetch_order_wp _ _ _ _ _ Hc); [intros fs l|intros fs; by apply cr_none].
  cbn beta iota. wp_step. unfold paying_account. wp_step. rewrite Hh. cbn [String.eqb negb].
  eapply wp_mono; [apply (submit_order_wp id o a (set_faults fs w) Hc)|]. intros out w' H.
  destruct H; [by apply cr_none|by eapply cr_hash|by eapply cr_announced|by eapply cr_sent].
Qed.

(** C33: creating an order on chain, whatever fails: the batch (allow the gateway to take
    amount and sender fee, and create the order with the encrypted recipient) is
    handed over at most once, from the order's receive address and only after the
    order carries the message hash; the order is the only row that changes. *)
Theorem evm_create_order_correct q id o a w :
  creatable (w_db w) id o a -> po_message_hash o = "" -> wp (evm_create_order q id) (created id o a w) w.
Proof. apply evm_create_order_wp. Qed.

(** ** Failed creations *)

(** An order that carries a message hash is not created again. *)
Lemma create_announced_wp q id o a w :
  creatable (w_db w) id o a -> po_message_hash o <> "" ->
  wp (evm_create_order q id) (fun out w' => w_events w' = w_events w /\ w_db w' = w_db w /\ out <> Panic) w.
Proof.
  intros Hc Hh. unfold evm_create_order. do 2 wp_step. apply (fetch_order_wp _ _ _ _ _ Hc); [intros fs l|by intros fs].
  cbn beta iota. wp_step. unfold paying_account. wp_step. by destruct (String.eqb_spec (po_message_hash o) "").
Qed.

(** A row whose update keeps the message hash and the address. *)
Lemma set_status_creatable now st id o a d :
  creatable d id o a -> creatable (put_order (po_set_status now st o) id d) id (po_set_status now st o) a.
Proof. intros [Ho Hid Ha]. split; [apply lookup_insert_eq|done|exact Ha]. Qed.

(** An order whose creation failed after the message hash was saved is never
    created: whenever and however often the retry task takes it up, and whatever
    fails, nothing is sent, the message hash stays, and the task goes on as after a
    success. *)
Theorem failed_creation_never_retried q tron id a : forall runs o row w,
  creatable (w_db w) id o a -> po_message_hash o <> "" -> po_id row = id ->
  HasPrefix (nw_identifier (tk_network (po_token row))) "tron" = false ->
  wp (for_each (create_one tron (evm_service q)) (replicate runs row)) (fun out w' =>
    w_events w' = w_events w /\ out = Ret tt /\
    exists o', creatable (w_db w') id o' a /\ po_message_hash o' = po_message_hash o) w.
Proof.
  induction runs as [|runs IH]; intros o row w Hc Hh Hid Hn; cbn [replicate for_each]; [wp_step; by eauto|].
  assert (Hnext : forall o' w', creatable (w_db w') id o' a -> po_message_hash o' = po_message_hash o ->
    w_events w' = w_events w -> wp (for_each (create_one tron (evm_service q)) (replicate runs row)) (fun out w' =>
    w_events w' = w_events w /\ out = Ret tt /\ exists o', creatable (w_db w') id o' a /\ po_message_hash o' = po_message_hash o) w').
  { intros o' w' Hc' Hh' He. eapply wp_mono; [apply (IH o' row w' Hc'); [by rewrite Hh'|done|done]|].
    intros out w2 (H1 & H2 & o2 & H3 & H4). split_and!; [congruence|done|]. exists o2. split; [done|congruence]. }
  wp_step. unfold create_one. destruct (d_ge _ _); [|wp_step; by eapply Hnext].
  assert (Hset : forall st o1 w1 (Q : outcome unit -> World -> Prop), creatable (w_db w1) id o1 a -> po_message_hash o1 = po_message_hash o ->
    w_events w1 = w_events w ->
    (forall o2 w2, creatable (w_db w2) id o2 a -> po_message_hash o2 = po_message_hash o -> w_events w2 = w_events w -> Q (Ret tt) w2) ->
    wp (let! w := getM in logged (modify_db None (fun d =>
        match db_payment_orders d !! po_id row with
        | None => inl ENotFound
        | Some o' => inr (set_payment_orders (<[po_id row := po_set_status (w_now w) st o']> (db_payment_orders d)) d, tt)
        end))) Q w1).
  { intros st o1 w1 Q Hc1 Hh1 He1 HQ. do 2 wp_step. unfold logged. wp_step. rewrite Hid.
    apply wp_modify_direct; intros fs; [rewrite (cb_order _ _ _ _ Hc1)|]; wp_step.
    - eapply HQ; [by apply set_status_creatable|exact Hh1|exact He1].
    - eapply HQ; [exact Hc1|exact Hh1|exact He1]. }
  wp_step. apply (Hset PPending o w); [done|done|done|]. intros o1 w1 Hc1 Hh1 He1.
  wp_step. apply (Hset PInitiated o1 w1); [done|done|done|]. intros o2 w2 Hc2 Hh2 He2.
  unfold service_for. rewrite Hn, Hid. unfold logged. wp_step.
  eapply wp_mono; [apply (create_announced_wp q id o2 a w2 Hc2); by rewrite Hh2|].
  intros out w3 (He3 & Hd3 & Hp). rewrite <- Hd3 in Hc2.
  destruct out as [[]|e|]; [| |done]; wp_step; by apply (Hnext o2); [..|congruence].
Qed.

(** ** Deposits with this service *)

Lemma batch_keeps chain address calls w : idle w (SendTransactionBatch chain address calls w).2.
Proof. exact (proj1 (calm_batch chain address calls w)). Qed.

(** An order that is paid in full, pending and without a gateway id is one that the trigger
    keeps from staying pending. *)
Lemma paid_in_full_refused now h o :
  po_status o = PPending -> po_gateway_id o = "" ->
  (d_val (d_round (d_add (d_add (po_amount o) (po_sender_fee o)) (po_network_fee o)) (tk_decimals (po_token o))) <=
   d_val (po_amount_paid o))%Q ->
  check_payment_order_amount o (set_message_hash now h o) = true.
Proof.
  intros Hs Hg Hp. unfold check_payment_order_amount, set_message_hash. cbn [po_status po_token]. rewrite Hs, Hg, bool_decide_true by done.
  cbn [String.eqb]. rewrite !andb_true_r. by rewrite d_ge_spec.
Qed.

(** The database refuses to announce an order that was paid in full: the deposit made it
    pending and the update with the message hash leaves it so, which is what the trigger
    raises its exception on.  Whatever else fails, the creation ends in an error, the rows
    stay and nothing is sent.  Only a deposit below the rounded amount and fees (the match
    allows one per cent) can be announced. *)
Theorem full_deposit_never_created q id o a w :
  creatable (w_db w) id o a -> po_message_hash o = "" -> po_status o = PPending -> po_gateway_id o = "" ->
  (d_val (d_round (d_add (d_add (po_amount o) (po_sender_fee o)) (po_network_fee o)) (tk_decimals (po_token o))) <=
   d_val (po_amount_paid o))%Q ->
  wp (evm_create_order q id) (fun out w' => (exists e, out = Err e) /\ w_db w' = w_db w /\ w_events w' = w_events w) w.
Proof.
  intros Hc Hh Hs Hg Hp. pose proof (cb_order _ _ _ _ Hc) as Ho. pose proof (cb_id _ _ _ _ Hc) as Hid.
  unfold evm_create_order. do 2 wp_step. apply (fetch_order_wp _ _ _ _ _ Hc); [intros fs l|intros fs; split_and!; [by eexists|done..]].
  cbn beta iota. wp_step. unfold paying_account. wp_step. rewrite Hh. cbn [String.eqb negb].
  unfold submit_order. rewrite Hid. do 2 wp_step. destruct (encrypt_recipient _ _) as [h|]; [|split_and!; [by eexists|done..]].
  do 2 wp_step. unfold save_message_hash. destruct (too_long 400 (Some h)); [split_and!; [by eexists|done..]|].
  do 2 wp_step. unfold update_payment_one. apply wp_modify_direct; intros fs'; [|split_and!; [by eexists|done..]].
  cbn [w_db set_faults]. rewrite Ho. unfold triggered. rewrite (paid_in_full_refused _ _ _ Hs Hg Hp). split_and!; [by eexists|done..].
Qed.

(** C32: a paid order from the transfer to the chain, whatever fails: when the indexing
    of the transfer reports success, the deposited order was handed to the chain
    service from its receive address, with the amounts of the deposit; and although
    the deposit made it pending, it is initiated again, with the transfer's hash
    and amount. *)
Theorem deposit_reaches_chain q conf a po event w :
  db_payment_orders (w_db w) !! po_id po = Some po -> db_receive_addresses (w_db w) !! ra_id a = Some a ->
  po_receive_address po = Some (ra_id a) -> po_message_hash po = "" ->
  po_status po = PInitiated -> po_tx_hash po = "" -> (0 < d_val (tt_value event))%Q ->
  wp (UpdateReceiveAddressStatus conf (evm_service q) a po event) (fun out w' => out = Ret true ->
    exists u log h calls wb r, deposit_terms po event u /\
      let o := deposited (w_now w) u event log po in
      create_batch o h calls /\
      SendTransactionBatch (nw_chain_id (tk_network (po_token po))) (ra_address a) calls wb = (Ret r, w') /\
      exists o', db_payment_orders (w_db w') !! po_id po = Some o' /\ po_status o' = PInitiated /\
        po_tx_hash o' = tt_tx_hash event /\ po_amount_paid o' = tt_value event /\ po_message_hash o' = h) w.
Proof.
  intros Hpo Ha Hedge Hh Hst Htx Hv.
  eapply wp_mono; [by apply (deposit_wp conf (evm_service q) a po event w)|].
  intros out w' [[_ Hne]|(u & Hu & [[_ (e & ->)]|(w1 & Hd1 & Hcr)])] Hout; [done|done|].
  set (o := deposited (w_now w) u event (db_next_id (w_db w)) po).
  set (a' := address_used (w_now w) event a).
  assert (Hc : creatable (w_db w1) (po_id po) o a').
  { rewrite Hd1. split; [apply lookup_insert_eq|done|]. exists (ra_id a). split; [done|]. apply lookup_insert_eq. }
  pose proof (evm_create_order_wp q (po_id po) o a' w1 Hc Hh) as H. unfold wp in H.
  unfold order_created in Hcr. change (CreateOrder (evm_service q)) with (evm_create_order q) in Hcr.
  destruct (evm_create_order q (po_id po) w1) as [r w2]. simpl in H. destruct r as [[]|e|]; [|destruct Hcr; congruence|destruct Hcr; congruence].
  destruct Hcr as [_ ->]. inversion H as [| | |h calls wb w3 r Hdb _ _ Hb Hs Hrep]; subst w3.
  destruct r as [r|e|]; [|done|done].
  exists u, (db_next_id (w_db w)), h, calls, wb, r. split; [done|]. split; [exact Hb|]. split; [exact Hs|].
  pose proof (batch_keeps (nw_chain_id (tk_network (po_token o))) (ra_address a') calls wb) as (Hk & _). rewrite Hs in Hk. simpl in Hk.
  exists (announced (w_now w1) h o). split; [|done]. rewrite Hk, Hdb. apply lookup_insert_eq.
Qed.

(** ** The interface of deposits *)

(** A chain service that answers as documented. *)
Record tame : Prop := {
  tm_panic : forall chain address calls w, (SendTransactionBatch chain address calls w).1 <> Panic;
  tm_faults : forall chain address calls w, w_faults w = [] -> w_faults (SendTransactionBatch chain address calls w).2 = []
}.

(** The engine is one when the first transaction of its answers has an id. *)
Lemma engine_tame :
  use_alchemy = false ->
  (forall w chain address calls, match ParseJSONResponse (engine_answer w chain address calls) with
     | (Some _, _) => True
     | (None, data) => exists fs t rest id, json_get "result" data = Some (JObj fs) /\
         json_get "transactions" fs = Some (JArr (JObj t :: rest)) /\ json_get "id" t = Some (JStr id)
     end) -> tame.
Proof.
  intros Hu Ha. split; intros chain address calls w; [|intros Hf]; unfold SendTransactionBatch; rewrite Hu;
    unfold engine_batch, bindM, wrapM, tryM, ext; [destruct (w_faults w) as [|[] fs]|rewrite Hf]; try done; cbn [retM getM emit].
  all: match goal with |- context [ParseJSONResponse (engine_answer ?w ?c ?a ?l)] => specialize (Ha w c a l) end.
  all: destruct (ParseJSONResponse _) as [[e|] data]; [done|].
  all: destruct Ha as (fs0 & t & rest & id & H1 & H2 & H3).
  all: unfold engine_queue_id, bindM; rewrite H1; cbn [as_map retM]; rewrite H2; cbn [as_list as_map retM]; by rewrite H3.
Qed.

Lemma created_rows id o a w out w' :
  created id o a w out w' -> db_payment_orders (w_db w) !! id = Some o ->
  exists o', w_db w' = put_order o' id (w_db w) /\ po_amount_paid o' = po_amount_paid o /\ po_tx_hash o' = po_tx_hash o.
Proof.
  intros H Ho. destruct H as [e w' Hd|h e w' Hd|h e w' Hd|h calls w1 w' r Hd _ _ _ Hs].
  - exists o. split; [|done]. rewrite Hd. destruct (w_db w). unfold put_order, set_payment_orders. simpl in *. by rewrite insert_id.
  - by exists (set_message_hash (w_now w) h o).
  - by exists (announced (w_now w) h o).
  - exists (announced (w_now w) h o). split; [|done].
    match type of Hs with SendTransactionBatch ?c ?a ?l ?w = _ => pose proof (batch_keeps c a l w) as (Hk & _) end.
    rewrite Hs in Hk. simpl in Hk. congruence.
Qed.

(** Without failures the creation ends without failures to come. *)
Lemma evm_create_faults q id o a w :
  tame -> creatable (w_db w) id o a -> w_faults w = [] -> w_faults (evm_create_order q id w).2 = [].
Proof.
  intros [_ Tf] Hc Hf. change (wp (evm_create_order q id) (fun _ w' => w_faults w' = []) w).
  destruct Hc as [Ho Hid (i & Hi & Ha)]. unfold evm_create_order, fetch_order. do 3 wp_step. eapply wp_read_db_ok; [done|reflexivity|].
  cbn beta iota. rewrite Ho, Hi. cbn [mbind option_bind]. rewrite Ha. do 2 wp_step. unfold paying_account. wp_step.
  destruct (negb _); [done|]. unfold submit_order, save_message_hash, update_payment_one. rewrite Hid. do 2 wp_step.
  destruct (encrypt_recipient _ _) as [h|]; [|done]. do 2 wp_step. destruct (too_long _ _); [done|].
  do 2 wp_step. eapply wp_modify_direct_ok; [done|]. rewrite Ho. unfold triggered at 1. destruct (check_payment_order_amount _ _); [done|].
  do 4 wp_step. eapply wp_modify_direct_ok; [done|].
  cbn [w_db set_db put_order set_payment_orders db_payment_orders]. rewrite lookup_insert_eq.
  unfold triggered. destruct (check_payment_order_amount _ _); [done|].
  unfold createOrderCallData, approveCallData, packed. do 2 wp_step. destruct (abi_pack _ _ _); [|done].
  do 3 wp_step. destruct (abi_pack _ _ _); [|done]. do 3 wp_step. unfold wp.
  match goal with |- context [SendTransactionBatch ?c ?a ?l ?w] => pose proof (Tf c a l w Hf) as H; destruct (SendTransactionBatch c a l w) as [[r|e|] w3] end;
    exact H.
Qed.

(** The EVM service is one that deposits can rely on. *)
Lemma evm_frames q : tame -> frames (evm_service q).
Proof.
  intros T. assert (Hc : forall id w, addressed id (w_db w) -> exists o a, creatable (w_db w) id o a).
  { intros id w (o & i & a & H1 & H2 & H3 & H4). exists o, a. split; [done|done|by exists i]. }
  assert (Hrow : forall id w, addressed id (w_db w) -> exists o o', db_payment_orders (w_db w) !! id = Some o /\
    w_db (CreateOrder (evm_service q) id w).2 = put_order o' id (w_db w) /\
    po_amount_paid o' = po_amount_paid o /\ po_tx_hash o' = po_tx_hash o /\ (CreateOrder (evm_service q) id w).1 <> Panic).
  { intros id w (o & a & H)%Hc. exists o. pose proof (cb_order _ _ _ _ H) as Ho.
    cbn [CreateOrder evm_service]. destruct (String.eqb_spec (po_message_hash o) "") as [Eh|Eh].
    - pose proof (evm_create_order_wp q id o a w H Eh) as Hr. unfold wp in Hr.
      destruct (evm_create_order q id w) as [out w'] eqn:E. simpl in Hr. destruct (created_rows _ _ _ _ _ _ Hr Ho) as (o' & H1 & H2 & H3).
      exists o'. split_and!; try done. destruct Hr as [| | |h calls w1 w' r _ _ _ _ Hs]; try done.
      pose proof (tm_panic T (nw_chain_id (tk_network (po_token o))) (ra_address a) calls w1) as Hp. rewrite Hs in Hp. by destruct r.
    - pose proof (create_announced_wp q id o a w H Eh) as Hr. unfold wp in Hr. destruct (evm_create_order q id w) as [out w'].
      simpl in *. destruct Hr as (_ & Hd & Hp). exists o. split_and!; try done. rewrite Hd. destruct (w_db w).
      unfold put_order, set_payment_orders. simpl in *. by rewrite insert_id. }
  split; intros id w; intros; match goal with Had : addressed id _ |- _ => destruct (Hrow id w Had) as (o1 & o1' & R1 & R2 & R3 & R4 & R5);
    destruct (Hc id w Had) as (o2 & a2 & Hcr) end; try done; try (rewrite R2; done).
  - by eapply evm_create_faults.
  - rewrite R2. cbn. by rewrite lookup_insert_ne.
  - rewrite R2. exists o1'. cbn. rewrite lookup_insert_eq. split_and!; [done|congruence|congruence].
Qed.

(** ** Settling *)

(** The call that settles an order: its id and gateway id, the address its provider
    gave for the token in the order's currency, and the percentage. *)
Definition settle_call (d : DB) (o : LockPaymentOrder) (data : list Z) : Prop :=
  exists provider fc token gid,
    lo_provider o = Some provider /\ token ∈ db_order_tokens d /\ settlement_token o provider (fc_code fc) token = true /\
    fc_is_enabled fc = true /\ hex_decode (drop 2 (String.list_ascii_of_string (lo_gateway_id o))) = Some gid /\
    abi_pack "Gateway" "settle" [ABytes32 (StringToByte32 (without_dashes (lo_id o)));
      ABytes32 (StringToByte32 (string_of_bytes gid)); AAddress (HexToAddress (pot_address token));
      AUint (d_float_uint (d_mul (lo_order_percent o) (d_int 1000)))] = Some data.

Lemma decode_id_wp what id w :
  wp (decode_id what id) (fun out w' => w' = w /\ forall b, out = Ret b -> hex_decode (drop 2 (String.list_ascii_of_string id)) = Some b) w.
Proof.
  unfold decode_id. destruct (String.list_ascii_of_string id) as [|c1 [|c2 l]]; [by wp_step|by wp_step|]. cbn [drop].
  destruct (hex_decode l) eqn:E; wp_step; (split; [done|]); [|done]. by intros b [= <-].
Qed.

Lemma settle_data_wp o w :
  wp (settleCallData o) (fun out w' => idle w w' /\ forall data, out = Ret data -> settle_call (w_db w) o data) w.
Proof.
  unfold settleCallData, GetInstitutionByCode. do 3 wp_step. eapply wp_read_db; [reflexivity|intros fs|by intros fs].
  wp_step. apply wp_only; [intros i Hi|by intros e]. do 3 wp_step. cbn [fst snd negb orb].
  destruct (lo_provider o) as [p|] eqn:Ep; [|by split]. do 2 wp_step. cbn [snd].
  destruct (c ← in_fiat_currency i; _) as [fc|] eqn:Efc; [|by split].
  assert (Hen : fc_is_enabled fc = true).
  { destruct (in_fiat_currency i) as [c|]; [|done]. simpl in Efc. destruct (db_currencies _ !! c) as [fc'|]; [|done]. simpl in Efc.
    destruct (fc_is_enabled fc') eqn:E; by simplify_eq. }
  do 3 wp_step. eapply wp_read_db; [reflexivity|intros fs1|by intros fs1].
  cbn beta iota. apply only_filter; [intros t Ht Hp|by intros _|done]. cbn [w_db set_faults] in Ht.
  wp_step. eapply wp_mono; [apply decode_id_wp|]. intros [gid|e|] w1 [-> Hg]; [|by split|by split]. specialize (Hg gid eq_refl).
  unfold packed. destruct (abi_pack _ _ _) as [data|] eqn:Ea; wp_step; (split; [done|]); [|done].
  intros data' [= <-]. by exists p, fc, t, gid.
Qed.

(** A settlement never changes the database.  It reports success only when it handed
    over one call, from the aggregator's account, for a validated order with a
    successful fulfilment, to the address of the order's own provider. *)
Theorem evm_settle_order_correct id w :
  wp (evm_settle_order id) (fun out w' => idle w w' /\ (out = Ret tt ->
    exists o data wb r, o ∈ lock_rows (w_db w) /\ to_be_settled (w_db w) id o = true /\ settle_call (w_db w) o data /\
      SendTransactionBatch (nw_chain_id (tk_network (lo_token o))) aggregator_account (gateway_call o data) wb = (Ret r, w'))) w.
Proof.
  unfold evm_settle_order. do 3 wp_step. eapply wp_read_db; [reflexivity|intros fs|by intros fs].
  cbn beta iota. apply only_filter; [intros o Ho Hp|by intros _|done].
  do 2 wp_step. eapply wp_mono; [apply settle_data_wp|]. intros out w1 [I1 Hd].
  assert (Hi1 : idle w w1) by (eapply idle_trans; [|exact I1]; done).
  destruct out as [data|e|]; [|by split|by split]. specialize (Hd data eq_refl).
  do 2 wp_step. unfold wp. set (c := nw_chain_id _). pose proof (batch_keeps c aggregator_account (gateway_call o data) w1) as Hk.
  destruct (SendTransactionBatch c aggregator_account (gateway_call o data) w1) as [r w2] eqn:Es. simpl in Hk.
  assert (Hi2 : idle w w2) by (by eapply idle_trans).
  destruct r as [r|e|]; [|by split|by split]. split; [done|]. intros _. exists o, data, w1, r. by split_and!.
Qed.

(** ** Numbers *)

(** A whole number of subunits is exact. *)
Lemma to_subunit_exact undefined amount decimals z :
  0 <= decimals -> (d_val amount * inject_Z (10 ^ decimals) == inject_Z z)%Q -> ToSubunit undefined amount decimals = z.
Proof.
  intros Hd H. unfold ToSubunit. rewrite (string_integer _ z) by (by rewrite val_mul, val_int).
  by rewrite int_string_parse, DecimalZ.of_to.
Qed.

Lemma q_trunc_bounds q : (0 <= q -> inject_Z (q_trunc q) <= q /\ q < inject_Z (q_trunc q) + 1)%Q.
Proof.
  destruct q as [n d]. unfold q_trunc, Qle, Qlt; simpl. intros H. assert (Hn : 0 <= n) by lia.
  pose proof (Z.quot_rem n (Zpos d) ltac:(lia)). pose proof (Z.rem_bound_pos n (Zpos d) Hn ltac:(lia)). lia.
Qed.

Lemma hundredths_bounds a :
  (0 <= d_val a)%Q -> let r := inject_Z (d_bigint (d_mul a (d_int 100))) in
  (r / 100 <= d_val a)%Q /\ (d_val a < r / 100 + (1 # 100))%Q.
Proof.
  intros Ha. cbn zeta. rewrite val_bigint. set (q := d_val (d_mul a (d_int 100))).
  assert (E : (q == d_val a * (100 # 1))%Q) by (unfold q; by rewrite val_mul, val_int).
  destruct (q_trunc_bounds q) as [H1 H2]; [lra|]. generalize dependent (inject_Z (q_trunc q)). intros t H1 H2.
  unfold Qdiv. change (/ 100)%Q with (1 # 100)%Q. split; lra.
Qed.

(** C40: what the created order carries, for amounts in whole subunits of the token: the
    amount and the sender's fee exactly, an allowance of exactly their sum, and the
    rate in hundredths, rounded down by less than a hundredth. *)
Theorem create_params_exact o hash :
  0 <= tk_decimals (po_token o) -> (0 <= d_val (po_rate o))%Q -> forall amount fee,
  (d_val (po_amount o) * inject_Z (10 ^ tk_decimals (po_token o)) == inject_Z amount)%Q ->
  (d_val (po_sender_fee o) * inject_Z (10 ^ tk_decimals (po_token o)) == inject_Z fee)%Q ->
  exists token recipient return_address rate,
    CreateOrderParams o hash = [AAddress token; AUint amount; AUint rate; AAddress recipient; AUint fee;
      AAddress return_address; AString hash] /\
    to_subunit (d_add (po_amount o) (po_sender_fee o)) (tk_decimals (po_token o)) = amount + fee /\
    (inject_Z rate / 100 <= d_val (po_rate o))%Q /\ (d_val (po_rate o) < inject_Z rate / 100 + (1 # 100))%Q.
Proof.
  intros Hd Hr amount fee Ha Hf. eexists _, _, _, _. split_and!.
  - unfold CreateOrderParams, to_subunit. cbn zeta. rewrite (to_subunit_exact _ _ _ _ Hd Ha), (to_subunit_exact _ _ _ _ Hd Hf). reflexivity.
  - apply to_subunit_exact; [done|]. by rewrite val_add, Qmult_plus_distr_l, Ha, Hf, inject_Z_plus.
  - by apply hundredths_bounds.
  - by apply hundredths_bounds.
Qed.

End gateway_claims.

(** ** Witnesses on the seeded database *)

(** An engine that queues every batch, and an encoder that writes the names. *)
#[export] Instance sample_gateway : GatewayServices := {|
  use_alchemy := false;
  aggregator_account := "0xaggregator";
  undefined_int _ := 0;
  encrypt_recipient _ r := Some ("sealed:" +:+ re_account_identifier r);
  abi_pack contract method args := Some [Z.of_nat (length args)];
  engine_answer _ _ _ _ := mkResp 200 (BObject [("result", JObj [("transactions", JArr [JObj [("id", JStr "q1")]])])]);
  alchemy_batch _ _ _ := retM "unused"
|}.
#[export] Instance sample_gateway_laws : GatewayLaws sample_gateway.
Proof. split. intros chain address calls. by apply calm_ret. Qed.

Lemma sample_tame : tame.
Proof. apply engine_tame; [done|]. intros w chain address calls. cbn. by eexists _, _, _, _. Qed.

Lemma s_creatable : creatable (w_db s_index_world) "p1" (s_waiting "p1" 1) (s_address 1).
Proof. split; [vm_refl|done|]. exists 1. split; [done|vm_refl]. Qed.

Lemma evm_create_order_correct_witness :
  created "p1" (s_waiting "p1" 1) (s_address 1) s_index_world (evm_create_order 9 "p1" s_index_world).1
    (evm_create_order 9 "p1" s_index_world).2.
Proof. exact (evm_create_order_correct 9 "p1" _ _ _ s_creatable eq_refl). Defined.

(** The engine cannot be reached once: the order is stuck. *)
Definition s_send_fails : World := set_faults [] (evm_create_order 9 "p1" (set_faults [false; false; false; true] s_index_world)).2.
Definition s_stuck : PaymentOrder := announced 1000 "sealed:1234567890" (s_waiting "p1" 1).

Lemma s_stuck_creatable : creatable (w_db s_send_fails) "p1" s_stuck (s_address 1).
Proof. split; [vm_refl|done|]. exists 1. split; [done|vm_refl]. Qed.

Lemma failed_creation_never_retried_witness :
  w_events (for_each (create_one s_gateway (evm_service 9)) (replicate 3 s_stuck) s_send_fails).2 = w_events s_send_fails /\
  (evm_create_order 9 "p1" (set_faults [false; false; false; true] s_index_world)).1 <> Ret tt.
Proof.
  split; [|vm_compute; discriminate].
  exact (proj1 (failed_creation_never_retried 9 s_gateway "p1" (s_address 1) 3 s_stuck s_stuck s_send_fails s_stuck_creatable
    ltac:(done) eq_refl eq_refl)).
Defined.

(** A transfer of half a per cent less than the order, which the trigger lets pass. *)
Definition s_short_transfer : TokenTransferEvent :=
  mkTTE (tt_block_number (s_transfer 2)) (tt_tx_hash (s_transfer 2)) (tt_from (s_transfer 2)) (tt_to (s_transfer 2)) (d_new 199 (-2)).

(** The same order after a transfer of the whole amount. *)
Definition s_full_world : World :=
  set_db (put_order (deposited 0 (mkDU None None None) (s_transfer 2) 1 (s_waiting "p1" 1)) "p1" (w_db s_index_world)) s_index_world.

Lemma full_deposit_never_created_witness :
  w_events (evm_create_order 9 "p1" s_full_world).2 = w_events s_full_world.
Proof.
  eapply (full_deposit_never_created 9 "p1" (deposited 0 (mkDU None None None) (s_transfer 2) 1 (s_waiting "p1" 1)) (s_address 1)
    s_full_world); [| | | |].
  - split; [vm_refl|vm_refl|exists 1; split; vm_refl].
  - vm_refl.
  - vm_refl.
  - vm_refl.
  - vm_compute. discriminate.
Defined.

Lemma deposit_reaches_chain_witness :
  exists o, db_payment_orders (w_db (UpdateReceiveAddressStatus s_order_conf (evm_service 9) (s_address 1) (s_waiting "p1" 1)
    s_short_transfer s_index_world).2) !! "p1" = Some o /\ po_status o = PInitiated /\ po_tx_hash o = "0xhash".
Proof.
  assert (H : (UpdateReceiveAddressStatus s_order_conf (evm_service 9) (s_address 1) (s_waiting "p1" 1) s_short_transfer
    s_index_world).1 = Ret true) by vm_refl.
  destruct (deposit_reaches_chain 9 s_order_conf (s_address 1) (s_waiting "p1" 1) s_short_transfer s_index_world
    ltac:(vm_refl) ltac:(vm_refl) eq_refl eq_refl eq_refl eq_refl ltac:(vm_compute; reflexivity) H)
    as (u & log & h & calls & wb & r & _ & _ & _ & o & H1 & H2 & H3 & _).
  exists o. split; [exact H1|]. split; [exact H2|exact H3].
Defined.

(** A validated order whose provider has an address for the token. *)
Definition s_validated : LockPaymentOrder :=
  mkLPO "o1" "0xabcd" (d_int 2) (d_int 0) (d_int 950) (d_int 100) "0xsender" "0xtx" LValidated 7
    "ABNGNGLA" "1234567890" "OK" "rent" "{}" 0 [] "mh1" (d_int 2) 0 0 s_token (Some s_bucket) (Some s_prov) [].
Definition s_settle_world : World :=
  let d := set_lock_orders {[ "o1" := s_validated ]} (s_db (s_pc 5000 0 5000)) in
  mkWorld (set_fulfillments [mkLOF 1 "tx1" "psp1" VSuccess "" 0 "o1"] d) ∅ 0 s_redis [] 1000 [] [].

Lemma evm_settle_order_correct_witness :
  exists o data wb r, to_be_settled (w_db s_settle_world) "o1" o = true /\ settle_call (w_db s_settle_world) o data /\
    SendTransactionBatch 8453 "0xaggregator" (gateway_call o data) wb = (Ret r, (evm_settle_order "o1" s_settle_world).2).
Proof.
  destruct (evm_settle_order_correct "o1" s_settle_world) as [_ H].
  destruct H as (o & data & wb & r & Ho & H1 & H2 & H3); [vm_refl|]. exists o, data, wb, r. split; [exact H1|]. split; [exact H2|].
  assert (o = s_validated) as ->; [|exact H3].
  cbn in Ho. by apply list_elem_of_singleton in Ho.
Defined.

Lemma create_params_exact_witness :
  exists token recipient return_address rate, CreateOrderParams (s_waiting "p1" 1) "h" = [AAddress token; AUint 2000000; AUint rate;
    AAddress recipient; AUint 0; AAddress return_address; AString "h"].
Proof.
  destruct (create_params_exact (s_waiting "p1" 1) "h" ltac:(vm_compute; discriminate) ltac:(vm_compute; discriminate) 2000000 0
    ltac:(vm_compute; reflexivity) ltac:(vm_compute; reflexivity)) as (t & f & a & r & H & _). by exists t, f, a, r.
Defined.

(** The interface of deposits, discharged by the EVM service. *)
Lemma shared_address_paid_twice_witness :
  exists w', rtc (deposit_step s_order_conf (evm_service 9) [(s_waiting "p1" 1, s_address 1); (s_waiting "p2" 2, s_address 2)]
      (s_transfer 2)) (s_index_world, [Waiting; Waiting]) (w', [Finished; Finished]) /\
    paid_by (s_transfer 2) w' (s_waiting "p1" 1, s_address 1) /\ paid_by (s_transfer 2) w' (s_waiting "p2" 2, s_address 2).
Proof.
  refine (proj2 (shared_address_paid_twice s_order_conf (evm_service 9) (s_transfer 2) s_index_world
    (s_waiting "p1" 1, s_address 1) (s_waiting "p2" 2, s_address 2) (evm_frames 9 sample_tame) _ _ (s_fresh 2) _ _ _ _));
    [done|vm_compute; reflexivity|apply s_payable; vm_refl|apply s_payable; vm_refl|done|done].
Defined.
