(* ===== verification/ChainEvents.v ===== *)
(** * Events of the chain (utils/rpc_events.go, GetContractEventsRPC of services/alchemy.go)

    The logs of a receipt are filtered, converted to event maps and decoded.  Bytes
    are integers below 256, hashes and topics lists of 32 of them.  Slices panic out
    of range; [int] is 64 bits wide.  The capacity of a log's data is its length, as
    the JSON decoder allocates it. *)

From Stdlib Require Import DecimalString DecimalZ.
From S2P Require Import Prelude Decimal Schema Store Samples Transactions Balance Utils Ethereum Services Queue Calm Orders Http.
Local Open Scope go_scope.
Local Open Scope string_scope.
Local Open Scope list_scope.

(** ** Logs and events *)

(** go-ethereum's [types.Log], as far as the code reads it. *)
Record Log := mkLog {
  lg_address : list Z;
  lg_topics : list (list Z);
  lg_data : list Z;
  lg_block_number : Z;
  lg_tx_hash : list Z;
  lg_index : Z
}.

(** The map of an event: [topics] after their conversion to text. *)
Record ChainEvent := mkCE {
  ce_block_number : Z;
  ce_transaction_hash : string;
  ce_log_index : Z;
  ce_address : string;
  ce_topics : list string;
  ce_data : list Z;
  ce_decoded : list (string * json)
}.

Definition TransferEventSignature : string := "0xddf252ad1be2c89b69c2b068fc378daa952ba7f163c4a11628f55a4df523b3ef".
Definition OrderCreatedEventSignature : string := "0x40ccd1ceb111a3c186ef9911e1b876dc1f789ed331b86097b3b8851055b6a137".
Definition OrderSettledEventSignature : string := "0x98ece21e01a01cbe1d1c0dad3b053c8fbd368f99be78be958fcf1d1d13fd249a".
Definition OrderRefundedEventSignature : string := "0x0736fe428e1747ca8d387c2e6fa1a31a0cde62d3a167c40a46ade59a3cdc828e".

(** What the node is asked. *)
Class ChainServices `{O : DecimalOps} := {
  (** the logs of a receipt; [None] when there is none *)
  receipt_logs : World -> string -> string -> option (list Log);
  (** [FilterLogs] of an address in a range of blocks, with topics *)
  filter_logs : World -> string -> list Z -> Z -> Z -> list string -> list Log
}.

(** ** Bytes *)

(** [l\[lo:hi\]] *)
Definition go_slice {A} (l : list A) (lo hi : Z) : outcome (list A) :=
  if (0 <=? lo)%Z && (lo <=? hi)%Z && (hi <=? Z.of_nat (length l))%Z
  then Ret (take (Z.to_nat (hi - lo)) (drop (Z.to_nat lo) l)) else Panic.

(** [big.Int.String] *)
Definition int_string (z : Z) : string := NilZero.string_of_int (Z.to_int z).

(** Go on with a value. *)
Definition and_then {A B} (o : outcome A) (k : A -> outcome B) : outcome B :=
  match o with Ret a => k a | Err e => Err e | Panic => Panic end.

Definition params (indexed plain : list (string * json)) : list (string * json) :=
  [("indexed_params", JObj indexed); ("non_indexed_params", JObj plain)].

(** ** Decoding

    [BytesToHash] is only called on 32 bytes. *)

Section decoding.
Context {O : DecimalOps} {EC : EthCommon} {CS : @ChainServices O}.

(** The address of a topic, as text. *)
Definition topic_address (topic : list Z) : string := address_hex (HexToAddress (hex_string topic)).

Definition DecodeTransferEvent (log : Log) : outcome (list (string * json)) :=
  match lg_topics log with
  | [_; from; to] =>
      Ret (params [("from", JStr (topic_address from)); ("to", JStr (topic_address to))]
                  [("value", JStr (int_string (set_bytes (lg_data log))))])
  | _ => Err (EMsg "invalid Transfer event")
  end.

(** The dynamic text: its offset and length are words of the data. *)
Definition message_hash_of (data : list Z) : outcome string :=
  let len := Z.of_nat (length data) in
  let messageHashBytes := drop 96 data in
  if (length messageHashBytes <? 32)%nat then Ret ""
  else
    let offsetInt := wrap64 (set_bytes (take 32 messageHashBytes)) in
    if (wrap64 (offsetInt + 32) <=? len)%Z then
      and_then (go_slice data offsetInt (wrap64 (offsetInt + 32))) (fun lengthBytes =>
        let lengthInt := wrap64 (set_bytes lengthBytes) in
        let stop := wrap64 (offsetInt + 32 + lengthInt) in
        if (stop <=? len)%Z
        then and_then (go_slice data (wrap64 (offsetInt + 32)) stop) (fun stringData => Ret (string_of_bytes stringData))
        else Ret "")
    else Ret "".

Definition DecodeOrderCreatedEvent (log : Log) : outcome (list (string * json)) :=
  match lg_topics log with
  | [_; sender; token; amount] =>
      let data := lg_data log in
      if (length data <? 96)%nat then Err (EMsg "invalid OrderCreated event data: too short")
      else
        and_then (message_hash_of data) (fun messageHash =>
          Ret (params [("sender", JStr (topic_address sender)); ("token", JStr (topic_address token));
                       ("amount", JStr (int_string (set_bytes amount)))]
                      [("protocolFee", JStr (int_string (set_bytes (take 32 data))));
                       ("orderId", JStr (hex_string (take 32 (drop 32 data))));
                       ("rate", JStr (int_string (set_bytes (take 32 (drop 64 data)))));
                       ("messageHash", JStr messageHash)]))
  | _ => Err (EMsg "invalid OrderCreated event")
  end.

(** The check asks for 44 bytes, the slice for 64. *)
Definition DecodeOrderSettledEvent (log : Log) : outcome (list (string * json)) :=
  match lg_topics log with
  | [_; orderId; liquidityProvider] =>
      let data := lg_data log in
      if (length data <? 44)%nat then Err (EMsg "invalid OrderSettled event data: too short")
      else
        and_then (go_slice data 32 64) (fun settlePercent =>
          Ret (params [("orderId", JStr (hex_string orderId));
                       ("liquidityProvider", JStr (topic_address liquidityProvider))]
                      [("splitOrderId", JStr (hex_string (take 32 data)));
                       ("settlePercent", JStr (int_string (set_bytes settlePercent)))]))
  | _ => Err (EMsg "invalid OrderSettled event")
  end.

Definition DecodeOrderRefundedEvent (log : Log) : outcome (list (string * json)) :=
  match lg_topics log with
  | [_; orderId] =>
      Ret (params [("orderId", JStr (hex_string orderId))]
                  [("fee", JStr (int_string (set_bytes (lg_data log))))])
  | _ => Err (EMsg "invalid OrderRefunded event")
  end.

(** The switch on the signature; [None] is its default. *)
Definition decode_as (signature : string) (log : Log) : option (outcome (list (string * json))) :=
  if String.eqb signature TransferEventSignature then Some (DecodeTransferEvent log)
  else if String.eqb signature OrderCreatedEventSignature then Some (DecodeOrderCreatedEvent log)
  else if String.eqb signature OrderSettledEventSignature then Some (DecodeOrderSettledEvent log)
  else if String.eqb signature OrderRefundedEventSignature then Some (DecodeOrderRefundedEvent log)
  else None.

(** The log that is rebuilt from the event. *)
Definition mock_log (e : ChainEvent) : Log := mkLog [] (map HexToHash (ce_topics e)) (ce_data e) 0 [] 0.

Definition set_decoded (decoded : list (string * json)) (e : ChainEvent) : ChainEvent :=
  mkCE (ce_block_number e) (ce_transaction_hash e) (ce_log_index e) (ce_address e) (ce_topics e) (ce_data e) decoded.

(** One pass over the events; [signature] tells how an event is decoded.  The first
    error ends it. *)
Fixpoint process_events (signature : ChainEvent -> string) (events : list ChainEvent) : outcome (list ChainEvent) :=
  match events with
  | [] => Ret []
  | e :: rest =>
      let next (e : ChainEvent) := and_then (process_events signature rest) (fun l => Ret (e :: l)) in
      match ce_topics e with
      | [] => next e
      | _ =>
          match decode_as (signature e) (mock_log e) with
          | None => next e
          | Some (Ret decoded) => next (set_decoded decoded e)
          | Some (Err err) => Err (EWrap "failed to decode event" err)
          | Some Panic => Panic
          end
      end
  end.

Definition ProcessRPCEvents (events : list ChainEvent) (eventSignature : string) : outcome (list ChainEvent) :=
  process_events (fun _ => eventSignature) events.
Definition ProcessRPCEventsBySignature (events : list ChainEvent) : outcome (list ChainEvent) :=
  process_events (fun e => match ce_topics e with t :: _ => t | [] => "" end) events.

(** ** Reading the chain *)

Definition event_signatures (topics : list string) : list string :=
  match topics with
  | t :: _ => if String.eqb t TransferEventSignature then [TransferEventSignature]
              else [OrderCreatedEventSignature; OrderSettledEventSignature; OrderRefundedEventSignature]
  | [] => [OrderCreatedEventSignature; OrderSettledEventSignature; OrderRefundedEventSignature]
  end.

(** The first topic is one of the signatures. *)
Definition has_signature (signatures : list string) (log : Log) : bool :=
  match lg_topics log with t :: _ => ContainsString signatures (hex_string t) | [] => false end.

(** The event before it is decoded. *)
Definition event_of (log : Log) : ChainEvent :=
  mkCE (lg_block_number log) (hex_string (lg_tx_hash log)) (lg_index log) (address_hex (lg_address log))
    (map hex_string (lg_topics log)) (lg_data log) (params [] []).

Definition returns {A} (o : outcome A) : M A := fun w => (o, w).

Context {OS : @OrderServices O}.

Definition GetContractEventsRPC (rpcEndpoint contractAddress : string) (fromBlock toBlock : Z) (topics : list string)
    (txHash : string) : M (list ChainEvent) :=
  do! wrapM "failed to create RPC client" ext in
  let url := build_rpc_url rpcEndpoint in
  let signatures := event_signatures topics in
  let! logs :=
    (if negb (String.eqb txHash "") then
       do! wrapM "failed to get transaction receipt" ext in
       let! w := getM in
       match receipt_logs w url (hex_string (HexToHash txHash)) with
       | None => errM (EWrap "failed to get transaction receipt" (EMsg "not found"))
       | Some logs => retM (List.filter (fun l => bool_decide (lg_address l = HexToAddress contractAddress) &&
                                                has_signature signatures l) logs)
       end
     else if (fromBlock =? 0)%Z || (toBlock =? 0)%Z then errM (EMsg "fromBlock and toBlock must be provided")
     else
       do! wrapM "failed to get logs" ext in
       let! w := getM in
       retM (List.filter (has_signature signatures)
               (filter_logs w url (HexToAddress contractAddress) fromBlock toBlock
                  (List.filter (fun t => negb (String.eqb t "")) topics)))) in
  wrapM "failed to process RPC events" (returns (ProcessRPCEventsBySignature (map event_of logs))).

Definition GetContractEventsWithFallback (network : Network) (contractAddress : string) (fromBlock toBlock : Z)
    (topics : list string) (txHash : string) : M (list ChainEvent) :=
  wrapM "RPC failed to get contract events"
    (GetContractEventsRPC (nw_rpc_endpoint network) contractAddress fromBlock toBlock topics txHash).

End decoding.
