(* ===== verification/EvmIndexer.v ===== *)
(** * The indexer of EVM chains (services/indexer/evm.go)

    Transactions are looked up in the history of an address or given by hash; the
    transfers and gateway events in their receipts are converted and handed to
    [Indexer].  The clients of Etherscan, Blockscout and Alchemy that list
    transactions are parameters. *)

From S2P Require Import Prelude Decimal Schema Store Samples Transactions Balance Utils Ethereum Services Queue Orders Rows Payments Http Tasks Indexer Gateway ChainEvents.
Local Open Scope go_scope.
Local Open Scope string_scope.
Local Open Scope list_scope.

(** The clients that list the transactions of an address: chain, address, limit and
    range of blocks. *)
Class HistoryServices `{O : DecimalOps} := {
  etherscan_history : bool -> Z -> string -> Z -> Z -> Z -> M (list (list (string * json)));
  blockscout_history : Z -> string -> Z -> Z -> Z -> M (list (list (string * json)));
  alchemy_history : Z -> string -> Z -> Z -> Z -> M (list (list (string * json)))
}.

Record EventCounts := mkCounts {
  ec_transfer : Z;
  ec_order_created : Z;
  ec_order_settled : Z;
  ec_order_refunded : Z
}.
Definition no_counts : EventCounts := mkCounts 0 0 0 0.

Section evm_indexer.
Context {O : DecimalOps} {OS : @OrderServices O} {SV : @Services O} {EC : EthCommon} {CS : @ChainServices O} {HI : @HistoryServices O}.
Variable conf : Config.
Variable service : OrderService.
(** the bounds of the queue walks and of the nesting of assignments *)
Variables qfuel depth : nat.

(** ** Events *)

(** [txHash\[:10\]], which the messages quote. *)
Definition quoted_hash (txHash : string) : M unit := if (String.length txHash <? 10)%nat then panicM else retM tt.

(** A text parameter that is present and not empty. *)
Definition text_param (key : string) (fields : list (string * json)) : option string :=
  match json_get key fields with Some (JStr s) => if String.eqb s "" then None else Some s | _ => None end.
Definition dec_param (key : string) (fields : list (string * json)) : option dec :=
  s ← text_param key fields; d_parse s.
Definition object_param (key : string) (fields : list (string * json)) : option (list (string * json)) :=
  match json_get key fields with Some (JObj m) => Some m | _ => None end.
Definition nonempty (s : string) : option string := if String.eqb s "" then None else Some s.

(** The lower-case text of an address. *)
Definition plain_address (s : string) : string := ToLower (address_hex (HexToAddress s)).

(** The transfer of an event; [None] when the loop goes on with the next. *)
Definition transfer_of (token : Token) (e : ChainEvent) : option TokenTransferEvent :=
  indexedParams ← object_param "indexed_params" (ce_decoded e);
  nonIndexedParams ← object_param "non_indexed_params" (ce_decoded e);
  fromStr ← text_param "from" indexedParams;
  toStr ← text_param "to" indexedParams;
  valueStr ← text_param "value" nonIndexedParams;
  let fromAddress := plain_address fromStr in
  if EqualFold fromAddress (nw_gateway_contract_address (tk_network token)) then None
  else
    transferValue ← d_parse valueStr;
    txHash ← nonempty (ce_transaction_hash e);
    Some (mkTTE (ce_block_number e) txHash fromAddress (plain_address toStr) (from_subunit transferValue token)).

Definition created_of (e : ChainEvent) : option OrderCreatedEvent :=
  nonIndexedParams ← object_param "non_indexed_params" (ce_decoded e);
  txHash ← nonempty (ce_transaction_hash e);
  indexedParams ← object_param "indexed_params" (ce_decoded e);
  orderAmount ← dec_param "amount" indexedParams;
  protocolFee ← dec_param "protocolFee" nonIndexedParams;
  rate ← dec_param "rate" nonIndexedParams;
  tokenStr ← text_param "token" indexedParams;
  orderIdStr ← text_param "orderId" nonIndexedParams;
  messageHashStr ← text_param "messageHash" nonIndexedParams;
  senderStr ← text_param "sender" indexedParams;
  Some (mkOCE (ce_block_number e) txHash (address_hex (HexToAddress tokenStr)) orderAmount protocolFee orderIdStr
          (d_div rate (d_int 100)) messageHashStr (address_hex (HexToAddress senderStr))).

Definition settled_of (e : ChainEvent) : option OrderSettledEvent :=
  nonIndexedParams ← object_param "non_indexed_params" (ce_decoded e);
  txHash ← nonempty (ce_transaction_hash e);
  indexedParams ← object_param "indexed_params" (ce_decoded e);
  settlePercent ← dec_param "settlePercent" nonIndexedParams;
  splitOrderIdStr ← text_param "splitOrderId" nonIndexedParams;
  orderIdStr ← text_param "orderId" indexedParams;
  liquidityProviderStr ← text_param "liquidityProvider" indexedParams;
  Some (mkOSE (ce_block_number e) txHash splitOrderIdStr orderIdStr (address_hex (HexToAddress liquidityProviderStr))
          settlePercent).

Definition refunded_of (e : ChainEvent) : option OrderRefundedEvent :=
  nonIndexedParams ← object_param "non_indexed_params" (ce_decoded e);
  txHash ← nonempty (ce_transaction_hash e);
  indexedParams ← object_param "indexed_params" (ce_decoded e);
  fee ← dec_param "fee" nonIndexedParams;
  orderIdStr ← text_param "orderId" indexedParams;
  Some (mkORE (ce_block_number e) txHash fee orderIdStr).

(** The map from order ids to events: the last event of an id. *)
Definition by_order {A} (order_id : A -> string) (events : list A) : gmap string A :=
  foldl (fun m e => <[order_id e := e]> m) ∅ events.

(** The events of a kind, when there are any; an error is logged. *)
Definition process_created (network : Network) (events : list OrderCreatedEvent) : M unit :=
  match events with
  | [] => retM tt
  | _ => logged (ProcessCreatedOrders conf service qfuel depth network (map oc_order_id events) (by_order oc_order_id events))
  end.
Definition process_settled (network : Network) (events : list OrderSettledEvent) : M unit :=
  match events with
  | [] => retM tt
  | _ => logged (ProcessSettledOrders network (map os_order_id events) (by_order os_order_id events))
  end.
Definition process_refunded (events : list OrderRefundedEvent) : M unit :=
  match events with
  | [] => retM tt
  | _ => logged (ProcessRefundedOrders (map or_order_id events) (by_order or_order_id events))
  end.

(** ** Transactions *)

(** One transfer after the other; those that fail are not counted. *)
Fixpoint process_transfers (token : Token) (events : list ChainEvent) (count : Z) : M Z :=
  match events with
  | [] => retM count
  | e :: rest =>
      match transfer_of token e with
      | None => process_transfers token rest count
      | Some t =>
          let? _u := ProcessTransfers conf service qfuel [tt_to t] [(tt_to t, t)] token
          orelse _e => (process_transfers token rest count) in
          process_transfers token rest (count + 1)
      end
  end.

(** The error of a failed read, which quotes the hash. *)
Definition fetch_events (msg txHash : string) (read : M (list ChainEvent)) : M (list ChainEvent) :=
  let? events := read orelse e => (do! quoted_hash txHash in errM (EWrap msg e)) in
  retM events.

Definition indexReceiveAddressByTransaction (token : Token) (txHash : string) : M EventCounts :=
  let network := tk_network token in
  let! transferEvents := fetch_events "error getting transfer events for token in transaction" txHash
    (GetContractEventsWithFallback network (tk_contract_address token) 0 0 [TransferEventSignature] txHash) in
  let! gatewayEvents := fetch_events "error getting gateway events for transaction" txHash
    (GetContractEventsWithFallback network (nw_gateway_contract_address network) 0 0 [OrderCreatedEventSignature] txHash) in
  let! transfers := process_transfers token transferEvents 0 in
  let orderCreatedEvents := omap created_of gatewayEvents in
  do! process_created network orderCreatedEvents in
  retM (mkCounts transfers (Z.of_nat (length orderCreatedEvents)) 0 0).

(** The events of a kind, by their signature. *)
Definition with_signature {A} (signature : string) (parse : ChainEvent -> option A) (e : ChainEvent) : option A :=
  match ce_topics e with
  | t :: _ => if String.eqb t signature then parse e else None
  | [] => None
  end.

Definition indexGatewayByTransaction (network : Network) (txHash : string) : M EventCounts :=
  let! events := fetch_events "error getting gateway events for transaction" txHash
    (GetContractEventsWithFallback network (nw_gateway_contract_address network) 0 0 [] txHash) in
  let created := omap (with_signature OrderCreatedEventSignature created_of) events in
  let settled := omap (with_signature OrderSettledEventSignature settled_of) events in
  let refunded := omap (with_signature OrderRefundedEventSignature refunded_of) events in
  do! process_created network created in
  do! process_settled network settled in
  do! process_refunded refunded in
  retM (mkCounts 0 (Z.of_nat (length created)) (Z.of_nat (length settled)) (Z.of_nat (length refunded))).

(** The settlement by one provider. *)
Definition settled_by (providerAddress : string) (e : ChainEvent) : option OrderSettledEvent :=
  t ← settled_of e;
  if EqualFold (os_liquidity_provider t) providerAddress then Some t else None.

Definition indexProviderAddressByTransaction (network : Network) (providerAddress txHash : string) : M EventCounts :=
  let! events := fetch_events "error getting OrderSettled events for transaction" txHash
    (GetContractEventsWithFallback network (nw_gateway_contract_address network) 0 0 [OrderSettledEventSignature] txHash) in
  let settled := omap (settled_by providerAddress) events in
  do! process_settled network settled in
  retM (mkCounts 0 0 (Z.of_nat (length settled)) 0).

(** ** Histories *)

Definition getAddressTransactionHistoryWithFallbackAndBypass (chainID : Z) (address : string) (limit fromBlock toBlock : Z)
    (bypassQueue : bool) : M (list (list (string * json))) :=
  let alchemy (err : error) : M (list (list (string * json))) :=
    if negb (chainID =? 56)%Z && negb (chainID =? 1135)%Z then
      let? transactions := alchemy_history chainID address limit fromBlock toBlock
      orelse alchemyErr => (errM (EWrap "both etherscan and alchemy failed" err)) in
      retM transactions
    else if (chainID =? 56)%Z then errM (EMsg "transaction history not supported for BNB Smart Chain (chain ID 56)")
    else errM (EMsg "transaction history not supported for chain") in
  if negb (chainID =? 1135)%Z then
    let? transactions := etherscan_history bypassQueue chainID address limit fromBlock toBlock orelse e => (alchemy e) in
    retM transactions
  else
    let? transactions := blockscout_history chainID address limit fromBlock toBlock orelse e => (alchemy e) in
    retM transactions.

(** The chains whose progress is not logged. *)
Definition quiet_chain (chainID : Z) : bool := (chainID =? 56)%Z || (chainID =? 1135)%Z.

Definition history_limit (last fromBlock toBlock : Z) : Z := if (fromBlock =? 0)%Z && (toBlock =? 0)%Z then last else 100.

(** The loop over a history: transactions with errors are skipped, their counts too. *)
Fixpoint index_history (chainID : Z) (index : string -> M EventCounts) (transactions : list (list (string * json)))
    (transfers : Z) : M Z :=
  match transactions with
  | [] => retM transfers
  | tx :: rest =>
      match text_param "hash" tx with
      | None => index_history chainID index rest transfers
      | Some txHash =>
          do! ifM (negb (quiet_chain chainID)) (quoted_hash txHash) in
          let? counts := index txHash orelse _e =>
            (do! quoted_hash txHash in index_history chainID index rest transfers) in
          index_history chainID index rest (transfers + ec_transfer counts)
      end
  end.

Definition indexReceiveAddressByUserAddressWithBypass (token : Token) (userAddress : string) (fromBlock toBlock : Z)
    (bypassQueue : bool) : M EventCounts :=
  let chainID := nw_chain_id (tk_network token) in
  let! transactions := wrapM "failed to get transaction history"
    (getAddressTransactionHistoryWithFallbackAndBypass chainID userAddress (history_limit 5 fromBlock toBlock) fromBlock toBlock
       bypassQueue) in
  let! transfers := index_history chainID (indexReceiveAddressByTransaction token) transactions 0 in
  retM (mkCounts transfers 0 0 0).

Definition indexGatewayByContractAddress (network : Network) (address : string) (fromBlock toBlock : Z) : M unit :=
  let! transactions := wrapM "failed to get gateway transaction history"
    (getAddressTransactionHistoryWithFallbackAndBypass (nw_chain_id network) address (history_limit 10 fromBlock toBlock)
       fromBlock toBlock false) in
  do! index_history (nw_chain_id network) (indexGatewayByTransaction network) transactions 0 in
  retM tt.

Definition indexProviderAddressByAddress (network : Network) (providerAddress : string) (fromBlock toBlock : Z) : M unit :=
  let! transactions := wrapM "failed to get provider transaction history"
    (getAddressTransactionHistoryWithFallbackAndBypass (nw_chain_id network) providerAddress
       (history_limit 20 fromBlock toBlock) fromBlock toBlock false) in
  do! index_history (nw_chain_id network) (indexProviderAddressByTransaction network providerAddress) transactions 0 in
  retM tt.

(** ** The indexer *)

(** The message of a failed transaction quotes its hash again. *)
Definition index_transaction (txHash : string) (index : M EventCounts) : M EventCounts :=
  let? counts := index orelse e => (do! quoted_hash txHash in errM e) in
  retM counts.

Definition IndexReceiveAddressWithBypass (token : Token) (address : string) (fromBlock toBlock : Z) (txHash : string)
    (bypassQueue : bool) : M EventCounts :=
  if negb (String.eqb txHash "") then index_transaction txHash (indexReceiveAddressByTransaction token txHash)
  else indexReceiveAddressByUserAddressWithBypass token address fromBlock toBlock bypassQueue.
Definition IndexReceiveAddress (token : Token) (address : string) (fromBlock toBlock : Z) (txHash : string) : M EventCounts :=
  IndexReceiveAddressWithBypass token address fromBlock toBlock txHash false.

Definition IndexGateway (network : Network) (address : string) (fromBlock toBlock : Z) (txHash : string) : M EventCounts :=
  if negb (String.eqb txHash "") then index_transaction txHash (indexGatewayByTransaction network txHash)
  else do! indexGatewayByContractAddress network address fromBlock toBlock in retM no_counts.

Definition IndexProviderAddress (network : Network) (address : string) (fromBlock toBlock : Z) (txHash : string) : M EventCounts :=
  if negb (String.eqb txHash "") then index_transaction txHash (indexProviderAddressByTransaction network address txHash)
  else do! indexProviderAddressByAddress network address fromBlock toBlock in retM no_counts.

End evm_indexer.
