(* ===== verification/ChainEventClaims.v ===== *)
(** * Theorems about events of the chain

    Reference encodings of the logs that the contracts emit, that the decoders read
    back what was encoded, how the indexer takes a transfer from the bytes of a
    receipt to the order it pays, and where malformed data panics; with their
    witnesses. *)

From Stdlib Require Import DecimalString DecimalZ.
From S2P Require Import Prelude Decimal Schema Store Samples Transactions Balance Utils Ethereum Services Queue Calm Orders OrderClaims Rows Payments Http.
From S2P Require Import Tasks TaskClaims Indexer IndexerClaims Gateway GatewayClaims ChainEvents EvmIndexer.
Local Open Scope go_scope.
Local Open Scope string_scope.
Local Open Scope list_scope.

(** ** Bytes *)

(** Big-endian, in [n] bytes. *)
Fixpoint be_bytes (n : nat) (z : Z) : list Z :=
  match n with 0%nat => [] | S n => be_bytes n (z / 256) ++ [z mod 256] end.
Definition word (z : Z) : list Z := be_bytes 32 z.

Lemma be_bytes_length n : forall z, length (be_bytes n z) = n.
Proof. induction n as [|n IH]; intros z; [done|]. simpl. rewrite length_app, IH. simpl. lia. Qed.

Lemma set_bytes_snoc l x : set_bytes (l ++ [x]) = set_bytes l * 256 + x.
Proof. unfold set_bytes. by rewrite foldl_app. Qed.

Lemma be_bytes_value n : forall z, 0 <= z < 256 ^ Z.of_nat n -> set_bytes (be_bytes n z) = z.
Proof.
  induction n as [|n IH]; intros z Hz; [simpl in *; unfold set_bytes; simpl; lia|].
  assert (Hp : 256 ^ Z.of_nat (S n) = 256 * 256 ^ Z.of_nat n) by (rewrite Nat2Z.inj_succ, Z.pow_succ_r by lia; done).
  cbn [be_bytes]. rewrite set_bytes_snoc, IH; [pose proof (Z.div_mod z 256); lia|].
  split; [apply Z.div_pos; lia|]. apply Z.div_lt_upper_bound; lia.
Qed.

Lemma word_value z : 0 <= z < 2 ^ 256 -> set_bytes (word z) = z.
Proof. intros Hz. apply be_bytes_value. exact Hz. Qed.

(** A topic holds an address after twelve bytes. *)
Definition address_topic (a : list Z) : list Z := replicate 12 0 ++ a.

(** ** Logs of the contracts *)

Definition is_uint (z : Z) : Prop := 0 <= z < 2 ^ 256.

Lemma be_bytes_bytes n : forall z, Forall byte (be_bytes n z).
Proof.
  induction n as [|n IH]; intros z; [constructor|]. simpl. apply Forall_app. split; [apply IH|]. constructor; [|constructor].
  apply Z.mod_pos_bound. lia.
Qed.
Lemma word_is_word z : is_word (word z).
Proof. split; [apply be_bytes_bytes|apply be_bytes_length]. Qed.
Lemma address_topic_is_word a : is_address a -> is_word (address_topic a).
Proof.
  intros [Hb Hl]. unfold address_topic. split; [apply Forall_app; split; [repeat constructor; done|done]|].
  by rewrite length_app, Hl.
Qed.

Lemma is_word_check b : forallb (fun x => (0 <=? x)%Z && (x <? 256)%Z) b && (length b =? 32)%nat = true -> is_word b.
Proof.
  intros [H1 H2%Nat.eqb_eq]%andb_true_iff. split; [|done]. apply Forall_forall. intros x Hx%list_elem_of_In.
  rewrite forallb_forall in H1. specialize (H1 x Hx). unfold byte. lia.
Qed.

(** The topic of a signature. *)
Definition signature_topic (signature : string) : list Z :=
  default [] (hex_decode (drop 2 (String.list_ascii_of_string signature))).

Lemma signature_is_word s :
  s ∈ [TransferEventSignature; OrderCreatedEventSignature; OrderSettledEventSignature; OrderRefundedEventSignature] ->
  is_word (signature_topic s) /\ hex_string (signature_topic s) = s.
Proof.
  intros H. repeat (apply elem_of_cons in H as [->|H]; [split; [apply is_word_check|]; vm_refl|]). by apply elem_of_nil in H.
Qed.

(** [Transfer(address indexed from, address indexed to, uint256 value)] *)
Definition transfer_log (contract from to : list Z) (value block : Z) (tx : list Z) (index : Z) : Log :=
  mkLog contract [signature_topic TransferEventSignature; address_topic from; address_topic to] (word value) block tx index.

(** The bytes of a text, and the zeros that fill its last word. *)
Definition text_bytes (s : string) : list Z := map (fun a => Z.of_nat (Ascii.nat_of_ascii a)) (String.list_ascii_of_string s).
Definition padded (b : list Z) : list Z := b ++ replicate ((32 - length b mod 32) mod 32) 0.

(** [OrderCreated(address indexed sender, address indexed token, uint256 indexed
    amount, uint256 protocolFee, bytes32 orderId, uint256 rate, string messageHash)]:
    the text follows the four words, its length first. *)
Definition created_log (contract sender token : list Z) (amount fee : Z) (orderId : list Z) (rate : Z) (messageHash : string)
    (block : Z) (tx : list Z) (index : Z) : Log :=
  mkLog contract [signature_topic OrderCreatedEventSignature; address_topic sender; address_topic token; word amount]
    (word fee ++ orderId ++ word rate ++ word 128 ++ word (Z.of_nat (String.length messageHash)) ++ padded (text_bytes messageHash))
    block tx index.

(** [OrderSettled(bytes32 splitOrderId, bytes32 indexed orderId, address indexed
    liquidityProvider, uint96 settlePercent)] *)
Definition settled_log (contract splitOrderId orderId provider : list Z) (percent block : Z) (tx : list Z) (index : Z) : Log :=
  mkLog contract [signature_topic OrderSettledEventSignature; orderId; address_topic provider] (splitOrderId ++ word percent)
    block tx index.

Section roundtrips.
Context {O : DecimalOps} {L : DecimalLaws O} {EC : EthCommon} {EL : EthLaws EC} {CS : @ChainServices O}.

Lemma hashes_roundtrip topics : Forall is_word topics -> map HexToHash (map hex_string topics) = topics.
Proof. induction 1 as [|t topics Ht _ IH]; [done|]. simpl. by rewrite hash_text, IH. Qed.

Lemma int_string_parses z : exists b, d_parse (int_string z) = Some b /\ (d_val b == inject_Z z)%Q.
Proof.
  destruct (parse_string (d_int z)) as (b & Hb & Hv). exists b. rewrite (string_integer (d_int z) z) in Hb by apply val_int.
  split; [exact Hb|]. by rewrite Hv, val_int.
Qed.
Lemma int_string_nonempty z : String.eqb (int_string z) "" = false.
Proof.
  unfold int_string. destruct (Z.to_int z) as [u|u]; [|done]. unfold NilZero.string_of_int, NilZero.string_of_uint. by destruct u.
Qed.
Lemma address_hex_nonempty a : is_address a -> String.eqb (address_hex a) "" = false.
Proof. intros Ha. pose proof (address_hex_lower a Ha) as H. by destruct (address_hex a). Qed.

Lemma plain_address_text a : is_address a -> plain_address (address_hex a) = hex_string a.
Proof. intros Ha. unfold plain_address. rewrite address_text by done. by apply address_hex_lower. Qed.

Lemma topic_text a : is_address a -> topic_address (address_topic a) = address_hex a.
Proof.
  intros Ha. unfold topic_address. rewrite address_of_hash by (by apply address_topic_is_word). f_equal.
Qed.

(** The log that a single event is decoded from. *)
Lemma mock_log_of log :
  Forall is_word (lg_topics log) -> mock_log (event_of log) = mkLog [] (lg_topics log) (lg_data log) 0 [] 0.
Proof. intros H. unfold mock_log. simpl. by rewrite hashes_roundtrip. Qed.

Lemma process_one log signature topics :
  signature ∈ [TransferEventSignature; OrderCreatedEventSignature; OrderSettledEventSignature; OrderRefundedEventSignature] ->
  lg_topics log = signature_topic signature :: topics -> Forall is_word topics ->
  ProcessRPCEventsBySignature [event_of log] =
    match decode_as signature (mkLog [] (lg_topics log) (lg_data log) 0 [] 0) with
    | None => Ret [event_of log]
    | Some (Ret decoded) => Ret [set_decoded decoded (event_of log)]
    | Some (Err e) => Err (EWrap "failed to decode event" e)
    | Some Panic => Panic
    end.
Proof.
  intros [Hw Hs]%signature_is_word E Ht. unfold ProcessRPCEventsBySignature, process_events.
  rewrite mock_log_of by (rewrite E; by constructor). cbn [event_of ce_topics]. rewrite E. cbn [map]. rewrite Hs.
  destruct (decode_as signature _) as [[d|e|]|]; done.
Qed.

(** What the parameters of each event are converted to. *)
Lemma transfer_of_params tk e from to value v :
  ce_decoded e = params [("from", JStr from); ("to", JStr to)] [("value", JStr value)] ->
  String.eqb from "" = false -> String.eqb to "" = false -> String.eqb value "" = false ->
  EqualFold (plain_address from) (nw_gateway_contract_address (tk_network tk)) = false -> d_parse value = Some v ->
  String.eqb (ce_transaction_hash e) "" = false ->
  transfer_of tk e = Some (mkTTE (ce_block_number e) (ce_transaction_hash e) (plain_address from) (plain_address to) (from_subunit v tk)).
Proof.
  intros Hd Hf Ht Hv Hg Hp Htx. unfold transfer_of. rewrite Hd. unfold object_param, text_param, params, nonempty. simpl.
  rewrite Hf. simpl. rewrite Ht. simpl. rewrite Hv. simpl. rewrite Hg, Hp. simpl. by rewrite Htx.
Qed.

Lemma created_of_params e sender token amount fee orderId rate hash A F R :
  ce_decoded e = params [("sender", JStr sender); ("token", JStr token); ("amount", JStr amount)]
    [("protocolFee", JStr fee); ("orderId", JStr orderId); ("rate", JStr rate); ("messageHash", JStr hash)] ->
  Forall (fun s => String.eqb s "" = false) [sender; token; amount; fee; orderId; rate; hash; ce_transaction_hash e] ->
  d_parse amount = Some A -> d_parse fee = Some F -> d_parse rate = Some R ->
  created_of e = Some (mkOCE (ce_block_number e) (ce_transaction_hash e) (address_hex (HexToAddress token)) A F orderId
    (d_div R (d_int 100)) hash (address_hex (HexToAddress sender))).
Proof.
  intros Hd Hne HA HF HR. rewrite !Forall_cons in Hne. destruct_and!.
  unfold created_of. rewrite Hd. unfold object_param, dec_param, text_param, params, nonempty. simpl.
  repeat match goal with H : String.eqb _ "" = false |- _ => rewrite H; clear H; simpl end.
  rewrite HA. simpl. rewrite HF. simpl. by rewrite HR.
Qed.

Lemma settled_of_params e orderId provider split percent P :
  ce_decoded e = params [("orderId", JStr orderId); ("liquidityProvider", JStr provider)]
    [("splitOrderId", JStr split); ("settlePercent", JStr percent)] ->
  Forall (fun s => String.eqb s "" = false) [orderId; provider; split; percent; ce_transaction_hash e] ->
  d_parse percent = Some P ->
  settled_of e = Some (mkOSE (ce_block_number e) (ce_transaction_hash e) split orderId (address_hex (HexToAddress provider)) P).
Proof.
  intros Hd Hne HP. rewrite !Forall_cons in Hne. destruct_and!.
  unfold settled_of. rewrite Hd. unfold object_param, dec_param, text_param, params, nonempty. simpl.
  repeat match goal with H : String.eqb _ "" = false |- _ => rewrite H; clear H; simpl end. by rewrite HP.
Qed.

Lemma hex_string_nonempty b : String.eqb (hex_string b) "" = false.
Proof. done. Qed.

Lemma decode_as_transfer log : decode_as TransferEventSignature log = Some (DecodeTransferEvent log).
Proof. done. Qed.
Lemma decode_as_created log : decode_as OrderCreatedEventSignature log = Some (DecodeOrderCreatedEvent log).
Proof. done. Qed.
Lemma decode_as_settled log : decode_as OrderSettledEventSignature log = Some (DecodeOrderSettledEvent log).
Proof. done. Qed.

(** The transfer that a token contract emitted, from the bytes of its log: the same
    addresses in lower case, the same block and transaction, and the value that was
    sent, divided by the unit of the token. *)
Lemma transfer_event_roundtrip tk contract from to value block tx index :
  is_address from -> is_address to -> is_uint value -> is_word tx ->
  EqualFold (hex_string from) (nw_gateway_contract_address (tk_network tk)) = false ->
  exists e v, ProcessRPCEventsBySignature [event_of (transfer_log contract from to value block tx index)] = Ret [e] /\
    (d_val v == inject_Z value)%Q /\
    transfer_of tk e = Some (mkTTE block (hex_string tx) (hex_string from) (hex_string to) (from_subunit v tk)).
Proof.
  intros Hf Ht Hv Htx Hg. destruct (int_string_parses value) as (v & Hp & Hval).
  set (log := transfer_log contract from to value block tx index).
  set (e := set_decoded (params [("from", JStr (address_hex from)); ("to", JStr (address_hex to))]
              [("value", JStr (int_string value))]) (event_of log)).
  exists e, v. split; [|split; [done|]].
  - rewrite (process_one log TransferEventSignature [address_topic from; address_topic to]);
      [|rewrite !elem_of_cons; tauto|done|rewrite !Forall_cons; split_and!; auto using address_topic_is_word].
    rewrite decode_as_transfer. unfold DecodeTransferEvent. cbn [lg_topics lg_data log transfer_log].
    by rewrite !topic_text, word_value.
  - rewrite (transfer_of_params tk e (address_hex from) (address_hex to) (int_string value) v); try done;
      rewrite ?plain_address_text by done; try done; [by apply address_hex_nonempty|by apply address_hex_nonempty|apply int_string_nonempty].
Qed.

(** ** Texts in the data *)

Lemma slice_app {A} (a b c : list A) lo hi :
  lo = Z.of_nat (length a) -> hi = lo + Z.of_nat (length b) -> go_slice (a ++ b ++ c) lo hi = Ret b.
Proof.
  intros -> ->. unfold go_slice. rewrite !length_app.
  replace ((0 <=? _)%Z && _ && _) with true by (symmetry; rewrite !andb_true_iff, !Z.leb_le; lia). f_equal.
  replace (Z.to_nat (Z.of_nat (length a))) with (length a) by lia. rewrite drop_app_length.
  replace (Z.to_nat _) with (length b) by lia. by rewrite take_app_length.
Qed.

Lemma text_bytes_length s : length (text_bytes s) = String.length s.
Proof. unfold text_bytes. rewrite length_map. induction s as [|c s IH]; [done|]. simpl. by rewrite IH. Qed.
Lemma text_bytes_string s : string_of_bytes (text_bytes s) = s.
Proof.
  unfold string_of_bytes, text_bytes. induction s as [|c s IH]; [done|]. simpl. rewrite IH. f_equal.
  rewrite Nat2Z.id. apply Ascii.ascii_nat_embedding.
Qed.
Lemma wrap64_small z : 0 <= z < 2 ^ 63 -> wrap64 z = z.
Proof. intros H. unfold wrap64. rewrite Z.mod_small by lia. lia. Qed.

Lemma word_length z : length (word z) = 32%nat.
Proof. apply be_bytes_length. Qed.

Lemma message_hash_encoded w1 w2 w3 hash :
  length w1 = 32%nat -> length w2 = 32%nat -> length w3 = 32%nat -> Z.of_nat (String.length hash) < 2 ^ 62 ->
  message_hash_of (w1 ++ w2 ++ w3 ++ word 128 ++ word (Z.of_nat (String.length hash)) ++ padded (text_bytes hash)) = Ret hash.
Proof.
  intros H1 H2 H3 Hl. unfold message_hash_of, padded. set (n := Z.of_nat (String.length hash)) in *.
  set (pad := replicate _ 0). assert (Hn : 0 <= n) by lia.
  set (data := w1 ++ w2 ++ w3 ++ word 128 ++ word n ++ text_bytes hash ++ pad).
  assert (Hlen : Z.of_nat (length data) = 160 + n + Z.of_nat (length pad)).
  { unfold data. rewrite !length_app, !word_length, H1, H2, H3, text_bytes_length. lia. }
  assert (Hdrop : drop 96 data = word 128 ++ word n ++ text_bytes hash ++ pad).
  { unfold data. rewrite (assoc_L (++) w2), (assoc_L (++) w1). apply drop_app_length'. rewrite !length_app, H1, H2, H3. done. }
  rewrite Hdrop. replace (length _ <? 32)%nat with false by (rewrite length_app, word_length; symmetry; apply Nat.ltb_ge; lia).
  rewrite (take_app_length' (word 128)) by (by rewrite word_length). rewrite (word_value 128) by (split; done).
  rewrite (wrap64_small 128), (wrap64_small (128 + 32)) by (split; done).
  replace (128 + 32 <=? Z.of_nat (length data))%Z with true by (symmetry; apply Z.leb_le; lia).
  assert (S1 : go_slice data 128 (128 + 32) = Ret (word n)).
  { unfold data. rewrite (assoc_L (++) w3), (assoc_L (++) w2), (assoc_L (++) w1).
    apply slice_app; rewrite ?length_app, ?word_length, ?H1, ?H2, ?H3; done. }
  rewrite S1. cbn [and_then]. rewrite (word_value n) by (unfold is_uint; split; [done|]; eapply Z.lt_trans; [exact Hl|done]).
  rewrite (wrap64_small n) by lia. rewrite (wrap64_small (128 + 32 + n)) by lia.
  replace (128 + 32 + n <=? Z.of_nat (length data))%Z with true by (symmetry; apply Z.leb_le; lia).
  assert (S2 : go_slice data (128 + 32) (128 + 32 + n) = Ret (text_bytes hash)).
  { unfold data. rewrite (assoc_L (++) (word 128)), (assoc_L (++) w3), (assoc_L (++) w2), (assoc_L (++) w1).
    apply slice_app; rewrite ?length_app, ?word_length, ?H1, ?H2, ?H3, ?text_bytes_length; done. }
  rewrite S2. cbn [and_then]. by rewrite text_bytes_string.
Qed.

(** C35: the order that the gateway created, from the bytes of its log: every number, the
    order id and the message hash are what the contract encoded, and the rate is in
    hundredths. *)
Theorem created_event_roundtrip contract sender token amount fee orderId rate hash block tx index :
  is_address sender -> is_address token -> is_uint amount -> is_uint fee -> is_word orderId -> is_uint rate -> is_word tx ->
  hash <> "" -> Z.of_nat (String.length hash) < 2 ^ 62 ->
  exists e a f r,
    ProcessRPCEventsBySignature [event_of (created_log contract sender token amount fee orderId rate hash block tx index)] = Ret [e] /\
    (d_val a == inject_Z amount)%Q /\ (d_val f == inject_Z fee)%Q /\ (d_val r == inject_Z rate)%Q /\
    with_signature OrderCreatedEventSignature created_of e =
      Some (mkOCE block (hex_string tx) (address_hex token) a f (hex_string orderId) (d_div r (d_int 100)) hash (address_hex sender)).
Proof.
  intros Hs Ht Ha Hf Ho Hr Htx Hne Hlen.
  destruct (int_string_parses amount) as (a & Pa & Va), (int_string_parses fee) as (f & Pf & Vf), (int_string_parses rate) as (r & Pr & Vr).
  set (log := created_log contract sender token amount fee orderId rate hash block tx index).
  set (e := set_decoded (params
    [("sender", JStr (address_hex sender)); ("token", JStr (address_hex token)); ("amount", JStr (int_string amount))]
    [("protocolFee", JStr (int_string fee)); ("orderId", JStr (hex_string orderId)); ("rate", JStr (int_string rate));
     ("messageHash", JStr hash)]) (event_of log)).
  exists e, a, f, r. split_and!; try done.
  - rewrite (process_one log OrderCreatedEventSignature [address_topic sender; address_topic token; word amount]);
      [|rewrite !elem_of_cons; tauto|done|rewrite !Forall_cons; split_and!; auto using address_topic_is_word, word_is_word].
    rewrite decode_as_created. unfold DecodeOrderCreatedEvent. cbn [lg_topics lg_data log created_log].
    destruct Ho as [Hob Hol].
    rewrite message_hash_encoded by (rewrite ?word_length; done). cbn [and_then].
    set (rest := word 128 ++ _). replace (length _ <? 96)%nat with false
      by (rewrite !length_app, !word_length, Hol; symmetry; apply Nat.ltb_ge; lia).
    rewrite (take_app_length' (word fee)) by (by rewrite word_length).
    rewrite (drop_app_length' (word fee)) by (by rewrite word_length). rewrite (take_app_length' orderId) by done.
    rewrite (assoc_L (++) (word fee)), (drop_app_length' (word fee ++ orderId)) by (by rewrite length_app, word_length, Hol).
    rewrite (take_app_length' (word rate)) by (by rewrite word_length).
    by rewrite !topic_text, !word_value.
  - unfold with_signature. change (ce_topics e) with (hex_string (signature_topic OrderCreatedEventSignature) ::
      [hex_string (address_topic sender); hex_string (address_topic token); hex_string (word amount)]).
    destruct (signature_is_word OrderCreatedEventSignature) as [_ ->]; [rewrite !elem_of_cons; tauto|]. rewrite String.eqb_refl.
    rewrite (created_of_params e (address_hex sender) (address_hex token) (int_string amount) (int_string fee) (hex_string orderId)
      (int_string rate) hash a f r); try done.
    + by rewrite !address_text.
    + rewrite !Forall_cons. split_and!; auto using address_hex_nonempty, int_string_nonempty, hex_string_nonempty.
      by apply String.eqb_neq.
Qed.

(** The settlement that the gateway emitted, from the bytes of its log. *)
Theorem settled_event_roundtrip contract split orderId provider percent block tx index :
  is_word split -> is_word orderId -> is_address provider -> is_uint percent -> is_word tx ->
  exists e p, ProcessRPCEventsBySignature [event_of (settled_log contract split orderId provider percent block tx index)] = Ret [e] /\
    (d_val p == inject_Z percent)%Q /\
    with_signature OrderSettledEventSignature settled_of e =
      Some (mkOSE block (hex_string tx) (hex_string split) (hex_string orderId) (address_hex provider) p).
Proof.
  intros Hsp Ho Hpr Hp Htx. destruct (int_string_parses percent) as (p & Pp & Vp).
  set (log := settled_log contract split orderId provider percent block tx index).
  set (e := set_decoded (params [("orderId", JStr (hex_string orderId)); ("liquidityProvider", JStr (address_hex provider))]
    [("splitOrderId", JStr (hex_string split)); ("settlePercent", JStr (int_string percent))]) (event_of log)).
  exists e, p. split_and!; try done.
  - rewrite (process_one log OrderSettledEventSignature [orderId; address_topic provider]);
      [|rewrite !elem_of_cons; tauto|done|rewrite !Forall_cons; split_and!; auto using address_topic_is_word].
    rewrite decode_as_settled. unfold DecodeOrderSettledEvent. cbn [lg_topics lg_data log settled_log].
    destruct Hsp as [Hsb Hsl]. replace (length _ <? 44)%nat with false
      by (rewrite length_app, word_length, Hsl; symmetry; apply Nat.ltb_ge; lia).
    assert (S : go_slice (split ++ word percent) 32 64 = Ret (word percent)).
    { rewrite <- (app_nil_r (word percent)) at 1. apply slice_app; rewrite ?Hsl, ?word_length; done. }
    rewrite S. cbn [and_then]. rewrite (take_app_length' split) by done. destruct Ho as [_ Hol].
    by rewrite topic_text, word_value.
  - unfold with_signature. change (ce_topics e) with (hex_string (signature_topic OrderSettledEventSignature) ::
      [hex_string orderId; hex_string (address_topic provider)]).
    destruct (signature_is_word OrderSettledEventSignature) as [_ ->]; [rewrite !elem_of_cons; tauto|]. rewrite String.eqb_refl.
    rewrite (settled_of_params e (hex_string orderId) (address_hex provider) (hex_string split) (int_string percent) p); try done.
    + by rewrite address_text.
    + rewrite !Forall_cons. split_and!; auto using address_hex_nonempty, int_string_nonempty, hex_string_nonempty.
Qed.

(** A settlement whose data passes the length check and is shorter than two words
    makes the decoder panic, and the indexing with it. *)
Theorem settled_short_data_panics contract orderId provider data block tx index rest :
  is_word orderId -> is_word provider -> (44 <= length data < 64)%nat ->
  ProcessRPCEventsBySignature (event_of (mkLog contract
    [signature_topic OrderSettledEventSignature; orderId; provider] data block tx index) :: rest) = Panic.
Proof.
  intros Ho Hp Hl. destruct (signature_is_word OrderSettledEventSignature) as [Hw Hs]; [rewrite !elem_of_cons; tauto|].
  unfold ProcessRPCEventsBySignature. cbn [process_events].
  rewrite mock_log_of by (cbn [lg_topics]; rewrite !Forall_cons; split_and!; auto).
  cbn [event_of ce_topics map lg_topics]. rewrite Hs, decode_as_settled. unfold DecodeOrderSettledEvent. cbn [lg_topics lg_data].
  replace (length data <? 44)%nat with false by (symmetry; apply Nat.ltb_ge; lia).
  assert (S : go_slice data 32 64 = Panic).
  { unfold go_slice. replace (64 <=? Z.of_nat (length data))%Z with false by (symmetry; apply Z.leb_gt; lia). by rewrite andb_false_r. }
  by rewrite S.
Qed.

End roundtrips.

(** ** From the receipt to the order *)

Section indexing.
Context {O : DecimalOps} {L : DecimalLaws O} {OS : @OrderServices O} {SV : @Services O} {EC : EthCommon} {EL : EthLaws EC} {CS : @ChainServices O}.
Variable conf : Config.
Variable service : OrderService.
Variables qfuel depth : nat.

(** The logs of a contract with a kind of signature. *)
Definition logs_of (contract : string) (topics : list string) (logs : list Log) : list Log :=
  List.filter (fun l => bool_decide (lg_address l = HexToAddress contract) && has_signature (event_signatures topics) l) logs.

Lemma contract_events_ok network contract topics txHash logs events w :
  w_faults w = [] -> txHash <> "" ->
  receipt_logs w (build_rpc_url (nw_rpc_endpoint network)) (hex_string (HexToHash txHash)) = Some logs ->
  ProcessRPCEventsBySignature (map event_of (logs_of contract topics logs)) = Ret events ->
  GetContractEventsWithFallback network contract 0 0 topics txHash w = (Ret events, w).
Proof.
  intros Hf Ht Hl He. unfold GetContractEventsWithFallback, GetContractEventsRPC, wrapM, tryM, bindM, ext. rewrite Hf. cbn [retM].
  apply String.eqb_neq in Ht. rewrite Ht. cbn [negb retM getM]. rewrite Hf. cbn [retM]. rewrite Hl. cbn [retM returns].
  unfold logs_of in He. by rewrite He.
Qed.

Lemma index_transfer_run tk txHash logs from to value block tx index w :
  w_faults w = [] -> txHash <> "" -> is_address from -> is_address to -> is_uint value -> is_word tx ->
  EqualFold (hex_string from) (nw_gateway_contract_address (tk_network tk)) = false ->
  receipt_logs w (build_rpc_url (nw_rpc_endpoint (tk_network tk))) (hex_string (HexToHash txHash)) = Some logs ->
  logs_of (tk_contract_address tk) [TransferEventSignature] logs =
    [transfer_log (HexToAddress (tk_contract_address tk)) from to value block tx index] ->
  logs_of (nw_gateway_contract_address (tk_network tk)) [OrderCreatedEventSignature] logs = [] ->
  exists v, (d_val v == inject_Z value)%Q /\
    let event := mkTTE block (hex_string tx) (hex_string from) (hex_string to) (from_subunit v tk) in
    indexReceiveAddressByTransaction conf service qfuel depth tk txHash w =
      match ProcessTransfers conf service qfuel [hex_string to] [(hex_string to, event)] tk w with
      | (Ret _, w') => (Ret (mkCounts 1 0 0 0), w')
      | (Err _, w') => (Ret no_counts, w')
      | (Panic, w') => (Panic, w')
      end.
Proof.
  intros Hf Ht Hfrom Hto Hv Htx Hg Hr Hl1 Hl2.
  destruct (transfer_event_roundtrip tk (HexToAddress (tk_contract_address tk)) from to value block tx index) as (e & v & He & Hval & Ho); try done.
  exists v. split; [done|]. cbn zeta. unfold indexReceiveAddressByTransaction, fetch_events, bindM, tryM.
  rewrite (contract_events_ok _ _ _ _ logs [e] w); [|done|done|done|by rewrite Hl1]. cbn [retM].
  rewrite (contract_events_ok _ _ _ _ logs [] w); [|done|done|done|by rewrite Hl2]. cbn [retM].
  cbn [process_transfers]. rewrite Ho. cbn [tt_to]. unfold tryM.
  destruct (ProcessTransfers _ _ _ _ _ _ w) as [[[]|err|] w']; reflexivity.
Qed.

(** C34: a transaction in which the token contract emitted one transfer and the gateway
    nothing, read without failures: indexing it is processing exactly that
    transfer, with the addresses, value, block and hash of the log; it is counted
    when it was processed without error. *)
Theorem transfer_indexed tk txHash logs from to value block tx index w :
  w_faults w = [] -> txHash <> "" -> is_address from -> is_address to -> is_uint value -> is_word tx ->
  EqualFold (hex_string from) (nw_gateway_contract_address (tk_network tk)) = false ->
  receipt_logs w (build_rpc_url (nw_rpc_endpoint (tk_network tk))) (hex_string (HexToHash txHash)) = Some logs ->
  logs_of (tk_contract_address tk) [TransferEventSignature] logs =
    [transfer_log (HexToAddress (tk_contract_address tk)) from to value block tx index] ->
  logs_of (nw_gateway_contract_address (tk_network tk)) [OrderCreatedEventSignature] logs = [] ->
  exists v, (d_val v == inject_Z value)%Q /\
    let event := mkTTE block (hex_string tx) (hex_string from) (hex_string to) (from_subunit v tk) in
    indexReceiveAddressByTransaction conf service qfuel depth tk txHash w =
      match ProcessTransfers conf service qfuel [hex_string to] [(hex_string to, event)] tk w with
      | (Ret _, w') => (Ret (mkCounts 1 0 0 0), w')
      | (Err _, w') => (Ret no_counts, w')
      | (Panic, w') => (Panic, w')
      end.
Proof. apply index_transfer_run. Qed.

End indexing.

(** ** Witnesses on the seeded database *)

Definition s_payer : list Z := replicate 20 17.
Definition s_pool_bytes : list Z := replicate 20 171.
Definition s_hash : list Z := replicate 32 5.
Definition s_contract : list Z := replicate 20 212.
(** A transfer of half a per cent less than the order: what the trigger lets pass. *)
Definition s_log : Log := transfer_log s_contract s_payer s_pool_bytes 1990000 9 s_hash 0.

(** A node whose receipts hold that one transfer. *)
#[local] Instance sample_chain : ChainServices := {|
  receipt_logs _ _ _ := Some [s_log];
  filter_logs _ _ _ _ _ _ := []
|}.

Lemma replicate_address x : 0 <= x < 256 -> is_address (replicate 20 x).
Proof. intros H. split; [by apply Forall_replicate|done]. Qed.
Lemma replicate_word x : 0 <= x < 256 -> is_word (replicate 32 x).
Proof. intros H. split; [by apply Forall_replicate|done]. Qed.

Definition s_chain_token : Token := mkTok 1 "USDT" (hex_string s_contract) 6 true "USD" s_network.

Lemma transfer_indexed_witness :
  exists v, (d_val v == inject_Z 1990000)%Q /\
    (indexReceiveAddressByTransaction s_order_conf (evm_service 9) 9 9 s_chain_token "0xhash" s_index_world).2 =
    (ProcessTransfers s_order_conf (evm_service 9) 9 [hex_string s_pool_bytes] [(hex_string s_pool_bytes,
      mkTTE 9 (hex_string s_hash) (hex_string s_payer) (hex_string s_pool_bytes) (from_subunit v s_chain_token))] s_chain_token
      s_index_world).2.
Proof.
  destruct (transfer_indexed s_order_conf (evm_service 9) 9 9 s_chain_token "0xhash" [s_log] s_payer s_pool_bytes 1990000 9 s_hash 0
    s_index_world) as (v & Hv & H); [done|done|by apply replicate_address|by apply replicate_address|done|by apply replicate_word|
    vm_refl|done|vm_refl|vm_refl|].
  exists v. split; [exact Hv|]. cbn zeta in H. rewrite H. destruct (ProcessTransfers _ _ _ _ _ _ _) as [[[]|e|] w']; reflexivity.
Defined.

Lemma created_event_roundtrip_witness :
  exists e a, ProcessRPCEventsBySignature [event_of (created_log s_contract s_payer s_contract 5 1 s_hash 95000 "sealed" 9 s_hash 0)] =
    Ret [e] /\ (d_val a == inject_Z 5)%Q /\ oc_amount <$> with_signature OrderCreatedEventSignature created_of e = Some a.
Proof.
  destruct (created_event_roundtrip s_contract s_payer s_contract 5 1 s_hash 95000 "sealed" 9 s_hash 0)
    as (e & a & f & r & H1 & H2 & _ & _ & H3);
    [by apply replicate_address|by apply replicate_address|done|done|by apply replicate_word|done|by apply replicate_word|done|done|].
  exists e, a. split; [exact H1|]. split; [exact H2|]. by rewrite H3.
Defined.

Lemma settled_event_roundtrip_witness :
  exists e p, ProcessRPCEventsBySignature [event_of (settled_log s_contract s_hash s_hash s_payer 100000 9 s_hash 0)] = Ret [e] /\
    os_settle_percent <$> with_signature OrderSettledEventSignature settled_of e = Some p.
Proof.
  destruct (settled_event_roundtrip s_contract s_hash s_hash s_payer 100000 9 s_hash 0) as (e & p & H1 & _ & H2);
    [by apply replicate_word|by apply replicate_word|by apply replicate_address|done|by apply replicate_word|].
  exists e, p. split; [exact H1|]. by rewrite H2.
Defined.

Lemma settled_short_data_panics_witness :
  ProcessRPCEventsBySignature [event_of (mkLog s_contract [signature_topic OrderSettledEventSignature; s_hash; s_hash]
    (replicate 50 0) 9 s_hash 0)] = Panic.
Proof. apply settled_short_data_panics; [by apply replicate_word|by apply replicate_word|vm_compute; lia]. Defined.

(** An offset beyond [2^63] is read as a negative one and makes the decoder panic. *)
Example created_offset_panics :
  DecodeOrderCreatedEvent (mkLog [] [s_hash; s_hash; s_hash; s_hash]
    (replicate 96 0 ++ replicate 32 255) 9 s_hash 0) = Panic.
Proof. vm_compute. reflexivity. Qed.

(** From the bytes of a receipt to a paid order that is handed to the chain. *)
Definition s_chain_world : World :=
  set_db (set_receive_addresses {[ 1 := mkRA 1 (hex_string s_pool_bytes) APoolAssigned true "base" 8453 0 0 1 0 0 "" 0 "" ]}
    (w_db s_index_world)) s_index_world.
Example receipt_pays_order :
  let res := indexReceiveAddressByTransaction s_order_conf (evm_service 9) 9 9 s_chain_token "0xhash" s_chain_world in
  (match res.1 with Ret c => ec_transfer c | _ => 0 end, length (w_events res.2),
   (fun o => (po_status o, po_tx_hash o)) <$> db_payment_orders (w_db res.2) !! "p1") =
  (1, 1%nat, Some (PInitiated, hex_string s_hash)).
Proof. cbv zeta. vm_refl. Qed.
