(* ===== verification/IndexTasks.v ===== *)
(** * Scheduled indexing (tasks/tasks.go)

    The tasks that look for events nobody reported: gateway events of every
    network, transfers to the addresses of unpaid orders, settlements of validated
    orders.  They work on any indexer ([Indexer], the interface of types/types.go);
    [evm_indexer] is the one of [EvmIndexer], the Tron indexer is an argument.  The
    goroutines of the networks and of the orders run in the order in which they are
    started. *)

From S2P Require Import Prelude Decimal Schema Store Samples Transactions Balance Utils Ethereum Services Queue Orders Rows Payments Http Tasks Indexer Gateway ChainEvents EvmIndexer.
Local Open Scope go_scope.
Local Open Scope string_scope.
Local Open Scope list_scope.

(** types.Indexer: network or token, address, range of blocks and transaction. *)
Record Indexer `{O : DecimalOps} := mkIndexer {
  ix_gateway : Network -> string -> Z -> Z -> string -> M EventCounts;
  ix_receive : Token -> string -> Z -> Z -> string -> M EventCounts;
  ix_provider : Network -> string -> Z -> Z -> string -> M EventCounts
}.
Arguments mkIndexer {O}.

Section index_tasks.
Context {O : DecimalOps} {OS : @OrderServices O} {SV : @Services O}.
Variable conf : Config.
(** [NewIndexerTron], which cannot fail, and [NewIndexerEVM], which can *)
Variable tron : Indexer.
Variable new_evm : M Indexer.

(** [_, _ = m] *)
Definition ignored {A} (m : M A) : M unit := do? m orelse _e => (retM tt) in retM tt.

(** *** Networks *)

Definition isTestnet : bool :=
  negb (String.eqb (cf_environment conf) "production") && negb (String.eqb (cf_environment conf) "staging").
Definition is_tron (network : Network) : bool := HasPrefix (nw_identifier network) "tron".
Definition same_stage (network : Network) : bool := bool_decide (nw_is_testnet network = isTestnet).

(** The EVM networks of the stage, which the tasks go through. *)
Definition evm_networks (d : DB) : list Network :=
  List.filter (fun n => negb (is_tron n)) (List.filter same_stage (db_networks d)).

(** *** Orders that may have been paid *)

Definition on_network (network : Network) (po : PaymentOrder) : bool :=
  (nw_id (tk_network (po_token po)) =? nw_id network)%Z.
Definition address_of (d : DB) (po : PaymentOrder) : option ReceiveAddress :=
  i ← po_receive_address po; db_receive_addresses d !! i.
Definition has_address (d : DB) (p : ReceiveAddress -> bool) (po : PaymentOrder) : bool :=
  match address_of d po with Some a => p a | None => false end.

(** The orders that [TaskIndexBlockchainEvents] looks at. *)
Definition untouched (d : DB) (network : Network) (po : PaymentOrder) : bool :=
  bool_decide (po_status po = PInitiated) && String.eqb (po_tx_hash po) "" && (po_block_number po =? 0)%Z &&
  d_eqb (po_amount_paid po) d_zero && String.eqb (po_from_address po) "" &&
  has_address d (fun a => bool_decide (ra_status a = AUnused)) po && on_network network po.

(** The orders that [resolveMissedEvents] looks at. *)
Definition missed (d : DB) (now : Z) (network : Network) (po : PaymentOrder) : bool :=
  bool_decide (po_status po = PInitiated) && (po_created_at po <=? now - thirty_seconds)%Z &&
  String.eqb (po_tx_hash po) "" && has_address d (fun a => negb (bool_decide (ra_status a = AExpired))) po &&
  on_network network po.

(** ** TaskIndexBlockchainEvents *)

Definition index_order (ix : Indexer) (d : DB) (po : PaymentOrder) : M unit :=
  let! a := deref (address_of d po) in
  ignored (ix_receive ix (po_token po) (ra_address a) 0 0 "").

Definition index_network (network : Network) : M unit :=
  if is_tron network then ignored (ix_gateway tron network (nw_gateway_contract_address network) 0 0 "")
  else
    let? ix := new_evm orelse _e => (retM tt) in
    do! ignored (ix_gateway ix network (nw_gateway_contract_address network) 0 0 "") in
    let? d := read_db None orelse _e => (retM tt) in
    for_each (index_order ix d) (ordered po_created_at false (List.filter (untouched d network) (payment_rows d))).

Definition TaskIndexBlockchainEvents : M unit :=
  let! d := wrapM "TaskIndexBlockchainEvents.fetchNetworks" (read_db None) in
  for_each index_network (evm_networks d).

(** ** IndexGatewayEvents *)

Definition index_gateway (network : Network) : M unit :=
  if is_tron network then retM tt
  else
    let? ix := new_evm orelse _e => (retM tt) in
    ignored (ix_gateway ix network (nw_gateway_contract_address network) 0 0 "").

Definition IndexGatewayEvents : M unit :=
  let! d := wrapM "IndexGatewayEvents.fetchNetworks" (read_db None) in
  for_each index_gateway (List.filter same_stage (db_networks d)).

(** ** ResolvePaymentOrderMishaps *)

(** One order of the loop; the next follows whatever happened. *)
Definition resolve_order (ix : Indexer) (d : DB) (po : PaymentOrder) : M unit :=
  match address_of d po with
  | Some a => ignored (ix_receive ix (po_token po) (ra_address a) 0 0 "")
  | None => retM tt
  end.

Definition resolveMissedEvents (network : Network) : M unit :=
  let! w := getM in
  let? d := read_db None orelse _e => (retM tt) in
  let? ix := new_evm orelse _e => (retM tt) in
  for_each (resolve_order ix d) (List.filter (missed d (w_now w) network) (payment_rows d)).

Definition ResolvePaymentOrderMishaps : M unit :=
  let! d := wrapM "ResolvePaymentOrderMishaps.fetchNetworks" (read_db None) in
  for_each (fun network => if is_tron network then retM tt else resolveMissedEvents network)
    (List.filter same_stage (db_networks d)).

(** ** ProcessStuckValidatedOrders *)

Definition stuck_validated (network : Network) (o : LockPaymentOrder) : bool :=
  bool_decide (lo_status o = LValidated) && (nw_id (tk_network (lo_token o)) =? nw_id network)%Z &&
  negb (missing (lo_provider o)) && negb (missing (lo_provision_bucket o)).

Definition process_stuck (ix : Indexer) (d : DB) (network : Network) (o : LockPaymentOrder) : M unit :=
  let bucket := (fun b => db_currencies d !! pb_currency b) <$> lo_provision_bucket o in
  let? providerAddress := GetProviderAddressFromLockOrder (lo_provider o) bucket (lo_token o) orelse _e => (retM tt) in
  ignored (ix_provider ix network providerAddress 0 0 "").

Definition process_stuck_orders (network : Network) : M unit :=
  let? d := read_db None orelse _e => (retM tt) in
  match List.filter (stuck_validated network) (lock_rows d) with
  | [] => retM tt
  | lockOrders =>
      let? ix := (if is_tron network then retM tron else new_evm) orelse _e => (retM tt) in
      for_each (process_stuck ix d network) lockOrders
  end.

(** All networks, of whatever stage. *)
Definition ProcessStuckValidatedOrders : M unit :=
  let! d := wrapM "ProcessStuckValidatedOrders.getNetworks" (read_db None) in
  for_each process_stuck_orders (db_networks d).

End index_tasks.

(** ** The EVM indexer *)

Section evm.
Context {O : DecimalOps} {OS : @OrderServices O} {SV : @Services O} {EC : EthCommon} {CS : @ChainServices O} {HI : @HistoryServices O}.
Variable conf : Config.
Variable service : OrderService.
Variables qfuel depth : nat.

Definition evm_indexer : Indexer :=
  mkIndexer (IndexGateway conf service qfuel depth) (IndexReceiveAddress conf service qfuel depth)
    IndexProviderAddress.

(** The Etherscan client needs its key; the indexer is created with the EVM order
    service. *)
Definition NewIndexerEVM (etherscanKey : string) : M Indexer :=
  if String.eqb etherscanKey ""
  then errM (EWrap "failed to create EtherscanService" (EMsg "ETHERSCAN_API_KEY environment variable is required"))
  else retM evm_indexer.

End evm.
