(* ===== verification/IndexTaskClaims.v ===== *)
(** * Theorems about scheduled indexing

    What the tasks find: a transfer nobody reported pays its order; which orders the
    tasks look at; with their witnesses. *)

From S2P Require Import Prelude Decimal Schema Store Samples Transactions Balance Utils Ethereum Services Queue Calm.
From S2P Require Import Orders OrderClaims Rows Payments Http Tasks Indexer IndexerClaims Gateway GatewayClaims ChainEvents EvmIndexer.
From S2P Require Import ChainEventClaims IndexTasks.
Local Open Scope go_scope.
Local Open Scope string_scope.
Local Open Scope list_scope.

(** ** Equal amounts are treated alike *)

Section amounts.
Context {O : DecimalOps} {L : DecimalLaws O}.

Lemma from_subunit_ext v v' tk : (d_val v == d_val v')%Q -> (d_val (from_subunit v tk) == d_val (from_subunit v' tk))%Q.
Proof. intros H. by apply val_div_ext. Qed.

Lemma bool_iff (a b : bool) : (a = true <-> b = true) -> a = b.
Proof. destruct a, b; intros [H1 H2]; try done; [by symmetry; apply H1|by apply H2]. Qed.

Lemma transfer_matches_ext po e e' :
  (d_val (tt_value e) == d_val (tt_value e'))%Q -> transfer_matches po e = transfer_matches po e'.
Proof.
  intros H. unfold transfer_matches. apply bool_iff.
  by rewrite !orb_true_iff, !andb_true_iff, !d_eqb_spec, !d_ge_spec, !d_le_spec, H.
Qed.

End amounts.

Section recovery.
Context {O : DecimalOps} {L : DecimalLaws O} {OS : @OrderServices O} {SV : @Services O} {SL : ServicesLaws SV}.
Context {EC : EthCommon} {EL : EthLaws EC} {CS : @ChainServices O} {HI : @HistoryServices O}.
Variable conf : Config.
Variable service : OrderService.
Variables qfuel depth : nat.

(** ** One transfer for one waiting order *)

(** The transfer of [value] units as the indexer hands it on. *)
Definition found_transfer (tk : Token) (from to : list Z) (value block : Z) (tx : list Z) (v : dec) : TokenTransferEvent :=
  mkTTE block (hex_string tx) (hex_string from) (hex_string to) (from_subunit v tk).

Lemma pay_order_run event w po a :
  frames service -> w_faults w = [] -> (0 < d_val (tt_value event))%Q -> fresh_transfer event (w_db w) ->
  payable event w (po, a) ->
  wp (pay_order conf service [(tt_to event, event)] (po, a))
    (fun out w' => out = Ret tt /\ w_faults w' = [] /\ paid_by event w' (po, a)) w.
Proof.
  intros Hfr Hf Hv Hfresh Hp. pose proof (pa_to _ _ _ Hp) as Hto. cbn [snd] in Hto.
  unfold pay_order, event_for, UpdateReceiveAddressStatus. cbn [fst snd List.find]. rewrite Hto. cbn [fmap option_fmap option_map snd].
  rewrite Hto. cbn [negb].
  pose proof (deposit_seen_fresh event w (po, a) Hf Hp Hfresh) as Hs. cbn [fst snd] in Hs.
  destruct (deposit_apply_frame conf service event w (po, a) Hfr Hf Hv Hp) as (N & F & P & _). cbn [fst snd] in *.
  unfold wp, tryM, bindM, msgM, tryM. rewrite Hs. cbn [retM].
  destruct (deposit_apply conf service a po event w) as [[b|e|] w1]; cbn [fst snd retM] in *; [done|done|congruence].
Qed.

Lemma process_transfers_run tk event w po a :
  frames service -> w_faults w = [] -> (0 < d_val (tt_value event))%Q -> fresh_transfer event (w_db w) ->
  payable event w (po, a) -> awaiting_orders (w_db w) (w_now w) [tt_to event] = [(po, a)] ->
  wp (ProcessTransfers conf service qfuel [tt_to event] [(tt_to event, event)] tk)
    (fun out w' => paid_by event w' (po, a)) w.
Proof.
  intros Hfr Hf Hv Hfresh Hp Hw. unfold ProcessTransfers, ProcessReceiveAddresses. do 3 wp_step.
  apply (wp_read_db_ok _ (w_db w)); [done|done|]. cbn beta iota. do 2 wp_step. rewrite Hw. cbn [for_each]. wp_step.
  eapply wp_mono; [by apply pay_order_run|]. cbn beta. intros out w1 (-> & Hf1 & P1). wp_step.
  eapply wp_mono; [apply process_linked_unrecorded|]. intros out w2 (Hd & _). unfold paid_by. by rewrite Hd.
Qed.

(** ** A transfer nobody reported *)

(** An order that waits for a payment, whose address has one transaction, in which
    the token contract emitted one transfer of [value] units to that address. *)
Record missed_deposit (network : Network) (po : PaymentOrder) (a : ReceiveAddress) (txHash : string) (from to : list Z)
    (value block : Z) (tx : list Z) (index : Z) (w : World) : Prop := {
  (** the network is the one of the stage, and the order the one to resolve *)
  md_networks : List.filter (same_stage conf) (db_networks (w_db w)) = [network];
  md_evm : is_tron network = false;
  md_missed : List.filter (missed (w_db w) (w_now w) network) (payment_rows (w_db w)) = [po];
  md_address : address_of (w_db w) po = Some a;
  (** the history of the address and the receipt *)
  md_history : exists t, getAddressTransactionHistoryWithFallbackAndBypass (nw_chain_id (tk_network (po_token po))) (ra_address a)
                 5 0 0 false w = (Ret [t], w) /\ text_param "hash" t = Some txHash;
  md_hash : (10 <= String.length txHash)%nat;
  md_receipt : exists logs,
    receipt_logs w (build_rpc_url (nw_rpc_endpoint (tk_network (po_token po)))) (hex_string (HexToHash txHash)) = Some logs /\
    logs_of (tk_contract_address (po_token po)) [TransferEventSignature] logs =
      [transfer_log (HexToAddress (tk_contract_address (po_token po))) from to value block tx index] /\
    logs_of (nw_gateway_contract_address (tk_network (po_token po))) [OrderCreatedEventSignature] logs = [];
  md_bytes : is_address from /\ is_address to /\ is_uint value /\ is_word tx;
  md_sender : EqualFold (hex_string from) (nw_gateway_contract_address (tk_network (po_token po))) = false;
  (** the transfer is new, pays the order, and no other order waits at the address *)
  md_positive : (0 < d_val (from_subunit (d_int value) (po_token po)))%Q;
  md_fresh : fresh_transfer (found_transfer (po_token po) from to value block tx (d_int value)) (w_db w);
  md_payable : payable (found_transfer (po_token po) from to value block tx (d_int value)) w (po, a);
  md_waiting : awaiting_orders (w_db w) (w_now w) [hex_string to] = [(po, a)]
}.

Lemma index_address_run network po a txHash from to value block tx index w :
  frames service -> w_faults w = [] -> missed_deposit network po a txHash from to value block tx index w ->
  wp (IndexReceiveAddress conf service qfuel depth (po_token po) (ra_address a) 0 0 "")
    (fun out w' => exists v, (d_val v == inject_Z value)%Q /\
       paid_by (found_transfer (po_token po) from to value block tx v) w' (po, a)) w.
Proof.
  intros Hfr Hf [_ _ _ _ (t & Hh & Ht) Hlen (logs & Hr & Hl1 & Hl2) (B1 & B2 & B3 & B4) Hs Hpos Hfresh Hp Hw].
  assert (Hne : txHash <> "") by (intros ->; simpl in Hlen; lia).
  destruct (index_transfer_run conf service qfuel depth (po_token po) txHash logs from to value block tx index w)
    as (v & Hv & Hrun); [done..|]. cbn zeta in Hrun.
  assert (Hq : (d_val (from_subunit v (po_token po)) == d_val (from_subunit (d_int value) (po_token po)))%Q)
    by (apply from_subunit_ext; by rewrite val_int).
  pose proof (process_transfers_run (po_token po) (found_transfer (po_token po) from to value block tx v) w po a Hfr Hf) as Hpt.
  assert (P : wp (ProcessTransfers conf service qfuel [hex_string to]
    [(hex_string to, found_transfer (po_token po) from to value block tx v)] (po_token po))
    (fun out w' => paid_by (found_transfer (po_token po) from to value block tx v) w' (po, a)) w).
  { apply Hpt; [cbn [tt_value found_transfer]; by rewrite Hq|by destruct Hfresh; split| |done].
    destruct Hp as [? ? ? ? ? ? Hm]. split; try done. rewrite <- Hm. by apply transfer_matches_ext. }
  unfold wp in P |- *. unfold IndexReceiveAddress, IndexReceiveAddressWithBypass, indexReceiveAddressByUserAddressWithBypass.
  cbn [String.eqb negb history_limit]. unfold wrapM, tryM, bindM. change (history_limit 5 0 0) with 5. rewrite Hh. cbn [retM].
  cbn [index_history]. rewrite Ht.
  assert (Hquote : ifM (negb (quiet_chain (nw_chain_id (tk_network (po_token po))))) (quoted_hash txHash) w = (Ret tt, w)).
  { unfold ifM, quoted_hash. replace (String.length txHash <? 10)%nat with false by (symmetry; by apply Nat.ltb_ge). by destruct (negb _). }
  unfold bindM. rewrite Hquote. unfold tryM. unfold found_transfer in *. rewrite Hrun. cbn [retM].
  destruct (ProcessTransfers _ _ _ _ _ _ w) as [[[]|e|] w']; exists v; by split.
Qed.

(** C38: a transfer that nobody reported is found by ResolvePaymentOrderMishaps: when the
    history of the order's address lists a transaction with one transfer of a
    matching amount to it, and nothing fails, the run of the task records the
    transfer as the payment of the order, with the value and the hash from the
    bytes of the receipt, for every order service that keeps its contract. *)
Theorem missed_transfer_recovered key network po a txHash from to value block tx index w :
  frames service -> key <> "" -> w_faults w = [] ->
  missed_deposit network po a txHash from to value block tx index w ->
  wp (ResolvePaymentOrderMishaps conf (NewIndexerEVM conf service qfuel depth key)) (fun out w' =>
    exists o, db_payment_orders (w_db w') !! po_id po = Some o /\ po_tx_hash o = hex_string tx /\
      (d_val (po_amount_paid o) == d_val (from_subunit (d_int value) (po_token po)))%Q) w.
Proof.
  intros Hfr Hk%String.eqb_neq Hf H. unfold ResolvePaymentOrderMishaps, resolveMissedEvents, NewIndexerEVM. rewrite Hk.
  pose proof H as []. do 2 wp_step. apply (wp_read_db_ok _ (w_db w)); [done|done|]. cbn beta iota. rewrite md_networks0.
  cbn [for_each]. rewrite md_evm0. do 4 wp_step. apply (wp_read_db_ok _ (w_db w)); [done|done|]. cbn beta iota. do 2 wp_step.
  rewrite md_missed0. cbn [for_each]. wp_step. unfold resolve_order, ignored. rewrite md_address0. cbn [evm_indexer ix_receive].
  wp_step. eapply wp_mono; [by eapply index_address_run|]. intros out w1 (v & Hv & o & Ho & Hpaid & Hh).
  assert (G : exists o, db_payment_orders (w_db w1) !! po_id po = Some o /\ po_tx_hash o = hex_string tx /\
      (d_val (po_amount_paid o) == d_val (from_subunit (d_int value) (po_token po)))%Q).
  { exists o. split; [exact Ho|]. split; [exact Hh|]. rewrite Hpaid. cbn [tt_value found_transfer]. apply from_subunit_ext. by rewrite val_int. }
  destruct out as [c|e|]; exact G.
Qed.

End recovery.

(** ** Witnesses on the seeded database *)

(** An order of two units at an address of the pool, and the transaction that paid
    it: the node of [ChainEventClaims] and a history that lists it. *)
Definition s_miss_address : ReceiveAddress := mkRA 1 (hex_string s_pool_bytes) APoolAssigned true "base" 8453 0 0 1 0 0 "" 0 "".
Definition s_miss_order : PaymentOrder :=
  mkPO "p1" (d_int 2) (d_int 0) (d_int 0) (d_int 0) (d_int 0) (d_int 0) (d_int 0) (d_int 950) "" 0 "" "" (hex_string s_pool_bytes)
    (d_int 0) "" "" "" "" PInitiated (d_int 2) s_chain_token None (Some 1)
    (mkRecipient "ABNGNGLA" "1234567890" "OK" "rent" "" "{}") None [] (Some "s1") 0 0.
Definition s_miss_db : DB :=
  set_receive_addresses {[ 1 := s_miss_address ]} (set_payment_orders {[ "p1" := s_miss_order ]} (s_db (s_pc 5000 0 5000))).
Definition s_miss_world : World := mkWorld s_miss_db ∅ 0 (mkRedis ∅ ∅ ∅) [] 60000000000 [] [].

#[local] Instance sample_node : ChainServices := {|
  receipt_logs _ _ _ := Some [s_log];
  filter_logs _ _ _ _ _ _ := []
|}.
#[local] Instance sample_history : HistoryServices := {|
  etherscan_history _ _ _ _ _ _ := retM [[("hash", JStr (hex_string s_hash))]];
  blockscout_history _ _ _ _ _ := retM [];
  alchemy_history _ _ _ _ _ := retM []
|}.
Definition s_live_conf : Config := mkConfig 60 60 60 3 (d_int 5) "production" 300 (d_int 1).

Lemma s_missed : missed_deposit s_live_conf s_network s_miss_order s_miss_address (hex_string s_hash) s_payer s_pool_bytes
  1990000 9 s_hash 0 s_miss_world.
Proof.
  split.
  - vm_refl.
  - vm_refl.
  - vm_refl.
  - vm_refl.
  - exists [("hash", JStr (hex_string s_hash))]. split; vm_refl.
  - vm_compute. lia.
  - exists [s_log]. split_and!; vm_refl.
  - split_and!; [by apply replicate_address|by apply replicate_address|done|by apply replicate_word].
  - vm_refl.
  - vm_compute. reflexivity.
  - split; [done| |by intros l ?%elem_of_nil]. intros i r H. cbn in H. by apply lookup_singleton_Some in H as [_ <-].
  - split; [vm_refl|vm_refl|done|done|done|vm_refl|vm_refl].
  - vm_refl.
Qed.

Lemma missed_transfer_recovered_witness :
  exists o, db_payment_orders (w_db (ResolvePaymentOrderMishaps s_live_conf
      (NewIndexerEVM s_live_conf (evm_service 9) 9 9 "key") s_miss_world).2) !! "p1" = Some o /\ po_tx_hash o = hex_string s_hash.
Proof.
  destruct (missed_transfer_recovered s_live_conf (evm_service 9) 9 9 "key" s_network s_miss_order s_miss_address (hex_string s_hash)
    s_payer s_pool_bytes 1990000 9 s_hash 0 s_miss_world (evm_frames 9 sample_tame) ltac:(done) eq_refl s_missed)
    as (o & Ho & Hh & _). exists o. split; [exact Ho|exact Hh].
Defined.
