(* ===== verification/Polling.v ===== *)
(** * The polling service (services/polling_service.go)

    The fallback that reads the token balances of receive addresses from the node.
    Its state ([PollingService]) is the balance cache and the metrics; the functions
    take it and return it.  [poll_step] is the loop of [Start] together with whatever
    else happens to the world between two cycles. *)

From Stdlib Require Import DecimalString.
From S2P Require Import Prelude Decimal Schema Store Samples Transactions Balance Utils Ethereum Services Queue Orders Rows Http Tasks ChainEvents.
From S2P Require Import EvmIndexer IndexTasks.
Local Open Scope go_scope.
Local Open Scope string_scope.
Local Open Scope list_scope.

Class PollServices `{O : DecimalOps} := {
  (** [CallContract] at the latest block: node, contract and call data; [None] when
      the node answers with an error *)
  call_contract : World -> string -> list Z -> list Z -> option (list Z);
  (** the order in which a [range] meets the keys of a map *)
  map_order : World -> list Z -> list Z
}.
(** Each key is met once. *)
Class PollLaws `{O : DecimalOps} (P : PollServices) : Prop := {
  map_order_permutes : forall w l, map_order w l ≡ₚ l
}.

Section polling.
Context {O : DecimalOps} {OS : @OrderServices O} {EC : EthCommon} {PS : @PollServices O}.

(** ** State *)

Record PollingMetrics := mkMetrics {
  pm_orders_checked : Z;
  pm_payments_detected : Z;
  pm_rpc_calls_made : Z;
  pm_errors_encountered : Z;
  pm_last_run_time : Z;
  pm_average_check_time : Z
}.
Record CachedBalance := mkCB { cb_amount : dec; cb_timestamp : Z }.
Record PollingService := mkPoll {
  ps_interval : Z;
  ps_min_order_age : Z;
  ps_metrics : PollingMetrics;
  (** the balance cache *)
  ps_balances : gmap string CachedBalance;
  ps_ttl : Z
}.

(** The durations of the configuration, or the defaults for zero. *)
Definition NewPollingService (minAge cacheTTL interval : Z) : M PollingService :=
  let! w := getM in
  retM (mkPoll interval (if (minAge =? 0)%Z then 300000000000 else minAge) (mkMetrics 0 0 0 0 (w_now w) 0) ∅
          (if (cacheTTL =? 0)%Z then 30000000000 else cacheTTL)).

Definition set_metrics (m : PollingMetrics) (s : PollingService) : PollingService :=
  mkPoll (ps_interval s) (ps_min_order_age s) m (ps_balances s) (ps_ttl s).
Definition incrementRPCCalls (s : PollingService) : PollingService :=
  let m := ps_metrics s in
  set_metrics (mkMetrics (pm_orders_checked m) (pm_payments_detected m) (wrap64 (pm_rpc_calls_made m + 1))
    (pm_errors_encountered m) (pm_last_run_time m) (pm_average_check_time m)) s.
Definition incrementPaymentsDetected (s : PollingService) : PollingService :=
  let m := ps_metrics s in
  set_metrics (mkMetrics (pm_orders_checked m) (wrap64 (pm_payments_detected m + 1)) (pm_rpc_calls_made m)
    (pm_errors_encountered m) (pm_last_run_time m) (pm_average_check_time m)) s.
Definition incrementErrors (s : PollingService) : PollingService :=
  let m := ps_metrics s in
  set_metrics (mkMetrics (pm_orders_checked m) (pm_payments_detected m) (pm_rpc_calls_made m)
    (wrap64 (pm_errors_encountered m + 1)) (pm_last_run_time m) (pm_average_check_time m)) s.
Definition updateMetrics (ordersChecked : nat) (now duration : Z) (s : PollingService) : PollingService :=
  let m := ps_metrics s in
  set_metrics (mkMetrics (wrap64 (pm_orders_checked m + Z.of_nat ordersChecked)) (pm_payments_detected m) (pm_rpc_calls_made m)
    (pm_errors_encountered m) now duration) s.

(** *** The cache *)

Definition cache_get (now : Z) (key : string) (s : PollingService) : option dec :=
  cached ← ps_balances s !! key;
  if (ps_ttl s <? now - cb_timestamp cached)%Z then None else Some (cb_amount cached).
Definition cache_set (now : Z) (key : string) (amount : dec) (s : PollingService) : PollingService :=
  mkPoll (ps_interval s) (ps_min_order_age s) (ps_metrics s) (<[key := mkCB amount now]> (ps_balances s)) (ps_ttl s).
Definition cache_clear (s : PollingService) : PollingService :=
  mkPoll (ps_interval s) (ps_min_order_age s) (ps_metrics s) ∅ (ps_ttl s).

Definition cache_key (po : PaymentOrder) (a : ReceiveAddress) : string :=
  int_string (nw_chain_id (tk_network (po_token po))) +:+ ":" +:+ tk_contract_address (po_token po) +:+ ":" +:+ ra_address a.

(** ** Balances *)

(** [s\[2:\]] of the text of an address, which has its prefix. *)
Definition after_prefix (s : string) : string := match s with String _ (String _ r) => r | _ => "" end.

(** The call of balanceOf. *)
Definition balance_data (address : string) : list Z :=
  Hex2Bytes ("70a08231" +:+ "000000000000000000000000" +:+ after_prefix (address_hex (HexToAddress address))).

Definition human_balance (result : list Z) (decimals : Z) : dec := d_div (d_int (set_bytes result)) (d_int (10 ^ decimals)).

Definition getTokenBalance (rpcURL address tokenContract : string) (decimals : Z) : M dec :=
  do! wrapM "failed to connect to RPC" ext in
  let! result := wrapM "failed to call contract"
    (do! ext in
     let! w := getM in
     match call_contract w (build_rpc_url rpcURL) (HexToAddress tokenContract) (balance_data address) with
     | Some result => retM result
     | None => errM (EMsg "execution reverted")
     end) in
  retM (human_balance result decimals).

(** ** Orders *)

Definition po_set_paid (now : Z) (amount : dec) (o : PaymentOrder) : PaymentOrder :=
  mkPO (po_id o) (po_amount o) amount (po_amount_returned o) (po_percent_settled o) (po_sender_fee o) (po_network_fee o)
    (po_protocol_fee o) (po_rate o) (po_tx_hash o) (po_block_number o) (po_from_address o) (po_return_address o)
    (po_receive_address_text o) (po_fee_percent o) (po_fee_address o) (po_gateway_id o) (po_message_hash o) (po_reference o)
    (po_status o) (po_amount_in_usd o) (po_token o) (po_linked_address o) (po_receive_address o) (po_recipient o)
    (po_payment_webhook o) (po_transactions o) (po_sender_profile o) (po_created_at o) now.

(** Whether the amount suffices is only logged. *)
Definition updateOrderPayment (order : PaymentOrder) (amount : dec) : M unit :=
  let! w := getM in
  wrapM "failed to update order" (modify_db None (fun d =>
    match db_payment_orders d !! po_id order with
    | None => inl ENotFound
    | Some o => inr (set_payment_orders (<[po_id order := po_set_paid (w_now w) amount o]> (db_payment_orders d)) d, tt)
    end)).

Definition processBalance (s : PollingService) (order : PaymentOrder) (balance : dec) : M PollingService :=
  if d_gt balance (po_amount_paid order) then
    do? updateOrderPayment order balance orelse _e => (retM (incrementErrors s)) in
    retM (incrementPaymentsDetected s)
  else retM s.

(** The receive address is an edge the query loaded. *)
Definition checkOrderPayment (d : DB) (s : PollingService) (order : PaymentOrder) : M PollingService :=
  let! receiveAddr := deref (address_of d order) in
  let token := po_token order in
  let! w := getM in
  if (ra_valid_until receiveAddr <? w_now w)%Z then retM s
  else
    match cache_get (w_now w) (cache_key order receiveAddr) s with
    | Some cachedBalance => processBalance s order cachedBalance
    | None =>
        let? balance := getTokenBalance (nw_rpc_endpoint (tk_network token)) (ra_address receiveAddr) (tk_contract_address token)
                          (tk_decimals token)
        orelse _e => (retM (incrementErrors s)) in
        processBalance (cache_set (w_now w) (cache_key order receiveAddr) balance (incrementRPCCalls s)) order balance
    end.

Fixpoint pollNetworkOrders (d : DB) (s : PollingService) (orders : list PaymentOrder) : M PollingService :=
  match orders with
  | [] => retM s
  | order :: rest => let! s' := checkOrderPayment d s order in pollNetworkOrders d s' rest
  end.

Definition groupOrdersByNetwork (orders : list PaymentOrder) : gmap Z (list PaymentOrder) :=
  foldl (fun grouped order =>
    let networkID := nw_chain_id (tk_network (po_token order)) in
    <[networkID := default [] (grouped !! networkID) ++ [order]]> grouped) ∅ orders.

Fixpoint poll_networks (d : DB) (s : PollingService) (grouped : gmap Z (list PaymentOrder)) (networks : list Z) : M PollingService :=
  match networks with
  | [] => retM s
  | n :: rest => let! s' := pollNetworkOrders d s (default [] (grouped !! n)) in poll_networks d s' grouped rest
  end.

(** The orders to poll: initiated, old enough, with an address. *)
Definition pollable (d : DB) (cutoffTime : Z) (po : PaymentOrder) : bool :=
  bool_decide (po_status po = PInitiated) && (po_created_at po <? cutoffTime)%Z && has_address d (fun _ => true) po.

Definition pollPendingOrders (s : PollingService) : M PollingService :=
  let! w := getM in
  let? d := read_db None orelse _e => (retM (incrementErrors s)) in
  match List.filter (pollable d (w_now w - ps_min_order_age s)) (payment_rows d) with
  | [] => retM s
  | orders =>
      let ordersByNetwork := groupOrdersByNetwork orders in
      let! s' := poll_networks d s ordersByNetwork (map_order w (map fst (map_to_list ordersByNetwork))) in
      let! w' := getM in
      retM (updateMetrics (length orders) (w_now w') (w_now w' - w_now w) s')
  end.

(** ** The loop *)

(** A cycle, at the start or on a tick; anything else that happens, while time goes
    on; [Stop] or the end of the context. *)
Inductive poll_step : PollingService * World * bool -> PollingService * World * bool -> Prop :=
  | pl_cycle s w s' w' : pollPendingOrders s w = (Ret s', w') -> poll_step (s, w, true) (s', w', true)
  | pl_other s w w' b : (w_now w <= w_now w')%Z -> poll_step (s, w, b) (s, w', b)
  | pl_stop s w : poll_step (s, w, true) (s, w, false).

End polling.
