(* ===== verification/PollClaims.v ===== *)
(** * Theorems about the polling service

    What a cycle may change and which balance an order may be credited with (asked for
    its own address and token, of the node of its network, within the life of the
    cache), for every state the loop can reach; what is asked of the node; that a payment found this way never
    completes the order; with their witnesses. *)

From Stdlib Require Import Qabs.
From S2P Require Import Prelude Decimal Schema Store Samples Transactions Balance Utils Ethereum Services Queue Calm.
From S2P Require Import Orders OrderClaims Rows Payments Http Tasks TaskClaims Indexer IndexerClaims ChainEvents EvmIndexer ChainEventClaims IndexTasks Polling.
Local Open Scope go_scope.
Local Open Scope string_scope.
Local Open Scope list_scope.

Section polling.
Context {O : DecimalOps} {L : DecimalLaws O} {OS : @OrderServices O} {EC : EthCommon} {EL : EthLaws EC} {PS : @PollServices O}.

(** ** Balances *)

(** What the node answered at a world for the address of an order. *)
Definition balance_answered (w : World) (po : PaymentOrder) (a : ReceiveAddress) (b : dec) : Prop :=
  exists result, call_contract w (build_rpc_url (nw_rpc_endpoint (tk_network (po_token po))))
      (HexToAddress (tk_contract_address (po_token po))) (balance_data (ra_address a)) = Some result /\
    b = human_balance result (tk_decimals (po_token po)).

(** What is known of tokens by chain and contract: the endpoint of the network and
    the decimals. *)
Definition catalog : Type := Z -> string -> string * Z.
Definition known (cat : catalog) (po : PaymentOrder) : Prop :=
  let tk := po_token po in
  cat (nw_chain_id (tk_network tk)) (tk_contract_address tk) = (nw_rpc_endpoint (tk_network tk), tk_decimals tk) /\
  has_char ":" (tk_contract_address tk) = false.
Definition catalogued (cat : catalog) (d : DB) : Prop := forall po, po ∈ payment_rows d -> known cat po.

Lemma int_string_inj z1 z2 : int_string z1 = int_string z2 -> z1 = z2.
Proof.
  intros H. pose proof (int_string_parse z1) as H1. unfold int_string in H. rewrite H, int_string_parse in H1.
  injection H1 as H1. rewrite <- (DecimalZ.of_to z1), <- (DecimalZ.of_to z2). by rewrite H1.
Qed.

(** The parts of a cache key can be read back. *)
Lemma cache_key_inj po1 a1 po2 a2 :
  has_char ":" (tk_contract_address (po_token po1)) = false -> has_char ":" (tk_contract_address (po_token po2)) = false ->
  cache_key po1 a1 = cache_key po2 a2 ->
  nw_chain_id (tk_network (po_token po1)) = nw_chain_id (tk_network (po_token po2)) /\
  tk_contract_address (po_token po1) = tk_contract_address (po_token po2) /\ ra_address a1 = ra_address a2.
Proof.
  intros H1 H2 H. assert (Hc : forall z, has_char ":" (int_string z) = false) by (intros z; apply int_chars; repeat constructor).
  assert (Hsep : forall t, ":" +:+ t = String ":" t) by done. unfold cache_key in H. rewrite !Hsep in H. pose proof (f_equal (split_on ":") H) as Hs.
  rewrite !split_on_app in Hs by auto. injection Hs as Hi Ht _. rewrite Hi, Ht in H.
  apply (inj (String.append _)) in H. injection H as H. apply (inj (String.append _)) in H. injection H as H.
  split_and!; [by apply int_string_inj|done|done].
Qed.

(** Orders with the same key have the same balance. *)
Lemma answered_same_key cat w po1 a1 po2 a2 b :
  known cat po1 -> known cat po2 -> cache_key po1 a1 = cache_key po2 a2 ->
  balance_answered w po1 a1 b -> balance_answered w po2 a2 b.
Proof.
  intros [C1 N1] [C2 N2] Hk (r & Hr & ->). destruct (cache_key_inj _ _ _ _ N1 N2 Hk) as (Hn & Hc & Ha).
  rewrite Hn, Hc in C1. rewrite C1 in C2. injection C2 as He Hd. exists r. by rewrite <- He, <- Hc, <- Ha, <- Hd.
Qed.

(** A world of the cycle that starts at [w]: only payment orders were written. *)
Definition during (w w1 : World) : Prop :=
  w_now w1 = w_now w /\ w_redis w1 = w_redis w /\ w_txs w1 = w_txs w /\
  w_db w1 = set_payment_orders (db_payment_orders (w_db w1)) (w_db w).

(** The balance that the node at the endpoint of the order's network gave for the
    order's token and the address, in its decimals, in a world of [visited] at most
    [ttl] ago. *)
Definition recent (visited : World -> Prop) (now ttl : Z) (po : PaymentOrder) (a : ReceiveAddress) (b : dec) : Prop :=
  exists w, visited w /\ now - ttl <= w_now w <= now /\ balance_answered w po a b.

(** Every cached balance was an answer of the node at its time. *)
Definition cache_sound (cat : catalog) (visited : World -> Prop) (now : Z) (s : PollingService) : Prop :=
  forall k cb, ps_balances s !! k = Some cb ->
    exists w po a, cache_key po a = k /\ known cat po /\ visited w /\ w_now w = cb_timestamp cb /\ w_now w <= now /\
      balance_answered w po a (cb_amount cb).

(** The balances a cycle that starts at [s] and [w] works with: cached and not too
    old, or asked for one of the orders. *)
Definition asked (w : World) (key : string) (b : dec) : Prop :=
  exists w1 po a, po ∈ payment_rows (w_db w) /\ cache_key po a = key /\ during w w1 /\ balance_answered w1 po a b.
Definition fresh_balance (s : PollingService) (w : World) (key : string) (b : dec) : Prop :=
  (exists cb, ps_balances s !! key = Some cb /\ w_now w - cb_timestamp cb <= ps_ttl s /\ b = cb_amount cb) \/ asked w key b.

(** The cache during that cycle. *)
Definition cache_from (s : PollingService) (w : World) (s' : PollingService) : Prop :=
  forall k cb, ps_balances s' !! k = Some cb ->
    ps_balances s !! k = Some cb \/ cb_timestamp cb = w_now w /\ asked w k (cb_amount cb).

Lemma fresh_recent cat (visited : World -> Prop) s w po a b :
  0 <= ps_ttl s -> cache_sound cat visited (w_now w) s -> catalogued cat (w_db w) ->
  (forall w1, during w w1 -> visited w1) -> po ∈ payment_rows (w_db w) ->
  fresh_balance s w (cache_key po a) b -> recent visited (w_now w) (ps_ttl s) po a b.
Proof.
  intros Ht Hs Hcat Hv Hpo [(cb & Hk & Hn & ->)|(w1 & po1 & a1 & Hin & Hk & Hd & Ha)].
  - destruct (Hs _ _ Hk) as (w1 & po1 & a1 & Ek & Kn & Hvis & Ew & Hle & Ha). exists w1.
    split_and!; [done|lia|lia|]. eapply answered_same_key; [exact Kn|by apply Hcat|exact Ek|exact Ha].
  - exists w1. pose proof (proj1 Hd). split_and!; [by apply Hv|lia|lia|].
    eapply answered_same_key; [by apply Hcat|by apply Hcat|exact Hk|exact Ha].
Qed.

Lemma cache_from_sound cat (visited : World -> Prop) s w s' :
  cache_sound cat visited (w_now w) s -> catalogued cat (w_db w) -> (forall w1, during w w1 -> visited w1) ->
  cache_from s w s' -> cache_sound cat visited (w_now w) s'.
Proof.
  intros Hs Hcat Hv Hf k cb Hk. destruct (Hf _ _ Hk) as [H|(Ht & w1 & po & a & Hin & Ek & Hd & Ha)]; [by apply Hs|].
  exists w1, po, a. pose proof (proj1 Hd). split_and!; [done|by apply Hcat|by apply Hv|lia|lia|done].
Qed.

Lemma cache_from_set s w s1 k b : cache_from s w s1 -> asked w k b -> cache_from s w (cache_set (w_now w) k b s1).
Proof.
  intros Hs Ha k' cb. cbn [cache_set ps_balances]. intros [[<- <-]|[_ H]]%lookup_insert_Some; [|by apply Hs].
  right. by split.
Qed.

Lemma cache_get_fresh s w s1 k b :
  cache_from s w s1 -> ps_ttl s1 = ps_ttl s -> cache_get (w_now w) k s1 = Some b -> fresh_balance s w k b.
Proof.
  intros Hs Ht. unfold cache_get. destruct (ps_balances s1 !! k) as [cb|] eqn:E; [|done]. simpl. rewrite Ht.
  destruct (Z.ltb_spec (ps_ttl s) (w_now w - cb_timestamp cb)); [done|]. intros [= <-].
  destruct (Hs _ _ E) as [Hk|[_ Ha]]; [left; by exists cb|by right].
Qed.

(** ** One cycle *)

(** A row after the cycle: as before, or of an order that is polled, with a recent
    balance of its address that is larger than what was paid. *)
Definition polled_row (fresh : PaymentOrder -> ReceiveAddress -> dec -> Prop) (s : PollingService) (w : World) (o o' : PaymentOrder) : Prop :=
  o' = o \/
  exists a b, pollable (w_db w) (w_now w - ps_min_order_age s) o = true /\ address_of (w_db w) o = Some a /\
    (w_now w <= ra_valid_until a)%Z /\ fresh o a b /\
    (d_val (po_amount_paid o) < d_val b)%Q /\ o' = po_set_paid (w_now w) b o.

Definition keyed (d : DB) : Prop := forall id o, db_payment_orders d !! id = Some o -> po_id o = id.

Lemma keyed_row d o : keyed d -> o ∈ payment_rows d -> db_payment_orders d !! po_id o = Some o.
Proof.
  intros Hk Hin. apply list_elem_of_In, in_map_iff in Hin as ([k o1] & <- & Hin%list_elem_of_In%elem_of_map_to_list).
  cbn [snd]. by rewrite (Hk _ _ Hin).
Qed.

Lemma payment_row d id o : db_payment_orders d !! id = Some o -> o ∈ payment_rows d.
Proof.
  intros H. apply list_elem_of_In, in_map_iff. exists (id, o). split; [done|].
  by apply list_elem_of_In, elem_of_map_to_list.
Qed.

(** The rows of two databases, pointwise. *)
Definition rows_related (R : PaymentOrder -> PaymentOrder -> Prop) (m m' : gmap string PaymentOrder) : Prop :=
  forall id, option_Forall2 R (m !! id) (m' !! id).

Lemma rows_related_mono (R R' : PaymentOrder -> PaymentOrder -> Prop) m m' :
  (forall id o o', m !! id = Some o -> R o o' -> R' o o') -> rows_related R m m' -> rows_related R' m m'.
Proof.
  intros HR H id. specialize (HR id). destruct (H id) as [o o' Ho|]; constructor. by apply HR.
Qed.

(** After some orders of a cycle that started at [s] and [w]. *)
Record cycle_inv (s : PollingService) (w : World) (s' : PollingService) (w' : World) : Prop := {
  ci_now : w_now w' = w_now w;
  ci_redis : w_redis w' = w_redis w;
  ci_txs : w_txs w' = w_txs w;
  ci_config : ps_ttl s' = ps_ttl s /\ ps_min_order_age s' = ps_min_order_age s;
  ci_cache : cache_from s w s';
  ci_db : w_db w' = set_payment_orders (db_payment_orders (w_db w')) (w_db w);
  ci_rows : keyed (w_db w) -> rows_related (polled_row (fun o a => fresh_balance s w (cache_key o a)) s w) (db_payment_orders (w_db w)) (db_payment_orders (w_db w'))
}.

Lemma set_payment_orders_id d : set_payment_orders (db_payment_orders d) d = d.
Proof. by destruct d. Qed.

Lemma cycle_inv_refl s w : cycle_inv s w s w.
Proof.
  split; try done; [by left|by rewrite set_payment_orders_id|].
  intros _ id. destruct (db_payment_orders (w_db w) !! id); constructor. by left.
Qed.

(** Faults and metrics do not matter. *)
Lemma cycle_inv_frame s w s1 s2 w1 w2 :
  cycle_inv s w s1 w1 -> idle w1 w2 -> ps_ttl s2 = ps_ttl s1 -> ps_min_order_age s2 = ps_min_order_age s1 ->
  ps_balances s2 = ps_balances s1 -> cycle_inv s w s2 w2.
Proof.
  intros [H1 H2 H3 [H4 H4'] H5 H6 H7] (D & R & T & N) Et Ea Eb.
  split; rewrite ?D, ?R, ?T, ?N, ?Et, ?Ea; try done.
  intros k cb. rewrite Eb. apply H5.
Qed.

Lemma cycle_during s w s1 w1 w2 : cycle_inv s w s1 w1 -> idle w1 w2 -> during w w2.
Proof. intros [H1 H2 H3 _ _ H6 _] (D & R & T & N). unfold during. by rewrite D, R, T, N. Qed.

(** The update of one order. *)
Lemma process_balance_inv s w s1 w1 order a b :
  cycle_inv s w s1 w1 -> order ∈ payment_rows (w_db w) ->
  pollable (w_db w) (w_now w - ps_min_order_age s) order = true -> address_of (w_db w) order = Some a ->
  (w_now w <= ra_valid_until a)%Z -> fresh_balance s w (cache_key order a) b ->
  wp (processBalance s1 order b) (fun out w' => exists s', out = Ret s' /\ cycle_inv s w s' w') w1.
Proof.
  intros Hi Hin Hp Ha Hv Hr. unfold processBalance. destruct (d_gt b (po_amount_paid order)) eqn:Eg; [|by exists s1].
  assert (Hgt : (d_val (po_amount_paid order) < d_val b)%Q) by (dec_to_q; lra).
  unfold updateOrderPayment. wp_step. do 2 wp_step. wp_step. apply wp_modify_direct.
  2:{ intros fs. cbn beta iota. wp_step. eexists. split; [done|]. by eapply cycle_inv_frame. }
  intros fs. destruct (db_payment_orders (w_db w1) !! po_id order) as [o1|] eqn:E1.
  2:{ wp_step. eexists. split; [done|]. by eapply cycle_inv_frame. }
  cbn beta iota. wp_step. eexists. split; [done|]. destruct Hi as [H1 H2 H3 H4 H5 H6 H7].
  split; cbn [w_now w_redis w_txs w_db set_db set_faults db_payment_orders set_payment_orders]; try done.
  { by rewrite H6. }
  intros Hk id. specialize (H7 Hk id). destruct (decide (id = po_id order)) as [->|Hne]; [|by rewrite lookup_insert_ne].
  rewrite lookup_insert_eq. rewrite E1 in H7.
  pose proof (keyed_row _ _ Hk Hin) as Ho.
  rewrite Ho in H7 |- *. constructor. right. exists a, b. split_and!; try done. rewrite H1.
  inversion H7 as [? ? Hrow|]; subst. destruct Hrow as [->|(? & b' & _ & _ & _ & _ & _ & ->)]; reflexivity.
Qed.

Lemma token_balance_answered order a w :
  let tk := po_token order in
  wp (getTokenBalance (nw_rpc_endpoint (tk_network tk)) (ra_address a) (tk_contract_address tk) (tk_decimals tk))
    (fun out w' => idle w w' /\ match out with Ret b => exists w1, idle w w1 /\ balance_answered w1 order a b
                                | Err _ => True | Panic => False end) w.
Proof.
  cbn zeta. unfold getTokenBalance. do 2 wp_step. apply wp_ext; [intros fs|by intros fs]. do 3 wp_step.
  apply wp_ext; [intros fs2|by intros fs2]. do 2 wp_step. destruct (call_contract _ _ _ _) as [r|] eqn:E.
  - do 2 wp_step. split; [done|]. eexists. split; [|by exists r]. done.
  - by wp_step.
Qed.

Lemma check_order_inv s w s1 w1 order :
  cycle_inv s w s1 w1 -> order ∈ payment_rows (w_db w) ->
  pollable (w_db w) (w_now w - ps_min_order_age s) order = true ->
  wp (checkOrderPayment (w_db w) s1 order) (fun out w' => exists s', out = Ret s' /\ cycle_inv s w s' w') w1.
Proof.
  intros Hi Hin Hp. pose proof Hp as Ha. unfold pollable, has_address in Ha. rewrite !andb_true_iff in Ha. destruct Ha as [_ Ha].
  destruct (address_of (w_db w) order) as [a|] eqn:Ea; [clear Ha|done].
  pose proof (ci_now _ _ _ _ Hi) as Hn. unfold checkOrderPayment. rewrite Ea. wp_step. wp_step. cbn beta iota. do 2 wp_step.
  destruct (Z.ltb_spec (ra_valid_until a) (w_now w1)) as [|Hv]; [by exists s1|]. rewrite Hn in Hv |- *.
  destruct (cache_get _ _ _) as [b|] eqn:Eg.
  - eapply process_balance_inv; try done. by eapply cache_get_fresh; [apply Hi|apply Hi|].
  - wp_step. eapply wp_mono; [apply token_balance_answered|]. intros [b|e|] w2 [Hid Hb]; [|by eexists; split; [done|eapply cycle_inv_frame]|done].
    destruct Hb as (w3 & Hw3 & Hans). assert (Hask : asked w (cache_key order a) b).
    { exists w3, order, a. split_and!; [done|done|by eapply cycle_during|done]. }
    assert (Hi2 : cycle_inv s w (cache_set (w_now w) (cache_key order a) b (incrementRPCCalls s1)) w2).
    { pose proof (cycle_inv_frame s w s1 s1 w1 w2 Hi Hid eq_refl eq_refl eq_refl) as [G1 G2 G3 G4 G5 G6 G7]. split; try done.
      by apply (cache_from_set s w (incrementRPCCalls s1)). }
    eapply process_balance_inv; try done. by right.
Qed.

Definition all_pollable (s : PollingService) (w : World) (orders : list PaymentOrder) : Prop :=
  Forall (fun o => o ∈ payment_rows (w_db w) /\ pollable (w_db w) (w_now w - ps_min_order_age s) o = true) orders.

Lemma poll_orders_inv s w orders s1 w1 :
  all_pollable s w orders -> cycle_inv s w s1 w1 ->
  wp (pollNetworkOrders (w_db w) s1 orders) (fun out w' => exists s', out = Ret s' /\ cycle_inv s w s' w') w1.
Proof.
  intros Ho. revert s1 w1. induction Ho as [|o orders [Hin Hp] _ IH]; intros s1 w1 Hi; [by exists s1|].
  cbn [pollNetworkOrders]. wp_step. eapply wp_mono; [by apply check_order_inv|]. intros out w2 (s2 & -> & Hi2). by apply IH.
Qed.

Lemma group_sound orders n l : groupOrdersByNetwork orders !! n = Some l -> l ⊆ orders.
Proof.
  unfold groupOrdersByNetwork. revert n l. induction orders as [|o orders IH] using rev_ind; intros n l; [done|].
  rewrite foldl_app. cbn [foldl]. set (m := foldl _ ∅ orders) in *. intros [[<- <-]|[_ H]]%lookup_insert_Some.
  - intros x [Hx| ->%list_elem_of_singleton]%elem_of_app; apply elem_of_app; [left|right; by apply list_elem_of_singleton].
    destruct (m !! _) as [l|] eqn:E; [by apply (IH _ _ E)|by apply elem_of_nil in Hx].
  - intros x Hx. apply elem_of_app. left. by apply (IH _ _ H).
Qed.

Lemma poll_networks_inv s w orders ns s1 w1 :
  all_pollable s w orders -> cycle_inv s w s1 w1 ->
  wp (poll_networks (w_db w) s1 (groupOrdersByNetwork orders) ns) (fun out w' => exists s', out = Ret s' /\ cycle_inv s w s' w') w1.
Proof.
  intros Ho. revert s1 w1. induction ns as [|n ns IH]; intros s1 w1 Hi; [by exists s1|].
  cbn [poll_networks]. wp_step.
  eapply wp_mono; [apply poll_orders_inv; [|done]|intros out w2 (s2 & -> & Hi2); by apply IH].
  destruct (groupOrdersByNetwork orders !! n) as [l|] eqn:E; [|by constructor]. apply group_sound in E.
  apply Forall_forall. intros x Hx. apply E in Hx. unfold all_pollable in Ho. rewrite Forall_forall in Ho. by apply Ho.
Qed.

Lemma poll_cycle_inv s w :
  wp (pollPendingOrders s) (fun out w' => exists s', out = Ret s' /\ cycle_inv s w s' w') w.
Proof.
  pose proof (cycle_inv_refl s w) as H0. unfold pollPendingOrders. do 2 wp_step. cbn beta iota. wp_step.
  eapply wp_read_db; [reflexivity|intros fs|intros fs; eexists; split; [done|by eapply cycle_inv_frame]].
  set (orders := List.filter _ _). assert (Ho : all_pollable s w orders).
  { apply Forall_forall. intros x [Hx1 Hx2]%list_elem_of_In%filter_In. split; [by apply list_elem_of_In|done]. }
  destruct orders as [|o rest]; [eexists; split; [done|by eapply cycle_inv_frame]|].
  wp_step. eapply wp_mono; [apply poll_networks_inv; [exact Ho|by eapply cycle_inv_frame]|].
  intros out w2 (s2 & -> & Hi2). do 2 wp_step. cbn beta iota. eexists. split; [done|]. by eapply cycle_inv_frame.
Qed.

(** ** The loop *)

(** A step of the loop that leaves the tokens as they are known. *)
Definition catalog_step (cat : catalog) (x y : PollingService * World * bool) : Prop :=
  poll_step x y /\ catalogued cat (w_db y.1.2).
(** The worlds of the cycles of a run. *)
Definition visited (cat : catalog) (start : PollingService * World * bool) (w1 : World) : Prop :=
  exists s w, rtc (catalog_step cat) start (s, w, true) /\ during w w1.

Lemma reachable_sound cat s0 w0 s w b :
  rtc (catalog_step cat) (s0, w0, true) (s, w, b) -> catalogued cat (w_db w0) -> 0 <= ps_ttl s0 -> ps_balances s0 = ∅ ->
  0 <= ps_ttl s /\ catalogued cat (w_db w) /\ cache_sound cat (visited cat (s0, w0, true)) (w_now w) s.
Proof.
  intros H Hc0 Ht Hs. set (start := (s0, w0, true)) in *.
  set (P (y : PollingService * World * bool) := 0 <= ps_ttl y.1.1 /\ catalogued cat (w_db y.1.2) /\
    cache_sound cat (visited cat start) (w_now y.1.2) y.1.1).
  apply (rtc_ind_r P start) in H; [exact H| |clear H].
  { split_and!; [done|done|]. intros k cb Hk. cbn in Hk. by rewrite Hs, lookup_empty in Hk. }
  intros y z Hy [Hstep Hcz] (IHt & IHc & IHs).
  destruct Hstep as [s2 w2 s3 w3 E|s2 w2 w3 b2 Hle|s2 w2]; unfold P; cbn [fst snd] in *; [| |done].
  - pose proof (poll_cycle_inv s2 w2) as Hc. unfold wp in Hc. rewrite E in Hc. cbn [fst snd] in Hc.
    destruct Hc as (s' & [= <-] & [H1 _ _ [H4 _] H5 _ _]). rewrite H1, H4. split_and!; [done|done|].
    eapply cache_from_sound; [exact IHs|exact IHc| |exact H5]. intros w4 Hw4. by exists s2, w2.
  - split_and!; [done|done|]. intros k cb Hk. destruct (IHs _ _ Hk) as (w4 & po & a & ? & ? & ? & ? & ? & ?).
    exists w4, po, a. split_and!; try done. lia.
Qed.

(** C39: a cycle of the polling service, from every state its loop can reach and whatever
    fails or other code did in between, ends without panic and changes nothing but
    what was paid: a row is as before, or belongs to an initiated order that is old
    enough and whose address has not expired, and then its amount paid grew to the
    balance that the node at the RPC endpoint of the order's network gave for the
    order's token contract and that address, scaled by the order's token decimals, in
    this cycle or in one of this run at most the time to live of the cache ago; its
    status and everything else stay.  The endpoint and the decimals of a contract on a
    chain are taken not to change during the run (the cache key does not name them). *)
Theorem polling_correct cat minAge ttl interval s0 w0 s w :
  0 <= ttl -> NewPollingService minAge ttl interval w0 = (Ret s0, w0) -> catalogued cat (w_db w0) ->
  rtc (catalog_step cat) (s0, w0, true) (s, w, true) -> keyed (w_db w) ->
  wp (pollPendingOrders s) (fun out w' => (exists s', out = Ret s') /\
    w_redis w' = w_redis w /\ w_db w' = set_payment_orders (db_payment_orders (w_db w')) (w_db w) /\
    rows_related (polled_row (recent (visited cat (s0, w0, true)) (w_now w) (ps_ttl s)) s w)
      (db_payment_orders (w_db w)) (db_payment_orders (w_db w'))) w.
Proof.
  intros Ht H0 Hc0 Hr Hk. injection H0 as <-. pose proof Hr as Hreach. apply reachable_sound in Hr as (Ht' & Hc & Hs'); [|done| |done].
  2:{ cbn. destruct (Z.eqb_spec ttl 0); lia. }
  eapply wp_mono; [by apply poll_cycle_inv|]. intros out w' (s' & -> & [H1 H2 H3 H4 H5 H6 H7]). split_and!; eauto.
  eapply rows_related_mono; [|by apply H7]. intros id o o' Ho [->|(a & b & ? & ? & ? & Hf & ? & ->)]; [by left|right].
  exists a, b. split_and!; try done. eapply fresh_recent; [done|exact Hs'|done| |by eapply payment_row|exact Hf].
  intros w1 Hw1. by exists s, w.
Qed.

(** ** What a cycle finds *)

Section found.
Context {PL : PollLaws PS}.
(** The node answers every call. *)
Hypothesis node_answers : forall w url contract data, call_contract w url contract data <> None.

(** The row of an order that was looked at. *)
Definition decided_row (s : PollingService) (w : World) (o : PaymentOrder) (a : ReceiveAddress) (o' : PaymentOrder) : Prop :=
  exists b, fresh_balance s w (cache_key o a) b /\
    o' = if d_gt b (po_amount_paid o) then po_set_paid (w_now w) b o else o.

(** After the orders with the ids [ids], when nothing failed. *)
Record live_inv (s : PollingService) (w : World) (ids : list string) (w' : World) : Prop := {
  lv_faults : w_faults w' = [];
  lv_done : forall o a, o ∈ payment_rows (w_db w) -> po_id o ∈ ids -> address_of (w_db w) o = Some a ->
    (w_now w <= ra_valid_until a)%Z ->
    exists o', db_payment_orders (w_db w') !! po_id o = Some o' /\ decided_row s w o a o';
  lv_rest : forall o, o ∈ payment_rows (w_db w) -> po_id o ∉ ids -> db_payment_orders (w_db w') !! po_id o = Some o
}.

(** The order is skipped, or its balance is not larger. *)
Lemma live_skip s w ids w1 w2 order a :
  live_inv s w ids w1 -> keyed (w_db w) -> order ∈ payment_rows (w_db w) -> address_of (w_db w) order = Some a ->
  w_db w2 = w_db w1 -> w_faults w2 = [] ->
  ((w_now w <= ra_valid_until a)%Z ->
     exists b, fresh_balance s w (cache_key order a) b /\ d_gt b (po_amount_paid order) = false) ->
  live_inv s w (po_id order :: ids) w2.
Proof.
  intros [Hf Hd Hr] Hk Hin Ha Ed Ef Hb. split; [done| |].
  - intros o a' Ho [Eo|Ho']%elem_of_cons Ha' Hv; rewrite Ed; [|by apply Hd].
    assert (o = order) as -> by (pose proof (keyed_row _ _ Hk Ho); pose proof (keyed_row _ _ Hk Hin); congruence).
    destruct (decide (po_id order ∈ ids)) as [Hi|Hi]; [by apply Hd|].
    exists order. split; [by apply Hr|]. assert (a' = a) as -> by congruence. destruct (Hb Hv) as (b & Hrec & Hg).
    exists b. by rewrite Hg.
  - intros o Ho [_ Ho']%not_elem_of_cons. rewrite Ed. by apply Hr.
Qed.

Lemma process_balance_live s w ids s1 w1 order a b :
  live_inv s w ids w1 -> cycle_inv s w s1 w1 -> keyed (w_db w) -> order ∈ payment_rows (w_db w) ->
  address_of (w_db w) order = Some a -> fresh_balance s w (cache_key order a) b ->
  wp (processBalance s1 order b) (fun out w' => live_inv s w (po_id order :: ids) w') w1.
Proof.
  intros Hl Hi Hk Hin Ha Hr. unfold processBalance. destruct (d_gt b (po_amount_paid order)) eqn:Eg.
  2:{ eapply live_skip; try done; [apply Hl|]. intros _. by exists b. }
  pose proof (keyed_row _ _ Hk Hin) as Ho. pose proof (ci_rows _ _ _ _ Hi Hk (po_id order)) as Hrow. rewrite Ho in Hrow.
  inversion Hrow as [? o1 Hp Ex Eo|]; subst. pose proof (ci_now _ _ _ _ Hi) as Hn.
  unfold updateOrderPayment. wp_step. do 2 wp_step. wp_step. apply wp_modify_direct_ok; [apply Hl|]. rewrite <- Eo. cbn beta iota. wp_step.
  destruct Hl as [Hf Hd Hrest]. split; cbn [w_faults set_db w_db db_payment_orders set_payment_orders]; [done| |].
  - intros o a' Ho' Hid Ha' Hv. destruct (decide (po_id o = po_id order)) as [E|Hne].
    + assert (o = order) as -> by (pose proof (keyed_row _ _ Hk Ho'); congruence). assert (a' = a) as -> by congruence.
      rewrite lookup_insert_eq. eexists. split; [done|]. exists b. split; [done|]. rewrite Eg, Hn.
      destruct Hp as [->|(? & b' & _ & _ & _ & _ & _ & ->)]; reflexivity.
    + rewrite lookup_insert_ne by done. apply elem_of_cons in Hid as [|Hid]; [done|]. by apply Hd.
  - intros o Ho' [Hne Hid]%not_elem_of_cons. rewrite lookup_insert_ne by done. by apply Hrest.
Qed.

Lemma token_balance_live order a w :
  w_faults w = [] ->
  let tk := po_token order in
  wp (getTokenBalance (nw_rpc_endpoint (tk_network tk)) (ra_address a) (tk_contract_address tk) (tk_decimals tk))
    (fun out w' => w' = w /\ exists b, out = Ret b /\ balance_answered w order a b) w.
Proof.
  intros Hf. cbn zeta. unfold getTokenBalance. do 2 wp_step. apply wp_ext_ok; [done|]. do 3 wp_step.
  apply wp_ext_ok; [done|]. do 2 wp_step. destruct (call_contract _ _ _ _) as [r|] eqn:E; [|by apply node_answers in E].
  do 2 wp_step. split; [done|]. eexists. split; [done|]. by exists r.
Qed.

Lemma check_order_live s w ids s1 w1 order :
  live_inv s w ids w1 -> cycle_inv s w s1 w1 -> keyed (w_db w) -> order ∈ payment_rows (w_db w) ->
  pollable (w_db w) (w_now w - ps_min_order_age s) order = true ->
  wp (checkOrderPayment (w_db w) s1 order) (fun out w' => live_inv s w (po_id order :: ids) w') w1.
Proof.
  intros Hl Hi Hk Hin Hp. pose proof Hp as Ha. unfold pollable, has_address in Ha. rewrite !andb_true_iff in Ha. destruct Ha as [_ Ha].
  destruct (address_of (w_db w) order) as [a|] eqn:Ea; [clear Ha|done].
  pose proof (ci_now _ _ _ _ Hi) as Hn. unfold checkOrderPayment. rewrite Ea. wp_step. wp_step. cbn beta iota. do 2 wp_step.
  destruct (Z.ltb_spec (ra_valid_until a) (w_now w1)) as [Hv|Hv]; rewrite Hn in Hv; rewrite ?Hn.
  { wp_step. eapply live_skip; try done; [apply Hl|lia]. }
  destruct (cache_get _ _ _) as [b|] eqn:Eg.
  - eapply process_balance_live; try done. by eapply cache_get_fresh; [apply Hi|apply Hi|].
  - wp_step. eapply wp_mono; [apply token_balance_live, Hl|]. intros out w2 (-> & b & -> & Hb). cbn beta iota.
    assert (Hask : asked w (cache_key order a) b).
    { exists w1, order, a. split_and!; [done|done|by eapply cycle_during|done]. }
    assert (Hi2 : cycle_inv s w (cache_set (w_now w) (cache_key order a) b (incrementRPCCalls s1)) w1).
    { destruct Hi as [G1 G2 G3 G4 G5 G6 G7]. split; try done.
      by apply (cache_from_set s w (incrementRPCCalls s1)). }
    eapply process_balance_live; try done. by right.
Qed.

Lemma wp_and {A} (m : M A) (P Q : outcome A -> World -> Prop) w : wp m P w -> wp m Q w -> wp m (fun o w' => P o w' /\ Q o w') w.
Proof. by split. Qed.

Lemma poll_orders_live s w orders ids s1 w1 :
  keyed (w_db w) -> all_pollable s w orders -> cycle_inv s w s1 w1 -> live_inv s w ids w1 ->
  wp (pollNetworkOrders (w_db w) s1 orders) (fun out w' => exists s', out = Ret s' /\ cycle_inv s w s' w' /\
    exists ids', live_inv s w ids' w' /\ ids ⊆ ids' /\ map po_id orders ⊆ ids') w1.
Proof.
  intros Hk Ho. revert s1 w1 ids. induction Ho as [|o orders [Hin Hp] _ IH]; intros s1 w1 ids Hi Hl.
  { exists s1. split_and!; [done|done|]. exists ids. split_and!; [done|done|]. intros x []%elem_of_nil. }
  cbn [pollNetworkOrders]. wp_step. eapply wp_mono; [apply wp_and; [by apply check_order_inv|by apply check_order_live]|].
  intros out w2 [(s2 & -> & Hi2) Hl2]. eapply wp_mono; [by apply (IH s2 w2 (po_id o :: ids))|].
  intros out w3 (s3 & -> & Hi3 & ids' & Hl3 & H1 & H2). exists s3. split_and!; [done|done|]. exists ids'. split_and!; [done| |].
  - intros x Hx. apply H1. by apply elem_of_cons; right.
  - cbn [map]. intros x [->|Hx]%elem_of_cons; [apply H1; by apply elem_of_cons; left|by apply H2].
Qed.

Lemma group_complete orders o : o ∈ orders ->
  exists l, groupOrdersByNetwork orders !! nw_chain_id (tk_network (po_token o)) = Some l /\ o ∈ l.
Proof.
  unfold groupOrdersByNetwork. induction orders as [|x orders IH] using rev_ind; intros Hin; [by apply elem_of_nil in Hin|].
  rewrite foldl_app. cbn [foldl]. set (m := foldl _ ∅ orders) in *. set (n := nw_chain_id (tk_network (po_token o))) in *.
  apply elem_of_app in Hin as [Hin| ->%list_elem_of_singleton].
  - destruct (IH Hin) as (l & Hl & Ho). destruct (decide (nw_chain_id (tk_network (po_token x)) = n)) as [E|Hne].
    + rewrite E, lookup_insert_eq, Hl. eexists. split; [done|]. apply elem_of_app. by left.
    + rewrite lookup_insert_ne by done. by exists l.
  - unfold n. rewrite lookup_insert_eq. eexists. split; [done|]. apply elem_of_app. right. by apply list_elem_of_singleton.
Qed.

Lemma poll_networks_live s w orders ns ids s1 w1 :
  keyed (w_db w) -> all_pollable s w orders -> cycle_inv s w s1 w1 -> live_inv s w ids w1 ->
  wp (poll_networks (w_db w) s1 (groupOrdersByNetwork orders) ns) (fun out w' => exists s', out = Ret s' /\
    cycle_inv s w s' w' /\ exists ids', live_inv s w ids' w' /\ ids ⊆ ids' /\
      forall o, o ∈ orders -> nw_chain_id (tk_network (po_token o)) ∈ ns -> po_id o ∈ ids') w1.
Proof.
  intros Hk Ho. revert s1 w1 ids. induction ns as [|n ns IH]; intros s1 w1 ids Hi Hl.
  { exists s1. split_and!; [done|done|]. exists ids. split_and!; [done|done|]. intros o _ []%elem_of_nil. }
  cbn [poll_networks]. wp_step. eapply wp_mono; [apply poll_orders_live; [done| |done|done]|].
  { destruct (groupOrdersByNetwork orders !! n) as [l|] eqn:E; [|by constructor]. apply group_sound in E.
    apply Forall_forall. intros x Hx. apply E in Hx. unfold all_pollable in Ho. rewrite Forall_forall in Ho. by apply Ho. }
  intros out w2 (s2 & -> & Hi2 & ids2 & Hl2 & H1 & H2). eapply wp_mono; [by apply (IH s2 w2 ids2)|].
  intros out w3 (s3 & -> & Hi3 & ids3 & Hl3 & H3 & H4). exists s3. split_and!; [done|done|]. exists ids3. split_and!; [done|by etransitivity|].
  intros o Hin [Hn|Hn]%elem_of_cons; [|by apply H4]. apply H3, H2. destruct (group_complete orders o Hin) as (l & E & Hl').
  rewrite <- Hn, E. cbn [default]. apply list_elem_of_In, in_map, list_elem_of_In, Hl'.
Qed.

Lemma poll_cycle_live s w :
  w_faults w = [] -> keyed (w_db w) ->
  wp (pollPendingOrders s) (fun out w' => forall o a, o ∈ payment_rows (w_db w) ->
    pollable (w_db w) (w_now w - ps_min_order_age s) o = true -> address_of (w_db w) o = Some a ->
    (w_now w <= ra_valid_until a)%Z -> w_faults w' = [] /\
    exists o', db_payment_orders (w_db w') !! po_id o = Some o' /\ decided_row s w o a o') w.
Proof.
  intros Hf Hk. pose proof (cycle_inv_refl s w) as H0. unfold pollPendingOrders. do 2 wp_step. cbn beta iota. wp_step.
  apply (wp_read_db_ok _ (w_db w)); [done|done|]. cbn beta iota. set (orders := List.filter _ _).
  assert (Hin : forall o, o ∈ orders <-> o ∈ payment_rows (w_db w) /\ pollable (w_db w) (w_now w - ps_min_order_age s) o = true)
    by (intros o; unfold orders; by rewrite !list_elem_of_In, filter_In).
  assert (Ho : all_pollable s w orders) by (apply Forall_forall; intros x Hx; by apply Hin).
  clearbody orders. destruct orders as [|o1 rest] eqn:Eo.
  { wp_step. intros o a H1 H2. exfalso. eapply not_elem_of_nil, Hin. by split. }
  rewrite <- Eo in *. clear Eo. wp_step. eapply wp_mono; [apply poll_networks_live; [done|exact Ho|done|]|].
  { split; [done|by intros ? ? ? ?%not_elem_of_nil|]. intros o Hor _. by apply keyed_row. }
  intros out w2 (s2 & -> & Hi2 & ids & Hl & _ & Hall). do 2 wp_step. cbn beta iota. wp_step. intros o a H1 H2 Ha Hv. split; [apply Hl|].
  apply Hl; [done| |done|done]. assert (Hoi : o ∈ orders) by (by apply Hin). apply Hall; [done|].
  rewrite map_order_permutes. destruct (group_complete orders o Hoi) as (l & E & _).
  apply list_elem_of_In, in_map_iff. eexists (_, _). split; [|apply list_elem_of_In, elem_of_map_to_list, E]. done.
Qed.

End found.

(** ** From a balance to an order on chain *)

Lemma create_one_run (tron evm : OrderService) o w :
  w_faults w = [] -> db_payment_orders (w_db w) !! po_id o = Some o ->
  d_ge (po_amount_paid o) (d_add (d_add (po_amount o) (po_network_fee o)) (po_sender_fee o)) = true ->
  exists w1, create_one tron evm o w = logged (CreateOrder (service_for tron evm (tk_network (po_token o))) (po_id o)) w1.
Proof.
  intros Hf Ho Hge. unfold create_one. rewrite Hge. unfold logged at 1 2, modify_db, bindM, tryM, ext, getM. rewrite Hf.
  cbn [view retM]. rewrite Ho. cbn [retM w_faults set_db w_db db_payment_orders set_payment_orders]. rewrite Hf. cbn [view w_db set_db].
  cbn [db_payment_orders set_payment_orders]. rewrite lookup_insert_eq. cbn [retM]. by eexists.
Qed.

Section creation.
Context {PL : PollLaws PS}.
Hypothesis node_answers : forall w url contract data, call_contract w url contract data <> None.
Variables tron evm : OrderService.

(** Polling and RetryStaleUserOperations together create orders that nobody paid:
    receive addresses are reused, so the address of a waiting order may have been
    used by another one.  When the balance that this other payment left there
    covers the waiting order, a cycle without failures writes it into the order;
    the order then is among those the retry task selects, and the task submits it
    to the chain, although no transfer for it was ever recorded. *)
Theorem polled_balance_creates_order s w po a a' i :
  keyed (w_db w) -> w_faults w = [] ->
  (* the waiting order, which nothing was paid into *)
  po ∈ payment_rows (w_db w) -> pollable (w_db w) (w_now w - ps_min_order_age s) po = true ->
  po_tx_hash po = "" -> po_gateway_id po = "" -> address_of (w_db w) po = Some a -> (w_now w <= ra_valid_until a)%Z ->
  (* another use of its address *)
  db_receive_addresses (w_db w) !! i = Some a' -> ra_address a' = po_receive_address_text po -> ra_status a' = AUsed ->
  (* the balance covers the order *)
  (forall b, fresh_balance s w (cache_key po a) b ->
     (d_val (po_amount_paid po) < d_val b)%Q /\ (d_val (po_amount po) + d_val (po_network_fee po) + d_val (po_sender_fee po) <= d_val b)%Q) ->
  wp (pollPendingOrders s) (fun out w' => exists orders o' w1,
    payment_query w' = (Ret orders, w') /\ o' ∈ orders /\ po_id o' = po_id po /\ po_tx_hash o' = "" /\
    create_one tron evm o' w' = logged (CreateOrder (service_for tron evm (tk_network (po_token po))) (po_id po)) w1) w.
Proof.
  intros Hk Hf Hin Hp Htx Hg Ha Hv Hi Hat Hst Hb.
  eapply wp_mono; [apply wp_and; [by apply poll_cycle_inv|by apply (poll_cycle_live node_answers)]|].
  intros out w' [(s' & -> & Hc) Hl]. destruct (Hl po a Hin Hp Ha Hv) as (Hf' & o' & Ho' & b & Hrec & E).
  destruct (Hb b Hrec) as [Hgt Hge]. assert (d_gt b (po_amount_paid po) = true) as Eg by (dec_to_q; lra). rewrite Eg in E. subst o'.
  destruct (create_one_run tron evm (po_set_paid (w_now w) b po) w' Hf' Ho') as (w1 & Hw1).
  { cbn [po_set_paid po_amount_paid po_amount po_network_fee po_sender_fee]. dec_to_q. lra. }
  exists (List.filter (create_due (w_db w') (w_now w')) (payment_rows (w_db w'))), (po_set_paid (w_now w) b po), w1.
  split; [unfold payment_query, read_db, ext, bindM, getM; by rewrite Hf'|]. split; [|done].
  apply list_elem_of_In, filter_In. split.
  { apply in_map_iff. eexists (_, _). split; [|apply list_elem_of_In, elem_of_map_to_list, Ho']. done. }
  unfold create_due. cbn [po_set_paid po_status po_receive_address_text po_gateway_id po_updated_at]. rewrite Hg, (ci_now _ _ _ _ Hc).
  unfold pollable in Hp. rewrite !andb_true_iff in Hp. destruct Hp as [[-> _] _]. rewrite (ci_db _ _ _ _ Hc).
  cbn [db_receive_addresses set_payment_orders]. rewrite !andb_true_iff. split_and!; [done| |done|].
  - apply existsb_exists. exists a'. split; [apply in_map_iff; eexists (_, _); split; [|apply list_elem_of_In, elem_of_map_to_list, Hi]; done|].
    rewrite Hat, Hst, String.eqb_refl. by rewrite bool_decide_eq_true_2.
  - apply orb_true_iff. left. apply Z.leb_le. unfold five_minutes. lia.
Qed.

End creation.

(** ** Who looks for a payment *)

(** Which task looks at an order that a transfer could still pay: once the order is
    half a minute old, ResolvePaymentOrderMishaps does, also after polling wrote a
    balance into it; TaskIndexBlockchainEvents does not when its address is from the
    pool, nor once polling wrote a balance into it. *)
Theorem waiting_order_resolved d now addresses network po a b :
  awaiting d now addresses po = Some a -> on_network network po = true -> (po_created_at po <= now - thirty_seconds)%Z ->
  (0 <= d_val (po_amount_paid po) < d_val b)%Q ->
  missed d now network po = true /\ missed d now network (po_set_paid now b po) = true /\
  untouched d network (po_set_paid now b po) = false /\ (ra_status a = APoolAssigned -> untouched d network po = false).
Proof.
  intros Hw Hn Hc [H0 Hb]. unfold awaiting in Hw. destruct (po_receive_address po ≫= _) as [a1|] eqn:Ea; [|done]. cbn in Hw.
  destruct (_ && _) eqn:E in Hw; [|done]. injection Hw as ->. rewrite !andb_true_iff in E. destruct E as [[[[Hs _] _] Hst] Htx].
  assert (Hne : bool_decide (ra_status a = AExpired) = false).
  { apply bool_decide_eq_false_2. intros Hx. rewrite Hx in Hs. done. }
  assert (Hd : d_eqb b d_zero = false).
  { apply not_true_iff_false. rewrite d_eqb_spec, val_zero. intros Hx. rewrite Hx in Hb. lra. }
  unfold missed, untouched, has_address, address_of.
  cbn [po_set_paid po_status po_created_at po_tx_hash po_receive_address po_amount_paid].
  change (on_network network (po_set_paid now b po)) with (on_network network po). rewrite Ea, Hst, Htx, Hn, Hne, Hd.
  rewrite (proj2 (Z.leb_le _ _) Hc). split_and!; [done|done|by rewrite !andb_false_r|].
  intros ->. by rewrite bool_decide_eq_false_2, !andb_false_r.
Qed.

(** ** What is asked of the node *)

(** The call is balanceOf of the address, encoded as the contract expects it, and the
    amount is the answer in token units up to the rounding of the division. *)
Theorem token_balance_exact address z decimals :
  is_address (HexToAddress address) -> 0 <= decimals ->
  balance_data address = [112; 160; 130; 49] ++ replicate 12 0 ++ HexToAddress address /\
  forall result, set_bytes result = z ->
    (Qabs (d_val (human_balance result decimals) - inject_Z z / inject_Z (10 ^ decimals)) <= 1 # (2 * 10 ^ 16))%Q.
Proof.
  intros Ha Hd. split.
  - unfold balance_data. apply bytes_text.
    { rewrite !Forall_app. split_and!; [unfold byte; repeat (constructor; [lia|]); constructor|apply Forall_replicate; unfold byte; lia|apply Ha]. }
    pose proof (address_hex_lower _ Ha) as Hl. destruct Ha as [_ Hlen].
    destruct (address_hex (HexToAddress address)) as [|c1 [|c2 r]]; [done|done|]. cbn [after_prefix ToLower] in *.
    unfold hex_string in *. cbn in Hl. injection Hl as _ _ Hr. rewrite !lower_app, Hr.
    rewrite !foldr_app. reflexivity.
  - intros result <-. unfold human_balance.
    assert (Hnz : ~ (d_val (d_int (10 ^ decimals)) == 0)%Q).
    { rewrite val_int. unfold Qeq. simpl. pose proof (Z.pow_pos_nonneg 10 decimals). lia. }
    pose proof (val_div (d_int (set_bytes result)) _ Hnz) as H. by rewrite !val_int in H.
Qed.

End polling.

(** ** Witnesses on the seeded database *)

(** One payment of two units lies at the address that both orders use; the first
    order got it, the second waits. *)
Definition s_used_address : ReceiveAddress := mkRA 1 "0xPool" AUsed true "base" 8453 0 0 1 9 9 "0xhash" 2000000000000 "".
Definition s_open_address : ReceiveAddress := mkRA 2 "0xPool" APoolAssigned true "base" 8453 0 0 1 0 0 "" 2000000000000 "".
Definition s_paid_order : PaymentOrder :=
  po_set_status 9 PPending (po_set_paid 9 (d_int 2) (s_waiting "p1" 1)).
Definition s_poll_world : World :=
  let d := set_receive_addresses {[ 1 := s_used_address; 2 := s_open_address ]} (w_db s_index_world) in
  mkWorld (set_payment_orders {[ "p1" := s_paid_order; "p2" := s_waiting "p2" 2 ]} d) ∅ 0 (mkRedis ∅ ∅ ∅) [] 1000000000000 [] [].
Definition s_poll : PollingService := mkPoll 60000000000 300000000000 (mkMetrics 0 0 0 0 1000000000000 0) ∅ 30000000000.

(** A node at which every balance is two million units. *)
#[local] Instance sample_poll : PollServices := {|
  call_contract _ _ _ _ := Some (word 2000000);
  map_order _ l := l
|}.
#[local] Instance sample_poll_laws : PollLaws sample_poll.
Proof. by split. Qed.

Lemma s_poll_keyed : keyed (w_db s_poll_world).
Proof. intros id o H. cbn in H. by apply lookup_insert_Some in H as [[<- <-]|[_ [<- <-]%lookup_singleton_Some]]. Qed.

(** The token of the samples is the only one. *)
Definition s_catalog : catalog := fun _ _ => (nw_rpc_endpoint (tk_network (po_token s_paid_order)), tk_decimals (po_token s_paid_order)).
Lemma s_poll_catalogued : catalogued s_catalog (w_db s_poll_world).
Proof.
  intros po Hin. apply list_elem_of_In, in_map_iff in Hin as ([k o] & <- & Hin%list_elem_of_In%elem_of_map_to_list). cbn in Hin.
  by apply lookup_insert_Some in Hin as [[_ <-]|[_ [_ <-]%lookup_singleton_Some]].
Qed.

Lemma polling_correct_witness :
  rows_related (polled_row (recent (visited s_catalog (s_poll, s_poll_world, true)) 1000000000000 30000000000) s_poll s_poll_world)
    (db_payment_orders (w_db s_poll_world)) (db_payment_orders (w_db (pollPendingOrders s_poll s_poll_world).2)).
Proof.
  exact (proj2 (proj2 (proj2 (polling_correct s_catalog 0 0 60000000000 s_poll s_poll_world s_poll s_poll_world ltac:(lia) eq_refl
    s_poll_catalogued (rtc_refl _ _) s_poll_keyed)))).
Defined.

(** The tokens of the orders have six decimals. *)
Lemma s_poll_balance b key : fresh_balance s_poll s_poll_world key b -> b = human_balance (word 2000000) 6.
Proof.
  intros [(cb & H & _)|(w1 & po & a & Hin & _ & _ & r & [= <-] & ->)]; [done|].
  assert (Ht : tk_decimals (po_token po) = 6); [|by rewrite Ht].
  apply list_elem_of_In, in_map_iff in Hin as ([k o] & <- & Hin%list_elem_of_In%elem_of_map_to_list). cbn in Hin.
  by apply lookup_insert_Some in Hin as [[_ <-]|[_ [_ <-]%lookup_singleton_Some]].
Qed.

Lemma polled_balance_creates_order_witness :
  exists orders o' w1, payment_query (pollPendingOrders s_poll s_poll_world).2 = (Ret orders, (pollPendingOrders s_poll s_poll_world).2) /\
    o' ∈ orders /\ po_id o' = "p2" /\ po_tx_hash o' = "" /\
    create_one s_gateway s_gateway o' (pollPendingOrders s_poll s_poll_world).2 = logged (CreateOrder s_gateway "p2") w1.
Proof.
  refine (polled_balance_creates_order _ s_gateway s_gateway s_poll s_poll_world (s_waiting "p2" 2) s_open_address s_used_address 1
    s_poll_keyed eq_refl _ _ eq_refl eq_refl eq_refl _ eq_refl eq_refl eq_refl _).
  - done.
  - apply list_elem_of_In, in_map_iff. exists ("p2", s_waiting "p2" 2). split; [done|].
    apply list_elem_of_In, elem_of_map_to_list. vm_refl.
  - vm_refl.
  - vm_compute. discriminate.
  - intros b ->%s_poll_balance. split; vm_compute; [reflexivity|discriminate].
Defined.

Lemma token_balance_exact_witness :
  balance_data (hex_string (replicate 20 17)) = [112; 160; 130; 49] ++ replicate 12 0 ++ replicate 20 17 /\
  (Qabs (d_val (human_balance (word 2000000) 6) - inject_Z 2000000 / inject_Z (10 ^ 6)) <= 1 # (2 * 10 ^ 16))%Q.
Proof.
  destruct (token_balance_exact (hex_string (replicate 20 17)) 2000000 6) as [H1 H2]; [split; [vm_compute; repeat constructor; discriminate|vm_refl]|lia|].
  split; [exact H1|]. apply H2. vm_refl.
Defined.

Lemma waiting_order_resolved_witness :
  missed (w_db s_poll_world) (w_now s_poll_world) s_network (s_waiting "p2" 2) = true /\
  untouched (w_db s_poll_world) s_network (po_set_paid (w_now s_poll_world) (d_int 2) (s_waiting "p2" 2)) = false.
Proof.
  destruct (waiting_order_resolved (w_db s_poll_world) (w_now s_poll_world) ["0xpool"] s_network (s_waiting "p2" 2) s_open_address
    (d_int 2)) as (H1 & _ & H2 & _); [vm_refl|vm_refl|vm_compute; discriminate|split; [vm_compute; discriminate|vm_compute; reflexivity]|].
  split; [exact H1|exact H2].
Defined.
