(* ===== verification/Insight.v ===== *)
(** * Reports of chain events and reindexing (controllers/index.go)

    The receiver of the events that thirdweb reports ([InsightWebhook]): it checks the
    signature and the age of the payload and hands each event to the handlers of
    [Indexer] and [Orders].  The endpoints that index a transaction, an address or the
    address of a provider on request.  The body is the text that is signed together
    with what [json.Unmarshal] makes of it. *)

From S2P Require Import Prelude Decimal Schema Store Samples Transactions Balance Utils Ethereum Services Queue Orders Rows Payments Http Tasks.
From S2P Require Import Indexer Gateway ChainEvents EvmIndexer IndexTasks.
Local Open Scope go_scope.
Local Open Scope string_scope.
Local Open Scope list_scope.

(** ** Payloads (types/types.go) *)

Record ThirdwebEventData := mkTED {
  te_chain_id : string;
  te_block_number : Z;
  te_transaction_hash : string;
  te_address : string;
  te_topics : list string;
  (** the decoded event *)
  te_name : string;
  te_indexed_params : list (string * json);
  te_non_indexed_params : list (string * json)
}.
Record ThirdwebWebhookEvent := mkTWE {
  we_data : ThirdwebEventData;
  we_status : string;
  we_type : string;
  we_id : string
}.
Record ThirdwebWebhookPayload := mkTWP {
  wp_data : list ThirdwebWebhookEvent;
  wp_timestamp : Z;
  wp_topic : string
}.
(** A row of the webhooks that were created at the service. *)
Record PaymentWebhook := mkPW {
  pw_webhook_id : string;
  pw_webhook_secret : string
}.

Class InsightServices `{O : DecimalOps} := {
  (** the table of webhooks *)
  payment_webhooks : DB -> list PaymentWebhook;
  (** HMAC-SHA256 of a text under a secret, in hexadecimal *)
  hmac_hex : string -> string -> string
}.

(** ** Numbers *)

(** [strconv.ParseInt(s, 10, 64)] *)
Fixpoint digits_value (l : list ascii) (acc : Z) : option Z :=
  match l with
  | [] => Some acc
  | c :: r =>
      let n := Z.of_nat (Ascii.nat_of_ascii c) in
      if (48 <=? n)%Z && (n <=? 57)%Z then digits_value r (10 * acc + (n - 48)) else None
  end.
Definition ParseInt (s : string) : option Z :=
  let l := String.list_ascii_of_string s in
  let '(sign, ds) := match l with
                     | "-"%char :: r => (-1, r)
                     | "+"%char :: r => (1, r)
                     | _ => (1, l)
                     end in
  match ds with
  | [] => None
  | _ => v ← digits_value ds 0;
         let n := (sign * v)%Z in
         if (- 2 ^ 63 <=? n)%Z && (n <? 2 ^ 63)%Z then Some n else None
  end.

Section insight.
Context {O : DecimalOps} {OS : @OrderServices O} {SV : @Services O} {EC : EthCommon} {IS : @InsightServices O}.
Variable conf : Config.
Variable service : OrderService.
(** the bounds of the queue walks and of the nesting of assignments *)
Variables qfuel depth : nat.

(** ** Signature and age *)

Definition generateWebhookSignature (rawBody secret : string) : string := hmac_hex secret rawBody.

Definition verifyWebhookSignature (rawBody signature webhookID : string) : M bool :=
  let! webhook := wrapM "webhook not found"
    (do! ext in
     let! w := getM in
     first (List.filter (fun h => String.eqb (pw_webhook_id h) webhookID) (payment_webhooks (w_db w)))) in
  retM (String.eqb (generateWebhookSignature rawBody (pw_webhook_secret webhook)) signature).

(** [time.Now().Unix()] *)
Definition unix (now : Z) : Z := now / 1000000000.
Definition isWebhookPayloadExpired (now timestamp expirationInSeconds : Z) : bool :=
  (expirationInSeconds <? wrap64 (unix now - timestamp))%Z.
(** [int64(d.Seconds())] *)
Definition seconds (duration : Z) : Z := Z.quot duration 1000000000.

(** ** Events *)

Definition parse_chain (event : ThirdwebEventData) : M Z :=
  match ParseInt (te_chain_id event) with Some n => retM n | None => errM (EMsg "invalid chain ID") end.
Definition chain_network (chainID : Z) : M Network :=
  wrapM "network not found"
    (let! d := read_db None in only (List.filter (fun n => (nw_chain_id n =? chainID)%Z) (db_networks d))).

(** The text of a parameter, whose type assertion panics. *)
Definition indexed (event : ThirdwebEventData) (key : string) : M string := as_string (json_get key (te_indexed_params event)).
Definition non_indexed (event : ThirdwebEventData) (key : string) : M string :=
  as_string (json_get key (te_non_indexed_params event)).
Definition parse_dec (msg s : string) : M dec := match d_parse s with Some d => retM d | None => errM (EMsg msg) end.
Definition hex_address_text (s : string) : string := address_hex (HexToAddress s).

Definition handleTransferEvent (event : ThirdwebEventData) : M unit :=
  let! chainID := parse_chain event in
  let! token := wrapM "token not found"
    (let! d := read_db None in
     only (List.filter (fun t => EqualFold (tk_contract_address t) (te_address event) &&
                                 (nw_chain_id (tk_network t) =? chainID)%Z) (db_tokens d))) in
  let! to := indexed event "to" in
  let toAddress := hex_address_text to in
  let! from := indexed event "from" in
  let fromAddress := hex_address_text from in
  let! valueStr := non_indexed event "value" in
  if EqualFold fromAddress (nw_gateway_contract_address (tk_network token)) then retM tt
  else
    let! transferValue := parse_dec "invalid transfer value" valueStr in
    let transferEvent := mkTTE (te_block_number event) (te_transaction_hash event) fromAddress toAddress
                           (from_subunit transferValue token) in
    wrapM "failed to process transfer"
      (ProcessTransfers conf service qfuel [toAddress] [(toAddress, transferEvent)] token).

(** The event is handed on under its transaction hash. *)
Definition handleOrderCreatedEvent (event : ThirdwebEventData) : M unit :=
  let! chainID := parse_chain event in
  let! network := chain_network chainID in
  let! amount := (let! s := indexed event "amount" in parse_dec "invalid amount" s) in
  let! protocolFee := (let! s := non_indexed event "protocolFee" in parse_dec "invalid protocol fee" s) in
  let! rate := (let! s := non_indexed event "rate" in parse_dec "invalid rate" s) in
  let! token := indexed event "token" in
  let! orderId := non_indexed event "orderId" in
  let! messageHash := non_indexed event "messageHash" in
  let! sender := indexed event "sender" in
  let orderEvent := mkOCE (te_block_number event) (te_transaction_hash event) (hex_address_text token) amount protocolFee
                      orderId (d_div rate (d_int 100)) messageHash (hex_address_text sender) in
  wrapM "failed to process order"
    (ProcessCreatedOrders conf service qfuel depth network [oc_tx_hash orderEvent] {[ oc_tx_hash orderEvent := orderEvent ]}).

(** The lock order of a gateway id, which must be the only one. *)
Definition gateway_lock_order (orderId : string) : M LockPaymentOrder :=
  wrapM "lock payment order not found"
    (let! d := read_db None in only (List.filter (fun o => String.eqb (lo_gateway_id o) orderId) (lock_rows d))).

Definition handleOrderSettledEvent (event : ThirdwebEventData) : M unit :=
  let! chainID := parse_chain event in
  let! network := chain_network chainID in
  let! settlePercent := (let! s := non_indexed event "settlePercent" in parse_dec "invalid settle percent" s) in
  let! splitOrderId := non_indexed event "splitOrderId" in
  let! orderId := indexed event "orderId" in
  let! provider := indexed event "liquidityProvider" in
  let settledEvent := mkOSE (te_block_number event) (te_transaction_hash event) splitOrderId orderId
                        (hex_address_text provider) settlePercent in
  let! lockOrder := gateway_lock_order orderId in
  wrapM "failed to process settled order" (UpdateOrderStatusSettled network settledEvent (lo_message_hash lockOrder)).

(** [m\[key\] == nil] *)
Definition is_nil (v : option json) : bool := match v with None | Some JNull => true | _ => false end.

Definition handleOrderRefundedEvent (event : ThirdwebEventData) : M unit :=
  let! chainID := parse_chain event in
  let! network := chain_network chainID in
  if is_nil (json_get "orderId" (te_indexed_params event)) then errM (EMsg "missing orderId in indexed params")
  else if is_nil (json_get "fee" (te_non_indexed_params event)) then errM (EMsg "missing fee in non-indexed params")
  else
    let! fee := (let! s := non_indexed event "fee" in parse_dec "invalid fee" s) in
    let! orderId := indexed event "orderId" in
    let refundedEvent := mkORE (te_block_number event) (te_transaction_hash event) fee orderId in
    let! lockOrder := gateway_lock_order orderId in
    wrapM "failed to process refunded order" (UpdateOrderStatusRefunded network refundedEvent (lo_message_hash lockOrder)).

(** By the signature, else by the decoded name. *)
Definition handleNewEvent (event : ThirdwebEventData) : M unit :=
  let eventSignature := default "" (head (te_topics event)) in
  if String.eqb eventSignature TransferEventSignature then handleTransferEvent event
  else if String.eqb eventSignature OrderCreatedEventSignature then handleOrderCreatedEvent event
  else if String.eqb eventSignature OrderSettledEventSignature then handleOrderSettledEvent event
  else if String.eqb eventSignature OrderRefundedEventSignature then handleOrderRefundedEvent event
  else if String.eqb (te_name event) "Transfer" then handleTransferEvent event
  else if String.eqb (te_name event) "OrderCreated" then handleOrderCreatedEvent event
  else if String.eqb (te_name event) "OrderSettled" then handleOrderSettledEvent event
  else if String.eqb (te_name event) "OrderRefunded" then handleOrderRefundedEvent event
  else retM tt.

(** A reverted event is only logged. *)
Definition handleRevertedEvent (event : ThirdwebEventData) : M unit := retM tt.

Fixpoint processWebhookEvents (events : list ThirdwebWebhookEvent) : M unit :=
  match events with
  | [] => retM tt
  | event :: rest =>
      do! (if String.eqb (we_status event) "reverted" then logged (handleRevertedEvent (we_data event))
           else if String.eqb (we_status event) "new" then logged (handleNewEvent (we_data event))
           else retM tt) in
      processWebhookEvents rest
  end.

(** The handler; [payload] is what the body unmarshals to. *)
Definition InsightWebhook (rawBody signature webhookID : string) (payload : option ThirdwebWebhookPayload) : M Z :=
  if String.eqb signature "" || String.eqb webhookID "" then retM 400
  else
    let? valid := verifyWebhookSignature rawBody signature webhookID orelse _e => (retM 401) in
    if negb valid then retM 401
    else
      match payload with
      | None => retM 400
      | Some webhookPayload =>
          let! w := getM in
          if isWebhookPayloadExpired (w_now w) (wp_timestamp webhookPayload) (seconds (cf_receive_address_validity conf))
          then retM 400
          else
            do? processWebhookEvents (wp_data webhookPayload) orelse _e => (retM 500) in
            retM 200
      end.

End insight.

(** ** Indexing on request *)

Section reindex.
Context {O : DecimalOps} {OS : @OrderServices O} {SV : @Services O} {EC : EthCommon} {CS : @ChainServices O} {HI : @HistoryServices O}.
Variable conf : Config.
Variable service : OrderService.
Variables qfuel depth : nat.
Variable tron : Indexer.
(** [NewIndexerEVM] *)
Variable etherscanKey : string.

(** The counts of a run of the gateway, which ignores transfers; an error counts as
    nothing. *)
Definition gateway_counts (m : M EventCounts) : M EventCounts :=
  let? c := m orelse _e => (retM no_counts) in
  retM (mkCounts 0 (ec_order_created c) (ec_order_settled c) (ec_order_refunded c)).
Definition transfer_counts (m : M EventCounts) : M EventCounts :=
  let? c := m orelse _e => (retM no_counts) in
  retM (mkCounts (ec_transfer c) 0 0 0).

(** The network by chain id or identifier. *)
Definition requested_network (networkParam : string) : M Network :=
  let! d := read_db None in
  only (List.filter (fun n =>
    match ParseInt networkParam with
    | Some chainID => (nw_chain_id n =? chainID)%Z
    | None => EqualFold (nw_identifier n) networkParam
    end && same_stage conf n) (db_networks d)).

Definition indexer_for (network : Network) : M Indexer :=
  if is_tron network then retM tron else NewIndexerEVM conf service qfuel depth etherscanKey.

(** The transfers to a receive address, for the first token of the network: the type
    assertion panics on a Tron network. *)
Definition index_receive (network : Network) (address : string) (fromBlock toBlock : Z) (txHash : string) : M EventCounts :=
  let? token := (let! d := read_db None in
                 first (List.filter (fun t => tk_is_enabled t && (nw_id (tk_network t) =? nw_id network)%Z) (db_tokens d)))
  orelse _e => (retM no_counts) in
  if is_tron network then panicM
  else transfer_counts (IndexReceiveAddressWithBypass conf service qfuel depth token address fromBlock toBlock txHash true).

Definition IndexTransaction (networkParam pathParam fromBlockStr toBlockStr : string) : M (ApiResponse EventCounts) :=
  let hex := HasPrefix pathParam "0x" in
  let txHash := if hex && (String.length pathParam =? 66)%nat then pathParam else "" in
  let address := if hex && (String.length pathParam =? 42)%nat then pathParam else "" in
  let block (s : string) : option Z := if String.eqb s "" then Some 0 else ParseInt s in
  if negb hex then api_error 400 "Invalid path parameter. Must be a valid transaction hash (66 chars) or address (42 chars)"
  else if String.eqb txHash "" && String.eqb address "" && (String.eqb fromBlockStr "" || String.eqb toBlockStr "")
  then api_error 400 "Must provide either a valid transaction hash, address, or from_block/to_block range"
  else
    match block fromBlockStr, block toBlockStr with
    | None, _ => api_error 400 "Invalid from_block format"
    | Some _, None => api_error 400 "Invalid to_block format"
    | Some fromBlock, Some toBlock =>
        if negb (String.eqb fromBlockStr "") && negb (String.eqb toBlockStr "") && (toBlock <=? fromBlock)%Z
        then api_error 400 "from_block must be less than to_block"
        else
          let? network := requested_network networkParam
          orelse e => (if IsNotFound e then api_error 400 "Network not found or not supported for current environment"
                       else api_error 500 "Failed to validate network") in
          let? ix := indexer_for network orelse _e => (api_error 500 "Failed to initialize indexer") in
          let gateway (hash : string) :=
            gateway_counts (ix_gateway ix network (nw_gateway_contract_address network) fromBlock toBlock hash) in
          if negb (String.eqb txHash "") then
            let! counts := gateway txHash in
            api_success 200 ("Successfully indexed transaction " +:+ txHash +:+ " for network " +:+ networkParam) counts
          else if negb (String.eqb address "") then
            if EqualFold address (nw_gateway_contract_address network) then
              let! counts := gateway "" in
              api_success 200 ("Successfully indexed address " +:+ address +:+ " for network " +:+ networkParam) counts
            else
              let? _a := (let! d := read_db None in
                          first (List.filter (fun a => String.eqb (ra_address a) address)
                                   (map snd (map_to_list (db_receive_addresses d)))))
              orelse _e => (api_error 400 ("Address " +:+ address +:+ " is not a valid receive address or gateway contract address")) in
              let! counts := index_receive network address fromBlock toBlock txHash in
              api_success 200 ("Successfully indexed address " +:+ address +:+ " for network " +:+ networkParam) counts
          else
            api_success 200 ("Successfully indexed block range " +:+ int_string fromBlock +:+ "-" +:+ int_string toBlock +:+
                             " for network " +:+ networkParam) no_counts
    end.

(** The bound request of the endpoint for providers. *)
Record IndexProviderRequest := mkIPR {
  ip_network : string;
  ip_provider_id : string;
  ip_token_symbol : string;
  ip_currency_code : string;
  ip_from_block : Z;
  ip_to_block : Z;
  ip_tx_hash : string
}.

Definition index_provider_address (request : IndexProviderRequest) : M (ApiResponse EventCounts) :=
  let? network := (let! d := read_db None in
                   only (List.filter (fun n => String.eqb (nw_identifier n) (ip_network request)) (db_networks d)))
  orelse _e => (api_error 400 "Network not found") in
  let? token := (let! d := read_db None in
                 only (List.filter (fun t => String.eqb (tk_symbol t) (ip_token_symbol request) &&
                                             (nw_id (tk_network t) =? nw_id network)%Z) (db_tokens d)))
  orelse _e => (api_error 400 "Token not found") in
  let? pot := (let! d := read_db None in
               only (List.filter (fun t => String.eqb (pot_provider t) (ip_provider_id request) &&
                                           (tk_id (pot_token t) =? tk_id token)%Z &&
                                           String.eqb (pot_currency t) (ip_currency_code request) &&
                                           negb (String.eqb (pot_address t) "")) (db_order_tokens d)))
  orelse _e => (api_error 400 "Provider order token not found") in
  let? ix := indexer_for network orelse _e => (api_error 500 "Failed to create indexer") in
  let? counts := ix_provider ix network (pot_address pot) (ip_from_block request) (ip_to_block request) (ip_tx_hash request)
  orelse _e => (api_error 500 "Failed to index provider address") in
  api_success 200 "Provider address indexed successfully" counts.

End reindex.
