(* ===== verification/InsightClaims.v ===== *)
(** * Theorems about reported chain events

    A payload is processed exactly when it is signed, recent and readable; each of its
    events then goes to its handler, in order, and the payload is acknowledged unless a
    handler panics ([insight_webhook_correct]).  A reported transfer pays its order.
    With their witnesses. *)

From S2P Require Import Prelude Decimal Schema Store Samples Transactions Balance Utils Ethereum Services Queue Calm.
From S2P Require Import Orders OrderClaims Rows Payments Http Tasks TaskClaims Indexer IndexerClaims Gateway GatewayClaims ChainEvents EvmIndexer.
From S2P Require Import ChainEventClaims IndexTasks IndexTaskClaims Insight.
Local Open Scope go_scope.
Local Open Scope string_scope.
Local Open Scope list_scope.

Section insight.
Context {O : DecimalOps} {L : DecimalLaws O} {OS : @OrderServices O} {SV : @Services O} {SL : ServicesLaws SV}.
Context {EC : EthCommon} {EL : EthLaws EC} {IS : @InsightServices O}.
Variable conf : Config.
Variable service : OrderService.
Variables qfuel depth : nat.

(** ** Who is heard *)

(** The signature is that of the body under the secret of the webhook, and the
    payload is not too old. *)
Definition authentic (w : World) (rawBody signature webhookID : string) (payload : option ThirdwebWebhookPayload) : Prop :=
  exists h rest p,
    List.filter (fun h => String.eqb (pw_webhook_id h) webhookID) (payment_webhooks (w_db w)) = h :: rest /\
    hmac_hex (pw_webhook_secret h) rawBody = signature /\ payload = Some p /\
    isWebhookPayloadExpired (w_now w) (wp_timestamp p) (seconds (cf_receive_address_validity conf)) = false.

(** Both headers are there and the report is authentic. *)
Definition heard (w : World) (rawBody signature webhookID : string) (payload : option ThirdwebWebhookPayload) : Prop :=
  signature <> "" /\ webhookID <> "" /\ authentic w rawBody signature webhookID payload.

(** The events of a report take a world to another one: each event with the status
    "new" is handled in turn, in the world the one before has left and whether or not
    that one failed, up to the first handler that panics; the others do nothing. *)
Inductive handled : list ThirdwebWebhookEvent -> World -> World -> bool -> Prop :=
  | handled_nil w : handled [] w w false
  | handled_new e es w o w1 w2 panicked :
      we_status e = "new" -> handleNewEvent conf service qfuel depth (we_data e) w = (o, w1) -> o <> Panic ->
      handled es w1 w2 panicked -> handled (e :: es) w w2 panicked
  | handled_panic e es w w1 :
      we_status e = "new" -> handleNewEvent conf service qfuel depth (we_data e) w = (Panic, w1) ->
      handled (e :: es) w w1 true
  | handled_other e es w w2 panicked :
      we_status e <> "new" -> handled es w w2 panicked -> handled (e :: es) w w2 panicked.

Lemma process_events_handled events w :
  wp (processWebhookEvents conf service qfuel depth events) (fun out w' =>
    out = Ret tt /\ handled events w w' false \/ out = Panic /\ handled events w w' true) w.
Proof.
  revert w. induction events as [|e events IH]; intros w; [left; split; [done|constructor]|]. cbn [processWebhookEvents].
  destruct (String.eqb_spec (we_status e) "reverted") as [Er|Er]; [|destruct (String.eqb_spec (we_status e) "new") as [En|En]].
  - unfold handleRevertedEvent, logged. repeat wp_step. eapply wp_mono; [apply IH|].
    intros out w' [[-> H]|[-> H]]; [left|right]; (split; [done|]); apply handled_other; try done; by rewrite Er.
  - unfold wp, bindM, logged, tryM. destruct (handleNewEvent _ _ _ _ _ w) as [o w1] eqn:Eh.
    assert (Hnext : o <> Panic -> wp (processWebhookEvents conf service qfuel depth events) (fun out w' =>
      out = Ret tt /\ handled (e :: events) w w' false \/ out = Panic /\ handled (e :: events) w w' true) w1).
    { intros Ho. eapply wp_mono; [apply IH|].
      intros out w' [[-> H]|[-> H]]; [left|right]; (split; [done|]); by eapply handled_new. }
    destruct o as [[]|er|]; cbn [fst snd retM]; [by apply Hnext|by apply Hnext|]. right. split; [done|]. by eapply handled_panic.
  - wp_step. wp_step. eapply wp_mono; [apply IH|].
    intros out w' [[-> H]|[-> H]]; [left|right]; (split; [done|]); by apply handled_other.
Qed.

(** The answer to a report: processed, or refused with nothing done. *)
Definition answered (w : World) (rawBody signature webhookID : string) (payload : option ThirdwebWebhookPayload)
    (out : outcome Z) (w' : World) : Prop :=
  let processed panicked := heard w rawBody signature webhookID payload /\
    exists p, payload = Some p /\ handled (wp_data p) (set_faults (tl (w_faults w)) w) w' panicked in
  match out with
  | Ret code => (code = 200 /\ processed false) \/
      ((code = 400 \/ code = 401) /\ idle w w' /\ (w_faults w = [] -> ~ heard w rawBody signature webhookID payload))
  | Panic => processed true
  | Err _ => False
  end.

(** A report that is not heard is refused. *)
Lemma refused w rawBody signature webhookID payload code w' :
  code = 400 \/ code = 401 -> idle w w' -> (w_faults w = [] -> ~ heard w rawBody signature webhookID payload) ->
  answered w rawBody signature webhookID payload (Ret code) w'.
Proof. by right. Qed.

(** The query for the webhook is the first call; it takes one of the failures to come. *)
Lemma wp_ext_tail (Q : outcome unit -> World -> Prop) w :
  Q (Ret tt) (set_faults (tl (w_faults w)) w) ->
  (w_faults w <> [] -> Q (Err EFault) (set_faults (tl (w_faults w)) w)) -> wp ext Q w.
Proof.
  intros Hok Hbad. unfold wp, ext. destruct (w_faults w) as [|[] fs] eqn:E; simpl in *; [|by apply Hbad|done].
  by rewrite <- E, set_faults_id in Hok.
Qed.

(** C37: a report is processed exactly when it carries both headers, its signature
    belongs to the body under the secret of the stored webhook, and it is not too old
    (a report that is processed satisfies all this, whatever fails, and one that
    satisfies it is processed unless the query for the webhook fails).  Processing
    handles every event with the status "new" once and in order, each in the world the
    one before has left, also after a handler has failed; the answer is then 200, and
    only a handler that panics stops the rest and leaves the report without an answer.
    Any other report is answered 400 or 401 and nothing changes. *)
Theorem insight_webhook_correct rawBody signature webhookID payload w :
  wp (InsightWebhook conf service qfuel depth rawBody signature webhookID payload)
    (answered w rawBody signature webhookID payload) w.
Proof.
  unfold InsightWebhook, verifyWebhookSignature.
  destruct (String.eqb_spec signature "") as [Hs|Hs]; [apply wp_ret, refused; [by left|done|by intros _ (? & _)]|].
  destruct (String.eqb_spec webhookID "") as [Hw|Hw]; [apply wp_ret, refused; [by left|done|by intros _ (_ & ? & _)]|].
  cbn [orb]. wp_step. wp_step. wp_step. wp_step.
  apply wp_ext_tail; [|intros Hf; wp_step; apply refused; [by right|done|done]].
  do 2 wp_step. cbn [w_db set_faults]. destruct (List.filter _ _) as [|h rest] eqn:E; cbn [first].
  { do 2 wp_step. apply refused; [by right|done|]. intros _ (_ & _ & h & rest & p & Eh & _). congruence. }
  do 2 wp_step. unfold generateWebhookSignature.
  destruct (String.eqb_spec (hmac_hex (pw_webhook_secret h) rawBody) signature) as [Es|Es]; cbn [negb].
  2:{ wp_step. apply refused; [by right|done|]. intros _ (_ & _ & h' & rest' & p & Eh & Es' & _). congruence. }
  destruct payload as [p|]; [|wp_step; apply refused; [by left|done|by intros _ (_ & _ & ? & ? & ? & _ & _ & ? & _)]].
  do 2 wp_step. cbn [w_now set_faults]. destruct (isWebhookPayloadExpired _ _ _) eqn:Ex.
  { wp_step. apply refused; [by left|done|]. intros _ (_ & _ & h' & rest' & p' & _ & _ & [= <-] & Ex'). congruence. }
  assert (Ha : heard w rawBody signature webhookID (Some p)) by (split_and!; [done|done|by exists h, rest, p]).
  wp_step. eapply wp_mono; [apply process_events_handled|]. intros out w1 [[-> H]|[-> H]]; cbn beta iota.
  - wp_step. left. split; [done|]. split; [exact Ha|]. by exists p.
  - split; [exact Ha|]. by exists p.
Qed.

(** One new event in an authentic payload, without failures. *)
Lemma insight_run rawBody signature webhookID timestamp topic data type id w (Q : World -> Prop) :
  w_faults w = [] -> signature <> "" -> webhookID <> "" ->
  authentic w rawBody signature webhookID (Some (mkTWP [mkTWE data "new" type id] timestamp topic)) ->
  wp (handleNewEvent conf service qfuel depth data) (fun _ w' => Q w') w ->
  wp (InsightWebhook conf service qfuel depth rawBody signature webhookID (Some (mkTWP [mkTWE data "new" type id] timestamp topic)))
    (fun _ w' => Q w') w.
Proof.
  intros Hf Hs%String.eqb_neq Hw%String.eqb_neq (h & rest & p & Eh & Es & [= <-] & Ex) Hh.
  unfold InsightWebhook, verifyWebhookSignature, generateWebhookSignature. rewrite Hs, Hw. cbn [orb]. wp_step. wp_step. wp_step. wp_step.
  apply wp_ext_ok; [done|]. do 2 wp_step. rewrite Eh. cbn [first]. do 2 wp_step. rewrite Es, String.eqb_refl. cbn [negb]. do 2 wp_step.
  rewrite Ex. wp_step. cbn [processWebhookEvents wp_data we_status we_data].
  change (String.eqb "new" "reverted") with false. change (String.eqb "new" "new") with true. cbn iota.
  unfold wp, bindM, logged, tryM in *. destruct (handleNewEvent _ _ _ _ _ w) as [[[]|e|] w1]; exact Hh.
Qed.

(** ** Reported transfers *)

(** A report of a transfer of the token: the contract, the chain and the decoded
    parameters. *)
Record reports_transfer (event : ThirdwebEventData) (tk : Token) (from to value : string) (w : World) : Prop := {
  rt_signature : head (te_topics event) = Some TransferEventSignature;
  rt_chain : ParseInt (te_chain_id event) = Some (nw_chain_id (tk_network tk));
  rt_token : List.filter (fun t => EqualFold (tk_contract_address t) (te_address event) &&
      (nw_chain_id (tk_network t) =? nw_chain_id (tk_network tk))%Z) (db_tokens (w_db w)) = [tk];
  rt_params : json_get "from" (te_indexed_params event) = Some (JStr from) /\
    json_get "to" (te_indexed_params event) = Some (JStr to) /\
    json_get "value" (te_non_indexed_params event) = Some (JStr value);
  rt_sender : EqualFold (hex_address_text from) (nw_gateway_contract_address (tk_network tk)) = false
}.

Lemma handle_transfer_run event tk from to value v w :
  w_faults w = [] -> reports_transfer event tk from to value w -> d_parse value = Some v ->
  let e := mkTTE (te_block_number event) (te_transaction_hash event) (hex_address_text from) (hex_address_text to) (from_subunit v tk) in
  handleTransferEvent conf service qfuel event w =
    wrapM "failed to process transfer" (ProcessTransfers conf service qfuel [tt_to e] [(tt_to e, e)] tk) w.
Proof.
  intros Hf [_ Hc Ht (Hp1 & Hp2 & Hp3) Hs] Hv. cbn zeta.
  unfold handleTransferEvent, parse_chain, indexed, non_indexed, as_string, parse_dec. rewrite Hc, Hp1, Hp2, Hp3.
  unfold bindM at 1. cbn [retM]. unfold bindM at 1. unfold wrapM at 1. unfold tryM at 1. unfold read_db, ext, bindM at 1 2. rewrite Hf.
  cbn [view]. rewrite Ht. cbn [only retM]. unfold bindM. cbn [retM]. rewrite Hs, Hv. reflexivity.
Qed.

(** A reported transfer pays its order: an authentic payload with the report of a
    transfer to the address of a waiting order, without failures, records the
    transfer as the payment of that order. *)
Theorem reported_transfer_pays rawBody signature webhookID timestamp topic data type id tk from to value v po a w :
  frames service -> w_faults w = [] -> signature <> "" -> webhookID <> "" ->
  authentic w rawBody signature webhookID (Some (mkTWP [mkTWE data "new" type id] timestamp topic)) ->
  reports_transfer data tk from to value w -> d_parse value = Some v ->
  let event := mkTTE (te_block_number data) (te_transaction_hash data) (hex_address_text from) (hex_address_text to) (from_subunit v tk) in
  (0 < d_val (tt_value event))%Q -> fresh_transfer event (w_db w) -> payable event w (po, a) ->
  awaiting_orders (w_db w) (w_now w) [tt_to event] = [(po, a)] ->
  wp (InsightWebhook conf service qfuel depth rawBody signature webhookID (Some (mkTWP [mkTWE data "new" type id] timestamp topic)))
    (fun out w' => paid_by event w' (po, a)) w.
Proof.
  intros Hfr Hf Hs Hw Hau Hr Hv event Hpos Hfresh Hp Haw.
  pose proof (process_transfers_run conf service qfuel tk event w po a Hfr Hf Hpos Hfresh Hp Haw) as Hrun.
  pose proof (handle_transfer_run data tk from to value v w Hf Hr Hv) as Hh. cbn zeta in Hh. fold event in Hh.
  pose proof (rt_signature _ _ _ _ _ _ Hr) as Hsig. apply insight_run; [done..|].
  unfold handleNewEvent. rewrite Hsig. cbn [default]. rewrite String.eqb_refl.
  unfold wp in *. rewrite Hh. unfold wrapM, tryM. destruct (ProcessTransfers _ _ _ _ _ _ w) as [[[]|e|] w1]; exact Hrun.
Qed.

(** ** Reported settlements *)

Lemma record_log_live n F st gw net hash md w :
  w_faults w = [] -> tx_maps n F w ->
  wp (record_log n st gw net hash md) (fun o w' => exists logs, o = Ret logs /\ w_faults w' = [] /\ same_db w w' /\ tx_maps n F w') w.
Proof.
  intros Hf H. pose proof H as (g & Hg & _).
  assert (Hl : wp (record_log n st gw net hash md) (fun o w' => exists logs, o = Ret logs /\ w_faults w' = []) w).
  { unfold record_log. wp_step. eapply wp_modify_tx_ok; [done|exact Hg|]. cbn [update_logs insert_log]. case_match.
    - do 3 wp_step. eapply wp_modify_tx_ok; [done|apply lookup_insert_eq|]. cbn [insert_log]. wp_step. by eexists.
    - wp_step. by eexists. }
  pose proof (record_log_wp n F st gw net hash md w H) as Hw. unfold wp in *.
  destruct Hl as (logs & -> & Hf'), Hw as (S & _ & M'). by exists logs.
Qed.

Lemma filter_settled network split now block hash st logs m :
  List.filter (settles network split)
    (map snd (map_to_list (update_where (settles network split) (lo_on_chain now block hash st logs) m))) =
  map (lo_on_chain now block hash st logs) (List.filter (settles network split) (map snd (map_to_list m))).
Proof.
  unfold update_where. rewrite map_to_list_fmap.
  induction (map_to_list m) as [|[k o] l IH]; [done|]. rewrite fmap_cons. cbn [map snd prod_map List.filter].
  destruct (settles network split o) eqn:E.
  - change (settles network split (lo_on_chain now block hash st logs o)) with (settles network split o). rewrite E. cbn [map]. by f_equal.
  - rewrite E. exact IH.
Qed.

Lemma balance_info_live n network split G now block hash st logs ord p b fc w :
  w_faults w = [] -> (forall m, G m = update_where (settles network split) (lo_on_chain now block hash st logs) m) -> tx_maps n G w ->
  List.filter (settles network split) (lock_rows (w_db w)) = [ord] -> lo_provider ord = Some p ->
  lo_provision_bucket ord = Some b -> db_currencies (w_db w) !! pb_currency b = Some fc ->
  wp (order_balance_info n (settles network split)) (fun o w' => o = Ret (Some (p, fc_code fc, fiat_amount (lo_amount ord) (lo_rate ord))) /\
    w' = w) w.
Proof.
  intros Hf HG (g & Hg & Hmap) Ho Hp Hb Hc. unfold order_balance_info. do 2 wp_step.
  destruct (Hmap (w_db w)) as (_ & [Hcur _] & Hl).
  apply (wp_read_db_ok _ (g (w_db w))); [done|cbn [view]; by rewrite Hg|]. cbn beta iota. wp_step.
  unfold lock_rows in Ho |- *. rewrite Hl, HG, filter_settled, Ho. cbn [map only]. do 2 wp_step.
  split; [|done]. cbn [lo_on_chain lo_provider lo_provision_bucket]. rewrite Hp, Hb. cbn. by rewrite Hcur, Hc.
Qed.

Lemma settle_balance_live n G p c amount pc w :
  w_faults w = [] -> tx_maps n G w -> db_provider_currencies (w_db w) !! (p, c) = Some pc ->
  wp (settle_balance p c amount) (fun o w' => o = Ret tt /\ tx_maps n G w' /\
    db_provider_currencies (w_db w') !! (p, c) = Some (settled_row amount (w_now w) pc)) w.
Proof.
  intros Hf H Hpc.
  assert (Hl : wp (settle_balance p c amount) (fun o w' =>
    db_provider_currencies (w_db w') !! (p, c) = Some (settled_row amount (w_now w) pc)) w).
  { unfold settle_balance, GetProviderBalance, UpdateProviderBalance, query_pc, update_pc. do 3 wp_step.
    apply (wp_read_db_ok _ (w_db w)); [done|done|]. cbn beta iota. rewrite Hpc. wp_step.
    destruct (settled_balances amount pc) as [t r] eqn:Es. cbn beta iota. wp_step. wp_step. wp_step.
    apply (wp_read_db_ok _ (w_db w)); [done|done|]. cbn beta iota. rewrite Hpc. do 3 wp_step. wp_step.
    apply wp_write_direct_ok; [done|]. cbn beta iota. wp_step. cbn [w_db set_db db_provider_currencies set_pcs].
    rewrite lookup_alter_eq, Hpc. unfold settled_row. by rewrite Es. }
  pose proof (settle_balance_wp n G p c amount w H) as Hw. unfold wp in *. destruct Hw as (Ho & _ & HG & _). by split_and!.
Qed.

(** A settlement without failures debits the order's provider, whatever the status
    of the order is. *)
Lemma order_settled_live (OL : OrderLaws OS) network event mh split ord p b fc pc w :
  w_faults w = [] -> parse_split_id (os_split_order_id event) = Some split ->
  (length (List.filter (fun o => String.eqb (po_message_hash o) mh && po_on_network network o) (payment_rows (w_db w))) <= 1)%nat ->
  List.filter (settles network split) (lock_rows (w_db w)) = [ord] -> lo_provider ord = Some p ->
  lo_provision_bucket ord = Some b -> db_currencies (w_db w) !! pb_currency b = Some fc ->
  db_provider_currencies (w_db w) !! (p, fc_code fc) = Some pc ->
  wp (UpdateOrderStatusSettled network event mh) (fun o w' => db_provider_currencies (w_db w') !! (p, fc_code fc) =
    Some (settled_row (fiat_amount (lo_amount ord) (lo_rate ord)) (w_now w) pc)) w.
Proof.
  intros Hf Hsp Hone Ho Hp Hb Hc Hpc. unfold UpdateOrderStatusSettled. rewrite Hsp. wp_step.
  eapply wp_mono with (P := fun o w' => (exists po, o = Ret po) /\ w' = w).
  { unfold fetch_payment_order. do 2 wp_step. apply (wp_read_db_ok _ (w_db w)); [done|done|]. cbn beta iota.
    destruct (List.filter _ _) as [|po [|? ?]]; cbn [only]; [wp_step; cbn [IsNotFound]; wp_step|do 2 wp_step|simpl in Hone; lia];
      (split; [by eexists|done]). }
  intros out w1 [[po ->] ->]. cbn beta iota. wp_step. apply wp_begin_ok; [done|]. cbn beta iota.
  set (n := w_next_tx w). set (w2 := set_next_tx _ _).
  assert (H2 : tx_maps n (fun m => m) w2) by (exists (fun d => d); split; [apply lookup_insert_eq|done]).
  wp_step. eapply wp_mono; [apply record_log_live; [done|exact H2]|]. intros out w3 (logs & -> & Hf3 & [Hd3 Hn3] & H3). cbn beta iota.
  do 2 wp_step. cbn beta iota. fold (settles network split).
  set (G := update_where (settles network split) (lo_on_chain (w_now w3) (os_block_number event) (os_tx_hash event) LSettled logs)).
  wp_step. destruct H3 as (g & Hg & Hmap). eapply wp_write_tx_ok; [exact Hf3|exact Hg|]. cbn beta iota. set (w4 := set_txs _ _).
  assert (H4 : tx_maps n G w4).
  { eexists. split; [apply lookup_insert_eq|]. intros d. destruct (Hmap d) as (M1 & M2 & M3). cbv beta.
    split_and!; [exact M1|exact M2|cbn [db_lock_orders set_lock_orders]; by rewrite M3]. }
  assert (Hd4 : w_db w4 = w_db w) by exact Hd3.
  wp_step. eapply wp_mono; [eapply (balance_info_live n network split G); [exact Hf3|done|exact H4|rewrite Hd4; exact Ho|exact Hp|exact Hb|by rewrite Hd4]|].
  intros out w5 (-> & ->). cbn beta iota. wp_step. cbn [settle_info].
  eapply wp_mono; [eapply settle_balance_live; [exact Hf3|exact H4|by rewrite Hd4]|].
  intros out w6 (-> & H6 & E6). cbn beta iota. assert (Hn4 : w_now w4 = w_now w) by exact Hn3. rewrite Hn4 in E6.
  wp_step. eapply wp_mono; [by apply settle_payment_order_wp|]. intros out w7 (Hd7 & _ & H7).
  destruct out as [notify|e|]; [|by rewrite Hd7|by rewrite Hd7]. destruct (H7 eq_refl) as (g7 & Hg7 & Hm7). wp_step.
  eapply wp_commit; [exact Hg7|intros fs|intros fs; wp_step; cbn [w_db set_txs set_faults]; by rewrite Hd7].
  destruct (Hm7 (w_db w7)) as (M1 & _). cbn beta iota.
  destruct notify as [po'|]; [|wp_step; cbn [w_db set_db]; by rewrite M1, Hd7].
  wp_step. eapply wp_mono; [apply send_webhook_quiet|]. intros out w8 [Hd8 _]. cbn [w_db set_db] in Hd8.
  assert (E8 : db_provider_currencies (w_db w8) !! (p, fc_code fc) =
    Some (settled_row (fiat_amount (lo_amount ord) (lo_rate ord)) (w_now w) pc)) by (by rewrite Hd8, M1, Hd7).
  destruct out; exact E8.
Qed.

(** A report of a settlement: the network and the decoded parameters. *)
Record reports_settlement (event : ThirdwebEventData) (network : Network) (percent split orderId provider : string) (w : World)
    : Prop := {
  rs_signature : head (te_topics event) = Some OrderSettledEventSignature;
  rs_chain : ParseInt (te_chain_id event) = Some (nw_chain_id network);
  rs_network : List.filter (fun n => (nw_chain_id n =? nw_chain_id network)%Z) (db_networks (w_db w)) = [network];
  rs_params : json_get "settlePercent" (te_non_indexed_params event) = Some (JStr percent) /\
    json_get "splitOrderId" (te_non_indexed_params event) = Some (JStr split) /\
    json_get "orderId" (te_indexed_params event) = Some (JStr orderId) /\
    json_get "liquidityProvider" (te_indexed_params event) = Some (JStr provider);
  rs_percent : d_parse percent <> None
}.

(** Every report of a settlement is booked, also of an order that is settled: an
    authentic payload with the report, without failures, debits the order's fiat
    amount from the provider's reserved and total balance, and nothing asks for the
    status of the order.  A report that the service sends twice is booked twice. *)
Theorem settlement_report_debits (OL : OrderLaws OS) rawBody signature webhookID timestamp topic data type id
    network percent split splitId orderId provider lock ord p b fc pc w :
  w_faults w = [] -> signature <> "" -> webhookID <> "" ->
  authentic w rawBody signature webhookID (Some (mkTWP [mkTWE data "new" type id] timestamp topic)) ->
  reports_settlement data network percent split orderId provider w -> parse_split_id split = Some splitId ->
  List.filter (fun o => String.eqb (lo_gateway_id o) orderId) (lock_rows (w_db w)) = [lock] ->
  (length (List.filter (fun o => String.eqb (po_message_hash o) (lo_message_hash lock) && po_on_network network o)
     (payment_rows (w_db w))) <= 1)%nat ->
  List.filter (settles network splitId) (lock_rows (w_db w)) = [ord] -> lo_provider ord = Some p ->
  lo_provision_bucket ord = Some b -> db_currencies (w_db w) !! pb_currency b = Some fc ->
  db_provider_currencies (w_db w) !! (p, fc_code fc) = Some pc ->
  wp (InsightWebhook conf service qfuel depth rawBody signature webhookID (Some (mkTWP [mkTWE data "new" type id] timestamp topic)))
    (fun _ w' => db_provider_currencies (w_db w') !! (p, fc_code fc) =
       Some (settled_row (fiat_amount (lo_amount ord) (lo_rate ord)) (w_now w) pc)) w.
Proof.
  intros Hf Hs Hw Hau [Hsig Hch Hnet (P1 & P2 & P3 & P4) Hper] Hsp Hlock Hone Ho Hp Hb Hc Hpc.
  apply (insight_run _ _ _ _ _ _ _ _ _ (fun w' => db_provider_currencies (w_db w') !! (p, fc_code fc) =
       Some (settled_row (fiat_amount (lo_amount ord) (lo_rate ord)) (w_now w) pc))); [done..|].
  assert (Hh : handleNewEvent conf service qfuel depth data = handleOrderSettledEvent data)
    by (unfold handleNewEvent; rewrite Hsig; reflexivity). rewrite Hh.
  unfold handleOrderSettledEvent, parse_chain, chain_network, gateway_lock_order, indexed, non_indexed, as_string, parse_dec.
  rewrite Hch, P1, P2, P3, P4. destruct (d_parse percent) as [q|] eqn:Eq; [|done]. do 5 wp_step.
  apply (wp_read_db_ok _ (w_db w)); [done|done|]. cbn beta iota. rewrite Hnet. cbn [only]. do 3 wp_step. wp_step. rewrite Eq. do 10 wp_step.
  apply (wp_read_db_ok _ (w_db w)); [done|done|]. cbn beta iota. rewrite Hlock. cbn [only]. do 2 wp_step.
  eapply wp_mono; [eapply (order_settled_live OL); try done|]. intros [u|e|] w1 H1; exact H1.
Qed.

End insight.

(** ** Witnesses on the seeded database *)

#[local] Instance sample_insight : InsightServices := {|
  payment_webhooks _ := [mkPW "hook1" "secret"];
  hmac_hex secret body := secret +:+ ":" +:+ body
|}.

(** The report of a settlement of the order o1 by its provider. *)
Definition s_settled_report : ThirdwebEventData :=
  mkTED "8453" 8 "0xtx2" "0x01" [OrderSettledEventSignature] "OrderSettled"
    [("orderId", JStr "g1"); ("liquidityProvider", JStr (hex_string s_payer))]
    [("splitOrderId", JStr "o1"); ("settlePercent", JStr "100000")].
Definition s_settled_payload : ThirdwebWebhookPayload := mkTWP [mkTWE s_settled_report "new" "event" "e1"] 0 "v1.events".
Definition report_settlement : M Z := InsightWebhook s_order_conf s_gateway 9 9 "body" "secret:body" "hook1" (Some s_settled_payload).


(** The order o1 has been settled before. *)
Definition s_settled_before : LockPaymentOrder := lo_on_chain 900 8 "0xtx2" LSettled [] s_lock_order.
Definition s_resettle_world : World :=
  set_db (set_lock_orders {[ "o1" := s_settled_before ]} (s_db (s_pc 100 4000 5000))) (s_world (s_pc 100 4000 5000) []).

Lemma s_authentic : authentic s_order_conf s_resettle_world "body" "secret:body" "hook1" (Some s_settled_payload).
Proof. exists (mkPW "hook1" "secret"), [], s_settled_payload. split_and!; vm_refl. Qed.

Lemma settlement_report_debits_witness :
  lo_status s_settled_before = LSettled /\
  db_provider_currencies (w_db (report_settlement s_resettle_world).2) !! (s_prov, s_cur) =
    Some (settled_row (fiat_amount (d_int 2) (d_int 950)) 1000 (s_pc 100 4000 5000)).
Proof.
  split; [reflexivity|].
  refine (settlement_report_debits s_order_conf s_gateway 9 9 sample_order_laws "body" "secret:body" "hook1" 0 "v1.events" s_settled_report
    "event" "e1" s_network "100000" "o1" "o1" "g1" (hex_string s_payer) s_settled_before s_settled_before s_prov s_bucket s_currency
    (s_pc 100 4000 5000) s_resettle_world eq_refl _ _ s_authentic _ eq_refl _ _ _ eq_refl eq_refl _ _);
    [done|done|split; [done|vm_refl|vm_refl|done|by vm_compute]|vm_refl|vm_compute; lia|vm_refl|vm_refl|vm_refl].
Defined.

(** *** A reported transfer *)

Definition s_transfer_report : ThirdwebEventData :=
  mkTED "8453" 9 "0xhash" (hex_string s_contract) [TransferEventSignature] "Transfer"
    [("from", JStr (hex_string s_payer)); ("to", JStr (hex_string s_pool_bytes))] [("value", JStr "2000000")].
Definition s_transfer_payload : ThirdwebWebhookPayload := mkTWP [mkTWE s_transfer_report "new" "event" "e2"] 60 "v1.events".
Definition s_reported_event (v : dec) : TokenTransferEvent :=
  mkTTE 9 "0xhash" (hex_string s_payer) (hex_string s_pool_bytes) (from_subunit v s_chain_token).
Definition s_report_world : World :=
  set_db (mkDB ∅ ∅ ∅ [] [] ∅ [] {[ "p1" := s_miss_order ]} [] {[ 1 := s_miss_address ]} [s_chain_token] [] 1 [s_network] ∅ [] [] (mkAccounts ∅ ∅ [] ∅ []))
    s_miss_world.

Lemma reported_transfer_pays_witness :
  exists o, db_payment_orders (w_db (InsightWebhook s_order_conf (evm_service 9) 9 9 "body" "secret:body" "hook1"
      (Some s_transfer_payload) s_report_world).2) !! "p1" = Some o /\ po_tx_hash o = "0xhash".
Proof.
  destruct (d_parse "2000000") as [v|] eqn:Ev; [|vm_compute in Ev; discriminate].
  assert (Hv : v = d_int 2000000) by (vm_compute in Ev |- *; congruence). subst v.
  destruct (reported_transfer_pays s_order_conf (evm_service 9) 9 9 "body" "secret:body" "hook1" 60 "v1.events" s_transfer_report "event" "e2"
    s_chain_token (hex_string s_payer) (hex_string s_pool_bytes) "2000000" (d_int 2000000) s_miss_order s_miss_address s_report_world
    (evm_frames 9 sample_tame) eq_refl) as (o & Ho & _ & Hh).
  - done.
  - done.
  - exists (mkPW "hook1" "secret"), [], s_transfer_payload. split_and!; vm_refl.
  - split; [done|vm_refl|vm_refl|done|vm_refl].
  - exact Ev.
  - vm_compute. reflexivity.
  - split; [done| |by intros l ?%elem_of_nil]. intros i r H. cbn in H. by apply lookup_singleton_Some in H as [_ <-].
  - split; [vm_refl|vm_refl|done|done|done|vm_refl|vm_refl].
  - vm_refl.
  - exists o. split; [exact Ho|exact Hh].
Defined.
