(* ===== verification/Auth.v ===== *)
(** * Authentication of requests (routers/middleware/auth.go, utils/token/token.go)

    A request passes the middlewares of its route ([senderRoutes],
    [providerRoutes], [settingsRoutes]) before its handler.  [Ctx] is what they
    share: the values set on the gin context, the responses written and whether
    the chain was aborted.  [chain] is gin's loop over the handlers: the next one
    runs unless the context is aborted.  Every middleware ends in [c.Next()] or in
    a return, so calling the rest of the chain from inside [c.Next()] and after it
    are the same; the second [c.Next()] of [DynamicAuthMiddleware] finds the chain
    finished, aborted, or, when the selected middleware just returned, runs it.

    JSON, JWT, HMAC, base64 and AES-GCM are the parameters [AuthServices].  A
    number of a decoded payload is kept as its text, which stands for the float64
    that [strconv.ParseFloat] makes of it. *)

From S2P Require Import Prelude Decimal Schema Store Http Ethereum Gateway Insight.
From stdpp Require Import pretty.
Local Open Scope go_scope.
Local Open Scope string_scope.
Local Open Scope list_scope.

(** ** The request and the context *)

Record Request := mkReq {
  rq_method : string;
  rq_path : string;
  rq_headers : gmap string string;
  rq_query : gmap string (list string);
  rq_body : string;
  rq_client_ip : string
}.

(** [c.GetHeader(name)] and [c.Query(name)]: empty when missing. *)
Definition GetHeader (r : Request) (name : string) : string := default "" (rq_headers r !! name).
Definition Query (r : Request) (name : string) : string :=
  default "" (rq_query r !! name ≫= head).

(** What [c.Set] stores: a profile is a pointer, which may be nil. *)
Inductive CtxValue :=
  | VNil
  | VString (s : string)
  | VSender (p : option SenderProfile)
  | VProvider (p : option ProviderProfile).

Record Ctx := mkCtx {
  cx_values : gmap string CtxValue;
  (** the status and the message of every response written *)
  cx_responses : list (Z * string);
  cx_aborted : bool;
  (** the request body the handler will read *)
  cx_body : string
}.

Definition ctx0 (r : Request) : Ctx := mkCtx ∅ [] false (rq_body r).
Definition ctx_set (k : string) (v : CtxValue) (c : Ctx) : Ctx :=
  mkCtx (<[k := v]> (cx_values c)) (cx_responses c) (cx_aborted c) (cx_body c).
Definition ctx_respond (code : Z) (message : string) (c : Ctx) : Ctx :=
  mkCtx (cx_values c) (cx_responses c ++ [(code, message)]) (cx_aborted c) (cx_body c).
Definition ctx_abort (c : Ctx) : Ctx :=
  mkCtx (cx_values c) (cx_responses c) true (cx_body c).
Definition ctx_set_body (b : string) (c : Ctx) : Ctx :=
  mkCtx (cx_values c) (cx_responses c) (cx_aborted c) b.

(** ** The libraries *)

(** A float64. *)
Inductive float64 := FNum (q : Q) | FInf (negative : bool) | FNaN.

(** The claims of a Privy token and a linked account. *)
Record PrivyClaims := mkPrivy {
  pv_AppId : string;
  pv_Expiration : Z;
  pv_Issuer : string;
  pv_UserId : string;
  pv_LinkedAccounts : string
}.
Record LinkedAccount := mkLinked {
  lk_Type : string;
  lk_Address : string;
  lk_ChainType : string;
  lk_WalletClientType : string;
  lk_Lv : Z
}.

Record AuthConf := mkAuthConf {
  au_Secret : string;
  (** nanoseconds *)
  au_JwtAccessLifespan : Z;
  au_JwtRefreshLifespan : Z;
  au_HmacTimestampAge : Z;
  au_PasswordResetLifespan : Z;
  au_SlackSigningSecret : string;
  au_PrivyAppID : string;
  au_PrivyVerificationKey : string;
  au_TurnstileEnabled : bool;
  au_TurnstileSecretKey : string;
  au_Environment : string
}.

Class AuthServices := {
  (** [strconv.ParseFloat(s, 64)] *)
  ParseFloat : string -> option float64;
  (** what converting an unrepresentable float64 to int64 gives on the machine *)
  int64_unrepresentable : float64 -> Z;
  (** [json.Unmarshal] into a map, and [json.Marshal] of one *)
  unmarshal_map : string -> option (gmap string json);
  marshal_map : gmap string json -> option string;
  (** hex of the HMAC-SHA256 of a message under a key *)
  hmac_sha256_hex : string -> string -> string;
  base64_decode : string -> option string;
  (** AES-GCM under the server's secret: [Open] of a nonce and a ciphertext *)
  gcm_open : string -> string -> string -> option string;
  (** golang-jwt: an HS256 token of these claims under a secret, and its claims when the
      signature is good, the method is HS256 and the token is not expired (seconds) *)
  jwt_sign : string -> gmap string json -> option string;
  jwt_parse : string -> Z -> string -> option (gmap string json);
  (** golang-jwt: an ES256 token under a PEM public key *)
  privy_parse : string -> string -> option PrivyClaims;
  unmarshal_accounts : string -> option (list LinkedAccount);
  (** Cloudflare's answer for a token and an address *)
  turnstile_success : string -> string -> bool
}.

(** [strings.SplitN(s, c, 2)] *)
Fixpoint SplitN2 (c : ascii) (s : string) : string * option string :=
  match s with
  | EmptyString => (EmptyString, None)
  | String a s' =>
      if Ascii.eqb a c then (EmptyString, Some s')
      else let '(p, r) := SplitN2 c s' in (String a p, r)
  end.

(** [time.Now().Unix()] *)
Definition unix (now : Z) : Z := (now / 1000000000)%Z.

(** The integer part, toward zero. *)
Definition Qtrunc (q : Q) : Z := Z.quot (Qnum q) (Zpos (Qden q)).

Section auth.
Context `{O : DecimalOps} {HS : HttpServices} {AS : AuthServices}.
Variable conf : AuthConf.

(** [int64(f)] *)
Definition int64 (f : float64) : Z :=
  match f with
  | FNum q => let z := Qtrunc q in
      if (- 2 ^ 63 <=? z)%Z && (z <? 2 ^ 63)%Z then z else int64_unrepresentable f
  | _ => int64_unrepresentable f
  end.
(** [f == 0] *)
Definition float_is_zero (f : float64) : bool :=
  match f with FNum q => Qeq_bool q 0 | _ => false end.

(** ** Tokens *)

(** The claims of an access and of a refresh token differ only in their expiry. *)
Definition jwt_claims (userID scope : string) (now lifespan : Z) : gmap string json :=
  <["sub" := JStr userID]> (<["scope" := JStr scope]> {[ "exp" := JNum (pretty (unix (now + lifespan)%Z)) ]}).

Definition GenerateAccessJWT (now : Z) (userID scope : string) : option string :=
  jwt_sign (au_Secret conf) (jwt_claims userID scope now (au_JwtAccessLifespan conf)).
Definition GenerateRefreshJWT (now : Z) (userID scope : string) : option string :=
  jwt_sign (au_Secret conf) (jwt_claims userID scope now (au_JwtRefreshLifespan conf)).
Definition GeneratePairJWT (now : Z) (userID scope : string) : option (string * string) :=
  match GenerateAccessJWT now userID scope with
  | None => None
  | Some access =>
      match GenerateRefreshJWT now userID scope with
      | None => None
      | Some refresh => Some (access, refresh)
      end
  end.
Definition ValidateJWT (now : Z) (token : string) : option (gmap string json) :=
  jwt_parse (au_Secret conf) (unix now) token.

(** A claim of type string. *)
Definition claim (claims : gmap string json) (k : string) : option string :=
  match claims !! k with Some (JStr s) => Some s | _ => None end.

(** The error of [json.Marshal] is dropped: the message is then empty. *)
Definition GenerateHMACSignature (payload : gmap string json) (privateKey : string) : string :=
  hmac_sha256_hex privateKey (default "" (marshal_map payload)).
Definition VerifyHMACSignature (payload : gmap string json) (privateKey signature : string) : bool :=
  String.eqb (GenerateHMACSignature payload privateKey) signature.

(** ** Secrets *)

(** Slicing the nonce off a shorter ciphertext panics. *)
Definition DecryptPlain (ciphertext : string) : M string :=
  if (String.length ciphertext <? 12)%nat then panicM
  else match gcm_open (au_Secret conf) (substring 0 12 ciphertext)
               (substring 12 (String.length ciphertext - 12) ciphertext) with
       | Some plaintext => retM plaintext
       | None => errM (EMsg "cipher: message authentication failed")
       end.

(** ** Middlewares *)

Definition middleware : Type := Request -> Ctx -> M Ctx.

(** [u.APIResponse(..); c.Abort(); return] *)
Definition refuse (code : Z) (message : string) (c : Ctx) : M Ctx :=
  retM (ctx_abort (ctx_respond code message c)).
(** [u.APIResponse(..); return] *)
Definition answer (code : Z) (message : string) (c : Ctx) : M Ctx :=
  retM (ctx_respond code message c).
(** [c.Next()] *)
Definition next (c : Ctx) : M Ctx := retM c.

(** The profiles of a user, by the edges of its row. *)
Definition sender_of_user (d : DB) (id : string) : option SenderProfile :=
  u ← ac_users (db_accounts d) !! id; k ← us_sender_profile u; db_senders d !! k.
Definition provider_of_user (d : DB) (id : string) : option ProviderProfile :=
  u ← ac_users (db_accounts d) !! id; k ← us_provider_profile u; db_providers d !! k.

(** [Only] on a query that has at most one row: nil with the error. *)
Definition only_or_nil {A} (f : DB -> option A) : M (option A) :=
  let? d := read_db None orelse e => retM None in retM (f d).

(** The result of [uuid.Parse] without its error. *)
Definition uuid_or_nil (s : string) : string :=
  default "00000000-0000-0000-0000-000000000000" (parse_uuid s).

(** The token of an "Authorization: Bearer" header. *)
Definition bearer (r : Request) (c : Ctx) (k : string -> M Ctx) : M Ctx :=
  let authHeader := GetHeader r "Authorization" in
  if String.eqb authHeader "" then refuse 401 "Authorization header is missing" c else
  let '(scheme, token) := SplitN2 " "%char authHeader in
  match token with
  | Some token =>
      if String.eqb scheme "Bearer" then k token
      else refuse 401 "Invalid Authorization header format" c
  | None => refuse 401 "Invalid Authorization header format" c
  end.

(** [err.Error()] when the token is valid but has no string [sub] dereferences a
    nil error. *)
Definition JWTMiddleware : middleware := fun r c =>
  bearer r c (fun token =>
  let! w := getM in
  match ValidateJWT (w_now w) token with
  | None => refuse 401 "Invalid or expired token" c
  | Some claims =>
      match claim claims "sub" with
      | None => panicM
      | Some userID =>
          match claim claims "scope" with
          | None => refuse 401 "Invalid or expired token" c
          | Some scope =>
              let c := ctx_set "user_id" (VString userID) c in
              let userUUID := uuid_or_nil userID in
              let senderAndProvider := Contains scope "sender" && Contains scope "provider" in
              let! c :=
                if String.eqb scope "sender" || senderAndProvider then
                  let! p := only_or_nil (fun d => sender_of_user d userUUID) in
                  retM (ctx_set "sender" (VSender p) c)
                else retM c in
              let! c :=
                if String.eqb scope "provider" || senderAndProvider then
                  let! p := only_or_nil (fun d => provider_of_user d userUUID) in
                  retM (ctx_set "provider" (VProvider p) c)
                else retM c in
              next c
          end
      end
  end).

(** The owner's address among the linked accounts. *)
Fixpoint owner_scan (accounts : list LinkedAccount) (emailExists : bool) (privy other : string)
    : bool * string * string :=
  match accounts with
  | [] => (emailExists, privy, other)
  | a :: accounts =>
      if String.eqb (lk_Type a) "email" then owner_scan accounts true privy other
      else if String.eqb (lk_Type a) "wallet" && String.eqb (lk_ChainType a) "ethereum" then
        if String.eqb (lk_WalletClientType a) "privy" then owner_scan accounts emailExists (lk_Address a) other
        else if String.eqb other "" then owner_scan accounts emailExists privy (lk_Address a)
        else owner_scan accounts emailExists privy other
      else owner_scan accounts emailExists privy other
  end.
Definition determineOwnerAddress (accounts : list LinkedAccount) : string :=
  let '(emailExists, privyWallet, nonPrivyEthereumWallet) := owner_scan accounts false "" "" in
  if emailExists && negb (String.eqb privyWallet "") then privyWallet
  else if negb (String.eqb nonPrivyEthereumWallet "") then nonPrivyEthereumWallet
  else if negb (String.eqb privyWallet "") then privyWallet
  else "".

Definition PrivyMiddleware : middleware := fun r c =>
  bearer r c (fun accessToken =>
  match privy_parse (au_PrivyVerificationKey conf) accessToken with
  | None => refuse 401 "JWT signature is invalid." c
  | Some privyClaim =>
      let! w := getM in
      if negb (String.eqb (pv_AppId privyClaim) (au_PrivyAppID conf)) then refuse 401 "Invalid App ID" c
      else if negb (String.eqb (pv_Issuer privyClaim) "privy.io") then refuse 401 "Invalid Issuer" c
      else if (pv_Expiration privyClaim <? unix (w_now w))%Z then refuse 401 "Token is expired" c
      else if String.eqb (pv_LinkedAccounts privyClaim) "" then refuse 401 "Missing linked accounts" c
      else match unmarshal_accounts (pv_LinkedAccounts privyClaim) with
           | None => refuse 401 "Failed to parse linked accounts" c
           | Some accounts =>
               next (ctx_set "owner_address" (VString (determineOwnerAddress accounts)) c)
           end
  end).

(** The public key and the signature of the header, each nonempty. *)
Definition hmac_header (r : Request) (c : Ctx) (k : string -> string -> M Ctx) : M Ctx :=
  let authHeader := GetHeader r "Authorization" in
  if String.eqb authHeader "" then refuse 401 "Missing Authorization header" c else
  let '(scheme, credentials) := SplitN2 " "%char authHeader in
  match credentials with
  | None => refuse 401 "Invalid Authorization header" c
  | Some credentials =>
      if negb (String.eqb scheme "HMAC") then refuse 401 "Invalid Authorization header" c
      else if negb (has_char ":"%char credentials) || (String.length credentials <? 4)%nat
      then refuse 401 "Invalid Authorization header format" c
      else
        let '(publicKey, signature) := SplitN2 ":"%char credentials in
        match signature with
        | None => panicM
        | Some signature =>
            if String.eqb publicKey "" || String.eqb signature ""
            then refuse 401 "Invalid Authorization header format" c
            else k publicKey signature
        end
  end.

(** The payload that is signed: the query parameters of a GET or DELETE, the JSON
    body of another request. *)
Definition hmac_payload (r : Request) (c : Ctx) (k : gmap string json -> M Ctx) : M Ctx :=
  if String.eqb (rq_method r) "GET" || String.eqb (rq_method r) "DELETE" then
    k (omap (fun values => JStr <$> head values) (rq_query r))
  else
    do? ext orelse e => refuse 500 "Failed to read request payload" c in
    match unmarshal_map (rq_body r) with
    | None => refuse 400 "Invalid payload format" c
    | Some payloadData => k payloadData
    end.

(** A text timestamp becomes a number; the payload and its timestamp. *)
Definition hmac_timestamp (payloadData : gmap string json) : option (gmap string json * float64) :=
  let converted :=
    match payloadData !! "timestamp" with
    | Some (JStr s) => match ParseFloat s with
                       | Some _ => Some (<["timestamp" := JNum s]> payloadData)
                       | None => None
                       end
    | _ => Some payloadData
    end in
  payload ← converted;
  match payload !! "timestamp" with
  | Some (JNum s) => f ← ParseFloat s; if float_is_zero f then None else Some (payload, f)
  | _ => None
  end.

(** [time.Now().Unix()-int64(timestamp) > int64(conf.HmacTimestampAge.Seconds())] *)
Definition hmac_expired (now : Z) (timestamp : float64) : bool :=
  (Z.quot (au_HmacTimestampAge conf) 1000000000 <? wrap64 (unix now - int64 timestamp))%Z.

(** [APIKey.Query().Where(IDEQ(id)).WithSenderProfile().WithProviderProfile().Only(c)];
    the middleware answers by itself when it fails. *)
Definition fetch_api_key (id : string) (c : Ctx)
    (k : APIKey -> option SenderProfile -> option ProviderProfile -> M Ctx) : M Ctx :=
  let? d := read_db None orelse e => refuse 500 "Failed to fetch API key" c in
  match ac_api_keys (db_accounts d) !! id with
  | None => refuse 404 "API key not found" c
  | Some key =>
      k key (ak_sender_profile key ≫= fun s => db_senders d !! s)
        (ak_provider_profile key ≫= fun p => db_providers d !! p)
  end.

(** The profiles of the key go on the context; a key without one is refused. *)
Definition set_profiles (sender : option SenderProfile) (provider : option ProviderProfile) (c : Ctx) : Ctx :=
  let c := match sender with Some s => ctx_set "sender" (VSender (Some s)) c | None => c end in
  match provider with Some p => ctx_set "provider" (VProvider (Some p)) c | None => c end.
Definition no_profile (sender : option SenderProfile) (provider : option ProviderProfile) : bool :=
  match sender, provider with None, None => true | _, _ => false end.

(** The profiles are set before the signature is verified, and the two failures on
    the stored secret return without [c.Abort()]. *)
Definition HMACVerificationMiddleware : middleware := fun r c =>
  hmac_header r c (fun publicKey signature =>
  hmac_payload r c (fun payloadData =>
  match hmac_timestamp payloadData with
  | None => refuse 401 "Missing or invalid timestamp in payload" c
  | Some (payloadData, timestamp) =>
      let! w := getM in
      if hmac_expired (w_now w) timestamp then refuse 401 "Invalid timestamp" c else
      match parse_uuid publicKey with
      | None => refuse 400 "Invalid API key ID" c
      | Some apiKeyUUID =>
          fetch_api_key apiKeyUUID c (fun apiKey sender provider =>
            let c := set_profiles sender provider c in
            if no_profile sender provider then refuse 401 "Invalid API key or token" c else
            match base64_decode (ak_secret apiKey) with
            | None => answer 500 "Failed to decode API key" c
            | Some decodedSecret =>
                let? decryptedSecret := DecryptPlain decodedSecret orelse e =>
                  answer 500 "Failed to decrypt API key" c in
                if negb (VerifyHMACSignature payloadData decryptedSecret signature)
                then refuse 401 "Invalid HMAC signature" c
                else match marshal_map (delete "timestamp" payloadData) with
                     | None => refuse 500 "Failed to modify payload" c
                     | Some modifiedPayload => next (ctx_set_body modifiedPayload c)
                     end
            end)
      end
  end)).

Definition APIKeyMiddleware : middleware := fun r c =>
  let apiKey := GetHeader r "API-Key" in
  if String.eqb apiKey "" then refuse 401 "Missing API-Key header" c else
  match parse_uuid apiKey with
  | None => refuse 400 "Invalid API key ID" c
  | Some apiKeyUUID =>
      fetch_api_key apiKeyUUID c (fun _ sender provider =>
        let c := set_profiles sender provider c in
        if no_profile sender provider then refuse 401 "Invalid API key or token" c else next c)
  end.

Definition DynamicAuthMiddleware : middleware := fun r c =>
  if String.eqb (GetHeader r "Client-Type") "web" then JWTMiddleware r c
  else if Contains (rq_path r) "/sender/" && negb (String.eqb (GetHeader r "API-Key") "")
  then APIKeyMiddleware r c
  else HMACVerificationMiddleware r c.

(** [!ok && scope == nil]: a key that is set passes, whatever its value. *)
Definition only_scope (key : string) : middleware := fun r c =>
  match cx_values c !! key with
  | None => refuse 401 "Invalid API key or token" c
  | Some _ => next c
  end.
Definition OnlySenderMiddleware : middleware := only_scope "sender".
Definition OnlyProviderMiddleware : middleware := only_scope "provider".

Definition OnlyWebMiddleware : middleware := fun r c =>
  if negb (String.eqb (GetHeader r "Client-Type") "web") then refuse 401 "Unrecognized Client-Type" c
  else next c.

(** A timestamp ahead of the clock is not refused. *)
Definition SlackVerificationMiddleware : middleware := fun r c =>
  let slackSig := GetHeader r "X-Slack-Signature" in
  let slackTimestamp := GetHeader r "X-Slack-Request-Timestamp" in
  if String.eqb slackSig "" || String.eqb slackTimestamp "" then refuse 401 "Missing Slack headers" c else
  let! w := getM in
  match ParseInt slackTimestamp with
  | None => refuse 401 "Invalid timestamp" c
  | Some ts =>
      if (300 <? wrap64 (unix (w_now w) - ts))%Z then refuse 401 "Invalid timestamp" c else
      do? ext orelse e => refuse 500 "Could not read body" c in
      let basestring := "v0:" +:+ slackTimestamp +:+ ":" +:+ rq_body r in
      let expectedSig := "v0=" +:+ hmac_sha256_hex (au_SlackSigningSecret conf) basestring in
      if negb (String.eqb expectedSig slackSig) then refuse 401 "Invalid Slack signature" c
      else next (ctx_set_body (rq_body r) c)
  end.

(** services/turnstile.go *)
Definition VerifyToken (token remoteIP : string) : M unit :=
  if negb (au_TurnstileEnabled conf) then retM tt
  else if String.eqb token "" then errM (EMsg "turnstile token is required")
  else if String.eqb (au_TurnstileSecretKey conf) "" then errM (EMsg "turnstile secret key not configured")
  else
    let remoteIP := if String.eqb remoteIP "" then "127.0.0.1" else remoteIP in
    do? ext orelse e => errM (EMsg "failed to verify security check") in
    if turnstile_success token (if String.eqb remoteIP "127.0.0.1" then "" else remoteIP) then retM tt
    else errM (EMsg "security check verification failed").

(** A request without a token passes. *)
Definition TurnstileMiddleware : middleware := fun r c =>
  let token := GetHeader r "X-Turnstile-Token" in
  let token := if String.eqb token "" then Query r "turnstile_token" else token in
  if String.eqb token "" then next c else
  let clientIP := if String.eqb (rq_client_ip r) "" then "127.0.0.1" else rq_client_ip r in
  do? VerifyToken token clientIP orelse e => refuse 400 "Security check verification failed" c in
  next c.

(** ** Routes *)

(** gin's loop: the next handler runs unless the context is aborted. *)
Fixpoint chain (ms : list middleware) (r : Request) (c : Ctx) : M Ctx :=
  match ms with
  | [] => retM c
  | m :: ms => if cx_aborted c then retM c else let! c := m r c in chain ms r c
  end.

(** The route's handler runs on the context the middlewares leave. *)
Definition route {A} (ms : list middleware) (handler : Request -> Ctx -> M A) (r : Request) : M (option A) :=
  let! c := chain ms r (ctx0 r) in
  if cx_aborted c then retM None else let! a := handler r c in retM (Some a).

Definition senderRoutes : list middleware := [DynamicAuthMiddleware; OnlySenderMiddleware].
Definition providerRoutes : list middleware := [DynamicAuthMiddleware; OnlyProviderMiddleware].
(** settings/sender and settings/provider *)
Definition senderSettings : list middleware := [OnlyWebMiddleware; JWTMiddleware; OnlySenderMiddleware].
Definition providerSettings : list middleware := [OnlyWebMiddleware; JWTMiddleware; OnlyProviderMiddleware].

End auth.
