(* ===== verification/AuthClaims.v ===== *)
(** * Theorems about authentication

    [credential] says what proves who a caller is: a valid token of a web client,
    the id of an API key on a sender route, or a fresh payload signed with the
    key's secret.  A request that reaches a handler behind [DynamicAuthMiddleware]
    carries one ([authentication_sound]), except when the stored secret of the key
    cannot be read, in which case any signature will do
    ([unreadable_secret_admits]).  The other theorems say what a token of [Login]
    opens, that a signed request is admitted, and who is admitted without a
    profile. *)

From S2P Require Import Prelude Decimal Schema Store Samples Http Ethereum Gateway Insight Auth.
From stdpp Require Import pretty.
Local Open Scope go_scope.
Local Open Scope string_scope.
Local Open Scope list_scope.

(** ** The libraries *)

(** golang-jwt: a token of HS256 without a time before which it is not valid gives back
    its claims until it expires. *)
Class AuthLaws (AS : AuthServices) : Prop := {
  jwt_round_trip : forall secret claims t exp now,
    claims !! "exp" = Some (JNum (pretty exp)) -> claims !! "nbf" = None -> claims !! "iat" = None ->
    jwt_sign secret claims = Some t -> (now < exp)%Z -> jwt_parse secret now t = Some claims
}.

Section auth_spec.
Context `{O : DecimalOps} {HS : HttpServices} {AS : AuthServices}.
Variable conf : AuthConf.

(** ** Credentials *)

(** A scope that makes a user a sender (a provider). *)
Definition scope_covers (role scope : string) : bool :=
  String.eqb scope role || (Contains scope "sender" && Contains scope "provider").

(** The key of an id and the profiles it belongs to. *)
Record key_of (d : DB) (id : string) (key : APIKey) (s : option SenderProfile) (p : option ProviderProfile) : Prop := {
  ko_key : exists uuid, parse_uuid id = Some uuid /\ ac_api_keys (db_accounts d) !! uuid = Some key;
  ko_sender : s = (ak_sender_profile key ≫= fun k => db_senders d !! k);
  ko_provider : p = (ak_provider_profile key ≫= fun k => db_providers d !! k);
  ko_some : no_profile s p = false
}.

(** The claims of the token a web client sent. *)
Record web_token (r : Request) (now : Z) (userID scope : string) : Prop := {
  wt_valid : exists token claims,
    SplitN2 " "%char (GetHeader r "Authorization") = ("Bearer", Some token) /\
    ValidateJWT conf now token = Some claims /\
    claim claims "sub" = Some userID /\ claim claims "scope" = Some scope
}.

(** The signed payload of a request: its key, its signature and its timestamp. *)
Record hmac_request (r : Request) (publicKey signature : string) (payload : gmap string json) (ts : float64) : Prop := {
  hr_header : exists credentials,
    SplitN2 " "%char (GetHeader r "Authorization") = ("HMAC", Some credentials) /\
    SplitN2 ":"%char credentials = (publicKey, Some signature);
  hr_payload : exists raw, hmac_timestamp raw = Some (payload, ts) /\
    if String.eqb (rq_method r) "GET" || String.eqb (rq_method r) "DELETE"
    then raw = omap (fun values => JStr <$> head values) (rq_query r)
    else unmarshal_map (rq_body r) = Some raw
}.

(** The secret of a key as the server reads it. *)
Definition secret_of (key : APIKey) : option string :=
  decoded ← base64_decode (ak_secret key);
  gcm_open (au_Secret conf) (substring 0 12 decoded) (substring 12 (String.length decoded - 12) decoded).

Inductive credential (r : Request) (w : World) : option SenderProfile -> option ProviderProfile -> Prop :=
  | cred_web userID scope s p :
      GetHeader r "Client-Type" = "web" -> web_token r (w_now w) userID scope ->
      (s <> None -> scope_covers "sender" scope = true /\ s = sender_of_user (w_db w) (uuid_or_nil userID)) ->
      (p <> None -> scope_covers "provider" scope = true /\ p = provider_of_user (w_db w) (uuid_or_nil userID)) ->
      credential r w s p
  | cred_key key s p :
      Contains (rq_path r) "/sender/" = true -> key_of (w_db w) (GetHeader r "API-Key") key s p ->
      credential r w s p
  | cred_hmac publicKey signature payload ts key secret s p :
      hmac_request r publicKey signature payload ts -> hmac_expired conf (w_now w) ts = false ->
      key_of (w_db w) publicKey key s p -> secret_of key = Some secret ->
      VerifyHMACSignature payload secret signature = true ->
      credential r w s p.

(** The profiles on a context. *)
Definition ctx_sender (c : Ctx) : option SenderProfile :=
  match cx_values c !! "sender" with Some (VSender p) => p | _ => None end.
Definition ctx_provider (c : Ctx) : option ProviderProfile :=
  match cx_values c !! "provider" with Some (VProvider p) => p | _ => None end.

(** ** The middlewares one by one *)

(** Only the pattern of failures moves. *)
Definition only_faults (w w' : World) : Prop := exists fs, w' = set_faults fs w.
Lemma only_faults_set fs w : only_faults w (set_faults fs w).
Proof. by eexists. Qed.
Lemma only_faults_refl w : only_faults w w.
Proof. exists (w_faults w). by rewrite set_faults_id. Qed.
Lemma only_faults_trans w1 w2 w3 : only_faults w1 w2 -> only_faults w2 w3 -> only_faults w1 w3.
Proof. intros [fs ->] [fs' ->]. by exists fs'. Qed.

(** What a middleware may leave: the context aborted, or one that satisfies [P]. *)
Definition passes (P : Ctx -> Prop) (m : M Ctx) (w : World) : Prop :=
  wp m (fun o w' => only_faults w w' /\
    match o with Ret c => cx_aborted c = false -> P c | Err _ => False | Panic => True end) w.

Lemma passes_refuse P code message c w : passes P (refuse code message c) w.
Proof. split; [apply only_faults_refl|done]. Qed.
Lemma passes_next (P : Ctx -> Prop) c w : (cx_aborted c = false -> P c) -> passes P (next c) w.
Proof. split; [apply only_faults_refl|done]. Qed.
Lemma passes_answer (P : Ctx -> Prop) code message c w :
  (cx_aborted c = false -> P (ctx_respond code message c)) -> passes P (answer code message c) w.
Proof. split; [apply only_faults_refl|done]. Qed.
Lemma passes_panic P w : passes P panicM w.
Proof. split; [apply only_faults_refl|done]. Qed.

Lemma passes_mono (P Q : Ctx -> Prop) m w : passes P m w -> (forall c, P c -> Q c) -> passes Q m w.
Proof. intros [H1 H2] H. split; [done|]. destruct ((m w).1); auto. Qed.

Lemma passes_bind P (Q : Ctx -> Prop) m k w :
  passes P m w -> (forall c w', only_faults w w' -> (cx_aborted c = false -> P c) -> passes Q (k c) w') ->
  passes Q (bindM m k) w.
Proof.
  intros [[fs Hw] Hm] Hk. unfold passes, wp, bindM in *. destruct (m w) as [[c|e|] w1]; simpl in *; subst w1.
  - destruct (Hk c (set_faults fs w)) as [[fs' H1] H2]; [by eexists|done|].
    split; [|done]. rewrite H1. by eexists.
  - done.
  - split; [by eexists|done].
Qed.

Lemma only_or_nil_wp {A} (f : DB -> option A) w :
  wp (only_or_nil f) (fun o w' => only_faults w w' /\ exists p, o = Ret p /\ (p = None \/ p = f (w_db w))) w.
Proof.
  unfold only_or_nil. apply wp_try, (wp_read_db _ (w_db w)); [done| |];
    intros fs; repeat wp_step; (split; [apply only_faults_set|]); eexists; split; auto.
Qed.

(** The context of a request that has not been answered. *)
Definition fresh (c : Ctx) : Prop := cx_values c = ∅.

(** Setting one profile of the user, or not. *)
Lemma set_profile_wp {A} (b : bool) (f : DB -> option A) key (V : option A -> CtxValue) c w :
  wp (if b then let! p := only_or_nil f in retM (ctx_set key (V p) c) else retM c)
    (fun o w' => only_faults w w' /\
       exists c', o = Ret c' /\ cx_aborted c' = cx_aborted c /\
         (if b then exists p, c' = ctx_set key (V p) c /\ (p = None \/ p = f (w_db w)) else c' = c)) w.
Proof.
  destruct b.
  - apply wp_bind. eapply wp_mono; [apply only_or_nil_wp|].
    intros o w' [Hw (p & -> & Hp)]. apply wp_ret. split; [done|]. eexists. split; [done|].
    split; [done|]. by exists p.
  - apply wp_ret. split; [apply only_faults_refl|]. eauto.
Qed.

Lemma bearer_passes P r c k w :
  (forall token, SplitN2 " "%char (GetHeader r "Authorization") = ("Bearer", Some token) -> passes P (k token) w) ->
  passes P (bearer r c k) w.
Proof.
  intros H. unfold bearer. destruct (String.eqb _ ""); [apply passes_refuse|].
  destruct (SplitN2 _ _) as [scheme [token|]]; [|apply passes_refuse].
  destruct (String.eqb_spec scheme "Bearer") as [->|]; [by apply H|apply passes_refuse].
Qed.

Lemma JWT_passes r c w : fresh c ->
  passes (fun c' => exists userID scope, web_token r (w_now w) userID scope /\
    (ctx_sender c' <> None -> scope_covers "sender" scope = true /\
       ctx_sender c' = sender_of_user (w_db w) (uuid_or_nil userID)) /\
    (ctx_provider c' <> None -> scope_covers "provider" scope = true /\
       ctx_provider c' = provider_of_user (w_db w) (uuid_or_nil userID))) (JWTMiddleware conf r c) w.
Proof.
  intros Hc. apply bearer_passes. intros token Htok. unfold passes. wp_step. wp_step.
  destruct (ValidateJWT conf (w_now w) token) as [claims|] eqn:Ev; [|apply passes_refuse].
  destruct (claim claims "sub") as [userID|] eqn:Esub; [|apply passes_panic].
  destruct (claim claims "scope") as [scope|] eqn:Esc; [|apply passes_refuse].
  apply wp_bind. eapply wp_mono; [apply set_profile_wp|].
  intros o w1 [[fs1 ->] (c1 & -> & Ha1 & Hc1)].
  apply wp_bind. eapply wp_mono; [apply set_profile_wp|].
  intros o w2 [[fs2 ->] (c2 & -> & Ha2 & Hc2)].
  split; [by exists fs2|]. intros _. exists userID, scope.
  split; [split; by exists token, claims|]. unfold ctx_sender, ctx_provider, scope_covers.
  assert (Hv : cx_values c = ∅) by exact Hc.
  destruct (String.eqb scope "sender" || _) eqn:E1; destruct (String.eqb scope "provider" || _) eqn:E2;
    try destruct Hc1 as (ps & -> & Hps); try destruct Hc2 as (pp & -> & Hpp); subst; simpl; rewrite ?Hv; simplify_map_eq; intuition congruence.
Qed.

Lemma set_profiles_ctx s p c : fresh c ->
  ctx_sender (set_profiles s p c) = s /\ ctx_provider (set_profiles s p c) = p /\
  cx_aborted (set_profiles s p c) = cx_aborted c.
Proof.
  intros Hc. assert (Hv : cx_values c = ∅) by exact Hc. unfold ctx_sender, ctx_provider, set_profiles.
  destruct s, p; simpl; rewrite ?Hv; simplify_map_eq; done.
Qed.

Lemma fetch_passes P id uuid c k w :
  parse_uuid id = Some uuid ->
  (forall key s p fs, ac_api_keys (db_accounts (w_db w)) !! uuid = Some key ->
     s = (ak_sender_profile key ≫= fun k => db_senders (w_db w) !! k) ->
     p = (ak_provider_profile key ≫= fun k => db_providers (w_db w) !! k) ->
     passes P (k key s p) (set_faults fs w)) ->
  passes P (fetch_api_key uuid c k) w.
Proof.
  intros Hid Hk. unfold fetch_api_key, passes. apply wp_try, (wp_read_db _ (w_db w)); [done| |]; intros fs.
  - destruct (ac_api_keys _ !! uuid) as [key|] eqn:E.
    + destruct (Hk key _ _ fs eq_refl eq_refl eq_refl) as [[fs' H1] H2]. split; [by exists fs'|done].
    + split; [apply only_faults_set|done].
  - split; [apply only_faults_set|done].
Qed.

Lemma APIKey_passes r c w : fresh c ->
  passes (fun c' => exists key, key_of (w_db w) (GetHeader r "API-Key") key (ctx_sender c') (ctx_provider c'))
    (APIKeyMiddleware r c) w.
Proof.
  intros Hc. unfold APIKeyMiddleware. destruct (String.eqb _ ""); [apply passes_refuse|].
  destruct (parse_uuid _) as [uuid|] eqn:Eid; [|apply passes_refuse].
  eapply fetch_passes; [done|]. intros key s p fs Hkey Hs Hp.
  destruct (set_profiles_ctx s p c Hc) as (E1 & E2 & _).
  destruct (no_profile s p) eqn:En; [apply passes_refuse|]. apply passes_next. intros _.
  exists key. rewrite E1, E2. split; eauto.
Qed.

(** The secret of the key cannot be read: not base64, or not what the server's key
    encrypted. *)
Definition unreadable (key : APIKey) : Prop := secret_of key = None.

Lemma hmac_header_passes P r c k w :
  (forall publicKey signature credentials,
     SplitN2 " "%char (GetHeader r "Authorization") = ("HMAC", Some credentials) ->
     SplitN2 ":"%char credentials = (publicKey, Some signature) -> passes P (k publicKey signature) w) ->
  passes P (hmac_header r c k) w.
Proof.
  intros H. unfold hmac_header. destruct (String.eqb _ ""); [apply passes_refuse|].
  destruct (SplitN2 " "%char _) as [scheme [credentials|]] eqn:E1; [|apply passes_refuse].
  destruct (String.eqb_spec scheme "HMAC") as [->|]; simpl; [|apply passes_refuse].
  destruct (_ || _); [apply passes_refuse|].
  destruct (SplitN2 ":"%char credentials) as [publicKey [signature|]] eqn:E2; [|apply passes_panic].
  destruct (_ || _); [apply passes_refuse|]. by eapply H.
Qed.

Lemma hmac_payload_passes P r c k w :
  (forall raw fs, (if String.eqb (rq_method r) "GET" || String.eqb (rq_method r) "DELETE"
                   then raw = omap (fun values => JStr <$> head values) (rq_query r)
                   else unmarshal_map (rq_body r) = Some raw) -> passes P (k raw) (set_faults fs w)) ->
  passes P (hmac_payload r c k) w.
Proof.
  intros H. unfold hmac_payload. destruct (_ || _).
  - specialize (H _ (w_faults w) eq_refl). by rewrite set_faults_id in H.
  - unfold passes. apply wp_try, wp_ext; intros fs; [|split; [apply only_faults_set|done]].
    destruct (unmarshal_map _) as [raw|]; [|split; [apply only_faults_set|done]].
    destruct (H raw fs eq_refl) as [[fs' H1] H2]. split; [by exists fs'|done].
Qed.

(** What a request that passes the HMAC middleware has shown. *)
Inductive hmac_shown (r : Request) (w : World) (c' : Ctx) : Prop :=
  | hmac_signed publicKey signature payload ts key secret :
      hmac_request r publicKey signature payload ts -> hmac_expired conf (w_now w) ts = false ->
      key_of (w_db w) publicKey key (ctx_sender c') (ctx_provider c') ->
      secret_of key = Some secret -> VerifyHMACSignature payload secret signature = true ->
      hmac_shown r w c'
  | hmac_unread publicKey key :
      key_of (w_db w) publicKey key (ctx_sender c') (ctx_provider c') -> unreadable key -> hmac_shown r w c'.

Lemma HMAC_passes r c w : fresh c -> passes (hmac_shown r w) (HMACVerificationMiddleware conf r c) w.
Proof.
  intros Hc. unfold HMACVerificationMiddleware. apply hmac_header_passes.
  intros publicKey signature credentials Hh1 Hh2. apply hmac_payload_passes. intros raw fs Hraw.
  destruct (hmac_timestamp raw) as [[payload ts]|] eqn:Ets; [|apply passes_refuse].
  assert (Hr : hmac_request r publicKey signature payload ts) by (split; eauto).
  unfold passes at 1. wp_step. wp_step.
  destruct (hmac_expired conf _ ts) eqn:Eexp; [apply passes_refuse|].
  destruct (parse_uuid publicKey) as [uuid|] eqn:Eid; [|apply passes_refuse].
  eapply fetch_passes; [done|]. intros key s p fs' Hkey Hs Hp. simpl in Hkey, Hs, Hp.
  destruct (set_profiles_ctx s p c Hc) as (E1 & E2 & _).
  destruct (no_profile s p) eqn:En; [apply passes_refuse|].
  assert (Hko : key_of (w_db w) publicKey key (ctx_sender (set_profiles s p c)) (ctx_provider (set_profiles s p c)))
    by (rewrite E1, E2; split; eauto).
  destruct (base64_decode (ak_secret key)) as [decoded|] eqn:Ed.
  2:{ apply passes_answer. intros _. eapply hmac_unread; [exact Hko|]. unfold unreadable, secret_of. by rewrite Ed. }
  unfold passes. apply wp_try. unfold DecryptPlain. destruct (_ <? 12)%nat; [split; [apply only_faults_refl|done]|].
  destruct (gcm_open _ _ _) as [secret|] eqn:Eg; wp_step.
  2:{ apply passes_answer. intros _. eapply hmac_unread; [exact Hko|]. unfold unreadable, secret_of. rewrite Ed. exact Eg. }
  destruct (VerifyHMACSignature payload secret signature) eqn:Ev; simpl; [|apply passes_refuse].
  destruct (marshal_map _) as [body|]; [|apply passes_refuse]. apply passes_next. intros _.
  eapply hmac_signed; [exact Hr|done|exact Hko| |exact Ev]. unfold secret_of. rewrite Ed. exact Eg.
Qed.

(** A request that passes [DynamicAuthMiddleware] has a credential, or the stored
    secret of the key it names cannot be read. *)
Definition authenticated (r : Request) (w : World) (c : Ctx) : Prop :=
  credential r w (ctx_sender c) (ctx_provider c) \/
  exists id key, key_of (w_db w) id key (ctx_sender c) (ctx_provider c) /\ unreadable key.

Lemma Dynamic_passes r w :
  passes (authenticated r w) (DynamicAuthMiddleware conf r (ctx0 r)) w.
Proof.
  assert (Hc : fresh (ctx0 r)) by done. unfold DynamicAuthMiddleware.
  destruct (String.eqb_spec (GetHeader r "Client-Type") "web") as [Hweb|Hweb].
  { eapply passes_mono; [by apply JWT_passes|]. intros c (userID & scope & Ht & Hs & Hp).
    left. by eapply cred_web. }
  destruct (Contains _ _) eqn:Epath; simpl; [destruct (String.eqb _ ""); simpl|].
  - eapply passes_mono; [by apply HMAC_passes|]. intros c H. destruct H; [left; by eapply cred_hmac|right; eauto].
  - eapply passes_mono; [by apply APIKey_passes|]. intros c (key & H). left. by eapply cred_key.
  - eapply passes_mono; [by apply HMAC_passes|]. intros c H. destruct H; [left; by eapply cred_hmac|right; eauto].
Qed.

(** The rest of the chain neither authenticates nor changes the profiles. *)
Lemma only_scope_passes (P : Ctx -> Prop) key r c w :
  (cx_aborted c = false -> P c) -> passes (fun c' => P c' /\ is_Some (cx_values c' !! key)) (only_scope key r c) w.
Proof.
  intros H. unfold only_scope. destruct (cx_values c !! key) eqn:E; [|apply passes_refuse].
  apply passes_next. split; [auto|by eexists].
Qed.

Lemma routes_pass key r w :
  passes (fun c => authenticated r w c /\ is_Some (cx_values c !! key))
    (chain [DynamicAuthMiddleware conf; only_scope key] r (ctx0 r)) w.
Proof.
  simpl. eapply passes_bind; [apply Dynamic_passes|]. intros c w' Hw Hc. simpl.
  destruct (cx_aborted c) eqn:Ea; [split; [apply only_faults_refl|]; intros Hx; by rewrite Ea in Hx|].
  eapply passes_bind; [apply (only_scope_passes (authenticated r w)); auto|].
  intros c' w'' _ Hc'. by apply passes_next.
Qed.

End auth_spec.

(** ** Runs in which nothing fails *)

Lemma SplitN2_app c s t : has_char c s = false -> SplitN2 c (s +:+ String c t) = (s, Some t).
Proof.
  induction s as [|a s IH]; simpl; intros H.
  - by rewrite Ascii.eqb_refl.
  - apply orb_false_elim in H as [Ha Hs]. by rewrite Ha, IH.
Qed.

Section auth_runs.
Context `{O : DecimalOps} {HS : HttpServices} {AS : AuthServices}.
Variable conf : AuthConf.

(** A request with an HMAC header and a payload with a timestamp. *)
Record hmac_sent (r : Request) (publicKey signature : string) (payload : gmap string json) (ts : float64) : Prop := {
  hs_header : GetHeader r "Authorization" = "HMAC " +:+ (publicKey +:+ String ":"%char signature);
  hs_key : has_char ":"%char publicKey = false;
  hs_nonempty : publicKey <> "" /\ signature <> "";
  hs_length : (4 <= String.length (publicKey +:+ String ":"%char signature))%nat;
  hs_method : rq_method r = "POST";
  hs_raw : exists raw, unmarshal_map (rq_body r) = Some raw /\ hmac_timestamp raw = Some (payload, ts)
}.

(** It is sent outside the sender paths' API-Key header and not by a web client. *)
Definition plain_client (r : Request) : Prop :=
  GetHeader r "Client-Type" <> "web" /\ GetHeader r "API-Key" = "".

Lemma hmac_header_sent r publicKey signature payload ts c k :
  hmac_sent r publicKey signature payload ts -> hmac_header r c k = k publicKey signature.
Proof.
  intros [Hh Hk [Hp Hs] Hl _ _]. unfold hmac_header. rewrite Hh.
  change ("HMAC " +:+ (publicKey +:+ String ":" signature))
    with ("HMAC" +:+ String " " (publicKey +:+ String ":" signature)).
  rewrite (SplitN2_app " "%char "HMAC") by done. simpl.
  rewrite has_char_app, Hk. simpl.
  destruct (Nat.ltb_spec (String.length (publicKey +:+ String ":" signature)) 4) as [?|_]; [lia|].
  simpl. rewrite SplitN2_app by done. apply String.eqb_neq in Hp, Hs. by rewrite Hp, Hs.
Qed.

Lemma fetch_found uuid k c kont w :
  w_faults w = [] -> ac_api_keys (db_accounts (w_db w)) !! uuid = Some k ->
  fetch_api_key uuid c kont w =
    kont k (ak_sender_profile k ≫= fun s => db_senders (w_db w) !! s)
      (ak_provider_profile k ≫= fun p => db_providers (w_db w) !! p) w.
Proof.
  intros Hf Hk. unfold fetch_api_key, tryM, read_db, bindM, ext. rewrite Hf. simpl. by rewrite Hk.
Qed.

(** The key is found and belongs to the sender [sp]. *)
Record sender_key (d : DB) (publicKey : string) (k : APIKey) (sp : SenderProfile) : Prop := {
  sk_key : exists uuid, parse_uuid publicKey = Some uuid /\ ac_api_keys (db_accounts d) !! uuid = Some k;
  sk_sender : (ak_sender_profile k ≫= fun s => db_senders d !! s) = Some sp;
  sk_provider : ak_provider_profile k = None
}.

(** The middleware up to the stored secret. *)
Lemma HMAC_reaches_secret r publicKey signature payload ts k sp w :
  hmac_sent r publicKey signature payload ts -> w_faults w = [] ->
  hmac_expired conf (w_now w) ts = false -> sender_key (w_db w) publicKey k sp ->
  HMACVerificationMiddleware conf r (ctx0 r) w =
    (let c := ctx_set "sender" (VSender (Some sp)) (ctx0 r) in
     match base64_decode (ak_secret k) with
     | None => answer 500 "Failed to decode API key" c
     | Some decodedSecret =>
         let? decryptedSecret := DecryptPlain conf decodedSecret orelse e =>
           answer 500 "Failed to decrypt API key" c in
         if negb (VerifyHMACSignature payload decryptedSecret signature)
         then refuse 401 "Invalid HMAC signature" c
         else match marshal_map (delete "timestamp" payload) with
              | None => refuse 500 "Failed to modify payload" c
              | Some modifiedPayload => next (ctx_set_body modifiedPayload c)
              end
     end) w.
Proof.
  intros Hsent Hf Hexp [(uuid & Hid & Hk) Hs Hp]. unfold HMACVerificationMiddleware.
  rewrite (hmac_header_sent _ _ _ _ _ _ _ Hsent).
  destruct Hsent as [_ _ _ _ Hm (raw & Hraw & Hts)]. unfold hmac_payload. rewrite Hm. simpl.
  unfold tryM at 1, ext at 1. rewrite Hf, Hraw, Hts. unfold bindM, getM. rewrite Hexp, Hid.
  rewrite (fetch_found _ k) by done. rewrite Hs, Hp. done.
Qed.

(** The chain of the sender routes runs the middleware and lets a sender pass. *)
Lemma sender_chain_hmac r w c w' :
  plain_client r -> HMACVerificationMiddleware conf r (ctx0 r) w = (Ret c, w') ->
  is_Some (cx_values c !! "sender") -> cx_aborted c = false ->
  chain (senderRoutes conf) r (ctx0 r) w = (Ret c, w').
Proof.
  intros [Hweb Hkey] H [v Hv] Ha. unfold senderRoutes, chain. simpl. unfold bindM, DynamicAuthMiddleware.
  apply String.eqb_neq in Hweb. rewrite Hweb, Hkey. simpl. rewrite andb_false_r, H, Ha.
  unfold OnlySenderMiddleware, only_scope. by rewrite Hv.
Qed.

(** The same for a web client. *)
Lemma sender_chain_web r w c w' :
  GetHeader r "Client-Type" = "web" -> JWTMiddleware conf r (ctx0 r) w = (Ret c, w') ->
  is_Some (cx_values c !! "sender") -> cx_aborted c = false ->
  chain (senderRoutes conf) r (ctx0 r) w = (Ret c, w').
Proof.
  intros Hweb H [v Hv] Ha. unfold senderRoutes, chain. simpl. unfold bindM, DynamicAuthMiddleware.
  rewrite Hweb. simpl. rewrite H, Ha. unfold OnlySenderMiddleware, only_scope. by rewrite Hv.
Qed.

Lemma bearer_sent r c k token :
  GetHeader r "Authorization" = "Bearer " +:+ token -> bearer r c k = k token.
Proof.
  intros H. unfold bearer. rewrite H.
  change ("Bearer " +:+ token) with ("Bearer" +:+ String " " token).
  by rewrite (SplitN2_app " "%char "Bearer").
Qed.

Lemma only_or_nil_found {A} (f : DB -> option A) w :
  w_faults w = [] -> only_or_nil f w = (Ret (f (w_db w)), w).
Proof. intros Hf. unfold only_or_nil, tryM, read_db, bindM, ext. by rewrite Hf. Qed.

(** A web client with a token of a sender. *)
Lemma JWT_sender r token claims userID w :
  w_faults w = [] -> GetHeader r "Authorization" = "Bearer " +:+ token ->
  ValidateJWT conf (w_now w) token = Some claims ->
  claim claims "sub" = Some userID -> claim claims "scope" = Some "sender" ->
  JWTMiddleware conf r (ctx0 r) w =
    (Ret (ctx_set "sender" (VSender (sender_of_user (w_db w) (uuid_or_nil userID)))
            (ctx_set "user_id" (VString userID) (ctx0 r))), w).
Proof.
  intros Hf Hh Hv Hs Hsc. unfold JWTMiddleware. rewrite (bearer_sent _ _ _ _ Hh).
  unfold bindM at 1, getM. rewrite Hv, Hs, Hsc. simpl. unfold bindM. rewrite only_or_nil_found by done. done.
Qed.

(** A token signed with the server's secret opens the sender routes until it expires. *)
Lemma signed_token_opens {L : AuthLaws AS} now0 userID token lifespan r w :
  jwt_sign (au_Secret conf) (jwt_claims userID "sender" now0 lifespan) = Some token ->
  (unix (w_now w) < unix (now0 + lifespan))%Z -> w_faults w = [] ->
  GetHeader r "Client-Type" = "web" -> GetHeader r "Authorization" = "Bearer " +:+ token ->
  chain (senderRoutes conf) r (ctx0 r) w =
    (Ret (ctx_set "sender" (VSender (sender_of_user (w_db w) (uuid_or_nil userID)))
            (ctx_set "user_id" (VString userID) (ctx0 r))), w).
Proof.
  intros Hsign Hlife Hf Hweb Hh.
  pose proof (jwt_round_trip _ (jwt_claims userID "sender" now0 lifespan) _ _ _ eq_refl eq_refl eq_refl Hsign Hlife) as Hv.
  eapply sender_chain_web; [done|exact (JWT_sender _ _ _ _ _ Hf Hh Hv eq_refl eq_refl)|by eexists|done].
Qed.

End auth_runs.

(** ** The owner of the linked accounts, declaratively *)

Definition ethereum_wallet (privy : bool) (a : LinkedAccount) : bool :=
  String.eqb (lk_Type a) "wallet" && String.eqb (lk_ChainType a) "ethereum" &&
  Bool.eqb (String.eqb (lk_WalletClientType a) "privy") privy.
Definition wallets (privy : bool) (accounts : list LinkedAccount) : list string :=
  map lk_Address (List.filter (ethereum_wallet privy) accounts).
Definition has_email (accounts : list LinkedAccount) : bool :=
  existsb (fun a => String.eqb (lk_Type a) "email") accounts.
Definition nonempty (s : string) : bool := negb (String.eqb s "").

(** The last Privy wallet, and the first other wallet with an address. *)
Definition privy_wallet (accounts : list LinkedAccount) : string := default "" (last (wallets true accounts)).
Definition other_wallet (accounts : list LinkedAccount) : string :=
  default "" (List.find nonempty (wallets false accounts)).
(** A Privy wallet counts first when there is an e-mail login, last otherwise. *)
Definition owner_address (accounts : list LinkedAccount) : string :=
  let candidates :=
    if has_email accounts then [privy_wallet accounts; other_wallet accounts]
    else [other_wallet accounts; privy_wallet accounts] in
  default "" (List.find nonempty candidates).

Lemma owner_scan_spec accounts e p o :
  owner_scan accounts e p o =
    (e || has_email accounts, default p (last (wallets true accounts)),
     if String.eqb o "" then other_wallet accounts else o).
Proof.
  unfold other_wallet, wallets, ethereum_wallet. revert e p o.
  induction accounts as [|a l IH]; intros e p o; simpl.
  { rewrite orb_false_r. by destruct (String.eqb_spec o "") as [->|]. }
  destruct (String.eqb_spec (lk_Type a) "email") as [->|He]; simpl; [by rewrite IH, orb_true_r|].
  destruct (String.eqb (lk_Type a) "wallet" && _); simpl; [|by rewrite IH].
  destruct (String.eqb _ "privy"); simpl.
  - rewrite IH. rewrite last_cons. f_equal. f_equal. by destruct (last _).
  - destruct (String.eqb_spec o "") as [->|Ho]; rewrite IH; [|apply String.eqb_neq in Ho; by rewrite Ho].
    unfold nonempty. by destruct (String.eqb (lk_Address a) "").
Qed.

(** ** Claims *)

Section auth_claims.
Context `{O : DecimalOps} {HS : HttpServices} {AS : AuthServices}.
Variable conf : AuthConf.

(** C16: authentication of the sender and provider routes.  Whatever external calls
    fail, a request whose chain is not aborted carries a credential for the profiles
    on its context (a valid token of a web client whose scope covers them, the id of
    an API key on a sender path, or a fresh payload signed with the key's secret),
    provided that the stored secrets of all keys can be read; and the middlewares
    change nothing. *)
Theorem authentication_sound key r w :
  (forall id k, ac_api_keys (db_accounts (w_db w)) !! id = Some k -> secret_of conf k <> None) ->
  wp (chain [DynamicAuthMiddleware conf; only_scope key] r (ctx0 r)) (fun o w' =>
    only_faults w w' /\
    match o with
    | Ret c => cx_aborted c = false -> credential conf r w (ctx_sender c) (ctx_provider c)
    | Err _ => False
    | Panic => True
    end) w.
Proof.
  intros Hkeys. eapply wp_mono; [apply routes_pass|]. intros o w' [Hw H]. split; [done|].
  destruct o as [c|e|]; [|done|done]. intros Ha. destruct (H Ha) as [[Hc|(id & k & Hk & Hu)] _]; [done|].
  destruct (ko_key _ _ _ _ _ Hk) as (uuid & _ & Hl). by destruct (Hkeys uuid k Hl).
Qed.

(** A request signed with the secret of a sender's key, with a timestamp that has
    not expired, reaches the handler with that sender on the context, no response
    written, and the payload without its timestamp as the body. *)
Theorem signed_request_admitted r publicKey signature payload ts k sp decoded secret body w :
  w_faults w = [] -> plain_client r -> hmac_sent r publicKey signature payload ts ->
  hmac_expired conf (w_now w) ts = false -> sender_key (w_db w) publicKey k sp ->
  base64_decode (ak_secret k) = Some decoded -> DecryptPlain conf decoded w = (Ret secret, w) ->
  signature = GenerateHMACSignature payload secret ->
  marshal_map (delete "timestamp" payload) = Some body ->
  chain (senderRoutes conf) r (ctx0 r) w =
    (Ret (mkCtx {[ "sender" := VSender (Some sp) ]} [] false body), w).
Proof.
  intros Hf Hpl Hsent Hexp Hk Hdec Hopen Hsig Hbody. apply sender_chain_hmac; [done| |by eexists|done].
  rewrite (HMAC_reaches_secret _ _ _ _ _ _ _ _ _ Hsent Hf Hexp Hk). cbv zeta. rewrite Hdec.
  unfold tryM at 1. rewrite Hopen. unfold VerifyHMACSignature. rewrite Hsig, String.eqb_refl. simpl.
  by rewrite Hbody.
Qed.


(** C18: the tokens that [Login] gives a sender open the sender routes until they
    expire, with the sender profile of that user on the context; the refresh token
    does so for its own, longer, life, as nothing in the claims tells it from an
    access token. *)
Theorem login_tokens_authenticate {L : AuthLaws AS} now0 userID access refresh token lifespan r w :
  GeneratePairJWT conf now0 userID "sender" = Some (access, refresh) ->
  (token, lifespan) ∈ [(access, au_JwtAccessLifespan conf); (refresh, au_JwtRefreshLifespan conf)] ->
  (unix (w_now w) < unix (now0 + lifespan))%Z -> w_faults w = [] ->
  GetHeader r "Client-Type" = "web" -> GetHeader r "Authorization" = "Bearer " +:+ token ->
  exists c, chain (senderRoutes conf) r (ctx0 r) w = (Ret c, w) /\ cx_aborted c = false /\
    ctx_sender c = sender_of_user (w_db w) (uuid_or_nil userID) /\
    cx_values c !! "user_id" = Some (VString userID).
Proof.
  intros Hpair Htok Hlife Hf Hweb Hh.
  assert (Hsign : jwt_sign (au_Secret conf) (jwt_claims userID "sender" now0 lifespan) = Some token).
  { unfold GeneratePairJWT, GenerateAccessJWT, GenerateRefreshJWT in Hpair. repeat case_match; simplify_eq.
    rewrite !elem_of_cons in Htok. by destruct Htok as [|[|[]%elem_of_nil]]; simplify_eq. }
  rewrite (signed_token_opens conf _ _ _ _ _ _ Hsign Hlife Hf Hweb Hh). by eexists.
Qed.

(** A valid token with scope "sender" of a user without a sender profile passes
    the sender routes: the context holds a nil profile, which the handler
    dereferences.  The middleware sets the result of the failed query after setting
    nil, and [OnlySenderMiddleware] refuses only an unset key. *)
Theorem missing_profile_admitted r token claims userID w :
  w_faults w = [] -> GetHeader r "Client-Type" = "web" -> GetHeader r "Authorization" = "Bearer " +:+ token ->
  ValidateJWT conf (w_now w) token = Some claims ->
  claim claims "sub" = Some userID -> claim claims "scope" = Some "sender" ->
  sender_of_user (w_db w) (uuid_or_nil userID) = None ->
  exists c, chain (senderRoutes conf) r (ctx0 r) w = (Ret c, w) /\ cx_aborted c = false /\
    cx_values c !! "sender" = Some (VSender None).
Proof.
  intros Hf Hweb Hh Hv Hs Hsc Hnone.
  eexists. split; [eapply sender_chain_web; [done|exact (JWT_sender _ _ _ _ _ _ Hf Hh Hv Hs Hsc)|by eexists|done]|].
  rewrite Hnone. done.
Qed.

(** A valid token without a string "sub" claim panics the middleware: the message
    of the response is [err.Error()] of an error that is nil. *)
Theorem jwt_without_sub_panics r c token claims w :
  GetHeader r "Authorization" = "Bearer " +:+ token ->
  ValidateJWT conf (w_now w) token = Some claims -> claim claims "sub" = None ->
  (JWTMiddleware conf r c w).1 = Panic.
Proof.
  intros Hh Hv Hs. unfold JWTMiddleware. rewrite (bearer_sent _ _ _ _ Hh).
  unfold bindM at 1, getM. by rewrite Hv, Hs.
Qed.

(** A payload dated ahead of the clock never expires by its date, however far
    ahead: only the age is bounded. *)
Theorem future_timestamp_accepted now ts :
  (0 <= unix now)%Z -> (unix now <= int64 ts < 2 ^ 63)%Z -> (0 <= au_HmacTimestampAge conf)%Z ->
  hmac_expired conf now ts = false.
Proof.
  intros H0 Hts Hage. unfold hmac_expired. apply Z.ltb_ge.
  rewrite wrap64_id by lia. pose proof (Z.quot_pos _ 1000000000 Hage). lia.
Qed.

End auth_claims.

(** [determineOwnerAddress] gives the first address there is: the last Privy
    Ethereum wallet and then the first other Ethereum wallet for a user with an
    e-mail login, the other way round without one, and nothing when there is none. *)
Theorem owner_address_spec accounts : determineOwnerAddress accounts = owner_address accounts.
Proof.
  unfold determineOwnerAddress, owner_address. rewrite owner_scan_spec. simpl. unfold nonempty, privy_wallet.
  destruct (has_email accounts); simpl;
    destruct (String.eqb_spec (default "" (last (wallets true accounts))) "") as [->|];
    destruct (String.eqb_spec (other_wallet accounts) "") as [->|]; done.
Qed.

(** ** Concrete runs *)

(** A signature is key and message; one token, of one user. *)
#[export] Instance s_http : HttpServices := {| parse_uuid := Some |}.
Definition s_float (s : string) : option float64 :=
  if String.eqb s "1000" then Some (FNum 1000) else if String.eqb s "5000" then Some (FNum 5000) else None.
Definition s_payload : gmap string json := <["amount" := JNum "5"]> {[ "timestamp" := JNum "1000" ]}.
Definition s_web_claims : gmap string json :=
  <["sub" := JStr "u1"]> (<["scope" := JStr "sender"]> {[ "exp" := JNum "901" ]}).
#[export] Instance s_auth : AuthServices := {|
  ParseFloat := s_float;
  int64_unrepresentable _ := (- 2 ^ 63)%Z;
  unmarshal_map s := if String.eqb s "signed" then Some s_payload else None;
  marshal_map m := Some (match m !! "timestamp" with Some _ => "signed" | None => "body" end);
  hmac_sha256_hex k m := k +:+ "/" +:+ m;
  base64_decode s := if HasPrefix s "!" then None else Some s;
  gcm_open key nonce text := if String.eqb nonce "nonce-nonce-" then Some text else None;
  jwt_sign secret claims := if decide (claims = s_web_claims) then Some "token" else None;
  jwt_parse secret now t :=
    if String.eqb t "token" && (now <? 901)%Z then Some s_web_claims
    else if String.eqb t "nosub" then Some {[ "scope" := JStr "sender" ]} else None;
  privy_parse _ _ := None;
  unmarshal_accounts _ := None;
  turnstile_success _ _ := true
|}.

Lemma s_auth_laws : AuthLaws s_auth.
Proof.
  split. intros secret claims t exp now Hexp _ _ Hs Hlt. simpl in *. case_decide as Hc; simplify_eq.
  assert (exp = 901)%Z as ->.
  { apply (inj pretty). change (Some (JNum (pretty 901%Z)) = Some (JNum (pretty exp))) in Hexp. congruence. }
  simpl. by rewrite (proj2 (Z.ltb_lt now 901) Hlt).
Qed.

Definition s_auth_conf : AuthConf :=
  mkAuthConf "server" 901000000000 901000000000 300000000000 300000000000 "slack" "app" "pem" false "" "production".
(** A sender with a key, and one whose stored secret is not base64. *)
Definition s_user : User :=
  mkUser "u1" "Ada" "L" "ada@example.com" "hash" "sender" true false KNotStarted (Some "s1") None.
Definition s_key1 : APIKey := mkKey "key1" "nonce-nonce-secret" (Some "s1") None.
Definition s_auth_world (keys : gmap string APIKey) : World :=
  set_db (set_accounts (mkAccounts {[ "u1" := s_user ]} keys [] ∅ []) (s_db (s_pc 100 0 100)))
    (s_world (s_pc 100 0 100) []).
Definition s_hmac_request (key signature : string) : Request :=
  mkReq "POST" "/v1/sender/orders" {[ "Authorization" := "HMAC " +:+ (key +:+ String ":"%char signature) ]}
    ∅ "signed" "".
Definition s_web_request (token : string) : Request :=
  mkReq "GET" "/v1/sender/orders"
    (<["Client-Type" := "web"]> {[ "Authorization" := "Bearer " +:+ token ]}) ∅ "" "".


Lemma authentication_sound_witness :
  credential s_auth_conf (s_web_request "token") (s_auth_world {[ "key1" := s_key1 ]}) (Some s_sender) None.
Proof.
  pose proof (authentication_sound s_auth_conf "sender" (s_web_request "token") (s_auth_world {[ "key1" := s_key1 ]})) as H.
  assert (Hk : forall id k, ac_api_keys (db_accounts (w_db (s_auth_world {[ "key1" := s_key1 ]}))) !! id = Some k ->
            secret_of s_auth_conf k <> None).
  { clear H. intros id k H. change (({[ "key1" := s_key1 ]} : gmap string APIKey) !! id = Some k) in H.
    apply lookup_singleton_Some in H as [_ <-]. vm_compute. discriminate. }
  specialize (H Hk). exact (proj2 H eq_refl).
Defined.

Lemma length_append (s t : string) : String.length (s +:+ t) = (String.length s + String.length t)%nat.
Proof. induction s as [|a s IH]; simpl; [done|]. by rewrite IH. Qed.

Lemma s_hmac_sent key signature :
  has_char ":"%char key = false -> key <> "" -> signature <> "" ->
  (3 <= String.length key)%nat ->
  hmac_sent (s_hmac_request key signature) key signature s_payload (FNum 1000).
Proof.
  intros Hc Hk Hs Hl. split; [reflexivity|done|done| |reflexivity|by exists s_payload].
  rewrite length_append. simpl. lia.
Qed.

Lemma signed_request_admitted_witness :
  chain (senderRoutes s_auth_conf) (s_hmac_request "key1" "secret/signed")
    (ctx0 (s_hmac_request "key1" "secret/signed")) (s_auth_world {[ "key1" := s_key1 ]}) =
  (Ret (mkCtx {[ "sender" := VSender (Some s_sender) ]} [] false "body"), s_auth_world {[ "key1" := s_key1 ]}).
Proof.
  apply (signed_request_admitted s_auth_conf (s_hmac_request "key1" "secret/signed") "key1" "secret/signed" s_payload
    (FNum 1000) s_key1 s_sender "nonce-nonce-secret" "secret" "body").
  - reflexivity.
  - split; [discriminate|reflexivity].
  - apply s_hmac_sent; [reflexivity|discriminate|discriminate|simpl; lia].
  - reflexivity.
  - split; [by exists "key1"|reflexivity|reflexivity].
  - reflexivity.
  - reflexivity.
  - reflexivity.
  - reflexivity.
Defined.


Lemma login_tokens_authenticate_witness :
  exists c, chain (senderRoutes s_auth_conf) (s_web_request "token") (ctx0 (s_web_request "token"))
      (s_auth_world ∅) = (Ret c, s_auth_world ∅) /\ cx_aborted c = false /\
    ctx_sender c = sender_of_user (w_db (s_auth_world ∅)) (uuid_or_nil "u1") /\
    cx_values c !! "user_id" = Some (VString "u1").
Proof.
  apply (login_tokens_authenticate (L := s_auth_laws) s_auth_conf 0 "u1" "token" "token" "token" 901000000000).
  - vm_compute. reflexivity.
  - apply list_elem_of_here.
  - vm_compute. reflexivity.
  - reflexivity.
  - reflexivity.
  - reflexivity.
Defined.

(** A user whose only profile is gone. *)
Lemma missing_profile_admitted_witness :
  exists c, chain (senderRoutes s_auth_conf) (s_web_request "token") (ctx0 (s_web_request "token"))
      (s_world (s_pc 100 0 100) []) = (Ret c, s_world (s_pc 100 0 100) []) /\ cx_aborted c = false /\
    cx_values c !! "sender" = Some (VSender None).
Proof.
  apply (missing_profile_admitted s_auth_conf _ "token" s_web_claims "u1"); reflexivity.
Defined.

Lemma jwt_without_sub_panics_witness :
  (JWTMiddleware s_auth_conf (s_web_request "nosub") (ctx0 (s_web_request "nosub")) (s_auth_world ∅)).1 = Panic.
Proof.
  apply (jwt_without_sub_panics s_auth_conf _ _ "nosub" {[ "scope" := JStr "sender" ]}); reflexivity.
Defined.

Lemma future_timestamp_accepted_witness :
  hmac_expired s_auth_conf 1000000000000 (FNum 5000) = false.
Proof. apply future_timestamp_accepted; vm_compute; intuition discriminate. Defined.
