(* ===== verification/Accounts.v ===== *)
(** * User accounts (controllers/accounts/auth.go, services/api_key.go)

    Registration, login and refresh, the confirmation of an e-mail address, the
    reset and the change of a password, and the deletion of an account with the
    rows that hang on it.  [Register] is one transaction over the users, the
    profiles, the balances and the API keys; the deletion follows the foreign keys
    of ent/migrate/schema.go, those that cascade and the one of the ratings, which
    refuses. *)

From S2P Require Import Prelude Decimal Schema Store Balance Utils Http Auth.
Local Open Scope go_scope.
Local Open Scope string_scope.
Local Open Scope list_scope.

(** ** Payloads and answers *)

Record RegisterPayload := mkRegister {
  rp_FirstName : string;
  rp_LastName : string;
  rp_Email : string;
  rp_Password : string;
  rp_Currencies : list string;
  rp_Scopes : list string
}.
Record RegisterResponse := mkRegisterResponse {
  rr_ID : string;
  rr_FirstName : string;
  rr_LastName : string;
  rr_Email : string
}.
Record LoginResponse := mkLoginResponse {
  lr_AccessToken : string;
  lr_RefreshToken : string;
  lr_Scopes : list string
}.

Class AccountServices `{O : DecimalOps} := {
  (** [uuid.New] for the rows of a table *)
  account_uuid : string -> World -> string;
  (** [generateProviderID] *)
  new_provider_id : World -> string;
  (** bcrypt: hashing fails beyond 72 bytes *)
  bcrypt_hash : World -> string -> option string;
  bcrypt_check : string -> string -> bool;
  (** [token.GeneratePrivateKey]; base64 of [crypto.EncryptPlain], whose error is dropped *)
  private_key : World -> option string;
  encrypt_plain : World -> string -> string;
  (** md5 of a bcrypt hash of an e-mail address *)
  verification_text : World -> string -> string
}.

Section accounts.
Context `{O : DecimalOps} {HS : HttpServices} {AS : AuthServices} {AC : AccountServices}.
Variable conf : AuthConf.

(** ** Rows *)

Definition users (d : DB) : list User := map snd (map_to_list (ac_users (db_accounts d))).
Definition with_users (f : gmap string User -> gmap string User) (d : DB) : DB :=
  let a := db_accounts d in set_accounts (mkAccounts (f (ac_users a)) (ac_api_keys a) (ac_tokens a) (ac_kyb_profiles a) (ac_ratings a)) d.
Definition with_keys (f : gmap string APIKey -> gmap string APIKey) (d : DB) : DB :=
  let a := db_accounts d in set_accounts (mkAccounts (ac_users a) (f (ac_api_keys a)) (ac_tokens a) (ac_kyb_profiles a) (ac_ratings a)) d.
Definition with_tokens (f : list VerificationToken -> list VerificationToken) (d : DB) : DB :=
  let a := db_accounts d in set_accounts (mkAccounts (ac_users a) (ac_api_keys a) (f (ac_tokens a)) (ac_kyb_profiles a) (ac_ratings a)) d.
Definition with_kyb (f : gmap string KYBProfile -> gmap string KYBProfile) (d : DB) : DB :=
  let a := db_accounts d in set_accounts (mkAccounts (ac_users a) (ac_api_keys a) (ac_tokens a) (f (ac_kyb_profiles a)) (ac_ratings a)) d.

Definition us_set_sender (s : string) (u : User) : User :=
  mkUser (us_id u) (us_first_name u) (us_last_name u) (us_email u) (us_password u) (us_scope u)
    (us_is_email_verified u) (us_has_early_access u) (us_kyb_verification_status u) (Some s) (us_provider_profile u).
Definition us_set_provider (p : string) (u : User) : User :=
  mkUser (us_id u) (us_first_name u) (us_last_name u) (us_email u) (us_password u) (us_scope u)
    (us_is_email_verified u) (us_has_early_access u) (us_kyb_verification_status u) (us_sender_profile u) (Some p).
Definition us_set_password (h : string) (u : User) : User :=
  mkUser (us_id u) (us_first_name u) (us_last_name u) (us_email u) h (us_scope u)
    (us_is_email_verified u) (us_has_early_access u) (us_kyb_verification_status u) (us_sender_profile u) (us_provider_profile u).
Definition us_verify (u : User) : User :=
  mkUser (us_id u) (us_first_name u) (us_last_name u) (us_email u) (us_password u) (us_scope u)
    true (us_has_early_access u) (us_kyb_verification_status u) (us_sender_profile u) (us_provider_profile u).

Definition present {A} (o : option A) : bool := match o with Some _ => true | None => false end.
Definition constraint : error := EMsg "constraint failed".

(** [User.Query().Where(EmailEQ(email)).Only(ctx)] *)
Definition user_by_email (h : handle) (email : string) : M User :=
  let! d := read_db h in only (List.filter (fun u => String.eqb (us_email u) email) (users d)).
(** [User.Query().Where(IDEQ(id)).Only(ctx)] *)
Definition user_by_id (id : string) : M User :=
  let! d := read_db None in
  match ac_users (db_accounts d) !! id with Some u => retM u | None => errM ENotFound end.

(** [User.Create()...Save]: the hook hashes the password, the e-mail is unique. *)
Definition create_user (h : handle) (p : RegisterPayload) (verified : bool) : M User :=
  let! w := getM in
  match bcrypt_hash w (rp_Password p) with
  | None => errM (EMsg "bcrypt: password length exceeds 72 bytes")
  | Some hash =>
      let u := mkUser (account_uuid "users" w) (rp_FirstName p) (rp_LastName p) (ToLower (rp_Email p)) hash
                 (join_with " "%char (rp_Scopes p)) verified false KNotStarted None None in
      modify_db h (fun d =>
        if present (ac_users (db_accounts d) !! us_id u) ||
           existsb (fun v => String.eqb (us_email v) (us_email u)) (users d)
        then inl constraint
        else inr (with_users (<[us_id u := u]>) d, u))
  end.

(** [UpdateOne(user).SetPassword(password).Save]: the hook hashes it. *)
Definition update_password (id password : string) : M unit :=
  let! w := getM in
  match bcrypt_hash w password with
  | None => errM (EMsg "bcrypt: password length exceeds 72 bytes")
  | Some hash =>
      modify_db None (fun d =>
        match ac_users (db_accounts d) !! id with
        | Some u => inr (with_users (<[id := us_set_password hash u]>) d, tt)
        | None => inl ENotFound
        end)
  end.

(** [owner.Update().SetIsEmailVerified(true).Save] *)
Definition verify_user (id : string) : M User :=
  modify_db None (fun d =>
    match ac_users (db_accounts d) !! id with
    | Some u => inr (with_users (<[id := us_verify u]>) d, us_verify u)
    | None => inl ENotFound
    end).

(** [ProviderProfile.Create().SetVisibilityMode(private).SetUser(user).SetProvisionMode(auto).Save];
    a user has at most one. *)
Definition create_provider (h : handle) (user : User) : M ProviderProfile :=
  let! w := getM in
  let p := mkPP (new_provider_id w) "" "" true false false (w_now w) VisPrivate
             (us_kyb_verification_status user) None (us_email user) in
  modify_db h (fun d =>
    match ac_users (db_accounts d) !! us_id user, db_providers d !! pp_id p with
    | Some u, None =>
        if bool_decide (us_provider_profile u = None)
        then inr (set_providers (<[pp_id p := p]> (db_providers d))
                    (with_users (<[us_id user := us_set_provider (pp_id p) u]>) d), p)
        else inl constraint
    | _, _ => inl constraint
    end).

(** [SenderProfile.Create().SetUser(user).Save] *)
Definition create_sender (h : handle) (user : User) : M SenderProfile :=
  let! w := getM in
  let s := mkSP (account_uuid "sender_profiles" w) "" "" false false (us_email user) (us_first_name user) None [] in
  modify_db h (fun d =>
    match ac_users (db_accounts d) !! us_id user, db_senders d !! sp_id s with
    | Some u, None =>
        if bool_decide (us_sender_profile u = None)
        then inr (set_senders (<[sp_id s := s]> (db_senders d))
                    (with_users (<[us_id user := us_set_sender (sp_id s) u]>) d), s)
        else inl constraint
    | _, _ => inl constraint
    end).

(** [ProviderCurrencies.Create()...Save] with zero balances; one row for a provider
    and a currency. *)
Definition create_provider_currency (h : handle) (p c : string) : M unit :=
  let! w := getM in
  modify_db h (fun d =>
    match db_provider_currencies d !! (p, c) with
    | Some _ => inl constraint
    | None => inr (set_pcs (<[(p, c) := mkPC d_zero d_zero d_zero true (w_now w)]> (db_provider_currencies d)) d, tt)
    end).

(** ** API keys (services/api_key.go) *)

Definition pp_set_key (secret : string) (p : ProviderProfile) : ProviderProfile :=
  mkPP (pp_id p) (pp_trading_name p) (pp_host_identifier p) (pp_auto_provision p) (pp_is_active p)
    (pp_is_kyb_verified p) (pp_updated_at p) (pp_visibility_mode p) (pp_user_kyb_status p) (Some secret) (pp_user_email p).
Definition sp_set_key (secret : string) (s : SenderProfile) : SenderProfile :=
  mkSP (sp_id s) (sp_webhook_url s) (sp_provider_id s) (sp_is_partner s) (sp_is_active s)
    (sp_user_email s) (sp_user_first_name s) (Some secret) (sp_domain_whitelist s).

(** The insert: the id and the secret are unique, and so is the key of a profile. *)
Definition create_key (h : handle) (k : APIKey) : M APIKey :=
  modify_db h (fun d =>
    let taken := present (ac_api_keys (db_accounts d) !! ak_id k) ||
                 existsb (fun k' => String.eqb (ak_secret k') (ak_secret k) ||
                   (bool_decide (ak_sender_profile k <> None) && bool_decide (ak_sender_profile k' = ak_sender_profile k)) ||
                   (bool_decide (ak_provider_profile k <> None) && bool_decide (ak_provider_profile k' = ak_provider_profile k)))
                   (map snd (map_to_list (ac_api_keys (db_accounts d)))) in
    if taken || String.eqb (ak_secret k) "" then inl constraint
    else
      let d := with_keys (<[ak_id k := k]>) d in
      let d := match ak_sender_profile k with
               | Some s => set_senders (alter (sp_set_key (ak_secret k)) s (db_senders d)) d | None => d end in
      let d := match ak_provider_profile k with
               | Some p => set_providers (alter (pp_set_key (ak_secret k)) p (db_providers d)) d | None => d end in
      inr (d, k)).

(** [h] is the caller's transaction, or [None]. *)
Definition GenerateAPIKey (h : handle) (sender : option SenderProfile) (provider : option ProviderProfile)
    : M (APIKey * string) :=
  let! w := getM in
  match private_key w with
  | None => errM (EMsg "failed to generate API key")
  | Some secretKey =>
      let encodedSecret := encrypt_plain w secretKey in
      let row s p := mkKey (account_uuid "api_keys" w) encodedSecret s p in
      let save k := let! apiKey := wrapM "failed to create API key" (create_key h k) in retM (apiKey, secretKey) in
      match sender, provider with
      | Some s, _ => save (row (Some (sp_id s)) None)
      | None, Some p => save (row None (Some (pp_id p)))
      | None, None => errM (EMsg "profile not provided")
      end
  end.

(** The key of a profile and its secret in clear; the errors of the query, of the
    decoding and of the decryption are dropped, and a profile without a key is a nil
    dereference. *)
Definition GetAPIKey (sender : option SenderProfile) (provider : option ProviderProfile) : M (string * string) :=
  let answer (own : APIKey -> bool) :=
    let? key := (let! d := read_db None in
                 only (List.filter own (map snd (map_to_list (ac_api_keys (db_accounts d)))))) orelse e => panicM in
    let decodedSecret := default "" (base64_decode (ak_secret key)) in
    let? decryptedSecret := DecryptPlain conf decodedSecret orelse e => retM (ak_id key, "") in
    retM (ak_id key, decryptedSecret) in
  match sender, provider with
  | Some s, _ => answer (fun k => bool_decide (ak_sender_profile k = Some (sp_id s)))
  | None, Some p => answer (fun k => bool_decide (ak_provider_profile k = Some (pp_id p)))
  | None, None => errM (EMsg "profile not provided")
  end.

(** ** E-mail and verification tokens *)

Definition send_email (template token email : string) : M unit :=
  do! ext in emit (EvEmail template token email).

(** [VerificationToken.Create().SetOwner(user).SetScope(scope).SetExpiryAt(..).Save]: the
    hook reads the user and derives the token from its e-mail. *)
Definition create_token (owner : string) (scope : TokenScope) : M VerificationToken :=
  let! d := read_db None in
  match ac_users (db_accounts d) !! owner with
  | None => errM ENotFound
  | Some u =>
      let! w := getM in
      let row id := mkVT id (verification_text w (us_email u)) scope
                      (w_now w + au_PasswordResetLifespan conf)%Z owner in
      modify_db None (fun d =>
        match ac_users (db_accounts d) !! owner with
        | None => inl constraint
        | Some _ => let t := row (db_next_id d) in
                    inr (set_next_id (db_next_id d + 1)%Z (with_tokens (fun l => l ++ [t]) d), t)
        end)
  end.

(** [VerificationToken.DeleteOneID(id).Exec] *)
Definition delete_token (id : Z) : M unit :=
  modify_db None (fun d =>
    if existsb (fun t => (vt_id t =? id)%Z) (ac_tokens (db_accounts d))
    then inr (with_tokens (List.filter (fun t => negb (vt_id t =? id)%Z)) d, tt)
    else inl ENotFound).

(** ** Endpoints *)

(** The enabled currencies of the payload, and the codes that are none. *)
Fixpoint fetch_currencies (h : handle) (codes : list string) : M (list string * list string) :=
  match codes with
  | [] => retM ([], [])
  | code :: codes =>
      let! d := read_db h in
      let! rest := fetch_currencies h codes in
      match db_currencies d !! ToUpper code with
      | Some fc => if fc_is_enabled fc then retM (fc_code fc :: fst rest, snd rest)
                   else retM (fst rest, ToUpper code :: snd rest)
      | None => retM (fst rest, ToUpper code :: snd rest)
      end
  end.
Fixpoint create_currencies (h : handle) (p : string) (codes : list string) : M unit :=
  match codes with
  | [] => retM tt
  | c :: codes => do! create_provider_currency h p c in create_currencies h p codes
  end.

(** [_ = tx.Rollback(); u.APIResponse(..)] *)
Definition abandon {A} (tx : nat) (code : Z) (message : string) : M (ApiResponse A) :=
  do! rollback_tx tx in api_error code message.

(** The provider part of a registration; [None] when all went well. *)
Definition register_provider (tx : nat) (user : User) (currencies : list string)
    : M (option (ApiResponse RegisterResponse)) :=
  let stop (m : M (ApiResponse RegisterResponse)) := let! r := m in retM (Some r) in
  match currencies with
  | [] => stop (abandon tx 400 "Currencies are required for provider account")
  | _ =>
      let? found := fetch_currencies (Some tx) currencies orelse e =>
        stop (abandon tx 500 "Failed to create new user") in
      match snd found with
      | _ :: _ => stop (abandon tx 400 "Failed to validate payload")
      | [] =>
          let? provider := create_provider (Some tx) user orelse e =>
            stop (abandon tx 500 "Failed to create new user") in
          do? create_currencies (Some tx) (pp_id provider) (fst found) orelse e =>
            stop (abandon tx 500 "Failed to create new user") in
          do? GenerateAPIKey (Some tx) None (Some provider) orelse e =>
            stop (abandon tx 500 "Failed to create new user") in
          retM None
      end
  end.

Definition register_sender (tx : nat) (user : User) : M (option (ApiResponse RegisterResponse)) :=
  let stop (m : M (ApiResponse RegisterResponse)) := let! r := m in retM (Some r) in
  let? sender := create_sender (Some tx) user orelse e =>
    stop (abandon tx 500 "Failed to create new user") in
  do? GenerateAPIKey (Some tx) (Some sender) None orelse e =>
    stop (abandon tx 500 "Failed to create new user") in
  retM None.

(** The error of the query for an existing user is dropped: only a found row stops
    the registration. *)
Definition Register (payload : option RegisterPayload) : M (ApiResponse RegisterResponse) :=
  match payload with
  | None => api_error 400 "Failed to validate payload"
  | Some p =>
      let? tx := begin_tx orelse e => api_error 500 "Failed to create new user" in
      let! userTmp := attemptM (user_by_email (Some tx) (ToLower (rp_Email p))) in
      match userTmp with
      | inr _ => abandon tx 400 "User with email already exists"
      | inl _ =>
          let verified := negb (String.eqb (au_Environment conf) "production") &&
                          negb (String.eqb (au_Environment conf) "staging") in
          let? user := create_user (Some tx) p verified orelse e =>
            abandon tx 500 "Failed to create new user" in
          let! stopped := if ContainsString (rp_Scopes p) "provider"
                          then register_provider tx user (rp_Currencies p) else retM None in
          match stopped with
          | Some r => retM r
          | None =>
              let! stopped := if ContainsString (rp_Scopes p) "sender"
                              then register_sender tx user else retM None in
              match stopped with
              | Some r => retM r
              | None =>
                  do? commit_tx tx orelse e => api_error 500 "Failed to create new user" in
                  let! t := attemptM (create_token (us_id user) SEmailVerification) in
                  do! (if String.eqb (au_Environment conf) "production" then
                         match t with
                         | inr t => do! attemptM (send_email "verification" (vt_token t) (us_email user)) in retM tt
                         | inl _ => retM tt
                         end
                       else retM tt) in
                  api_success 201 "User created successfully"
                    (mkRegisterResponse (us_id user) (us_first_name user) (us_last_name user)
                       (if us_is_email_verified user then "" else us_email user))
              end
          end
      end
  end.

(** crypto.CheckPasswordHash *)
Definition CheckPasswordHash (password hash : string) : bool := bcrypt_check hash password.

Definition Login (payload : option (string * string)) : M (ApiResponse LoginResponse) :=
  match payload with
  | None => api_error 400 "Failed to validate payload"
  | Some (email, password) =>
      let? user := user_by_email None (ToLower email) orelse e =>
        api_error 401 "Email and password do not match any user" in
      if negb (CheckPasswordHash password (us_password user))
      then api_error 401 "Email and password do not match any user"
      else
        let! w := getM in
        match GeneratePairJWT conf (w_now w) (us_id user) (us_scope user) with
        | None => api_error 500 "Failed to create token pair"
        | Some (accessToken, refreshToken) =>
            if negb (us_is_email_verified user)
            then api_error 400 "Email is not verified, please verify your email"
            else api_success 200 "Successfully logged in"
                   (mkLoginResponse accessToken refreshToken (split_on " "%char (us_scope user)))
        end
  end.

(** Any valid token will do, and the user is not looked up. *)
Definition RefreshJWT (payload : option string) : M (ApiResponse string) :=
  match payload with
  | None => api_error 400 "Failed to validate payload"
  | Some refreshToken =>
      let! w := getM in
      match ValidateJWT conf (w_now w) refreshToken with
      | None => api_error 401 "Invalid or expired refresh token"
      | Some claims =>
          match claim claims "sub", claim claims "scope" with
          | Some userID, Some scope =>
              match GenerateAccessJWT conf (w_now w) userID scope with
              | None => api_error 500 "Failed to generate access token"
              | Some accessToken => api_success 200 "Successfully refreshed access token" accessToken
              end
          | _, _ => api_error 401 "Invalid or expired refresh token"
          end
      end
  end.

(** The owner of a token. *)
Definition token_owner (d : DB) (t : VerificationToken) : option User := ac_users (db_accounts d) !! vt_owner t.

(** The scope of the token is not tested. *)
Definition ConfirmEmail (payload : option (string * string)) : M (ApiResponse unit) :=
  match payload with
  | None => api_error 400 "Failed to validate payload"
  | Some (token, email) =>
      let? t := (let! d := read_db None in
                 only (List.filter (fun t => String.eqb (vt_token t) token &&
                         bool_decide (us_email <$> token_owner d t = Some email)) (ac_tokens (db_accounts d))))
      orelse e => api_error 400 "Invalid verification token" in
      let! w := getM in
      if (vt_expiry_at t <? w_now w)%Z then
        do! attemptM (delete_token (vt_id t)) in api_error 400 "Token is expired"
      else
        let? user := verify_user (vt_owner t) orelse e => api_error 400 "Failed to verify user email" in
        do! attemptM (delete_token (vt_id t)) in
        do! attemptM (send_email "welcome" "" (us_email user)) in
        retM (mkResponse 200 "success" "User email verified successfully" None)
  end.

(** The answer to an unknown e-mail does not return: [SetOwner] dereferences the nil
    user. *)
Definition ResendVerificationToken (payload : option (TokenScope * string)) : M (ApiResponse unit) :=
  match payload with
  | None => api_error 400 "Failed to validate payload"
  | Some (scope, email) =>
      let? user := user_by_email None email orelse e => panicM in
      let? t := create_token (us_id user) scope orelse e =>
        api_error 400 "Failed to generate verification token" in
      do? send_email "verification" (vt_token t) (us_email user) orelse e =>
        api_error 400 "Failed to send verification email" in
      retM (mkResponse 200 "success" "Verification token has been sent to your email" None)
  end.

Definition ResetPassword (payload : option (string * string)) : M (ApiResponse unit) :=
  match payload with
  | None => api_error 400 "Failed to validate payload"
  | Some (resetToken, password) =>
      let? t := (let! d := read_db None in
                 only (List.filter (fun t => String.eqb (vt_token t) resetToken &&
                         bool_decide (vt_scope t = SResetPassword)) (ac_tokens (db_accounts d))))
      orelse e => api_error 400 "Invalid password reset token" in
      let! w := getM in
      if (vt_expiry_at t <? w_now w)%Z then
        do! attemptM (delete_token (vt_id t)) in api_error 400 "Token is expired"
      else
        do? update_password (vt_owner t) password orelse e => api_error 500 "Failed to reset password" in
        do! attemptM (delete_token (vt_id t)) in
        retM (mkResponse 200 "success" "Password reset was successful" None)
  end.

(** As in [ResendVerificationToken], an unknown e-mail panics. *)
Definition ResetPasswordToken (payload : option string) : M (ApiResponse unit) :=
  match payload with
  | None => api_error 400 "Failed to validate payload"
  | Some email =>
      let? user := user_by_email None email orelse e => panicM in
      let? t := create_token (us_id user) SResetPassword orelse e =>
        api_error 500 "Failed to generate reset password token" in
      do? send_email "password_reset" (vt_token t) (us_email user) orelse e =>
        api_error 500 "Failed to send reset password token" in
      retM (mkResponse 200 "success" "A reset token has been sent to your email" None)
  end.

(** The user id the middleware put on the context: [ctx.GetString] is empty when unset. *)
Definition ctx_user_id (c : Ctx) : string :=
  match cx_values c !! "user_id" with Some (VString s) => s | _ => "" end.

Definition ChangePassword (c : Ctx) (payload : option (string * string)) : M (ApiResponse unit) :=
  match payload with
  | None => api_error 400 "Failed to validate payload"
  | Some (oldPassword, newPassword) =>
      match parse_uuid (ctx_user_id c) with
      | None => api_error 400 "Invalid credential"
      | Some userID =>
          let? user := user_by_id userID orelse e => api_error 400 "Invalid credential" in
          if negb (CheckPasswordHash oldPassword (us_password user))
          then api_error 400 "Old password is incorrect"
          else if CheckPasswordHash newPassword (us_password user)
          then api_error 400 "New password cannot be the same as old password"
          else
            do? update_password (us_id user) newPassword orelse e => api_error 500 "Failed to change password" in
            retM (mkResponse 200 "success" "Password changed successfully" None)
      end
  end.

(** ** Deleting an account *)

Definition lo_set_bucket (b : option ProvisionBucket) (o : LockPaymentOrder) : LockPaymentOrder :=
  mkLPO (lo_id o) (lo_gateway_id o) (lo_amount o) (lo_protocol_fee o) (lo_rate o) (lo_order_percent o)
    (lo_sender o) (lo_tx_hash o) (lo_status o) (lo_block_number o) (lo_institution o) (lo_account_identifier o)
    (lo_account_name o) (lo_memo o) (lo_metadata o) (lo_cancellation_count o) (lo_cancellation_reasons o)
    (lo_message_hash o) (lo_amount_in_usd o) (lo_created_at o) (lo_updated_at o) (lo_token o)
    b (lo_provider o) (lo_transactions o).
Definition po_no_sender (o : PaymentOrder) : PaymentOrder :=
  mkPO (po_id o) (po_amount o) (po_amount_paid o) (po_amount_returned o) (po_percent_settled o) (po_sender_fee o)
    (po_network_fee o) (po_protocol_fee o) (po_rate o) (po_tx_hash o) (po_block_number o) (po_from_address o)
    (po_return_address o) (po_receive_address_text o) (po_fee_percent o) (po_fee_address o) (po_gateway_id o)
    (po_message_hash o) (po_reference o) (po_status o) (po_amount_in_usd o) (po_token o) (po_linked_address o)
    (po_receive_address o) (po_recipient o) (po_payment_webhook o) (po_transactions o) None (po_created_at o)
    (po_updated_at o).
Definition po_clear_sender (s : string) (o : PaymentOrder) : PaymentOrder :=
  if bool_decide (po_sender_profile o = Some s) then po_no_sender o else o.

(** Rewriting the buckets, also where an order carries its bucket. *)
Definition map_buckets (f : ProvisionBucket -> ProvisionBucket) (d : DB) : DB :=
  set_lock_orders ((fun o => lo_set_bucket (f <$> lo_provision_bucket o) o) <$> db_lock_orders d)
    (set_buckets (map f (db_buckets d)) d).
Definition pb_set_members (l : list string) (b : ProvisionBucket) : ProvisionBucket :=
  mkPB (pb_id b) (pb_min_amount b) (pb_max_amount b) (pb_created_at b) (pb_currency b) l.
Definition pb_drop (p : string) (b : ProvisionBucket) : ProvisionBucket :=
  pb_set_members (List.filter (fun q => negb (String.eqb q p)) (pb_provider_profiles b)) b.

(** The rows that go with a provider profile: its balances, its token settings, its
    key, its place in the buckets, and the orders assigned to it with their
    fulfilments. *)
Definition drop_provider (p : string) (d : DB) : DB :=
  let d := set_providers (delete p (db_providers d)) d in
  let d := set_pcs (filter (fun kv => kv.1.1 <> p) (db_provider_currencies d)) d in
  let d := set_order_tokens (List.filter (fun t => negb (String.eqb (pot_provider t) p)) (db_order_tokens d)) d in
  let d := map_buckets (pb_drop p) d in
  let d := set_fulfillments (List.filter (fun f =>
             negb (bool_decide ((db_lock_orders d !! lf_order f ≫= lo_provider) = Some p))) (db_fulfillments d)) d in
  let d := set_lock_orders (filter (fun kv => lo_provider kv.2 <> Some p) (db_lock_orders d)) d in
  with_keys (filter (fun kv => ak_provider_profile kv.2 <> Some p)) d.

(** The rows that go with a sender profile; its payment orders stay without it. *)
Definition drop_sender (s : string) (d : DB) : DB :=
  let d := set_senders (delete s (db_senders d)) d in
  let d := set_sender_tokens (List.filter (fun t => negb (String.eqb (so_sender t) s)) (db_sender_tokens d)) d in
  let d := set_payment_orders (po_clear_sender s <$> db_payment_orders d) d in
  with_keys (filter (fun kv => ak_sender_profile kv.2 <> Some s)) d.

(** The foreign keys of a deleted user with ON DELETE CASCADE or SET NULL. *)
Definition drop_user (u : User) (d : DB) : DB :=
  let d := with_users (delete (us_id u)) d in
  let d := with_tokens (List.filter (fun t => negb (String.eqb (vt_owner t) (us_id u)))) d in
  let d := with_kyb (filter (fun kv => ky_user kv.2 <> Some (us_id u))) d in
  let d := match us_provider_profile u with Some p => drop_provider p d | None => d end in
  match us_sender_profile u with Some s => drop_sender s d | None => d end.

(** The foreign key of provider_ratings has NO ACTION: the profile of a rated provider
    cannot be deleted, and neither can its user. *)
Definition rated (d : DB) (p : option string) : bool :=
  existsb (fun r => bool_decide (p = Some (rt_provider_profile r))) (ac_ratings (db_accounts d)).

(** [User.DeleteOne(user).Exec] *)
Definition delete_user (id : string) : M unit :=
  modify_db None (fun d =>
    match ac_users (db_accounts d) !! id with
    | Some u => if rated d (us_provider_profile u) then inl constraint else inr (drop_user u d, tt)
    | None => inl ENotFound
    end).

Definition DeleteAccount (c : Ctx) : M (ApiResponse unit) :=
  match parse_uuid (ctx_user_id c) with
  | None => api_error 401 "Invalid authorization token"
  | Some userID =>
      let? user := user_by_id userID orelse e =>
        (if bool_decide (e = ENotFound) then api_error 401 "Invalid authorization token"
         else api_error 500 "Failed to delete account") in
      do? delete_user (us_id user) orelse e => api_error 500 "Failed to delete account" in
      retM (mkResponse 200 "success" "Account deleted successfully" None)
  end.

End accounts.
