(* ===== verification/AccountClaims.v ===== *)
(** * Theorems about accounts

    [Register] adds a user with the profiles of its scopes, their keys and zero
    balances, or changes nothing ([register_correct]); the account opens the sender
    routes after a login, outside production and staging, where the e-mail address has
    to be confirmed first ([registered_user_authenticates]); the password endpoints
    change one hash and need the old password or a token; [DeleteAccount] removes
    exactly the rows of the user and leaves no dangling reference, and refuses when the
    user's provider profile was rated ([delete_account_integrity]). *)

From S2P Require Import Prelude Decimal Schema Store Samples Transactions Balance Utils.
From S2P Require Import Http Ethereum Gateway Insight Auth AuthClaims Accounts.
Local Open Scope go_scope.
Local Open Scope string_scope.
Local Open Scope list_scope.

(** bcrypt accepts the password a hash was made of. *)
Class AccountLaws `{O : DecimalOps} {HS : HttpServices} (AC : AccountServices) : Prop := {
  bcrypt_round_trip : forall w password hash, bcrypt_hash w password = Some hash -> bcrypt_check hash password = true;
  (** a new uuid is its own canonical text *)
  account_uuid_canonical : forall table w, parse_uuid (account_uuid table w) = Some (account_uuid table w)
}.

(** ** Registration *)

Section register.
Context `{O : DecimalOps} {HS : HttpServices} {AS : AuthServices} {AC : AccountServices}.
Variable conf : AuthConf.

(** Only the accounts, the profiles and the balances may differ. *)
Definition accounts_only (d d' : DB) : Prop :=
  exists a m n q, d' = set_accounts a (set_providers m (set_senders n (set_pcs q d))).

(** The database during a registration of [u], seen from the one before. *)
Record reg_inv (d0 d : DB) (u : User) : Prop := {
  gi_rest : accounts_only d0 d;
  gi_users : ac_users (db_accounts d) = <[us_id u := u]> (ac_users (db_accounts d0));
  gi_fresh : ac_users (db_accounts d0) !! us_id u = None;
  gi_email : forall v, v ∈ users d0 -> us_email v <> us_email u;
  gi_tokens : ac_tokens (db_accounts d) = ac_tokens (db_accounts d0);
  gi_keys : ac_api_keys (db_accounts d0) ⊆ ac_api_keys (db_accounts d);
  gi_providers : db_providers d0 ⊆ db_providers d;
  gi_senders : db_senders d0 ⊆ db_senders d;
  gi_balances : db_provider_currencies d0 ⊆ db_provider_currencies d
}.

(** The user has a provider profile of its own, with its key and a zero balance in
    each currency. *)
Record has_provider (d0 d : DB) (u : User) (codes : list string) : Prop := {
  hp_profile : exists pr k, us_provider_profile u = Some (pp_id pr) /\
    db_providers d0 !! pp_id pr = None /\ db_providers d !! pp_id pr = Some pr /\
    pp_visibility_mode pr = VisPrivate /\ pp_is_active pr = false /\
    ac_api_keys (db_accounts d) !! ak_id k = Some k /\ ak_provider_profile k = Some (pp_id pr) /\
    ak_sender_profile k = None /\ pp_api_key pr = Some (ak_secret k) /\
    forall c, c ∈ codes -> exists now, db_provider_currencies d !! (pp_id pr, c) = Some (mkPC d_zero d_zero d_zero true now)
}.
Record has_sender (d0 d : DB) (u : User) : Prop := {
  hs_profile : exists s k, us_sender_profile u = Some (sp_id s) /\
    db_senders d0 !! sp_id s = None /\ db_senders d !! sp_id s = Some s /\ sp_is_active s = false /\
    ac_api_keys (db_accounts d) !! ak_id k = Some k /\ ak_sender_profile k = Some (sp_id s) /\
    ak_provider_profile k = None /\ sp_api_key s = Some (ak_secret k)
}.

Lemma alter_fresh {A} (m0 m : gmap string A) k f : m0 !! k = None -> m0 ⊆ m -> m0 ⊆ alter f k m.
Proof.
  intros Hk H. apply map_subseteq_spec. intros j x Hj. destruct (decide (k = j)) as [->|Hne]; [congruence|].
  rewrite lookup_alter_ne by done. by eapply lookup_weaken.
Qed.

Lemma accounts_only_refl d : accounts_only d d.
Proof. exists (db_accounts d), (db_providers d), (db_senders d), (db_provider_currencies d). by destruct d. Qed.

Lemma existsb_false_elem {A} (p : A -> bool) l : existsb p l = false -> forall a, a ∈ l -> p a = false.
Proof.
  intros H a Ha. destruct (p a) eqn:E; [|done]. exfalso.
  assert (existsb p l = true) by (apply existsb_exists; exists a; split; [by apply list_elem_of_In|done]). congruence.
Qed.

Lemma users_elem d k u : ac_users (db_accounts d) !! k = Some u -> u ∈ users d.
Proof.
  intros H. unfold users. apply list_elem_of_fmap. exists (k, u). split; [done|]. by apply elem_of_map_to_list.
Qed.

Lemma create_user_wp w0 tx p verified w :
  in_tx w0 tx (w_db w0) w ->
  wp (create_user (Some tx) p verified) (fun o w' => match o with
    | Ret u => exists d, in_tx w0 tx d w' /\ reg_inv (w_db w0) d u /\
        us_email u = ToLower (rp_Email p) /\ us_scope u = join_with " "%char (rp_Scopes p) /\
        us_first_name u = rp_FirstName p /\ us_last_name u = rp_LastName p /\
        us_is_email_verified u = verified /\ us_provider_profile u = None /\ us_sender_profile u = None /\
        (exists w1, us_id u = account_uuid "users" w1) /\
        exists w1, bcrypt_hash w1 (rp_Password p) = Some (us_password u)
    | Err _ => in_tx w0 tx (w_db w0) w'
    | Panic => False end) w.
Proof.
  intros H. unfold create_user. wp_step. wp_step.
  destruct (bcrypt_hash w (rp_Password p)) as [hash|] eqn:Eh; [|by wp_step].
  eapply wp_in_modify; [exact H| |done]. simpl.
  destruct (ac_users _ !! _) eqn:Efresh; simpl; [done|].
  destruct (existsb _ (users (w_db w0))) eqn:Ex; intros w' Hw'; [done|].
  pose proof (existsb_false_elem _ _ Ex) as Hex. simpl in Hex.
  eexists. split; [exact Hw'|]. split; [|split_and!; eauto].
  split; simpl; try done.
  - by eexists _, (db_providers (w_db w0)), (db_senders (w_db w0)), (db_provider_currencies (w_db w0)).
  - intros v Hv. by apply String.eqb_neq, Hex.
Qed.

Lemma reg_inv_user d0 d u u' d' :
  reg_inv d0 d u -> us_id u' = us_id u -> us_email u' = us_email u ->
  db_accounts d' = mkAccounts (<[us_id u := u']> (ac_users (db_accounts d))) (ac_api_keys (db_accounts d)) (ac_tokens (db_accounts d)) (ac_kyb_profiles (db_accounts d))
    (ac_ratings (db_accounts d)) ->
  accounts_only d0 d' -> db_providers d0 ⊆ db_providers d' -> db_senders d0 ⊆ db_senders d' ->
  db_provider_currencies d' = db_provider_currencies d -> reg_inv d0 d' u'.
Proof.
  intros [] Hid Hem Ha Hrest Hp Hs Hb. split; rewrite ?Ha, ?Hid, ?Hem, ?Hb; simpl; try done.
  by rewrite gi_users0, insert_insert_eq.
Qed.

Lemma create_provider_wp w0 tx d u user w :
  in_tx w0 tx d w -> reg_inv (w_db w0) d u -> us_id user = us_id u -> us_provider_profile u = None ->
  wp (create_provider (Some tx) user) (fun o w' => match o with
    | Ret pr => exists d', in_tx w0 tx d' w' /\ reg_inv (w_db w0) d' (us_set_provider (pp_id pr) u) /\
        db_providers (w_db w0) !! pp_id pr = None /\ db_providers d' !! pp_id pr = Some pr /\
        pp_visibility_mode pr = VisPrivate /\ pp_is_active pr = false
    | Err _ => exists d', in_tx w0 tx d' w'
    | Panic => False end) w.
Proof.
  intros H Hinv Hid Hnone. unfold create_provider. wp_step. wp_step.
  eapply wp_in_modify; [exact H| |eauto]. simpl. rewrite Hid, (gi_users _ _ _ Hinv), lookup_insert_eq.
  destruct (db_providers d !! new_provider_id w) eqn:Ep; [eauto|]. rewrite bool_decide_eq_true_2 by done.
  intros w' Hw'. eexists. split; [exact Hw'|]. simpl.
  assert (Hf : db_providers (w_db w0) !! new_provider_id w = None)
    by (eapply lookup_weaken_None; [exact Ep|apply Hinv]).
  split_and!; [|done|by rewrite lookup_insert_eq|done|done].
  eapply reg_inv_user; [exact Hinv|done|done| | | |apply Hinv|done]; simpl.
  - done.
  - destruct (gi_rest _ _ _ Hinv) as (a & m & n & q & ->). by eexists _, _, _, _.
  - apply insert_subseteq_r; [done|apply Hinv].
Qed.

Lemma create_sender_wp w0 tx d u user w :
  in_tx w0 tx d w -> reg_inv (w_db w0) d u -> us_id user = us_id u -> us_sender_profile u = None ->
  wp (create_sender (Some tx) user) (fun o w' => match o with
    | Ret s => exists d', in_tx w0 tx d' w' /\ reg_inv (w_db w0) d' (us_set_sender (sp_id s) u) /\
        db_senders (w_db w0) !! sp_id s = None /\ db_senders d' = <[sp_id s := s]> (db_senders d) /\
        sp_is_active s = false /\ db_providers d' = db_providers d /\
        db_provider_currencies d' = db_provider_currencies d /\ 
        ac_api_keys (db_accounts d') = ac_api_keys (db_accounts d)
    | Err _ => exists d', in_tx w0 tx d' w'
    | Panic => False end) w.
Proof.
  intros H Hinv Hid Hnone. unfold create_sender. wp_step. wp_step.
  eapply wp_in_modify; [exact H| |eauto]. simpl. rewrite Hid, (gi_users _ _ _ Hinv), lookup_insert_eq.
  destruct (db_senders d !! account_uuid "sender_profiles" w) eqn:Ep; [eauto|]. rewrite bool_decide_eq_true_2 by done.
  intros w' Hw'. eexists. split; [exact Hw'|]. simpl.
  assert (Hf : db_senders (w_db w0) !! account_uuid "sender_profiles" w = None)
    by (eapply lookup_weaken_None; [exact Ep|apply Hinv]).
  split_and!; [|done..].
  eapply reg_inv_user; [exact Hinv|done|done| | |apply Hinv| |done]; simpl.
  - done.
  - destruct (gi_rest _ _ _ Hinv) as (a & m & n & q & ->). by eexists _, _, _, _.
  - apply insert_subseteq_r; [done|apply Hinv].
Qed.

Lemma create_currencies_wp w0 tx pid codes : forall d u w,
  in_tx w0 tx d w -> reg_inv (w_db w0) d u ->
  wp (create_currencies (Some tx) pid codes) (fun o w' => match o with
    | Ret _ => exists d', in_tx w0 tx d' w' /\ reg_inv (w_db w0) d' u /\
        db_providers d' = db_providers d /\
        db_provider_currencies d ⊆ db_provider_currencies d' /\
        forall c, c ∈ codes -> exists now, db_provider_currencies d' !! (pid, c) = Some (mkPC d_zero d_zero d_zero true now)
    | Err _ => exists d', in_tx w0 tx d' w'
    | Panic => False end) w.
Proof.
  induction codes as [|c codes IH]; intros d u w H Hinv; simpl.
  { wp_step. exists d. split_and!; try done. by intros c Hc%elem_of_nil. }
  wp_step. unfold create_provider_currency. wp_step. wp_step.
  eapply wp_in_modify; [exact H| |eauto]. simpl.
  destruct (db_provider_currencies d !! (pid, c)) eqn:Epc; [eauto|]. intros w1 H1.
  set (d1 := set_pcs _ d) in H1.
  assert (Hinv1 : reg_inv (w_db w0) d1 u).
  { destruct Hinv. split; try done.
    - destruct gi_rest0 as (a & m & n & q & ->). by eexists _, _, _, _.
    - simpl. apply insert_subseteq_r; [|done]. by eapply lookup_weaken_None. }
  eapply wp_mono; [exact (IH d1 u w1 H1 Hinv1)|].
  intros [[]|e|] w2; [|done|done]. intros (d2 & H2 & Hinv2 & Hp & Hsub & Hcs).
  exists d2. split_and!; try done.
  - etrans; [|exact Hsub]. by apply insert_subseteq.
  - intros c' [->|Hc']%elem_of_cons; [|by apply Hcs].
    eexists. eapply lookup_weaken; [|exact Hsub]. simpl. apply lookup_insert_eq.
Qed.

Lemma reg_inv_key d0 d u k d' :
  reg_inv d0 d u -> ac_api_keys (db_accounts d) !! ak_id k = None ->
  db_accounts d' = mkAccounts (ac_users (db_accounts d)) (<[ak_id k := k]> (ac_api_keys (db_accounts d))) (ac_tokens (db_accounts d)) (ac_kyb_profiles (db_accounts d))
    (ac_ratings (db_accounts d)) ->
  accounts_only d0 d' -> db_providers d0 ⊆ db_providers d' -> db_senders d0 ⊆ db_senders d' ->
  db_provider_currencies d' = db_provider_currencies d -> reg_inv d0 d' u.
Proof.
  intros [] Hk Ha Hrest Hp Hs Hb. split; rewrite ?Ha, ?Hb; simpl; try done.
  apply insert_subseteq_r; [|done]. by eapply lookup_weaken_None.
Qed.

Lemma provider_key_wp w0 tx d u pr w :
  in_tx w0 tx d w -> reg_inv (w_db w0) d u ->
  db_providers (w_db w0) !! pp_id pr = None -> db_providers d !! pp_id pr = Some pr ->
  wp (GenerateAPIKey (Some tx) None (Some pr)) (fun o w' => match o with
    | Ret (k, _) => exists d', in_tx w0 tx d' w' /\ reg_inv (w_db w0) d' u /\
        db_providers d' !! pp_id pr = Some (pp_set_key (ak_secret k) pr) /\
        db_provider_currencies d' = db_provider_currencies d /\
        ac_api_keys (db_accounts d') !! ak_id k = Some k /\
        ak_provider_profile k = Some (pp_id pr) /\ ak_sender_profile k = None
    | Err _ => exists d', in_tx w0 tx d' w'
    | Panic => False end) w.
Proof.
  intros H Hinv Hf Hpr. unfold GenerateAPIKey. wp_step. wp_step.
  destruct (private_key w) as [secret|]; [|wp_step; eauto]. wp_step. wp_step. unfold create_key.
  eapply wp_in_modify; [exact H| |eauto]. simpl.
  destruct (ac_api_keys _ !! _) eqn:Ek; simpl; [eauto|].
  destruct (existsb _ _ || _); [eauto|]. intros w' Hw'. wp_step. eexists. split; [exact Hw'|]. simpl.
  split_and!; [|by rewrite lookup_alter_eq, Hpr|done|apply lookup_insert_eq|done|done].
  eapply (reg_inv_key _ _ _ (mkKey _ _ None (Some (pp_id pr)))); [exact Hinv|exact Ek|done| | |apply Hinv|done]; simpl.
  - destruct (gi_rest _ _ _ Hinv) as (a & m & n & q & ->). by eexists _, _, _, _.
  - apply alter_fresh; [done|apply Hinv].
Qed.

Lemma sender_key_wp w0 tx d u s w :
  in_tx w0 tx d w -> reg_inv (w_db w0) d u ->
  db_senders (w_db w0) !! sp_id s = None -> db_senders d !! sp_id s = Some s ->
  wp (GenerateAPIKey (Some tx) (Some s) None) (fun o w' => match o with
    | Ret (k, _) => exists d', in_tx w0 tx d' w' /\ reg_inv (w_db w0) d' u /\
        db_senders d' !! sp_id s = Some (sp_set_key (ak_secret k) s) /\
        db_providers d' = db_providers d /\ db_provider_currencies d' = db_provider_currencies d /\
        ac_api_keys (db_accounts d) ⊆ ac_api_keys (db_accounts d') /\
        ac_api_keys (db_accounts d') !! ak_id k = Some k /\
        ak_sender_profile k = Some (sp_id s) /\ ak_provider_profile k = None
    | Err _ => exists d', in_tx w0 tx d' w'
    | Panic => False end) w.
Proof.
  intros H Hinv Hf Hs. unfold GenerateAPIKey. wp_step. wp_step.
  destruct (private_key w) as [secret|]; [|wp_step; eauto]. wp_step. wp_step. unfold create_key.
  eapply wp_in_modify; [exact H| |eauto]. simpl.
  destruct (ac_api_keys _ !! _) eqn:Ek; simpl; [eauto|].
  destruct (existsb _ _ || _); [eauto|]. intros w' Hw'. wp_step. eexists. split; [exact Hw'|]. simpl.
  split_and!; [|by rewrite lookup_alter_eq, Hs|done|done|by apply insert_subseteq|apply lookup_insert_eq|done|done].
  eapply (reg_inv_key _ _ _ (mkKey _ _ (Some (sp_id s)) None)); [exact Hinv|exact Ek|done| |apply Hinv| |done]; simpl.
  - destruct (gi_rest _ _ _ Hinv) as (a & m & n & q & ->). by eexists _, _, _, _.
  - apply alter_fresh; [done|apply Hinv].
Qed.

(** The currencies of a payload that are all enabled. *)
Definition enabled_as (d : DB) (code c : string) : Prop :=
  exists fc, db_currencies d !! ToUpper code = Some fc /\ fc_is_enabled fc = true /\ fc_code fc = c.

Lemma fetch_currencies_wp w0 tx d codes : forall w,
  in_tx w0 tx d w ->
  wp (fetch_currencies (Some tx) codes) (fun o w' => in_tx w0 tx d w' /\ match o with
    | Ret found => snd found = [] -> Forall2 (enabled_as d) codes (fst found)
    | Err _ => True
    | Panic => False end) w.
Proof.
  induction codes as [|code codes IH]; intros w H; simpl.
  { wp_step. split; [done|constructor]. }
  wp_step. eapply wp_in_read; [exact H|intros w1 H1|done]. wp_step.
  eapply wp_mono; [exact (IH w1 H1)|]. intros [found|e|] w2 [H2 Hf]; [|done|done].
  destruct (db_currencies d !! ToUpper code) as [fc|] eqn:Ec; [destruct (fc_is_enabled fc) eqn:Ee|];
    wp_step; (split; [done|]); simpl; try done.
  intros Hs. constructor; [by exists fc|by apply Hf].
Qed.

(** A registration that stopped: rolled back, and not a success. *)
Definition stopped (w0 : World) (r : ApiResponse RegisterResponse) (w : World) : Prop :=
  w_db w = w_db w0 /\ ar_code r <> 201%Z.

Lemma abandon_wp w0 tx d code message w (Q : outcome (ApiResponse RegisterResponse) -> World -> Prop) :
  in_tx w0 tx d w -> code <> 201%Z ->
  (forall r w', stopped w0 r w' -> Q (Ret r) w') -> wp (abandon tx code message) Q w.
Proof.
  intros H Hc HQ. unfold abandon. wp_step. wp_step. unfold api_error. wp_step. apply HQ. split; [|done].
  simpl. apply H.
Qed.

Lemma stop_wp w0 tx d code message w :
  in_tx w0 tx d w -> code <> 201%Z ->
  wp (let! r := abandon tx code message in retM (Some r)) (fun o w' =>
    exists r, o = Ret (Some r) /\ stopped w0 r w') w.
Proof. intros H Hc. wp_step. eapply abandon_wp; [exact H|done|]. intros r w' Hr. wp_step. eauto. Qed.

(** The currencies of the database do not change in a registration. *)
Lemma accounts_only_currencies d d' : accounts_only d d' -> db_currencies d' = db_currencies d.
Proof. by intros (a & m & n & q & ->). Qed.

Lemma register_provider_wp w0 tx d u user codes w :
  in_tx w0 tx d w -> reg_inv (w_db w0) d u -> us_id user = us_id u -> us_provider_profile u = None ->
  wp (register_provider tx user codes) (fun o w' =>
    (exists d' pid found, o = Ret None /\ in_tx w0 tx d' w' /\ reg_inv (w_db w0) d' (us_set_provider pid u) /\
       codes <> [] /\ Forall2 (enabled_as (w_db w0)) codes found /\
       has_provider (w_db w0) d' (us_set_provider pid u) found) \/
    (exists r, o = Ret (Some r) /\ stopped w0 r w')) w.
Proof.
  intros H Hinv Hid Hnone. unfold register_provider.
  assert (Hstop : forall d1 code message w1, in_tx w0 tx d1 w1 -> code <> 201%Z ->
    wp (let! r := abandon tx code message in retM (Some r)) (fun o w' =>
      (exists d' pid found, o = Ret None /\ in_tx w0 tx d' w' /\ reg_inv (w_db w0) d' (us_set_provider pid u) /\
         codes <> [] /\ Forall2 (enabled_as (w_db w0)) codes found /\
         has_provider (w_db w0) d' (us_set_provider pid u) found) \/
      (exists r, o = Ret (Some r) /\ stopped w0 r w')) w1).
  { intros d1 code message w1 H1 Hc. eapply wp_mono; [by eapply stop_wp|]. eauto. }
  destruct codes as [|code0 codes0] eqn:Ecodes; [by eapply Hstop|]. rewrite <- Ecodes in *.
  assert (Hne : codes <> []) by congruence. clear Ecodes code0 codes0.
  wp_step. eapply wp_mono; [exact (fetch_currencies_wp w0 tx d codes w H)|].
  intros [found|e|] w1 [H1 Hf]; [|by eapply Hstop|done].
  destruct (snd found) as [|x l]; [|by eapply Hstop]. specialize (Hf eq_refl).
  wp_step. eapply wp_mono; [exact (create_provider_wp w0 tx d u user w1 H1 Hinv Hid Hnone)|].
  intros [pr|e|] w2; [|intros [d2 H2]; by eapply Hstop|done].
  intros (d2 & H2 & Hinv2 & Hfr & Hpr & Hvis & Hact).
  wp_step. eapply wp_mono; [exact (create_currencies_wp w0 tx (pp_id pr) _ d2 _ w2 H2 Hinv2)|].
  intros [[]|e|] w3; [|intros [d3 H3]; by eapply Hstop|done].
  intros (d3 & H3 & Hinv3 & Hp3 & _ & Hzero).
  wp_step. rewrite <- Hp3 in Hpr.
  eapply wp_mono; [exact (provider_key_wp w0 tx d3 _ pr w3 H3 Hinv3 Hfr Hpr)|].
  intros [[k secret]|e|] w4; [|intros [d4 H4]; by eapply Hstop|done].
  intros (d4 & H4 & Hinv4 & Hpr4 & Hb4 & Hk & Hkp & Hks). wp_step. left.
  exists d4, (pp_id pr), (fst found). split_and!; try done.
  { eapply Forall2_impl; [exact Hf|]. unfold enabled_as.
    by rewrite (accounts_only_currencies _ _ (gi_rest _ _ _ Hinv)). }
  split. exists (pp_set_key (ak_secret k) pr), k. rewrite Hb4. split_and!; done.
Qed.

(** A sender profile added to a user keeps the provider profile it has. *)
Lemma has_provider_weaken d0 d d' u u' codes :
  has_provider d0 d u codes -> us_provider_profile u' = us_provider_profile u ->
  db_providers d' = db_providers d -> db_provider_currencies d' = db_provider_currencies d ->
  ac_api_keys (db_accounts d) ⊆ ac_api_keys (db_accounts d') -> has_provider d0 d' u' codes.
Proof.
  intros [(pr & k & H)] Hu Hp Hb Hk. split. exists pr, k. rewrite Hu, Hp, Hb. destruct_and! H.
  split_and!; try done. by eapply lookup_weaken.
Qed.

Lemma register_sender_wp w0 tx d u user w :
  in_tx w0 tx d w -> reg_inv (w_db w0) d u -> us_id user = us_id u -> us_sender_profile u = None ->
  wp (register_sender tx user) (fun o w' =>
    (exists d' sid, o = Ret None /\ in_tx w0 tx d' w' /\ reg_inv (w_db w0) d' (us_set_sender sid u) /\
       has_sender (w_db w0) d' (us_set_sender sid u) /\
       db_providers d' = db_providers d /\ db_provider_currencies d' = db_provider_currencies d /\
       ac_api_keys (db_accounts d) ⊆ ac_api_keys (db_accounts d')) \/
    (exists r, o = Ret (Some r) /\ stopped w0 r w')) w.
Proof.
  intros H Hinv Hid Hnone. unfold register_sender.
  wp_step. eapply wp_mono; [exact (create_sender_wp w0 tx d u user w H Hinv Hid Hnone)|].
  intros [s|e|] w2; [|intros [d2 H2]; eapply wp_mono; [by eapply stop_wp|eauto]|done].
  intros (d2 & H2 & Hinv2 & Hfr & Hs & Hact & Hp2 & Hb2 & Hk2).
  assert (Hs2 : db_senders d2 !! sp_id s = Some s) by (rewrite Hs; apply lookup_insert_eq).
  wp_step. eapply wp_mono; [exact (sender_key_wp w0 tx d2 _ s w2 H2 Hinv2 Hfr Hs2)|].
  intros [[k secret]|e|] w4; [|intros [d4 H4]; eapply wp_mono; [by eapply stop_wp|eauto]|done].
  intros (d4 & H4 & Hinv4 & Hs4 & Hp4 & Hb4 & Hk4 & Hk & Hks & Hkp). wp_step. left.
  exists d4, (sp_id s). split_and!; try done; [|congruence|congruence|by rewrite <- Hk2].
  split. exists (sp_set_key (ak_secret k) s), k. split_and!; done.
Qed.

(** What a successful registration leaves: the user, and for each of its scopes the
    profile. *)
Record registered (p : RegisterPayload) (d d' : DB) (u : User) : Prop := {
  rd_inv : reg_inv d d' u;
  rd_id : exists w, us_id u = account_uuid "users" w;
  rd_email : us_email u = ToLower (rp_Email p);
  rd_scope : us_scope u = join_with " "%char (rp_Scopes p);
  rd_password : exists w, bcrypt_hash w (rp_Password p) = Some (us_password u);
  rd_verified : us_is_email_verified u =
    negb (String.eqb (au_Environment conf) "production") && negb (String.eqb (au_Environment conf) "staging");
  rd_provider : ContainsString (rp_Scopes p) "provider" = true ->
    exists codes, Forall2 (enabled_as d) (rp_Currencies p) codes /\ codes <> [] /\ has_provider d d' u codes;
  rd_sender : ContainsString (rp_Scopes p) "sender" = true -> has_sender d d' u
}.

(** After the commit a verification token may be added. *)
Definition plus_token (d : DB) (d' : DB) : Prop :=
  d' = d \/ exists t, d' = set_next_id (db_next_id d + 1)%Z (with_tokens (fun l => l ++ [t]) d).

Lemma create_token_wp owner scope w :
  wp (create_token conf owner scope) (fun o w' => w_events w' = w_events w /\ w_now w' = w_now w /\ match o with
    | Ret t => w_db w' = set_next_id (db_next_id (w_db w) + 1)%Z (with_tokens (fun l => l ++ [t]) (w_db w)) /\
        vt_scope t = scope /\ vt_owner t = owner /\ vt_id t = db_next_id (w_db w) /\
        vt_expiry_at t = (w_now w + au_PasswordResetLifespan conf)%Z /\
        is_Some (ac_users (db_accounts (w_db w)) !! owner)
    | Err _ => w_db w' = w_db w
    | Panic => False end) w.
Proof.
  unfold create_token. wp_step. eapply wp_read_db; [done|intros fs|done].
  destruct (ac_users _ !! owner) as [u|] eqn:Eu; [|by wp_step]. wp_step. wp_step.
  apply wp_modify_direct; intros fs'; [|done]. simpl. rewrite Eu. simpl. by split_and!.
Qed.

Lemma send_email_wp template token email w :
  wp (send_email template token email) (fun o w' => w_db w' = w_db w /\ o <> Panic) w.
Proof. unfold send_email. wp_step. apply wp_ext; intros fs; [by wp_step|done]. Qed.

Lemma user_by_email_in w0 tx d email w :
  in_tx w0 tx d w ->
  wp (attemptM (user_by_email (Some tx) email)) (fun o w' => in_tx w0 tx d w' /\
    match o with Ret _ => True | _ => False end) w.
Proof.
  intros H. wp_step. unfold user_by_email. wp_step. eapply wp_in_read; [exact H|intros w1 H1|done].
  apply only_filter; intros; done.
Qed.

(** Whether or not the scope asks for a provider profile; the user's row keeps its
    other columns. *)
Lemma optional_provider_wp w0 tx d u codes (b : bool) w :
  in_tx w0 tx d w -> reg_inv (w_db w0) d u -> us_provider_profile u = None ->
  wp (if b then register_provider tx u codes else retM None) (fun o w' =>
    (exists d' u', o = Ret None /\ in_tx w0 tx d' w' /\ reg_inv (w_db w0) d' u' /\
       (us_id u' = us_id u /\ us_email u' = us_email u /\ us_scope u' = us_scope u /\
        us_password u' = us_password u /\ us_is_email_verified u' = us_is_email_verified u /\
        us_sender_profile u' = us_sender_profile u) /\
       (b = true -> exists found, Forall2 (enabled_as (w_db w0)) codes found /\ found <> [] /\
          has_provider (w_db w0) d' u' found)) \/
    (exists r, o = Ret (Some r) /\ stopped w0 r w')) w.
Proof.
  intros H Hinv Hnone. destruct b; [|wp_step; left; exists d, u; by split_and!].
  eapply wp_mono; [by eapply register_provider_wp|].
  intros o w' [(d' & pid & found & -> & H' & Hinv' & Hne & Hf & Hhas)|Hst]; [left|by right].
  exists d', (us_set_provider pid u). split_and!; try done. intros _. exists found. split_and!; try done.
  intros ->. by inversion Hf; subst.
Qed.

Lemma optional_sender_wp w0 tx d u user (b : bool) w :
  in_tx w0 tx d w -> reg_inv (w_db w0) d u -> us_id user = us_id u -> us_sender_profile u = None ->
  wp (if b then register_sender tx user else retM None) (fun o w' =>
    (exists d' u', o = Ret None /\ in_tx w0 tx d' w' /\ reg_inv (w_db w0) d' u' /\
       (us_id u' = us_id u /\ us_email u' = us_email u /\ us_scope u' = us_scope u /\
        us_password u' = us_password u /\ us_is_email_verified u' = us_is_email_verified u /\
        us_provider_profile u' = us_provider_profile u) /\
       (b = true -> has_sender (w_db w0) d' u') /\
       (db_providers d' = db_providers d /\ db_provider_currencies d' = db_provider_currencies d /\
        ac_api_keys (db_accounts d) ⊆ ac_api_keys (db_accounts d'))) \/
    (exists r, o = Ret (Some r) /\ stopped w0 r w')) w.
Proof.
  intros H Hinv Hid Hnone. destruct b; [|wp_step; left; exists d, u; by split_and!].
  eapply wp_mono; [by eapply register_sender_wp|].
  intros o w' [(d' & sid & -> & H' & Hinv' & Hhas & Hp & Hb & Hk)|Hst]; [left|by right].
  exists d', (us_set_sender sid u). by split_and!.
Qed.

Lemma Register_wp p w :
  wp (Register conf (Some p)) (fun o w' =>
    exists r, o = Ret r /\
    ((ar_code r = 201%Z /\ exists u d, registered p (w_db w) d u /\ plus_token d (w_db w') /\
        rr_ID <$> ar_data r = Some (us_id u)) \/
     (ar_code r <> 201%Z /\ w_db w' = w_db w))) w.
Proof.
  unfold Register. wp_step. apply wp_in_begin; [intros tx w1 H1|intros fs; unfold api_error; wp_step; eauto].
  assert (Hstop : forall d1 code message w2, in_tx w tx d1 w2 -> code <> 201%Z ->
    wp (abandon tx code message) (fun o w' => exists r, o = Ret r /\
      ((ar_code r = 201%Z /\ exists u d, registered p (w_db w) d u /\ plus_token d (w_db w') /\
          rr_ID <$> ar_data r = Some (us_id u)) \/ (ar_code r <> 201%Z /\ w_db w' = w_db w))) w2).
  { intros d1 code message w2 H2 Hc. eapply abandon_wp; [exact H2|done|].
    intros r w' [Hd Hr]. exists r. split; [done|]. right. done. }
  wp_step. eapply wp_mono; [exact (user_by_email_in w tx _ _ w1 H1)|].
  intros o w2 [H2 Ho]. destruct o as [[e|v]|e|]; [|by eapply Hstop|done|done].
  wp_step. eapply wp_mono; [exact (create_user_wp w tx p _ w2 H2)|].
  intros [u|e'|] w3; [|intros H3; by eapply Hstop|done].
  intros (d3 & H3 & Hinv3 & Hem & Hsc & Hfn & Hln & Hver & Hnp & Hns & (wi & Hwi) & Hpw).
  wp_step. eapply wp_mono; [exact (optional_provider_wp w tx d3 u (rp_Currencies p) _ w3 H3 Hinv3 Hnp)|].
  intros o w4 [(d4 & u4 & -> & H4 & Hinv4 & Hu4 & Hprov)|(r & -> & Hd & Hr)]; [|wp_step; eauto 10].
  destruct Hu4 as (Hid4 & Hem4 & Hsc4 & Hpw4 & Hver4 & Hs4).
  wp_step. eapply wp_mono; [exact (optional_sender_wp w tx d4 u4 u _ w4 H4 Hinv4 (eq_sym Hid4) (eq_trans Hs4 Hns))|].
  intros o w5 [(d5 & u5 & -> & H5 & Hinv5 & Hu5 & Hsend & Hkeep)|(r & -> & Hd & Hr)]; [|wp_step; eauto 10].
  destruct Hu5 as (Hid5 & Hem5 & Hsc5 & Hpw5 & Hver5 & Hp5).
  wp_step. eapply wp_in_commit; [exact H5| |intros w6 Hd6 _ _ _; unfold api_error; wp_step; eauto 10].
  intros w6 Hd6 _ _ _.
  assert (Hreg : registered p (w_db w) d5 u5).
  { split; [done|exists wi; congruence|congruence|congruence|rewrite Hpw5, Hpw4; eauto|congruence| |done].
    intros Hb. destruct (Hprov Hb) as (codes & Hc & Hne & Hhas). exists codes. split_and!; [done|done|].
    destruct Hkeep as (? & ? & ?). by eapply has_provider_weaken. }
  wp_step. wp_step. eapply wp_mono; [apply create_token_wp|]. intros o w7 (_ & _ & Ht).
  assert (Hplus : o <> Panic -> plus_token d5 (w_db w7)).
  { rewrite Hd6 in Ht. destruct o as [t|e1|]; [|by left|done]. intros _. right. exists t. apply Ht. }
  assert (Hend : forall w8, w_db w8 = w_db w7 -> o <> Panic -> exists r,
    Ret (mkResponse 201%Z "success" "User created successfully"
       (Some (mkRegisterResponse (us_id u) (us_first_name u) (us_last_name u)
          (if us_is_email_verified u then "" else us_email u)))) = Ret r /\
    ((ar_code r = 201%Z /\ exists u d, registered p (w_db w) d u /\ plus_token d (w_db w8) /\
        rr_ID <$> ar_data r = Some (us_id u)) \/ (ar_code r <> 201%Z /\ w_db w8 = w_db w))).
  { intros w8 H8 Hp. eexists. split; [done|]. left. split; [done|]. exists u5, d5. rewrite H8.
    split_and!; [done|auto|]. simpl. congruence. }
  unfold api_success. destruct o as [t|e1|]; [| |done]; wp_step; destruct (String.eqb _ "production");
    repeat wp_step; try (by apply Hend).
  eapply wp_mono; [apply send_email_wp|]. intros [[]|e2|] w8 [H8 Hp8]; [| |done]; repeat wp_step; by apply Hend.
Qed.

End register.

(** ** Logging in *)

Section login.
Context `{O : DecimalOps} {HS : HttpServices} {AS : AuthServices} {AC : AccountServices}.
Variable conf : AuthConf.

(** No two users share an e-mail address. *)
Definition emails_unique (d : DB) : Prop := forall k1 k2 u1 u2,
  ac_users (db_accounts d) !! k1 = Some u1 -> ac_users (db_accounts d) !! k2 = Some u2 ->
  us_email u1 = us_email u2 -> k1 = k2.

Lemma filter_none {A} (p : A -> bool) l : (forall a, a ∈ l -> p a = false) -> List.filter p l = [].
Proof.
  induction l as [|a l IH]; intros H; simpl; [done|]. rewrite H by left. apply IH. intros b Hb. apply H. by right.
Qed.

Lemma filter_perm {A} (p : A -> bool) l l' : l ≡ₚ l' -> List.filter p l ≡ₚ List.filter p l'.
Proof.
  induction 1 as [|a l l' _ IH|a b l|l1 l2 l3 _ IH1 _ IH2]; simpl.
  - done.
  - destruct (p a); [by constructor|done].
  - destruct (p a), (p b); try done. constructor.
  - by etrans.
Qed.

Lemma user_found d k u :
  emails_unique d -> ac_users (db_accounts d) !! k = Some u ->
  List.filter (fun v => String.eqb (us_email v) (us_email u)) (users d) = [u].
Proof.
  intros Huniq Hu. apply Permutation_singleton_r. unfold users.
  etrans; [apply filter_perm, fmap_Permutation; symmetry; by apply (map_to_list_delete _ k u)|].
  simpl. rewrite String.eqb_refl. rewrite filter_none; [done|]. intros v Hv. apply list_elem_of_fmap in Hv as ([k' v'] & -> & Hv).
  apply elem_of_map_to_list, lookup_delete_Some in Hv as [Hne Hv]. apply String.eqb_neq. intros He.
  apply Hne. by eapply Huniq.
Qed.

Lemma user_by_email_found k u w :
  w_faults w = [] -> emails_unique (w_db w) -> ac_users (db_accounts (w_db w)) !! k = Some u ->
  user_by_email None (us_email u) w = (Ret u, w).
Proof.
  intros Hf Huniq Hu. unfold user_by_email, read_db, bindM, ext. rewrite Hf. simpl.
  by rewrite (user_found _ k).
Qed.

Lemma Login_ok email password k u access refresh w :
  w_faults w = [] -> emails_unique (w_db w) -> ac_users (db_accounts (w_db w)) !! k = Some u ->
  us_email u = ToLower email -> bcrypt_check (us_password u) password = true ->
  GeneratePairJWT conf (w_now w) (us_id u) (us_scope u) = Some (access, refresh) ->
  Login conf (Some (email, password)) w =
    (Ret (if us_is_email_verified u
          then mkResponse 200%Z "success" "Successfully logged in"
                 (Some (mkLoginResponse access refresh (split_on " "%char (us_scope u))))
          else mkResponse 400%Z "error" "Email is not verified, please verify your email" None), w).
Proof.
  intros Hf Huniq Hu Hem Hpw Hpair. unfold Login, tryM. rewrite <- Hem, (user_by_email_found k) by done.
  unfold CheckPasswordHash. rewrite Hpw. simpl. unfold bindM, getM. rewrite Hpair. by destruct (us_is_email_verified u).
Qed.

Lemma registered_unique p d d' u : emails_unique d -> registered conf p d d' u -> emails_unique d'.
Proof.
  intros Huniq Hreg k1 k2 u1 u2. destruct (rd_inv _ _ _ _ _ Hreg) as [_ Hus Hfr Hem _ _ _ _ _]. rewrite Hus.
  intros H1 H2 He. apply lookup_insert_Some in H1 as [[<- <-]|[Hn1 H1]], H2 as [[<- <-]|[Hn2 H2]]; try done.
  - destruct (Hem u2 (users_elem _ _ _ H2)). done.
  - destruct (Hem u1 (users_elem _ _ _ H1)). done.
  - by eapply Huniq.
Qed.

Lemma plus_token_users d d' : plus_token d d' ->
  ac_users (db_accounts d') = ac_users (db_accounts d) /\ db_senders d' = db_senders d.
Proof. by intros [->|[t ->]]. Qed.

End login.

(** ** Deleting a verification token *)

Section tokens.
Context `{O : DecimalOps} {HS : HttpServices}.

Lemma delete_token_wp id w :
  wp (attemptM (delete_token id)) (fun o w' =>
    ac_users (db_accounts (w_db w')) = ac_users (db_accounts (w_db w)) /\
    (forall t, t ∈ ac_tokens (db_accounts (w_db w')) -> t ∈ ac_tokens (db_accounts (w_db w))) /\
    match o with Ret _ => True | _ => False end) w.
Proof.
  wp_step. unfold delete_token. apply wp_modify_direct; intros fs; [|done].
  destruct (existsb _ _); [|done]. split_and!; try done. intros t Ht. simpl in Ht.
  apply list_elem_of_In, filter_In in Ht as [Ht _]. by apply list_elem_of_In.
Qed.

End tokens.

(** ** References between rows *)

Section refs.
Context `{O : DecimalOps} {HS : HttpServices}.

(** Every reference to a user, a profile or an order points to a row, users are filed
    under their ids, and no profile has two users. *)
Record refs_ok (d : DB) : Prop := {
  ro_filed : map_Forall (fun k u => us_id u = k) (ac_users (db_accounts d));
  ro_sender : forall k u s, ac_users (db_accounts d) !! k = Some u -> us_sender_profile u = Some s ->
    is_Some (db_senders d !! s);
  ro_sender_own : forall k1 k2 u1 u2 s, ac_users (db_accounts d) !! k1 = Some u1 ->
    ac_users (db_accounts d) !! k2 = Some u2 -> us_sender_profile u1 = Some s -> us_sender_profile u2 = Some s -> k1 = k2;
  ro_provider : forall k u p, ac_users (db_accounts d) !! k = Some u -> us_provider_profile u = Some p ->
    is_Some (db_providers d !! p);
  ro_provider_own : forall k1 k2 u1 u2 p, ac_users (db_accounts d) !! k1 = Some u1 ->
    ac_users (db_accounts d) !! k2 = Some u2 -> us_provider_profile u1 = Some p -> us_provider_profile u2 = Some p -> k1 = k2;
  ro_key_sender : forall i k s, ac_api_keys (db_accounts d) !! i = Some k -> ak_sender_profile k = Some s ->
    is_Some (db_senders d !! s);
  ro_key_provider : forall i k p, ac_api_keys (db_accounts d) !! i = Some k -> ak_provider_profile k = Some p ->
    is_Some (db_providers d !! p);
  ro_tokens : forall t, t ∈ ac_tokens (db_accounts d) -> is_Some (ac_users (db_accounts d) !! vt_owner t);
  ro_kyb : forall k p u, ac_kyb_profiles (db_accounts d) !! k = Some p -> ky_user p = Some u -> is_Some (ac_users (db_accounts d) !! u);
  ro_balances : forall p c pc, db_provider_currencies d !! (p, c) = Some pc -> is_Some (db_providers d !! p);
  ro_order_tokens : forall t, t ∈ db_order_tokens d -> is_Some (db_providers d !! pot_provider t);
  ro_ratings : forall r, r ∈ ac_ratings (db_accounts d) -> is_Some (db_providers d !! rt_provider_profile r);
  ro_members : forall b p, b ∈ db_buckets d -> p ∈ pb_provider_profiles b -> is_Some (db_providers d !! p);
  ro_orders : forall k o p, db_lock_orders d !! k = Some o -> lo_provider o = Some p -> is_Some (db_providers d !! p);
  ro_fulfillments : forall f, f ∈ db_fulfillments d -> is_Some (db_lock_orders d !! lf_order f);
  ro_sender_tokens : forall t, t ∈ db_sender_tokens d -> is_Some (db_senders d !! so_sender t);
  ro_payments : forall k o s, db_payment_orders d !! k = Some o -> po_sender_profile o = Some s ->
    is_Some (db_senders d !! s)
}.

Lemma elem_of_filterb {A} (p : A -> bool) l a : a ∈ List.filter p l <-> a ∈ l /\ p a = true.
Proof. rewrite !list_elem_of_In. apply filter_In. Qed.

(** A row other than the deleted one is still there. *)
Lemma still_there {A} (m : gmap string A) k j : is_Some (m !! j) -> j <> k -> is_Some (delete k m !! j).
Proof. intros H Hne. by rewrite lookup_delete_ne. Qed.

Lemma drop_sender_refs s d :
  refs_ok d -> (forall k u, ac_users (db_accounts d) !! k = Some u -> us_sender_profile u <> Some s) ->
  refs_ok (drop_sender s d).
Proof.
  intros [] Hno. split; simpl; try done.
  - intros k u s' Hu Hs. apply still_there; [by eapply ro_sender0|]. intros ->. by destruct (Hno k u Hu).
  - intros i k s' Hk Hs. apply map_lookup_filter_Some in Hk as [Hk Hne]. simpl in Hne.
    apply still_there; [by eapply ro_key_sender0|]. congruence.
  - intros i k p Hk. apply map_lookup_filter_Some in Hk as [Hk _]. by eapply ro_key_provider0.
  - intros t [Ht Hne]%elem_of_filterb. apply still_there; [by apply ro_sender_tokens0|].
    apply negb_true_iff, String.eqb_neq in Hne. done.
  - intros k o s' Ho Hs. rewrite lookup_fmap in Ho. destruct (db_payment_orders d !! k) as [o'|] eqn:Eo; [|done].
    simplify_eq/=. unfold po_clear_sender in Hs. case_bool_decide as Hb; [done|].
    apply still_there; [by eapply ro_payments0|]. congruence.
Qed.

Lemma drop_provider_refs p d :
  refs_ok d -> (forall k u, ac_users (db_accounts d) !! k = Some u -> us_provider_profile u <> Some p) ->
  rated d (Some p) = false -> refs_ok (drop_provider p d).
Proof.
  intros [] Hno Hrt. split; simpl; try done.
  - intros k u p' Hu Hp. apply still_there; [by eapply ro_provider0|]. intros ->. by destruct (Hno k u Hu).
  - intros i k s Hk. apply map_lookup_filter_Some in Hk as [Hk _]. by eapply ro_key_sender0.
  - intros i k p' Hk Hp. apply map_lookup_filter_Some in Hk as [Hk Hne]. simpl in Hne.
    apply still_there; [by eapply ro_key_provider0|]. congruence.
  - intros p' c pc Hpc. apply map_lookup_filter_Some in Hpc as [Hpc Hne]. simpl in Hne.
    apply still_there; [by eapply ro_balances0|done].
  - intros t [Ht Hne]%elem_of_filterb. apply still_there; [by apply ro_order_tokens0|].
    apply negb_true_iff, String.eqb_neq in Hne. done.
  - intros r Hr. apply still_there; [by apply ro_ratings0|]. intros <-. apply not_true_iff_false in Hrt.
    apply Hrt, existsb_exists. exists r. split; [by apply list_elem_of_In|by apply bool_decide_eq_true_2].
  - intros b p' Hb Hp'. apply list_elem_of_fmap in Hb as (b' & -> & Hb'). simpl in Hp'.
    apply elem_of_filterb in Hp' as [Hp' Hne]. apply still_there; [by eapply ro_members0|].
    apply negb_true_iff, String.eqb_neq in Hne. done.
  - intros k o p' Ho Hp'. apply map_lookup_filter_Some in Ho as [Ho Hne]. simpl in Hne.
    rewrite lookup_fmap in Ho. destruct (db_lock_orders d !! k) as [o'|] eqn:Eo; [|done]. simplify_eq/=.
    apply still_there; [by eapply ro_orders0|]. congruence.
  - intros f Hf. apply elem_of_filterb in Hf as [Hf Hne].
    apply negb_true_iff, bool_decide_eq_false in Hne. rewrite lookup_fmap in Hne.
    destruct (ro_fulfillments0 f Hf) as [o Ho]. rewrite Ho in Hne. simpl in Hne.
    eexists. apply map_lookup_filter_Some. rewrite lookup_fmap, Ho. simpl. split; [reflexivity|done].
Qed.

Lemma drop_user_refs u d :
  refs_ok d -> ac_users (db_accounts d) !! us_id u = Some u -> rated d (us_provider_profile u) = false ->
  refs_ok (drop_user u d).
Proof.
  intros Hrefs Hu Hrt. unfold drop_user.
  set (d1 := with_kyb _ (with_tokens _ (with_users _ d))).
  assert (H1 : refs_ok d1).
  { destruct Hrefs. split; simpl; try done.
    - intros k v Hv. apply lookup_delete_Some in Hv as [_ Hv]. by apply ro_filed0.
    - intros k v s Hv. apply lookup_delete_Some in Hv as [_ Hv]. by eapply ro_sender0.
    - intros k1 k2 u1 u2 s [_ H1]%lookup_delete_Some [_ H2]%lookup_delete_Some. by eapply ro_sender_own0.
    - intros k v s Hv. apply lookup_delete_Some in Hv as [_ Hv]. by eapply ro_provider0.
    - intros k1 k2 u1 u2 s [_ H1]%lookup_delete_Some [_ H2]%lookup_delete_Some. by eapply ro_provider_own0.
    - intros t [Ht Hne]%elem_of_filterb. apply still_there; [by apply ro_tokens0|].
      apply negb_true_iff, String.eqb_neq in Hne. done.
    - intros k p v [Hp Hne]%map_lookup_filter_Some Hv. apply still_there; [by eapply ro_kyb0|]. simpl in Hne. congruence. }
  assert (Hs : forall s, us_sender_profile u = Some s ->
    forall k v, ac_users (db_accounts d1) !! k = Some v -> us_sender_profile v <> Some s).
  { intros s Hus k v Hv Hvs. unfold d1 in Hv. simpl in Hv. apply lookup_delete_Some in Hv as [Hne Hv]. apply Hne. by eapply (ro_sender_own d Hrefs). }
  assert (Hp : forall p, us_provider_profile u = Some p ->
    forall k v, ac_users (db_accounts d1) !! k = Some v -> us_provider_profile v <> Some p).
  { intros p Hup k v Hv Hvp. unfold d1 in Hv. simpl in Hv. apply lookup_delete_Some in Hv as [Hne Hv]. apply Hne. by eapply (ro_provider_own d Hrefs). }
  destruct (us_provider_profile u) as [p|], (us_sender_profile u) as [s|]; try done.
  - apply drop_sender_refs; [apply drop_provider_refs; [done|exact (Hp p eq_refl)|exact Hrt]|exact (Hs s eq_refl)].
  - apply drop_provider_refs; [done|exact (Hp p eq_refl)|exact Hrt].
  - apply drop_sender_refs; [done|exact (Hs s eq_refl)].
Qed.

(** The profile [x] is the profile of the user. *)
Definition owned (profile x : option string) : bool :=
  match profile with Some _ => bool_decide (x = profile) | None => false end.

(** A bucket without the provider profile of the user. *)
Definition without (u : User) (b : ProvisionBucket) : ProvisionBucket :=
  pb_set_members (List.filter (fun q => negb (owned (us_provider_profile u) (Some q))) (pb_provider_profiles b)) b.

(** The database without the user: of every table exactly the rows of the user, of
    its profiles and of their orders are gone, the buckets no longer list its provider
    profile and its payment orders no longer name its sender profile; every other row
    is as it was. *)
Record erased (u : User) (d d' : DB) : Prop := {
  er_users : ac_users (db_accounts d') = delete (us_id u) (ac_users (db_accounts d));
  er_tokens : ac_tokens (db_accounts d') =
    List.filter (fun t => negb (String.eqb (vt_owner t) (us_id u))) (ac_tokens (db_accounts d));
  er_kyb : forall k p, ac_kyb_profiles (db_accounts d') !! k = Some p <->
    ac_kyb_profiles (db_accounts d) !! k = Some p /\ ky_user p <> Some (us_id u);
  er_keys : forall i k, ac_api_keys (db_accounts d') !! i = Some k <->
    ac_api_keys (db_accounts d) !! i = Some k /\ owned (us_provider_profile u) (ak_provider_profile k) = false /\
    owned (us_sender_profile u) (ak_sender_profile k) = false;
  er_ratings : ac_ratings (db_accounts d') = ac_ratings (db_accounts d);
  er_providers : forall p, db_providers d' !! p =
    if owned (us_provider_profile u) (Some p) then None else db_providers d !! p;
  er_senders : forall s, db_senders d' !! s =
    if owned (us_sender_profile u) (Some s) then None else db_senders d !! s;
  er_balances : forall p c, db_provider_currencies d' !! (p, c) =
    if owned (us_provider_profile u) (Some p) then None else db_provider_currencies d !! (p, c);
  er_order_tokens : db_order_tokens d' =
    List.filter (fun t => negb (owned (us_provider_profile u) (Some (pot_provider t)))) (db_order_tokens d);
  er_sender_tokens : db_sender_tokens d' =
    List.filter (fun t => negb (owned (us_sender_profile u) (Some (so_sender t)))) (db_sender_tokens d);
  er_buckets : db_buckets d' = map (without u) (db_buckets d);
  er_orders : forall k, db_lock_orders d' !! k =
    match db_lock_orders d !! k with
    | Some o => if owned (us_provider_profile u) (lo_provider o) then None
                else Some (lo_set_bucket (without u <$> lo_provision_bucket o) o)
    | None => None
    end;
  er_fulfillments : db_fulfillments d' = List.filter (fun f =>
    negb (owned (us_provider_profile u) (db_lock_orders d !! lf_order f ≫= lo_provider))) (db_fulfillments d);
  er_payments : forall k, db_payment_orders d' !! k =
    (fun o => if owned (us_sender_profile u) (po_sender_profile o) then po_no_sender o else o) <$> db_payment_orders d !! k;
  er_rest : db_currencies d' = db_currencies d /\ db_tx_logs d' = db_tx_logs d /\
    db_receive_addresses d' = db_receive_addresses d /\ db_tokens d' = db_tokens d /\
    db_institutions d' = db_institutions d /\ db_networks d' = db_networks d /\
    db_linked_addresses d' = db_linked_addresses d /\ db_next_id d' = db_next_id d
}.

Lemma filter_true {A} (l : list A) : List.filter (fun _ => true) l = l.
Proof. induction l as [|x l IH]; [done|]. simpl. by rewrite IH. Qed.

(** The tests of the deletion in terms of [owned]. *)
Lemma owned_eqb p q : owned (Some p) (Some q) = String.eqb q p.
Proof. unfold owned. destruct (String.eqb_spec q p) as [->|H]; [by apply bool_decide_eq_true_2|]. apply bool_decide_eq_false_2. congruence. Qed.
Lemma filter_not_owned {A} (f : A -> string) p l :
  List.filter (fun a => negb (String.eqb (f a) p)) l = List.filter (fun a => negb (owned (Some p) (Some (f a)))) l.
Proof. apply List.filter_ext. intros a. by rewrite owned_eqb. Qed.
Lemma without_drop u p b : us_provider_profile u = Some p -> pb_drop p b = without u b.
Proof. intros H. unfold pb_drop, without. rewrite H. f_equal. apply (filter_not_owned (fun q => q)). Qed.
Lemma without_none u b : us_provider_profile u = None -> without u b = b.
Proof. intros H. unfold without. rewrite H. simpl. rewrite filter_true. by destruct b. Qed.
Lemma lo_set_bucket_id o f : (forall b, f b = b) -> lo_set_bucket (f <$> lo_provision_bucket o) o = o.
Proof. intros H. destruct o as [? ? ? ? ? ? ? ? ? ? ? ? ? ? ? ? ? ? ? ? ? ? [b|] ? ?]; [|done]. unfold lo_set_bucket. simpl. by rewrite H. Qed.

(** What the cascade of a provider profile does to the rows of orders. *)
Lemma drop_provider_orders u p d : us_provider_profile u = Some p -> forall k,
  db_lock_orders (drop_provider p d) !! k =
    match db_lock_orders d !! k with
    | Some o => if owned (us_provider_profile u) (lo_provider o) then None
                else Some (lo_set_bucket (without u <$> lo_provision_bucket o) o)
    | None => None
    end.
Proof.
  intros Hp k. simpl. rewrite map_lookup_filter, lookup_fmap, Hp.
  destruct (db_lock_orders d !! k) as [o|]; [|done]. simpl.
  assert (Hb : pb_drop p <$> lo_provision_bucket o = without u <$> lo_provision_bucket o).
  { destruct (lo_provision_bucket o) as [b|]; [|done]. simpl. by rewrite (without_drop u p b Hp). }
  rewrite Hb. unfold owned. case_bool_decide as E; case_guard as G; done.
Qed.
Lemma drop_provider_fulfillments p d : db_fulfillments (drop_provider p d) =
  List.filter (fun f => negb (owned (Some p) (db_lock_orders d !! lf_order f ≫= lo_provider))) (db_fulfillments d).
Proof.
  simpl. apply List.filter_ext. intros f. simpl. rewrite lookup_fmap. by destruct (db_lock_orders d !! lf_order f).
Qed.

(** The other tables. *)
Lemma delete_owned {A} (m : gmap string A) p k : delete p m !! k = if owned (Some p) (Some k) then None else m !! k.
Proof. rewrite owned_eqb. destruct (String.eqb_spec k p) as [->|H]; [apply lookup_delete_eq|by apply lookup_delete_ne]. Qed.
Lemma balances_owned (m : gmap (string * string) ProviderCurrencies) p q c :
  filter (fun kv => kv.1.1 <> p) m !! (q, c) = if owned (Some p) (Some q) then None else m !! (q, c).
Proof.
  rewrite map_lookup_filter, owned_eqb. destruct (m !! (q, c)); simpl; [|by destruct (String.eqb q p)].
  destruct (String.eqb_spec q p) as [->|H]; case_guard; done.
Qed.
Lemma payments_owned (m : gmap string PaymentOrder) s k : (po_clear_sender s <$> m) !! k =
  (fun o => if owned (Some s) (po_sender_profile o) then po_no_sender o else o) <$> m !! k.
Proof. apply lookup_fmap. Qed.
Lemma provider_keys_owned (m : gmap string APIKey) p i k :
  filter (fun kv => ak_provider_profile kv.2 <> Some p) m !! i = Some k <->
  m !! i = Some k /\ owned (Some p) (ak_provider_profile k) = false.
Proof. rewrite map_lookup_filter_Some. simpl. by rewrite bool_decide_eq_false. Qed.
Lemma sender_keys_owned (m : gmap string APIKey) s i k :
  filter (fun kv => ak_sender_profile kv.2 <> Some s) m !! i = Some k <->
  m !! i = Some k /\ owned (Some s) (ak_sender_profile k) = false.
Proof. rewrite map_lookup_filter_Some. simpl. by rewrite bool_decide_eq_false. Qed.
Lemma buckets_owned u p l : us_provider_profile u = Some p -> map (pb_drop p) l = map (without u) l.
Proof. intros H. apply map_ext. intros b. by apply without_drop. Qed.
Lemma buckets_none u l : us_provider_profile u = None -> l = map (without u) l.
Proof. intros H. rewrite <- (map_id l) at 1. apply map_ext. intros b. by rewrite without_none. Qed.
Lemma orders_none u (m : gmap string LockPaymentOrder) k : us_provider_profile u = None ->
  m !! k = match m !! k with
           | Some o => if owned None (lo_provider o) then None
                       else Some (lo_set_bucket (without u <$> lo_provision_bucket o) o)
           | None => None
           end.
Proof. intros H. simpl. destruct (m !! k); [|done]. rewrite lo_set_bucket_id; [done|]. intros b. by apply without_none. Qed.

Create HintDb erase.
#[local] Hint Resolve delete_owned balances_owned payments_owned buckets_owned buckets_none orders_none : erase.
#[local] Hint Extern 1 (List.filter _ _ = List.filter _ _) => apply filter_not_owned : erase.
#[local] Hint Extern 1 (_ = List.filter _ _) => symmetry; apply filter_true : erase.
#[local] Hint Extern 1 (_ = _ <$> _) => symmetry; apply option_fmap_id : erase.

(** The cascade of the provider profile and of the sender profile, if the user has one. *)
Lemma drop_user_erases u d : erased u d (drop_user u d).
Proof.
  unfold drop_user. destruct (us_provider_profile u) as [p|] eqn:Ep, (us_sender_profile u) as [s|] eqn:Es.
  all: split; try (intros; apply map_lookup_filter_Some); rewrite ?Ep, ?Es; try done.
  all: try exact (drop_provider_fulfillments p d).
  all: try (intros k; rewrite <- Ep; exact (drop_provider_orders u p d Ep k)).
  all: intros; cbn -[filter owned]; rewrite ?sender_keys_owned, ?provider_keys_owned; try tauto; auto with erase.
Qed.

End refs.

(** ** Claims *)

Section account_claims.
Context `{O : DecimalOps} {HS : HttpServices} {AS : AuthServices} {AC : AccountServices}.
Variable conf : AuthConf.

(** C19: [Register], whatever calls fail.  The answer 201 means that the committed
    database has the new user, under an e-mail address no other user has, with the
    hash of its password; for the scope "provider" a private provider profile with a
    key and a zero balance in each of the enabled currencies, for the scope "sender" a
    sender profile with a key; that all rows from before are still there unchanged;
    and at most a verification token besides.  Any other answer has changed nothing,
    and there is no panic. *)
Theorem register_correct p w :
  wp (Register conf (Some p)) (fun o w' =>
    exists r, o = Ret r /\
    ((ar_code r = 201%Z /\ exists u d, registered conf p (w_db w) d u /\ plus_token d (w_db w') /\
        rr_ID <$> ar_data r = Some (us_id u)) \/
     (ar_code r <> 201%Z /\ w_db w' = w_db w))) w.
Proof. apply Register_wp. Qed.

(** C20: from registration to an authenticated request.  A sender who registers on a
    server outside production and staging, where e-mail addresses count as verified, can
    log in with the same password (and the address in any case), and the access token
    then opens the sender routes with the new sender profile on the context until it
    expires.  In production and staging the same login is answered 400, because the
    address has not been verified yet. *)
Theorem registered_user_authenticates {L : AuthLaws AS} {AL : AccountLaws AC} p w w1 r1 w2 email access refresh w3 r :
  emails_unique (w_db w) -> Register conf (Some p) w = (Ret r1, w1) -> ar_code r1 = 201%Z ->
  rp_Scopes p = ["sender"] -> ToLower email = ToLower (rp_Email p) ->
  w_db w2 = w_db w1 -> w_faults w2 = [] ->
  (forall id, rr_ID <$> ar_data r1 = Some id -> GeneratePairJWT conf (w_now w2) id "sender" = Some (access, refresh)) ->
  w_db w3 = w_db w1 -> w_faults w3 = [] -> (unix (w_now w3) < unix (w_now w2 + au_JwtAccessLifespan conf))%Z ->
  GetHeader r "Client-Type" = "web" -> GetHeader r "Authorization" = "Bearer " +:+ access ->
  if bool_decide (au_Environment conf = "production" \/ au_Environment conf = "staging") then
    exists l, (Login conf (Some (email, rp_Password p)) w2).1 = Ret l /\ ar_code l = 400%Z
  else
    lr_AccessToken <$> (match (Login conf (Some (email, rp_Password p)) w2).1 with Ret l => ar_data l | _ => None end) = Some access /\
    exists c s, chain (senderRoutes conf) r (ctx0 r) w3 = (Ret c, w3) /\ cx_aborted c = false /\
      ctx_sender c = Some s /\ db_senders (w_db w) !! sp_id s = None.
Proof.
  intros Huniq Hrun H201 Hscope Hem Hw2 Hf2 Hpair Hw3 Hf3 Hlife Hweb Hh.
  pose proof (Register_wp conf p w) as H. unfold wp in H. rewrite Hrun in H. simpl in H.
  destruct H as (r' & [= <-] & [(_ & u & d & Hreg & Hplus & Hid)|[Hne _]]); [|done].
  destruct (plus_token_users _ _ Hplus) as [Hus Hse].
  destruct (rd_inv _ _ _ _ _ Hreg) as [_ Hins _ _ _ _ _ _ _].
  assert (Hu : ac_users (db_accounts (w_db w1)) !! us_id u = Some u) by (rewrite Hus, Hins; apply lookup_insert_eq).
  assert (Hsc : us_scope u = "sender") by (rewrite (rd_scope _ _ _ _ _ Hreg), Hscope; done).
  specialize (Hpair _ Hid).
  destruct (rd_sender _ _ _ _ _ Hreg) as [(s & k & Hs & Hfresh & Hrow & _)]; [by rewrite Hscope|].
  destruct (rd_password _ _ _ _ _ Hreg) as [wh Hhash]. destruct (rd_id _ _ _ _ _ Hreg) as [wi Hwi].
  assert (Hlogin : Login conf (Some (email, rp_Password p)) w2 = (Ret (if us_is_email_verified u
    then mkResponse 200%Z "success" "Successfully logged in"
           (Some (mkLoginResponse access refresh (split_on " "%char (us_scope u))))
    else mkResponse 400%Z "error" "Email is not verified, please verify your email" None), w2)).
  { apply (Login_ok conf email _ (us_id u)); [done| |by rewrite Hw2|by rewrite (rd_email _ _ _ _ _ Hreg)
      |by eapply bcrypt_round_trip|by rewrite Hsc].
    rewrite Hw2. intros k1 k2 u1 u2. rewrite Hus. by apply (registered_unique conf p (w_db w) d u). }
  rewrite Hlogin, (rd_verified _ _ _ _ _ Hreg). clear Hlogin. simpl. case_bool_decide as Henv.
  { eexists. split; [done|]. by destruct Henv as [->| ->]. }
  rewrite (proj2 (String.eqb_neq _ "production")), (proj2 (String.eqb_neq _ "staging")) by tauto.
  split; [done|]. eexists _, s. split.
  - eapply (signed_token_opens conf (L := L)); [|exact Hlife|done|done|exact Hh].
    unfold GeneratePairJWT, GenerateAccessJWT in Hpair. repeat case_match; simplify_eq. done.
  - split; [done|]. split; [|exact Hfresh]. unfold ctx_sender. simpl. unfold sender_of_user, uuid_or_nil.
    rewrite Hwi, account_uuid_canonical. simpl. rewrite <- Hwi, Hw3, Hu. simpl. rewrite Hs. simpl. by rewrite Hse.
Qed.

(** Without failures the ratings decide. *)
Lemma delete_account_decides c uid u w :
  parse_uuid (ctx_user_id c) = Some uid -> ac_users (db_accounts (w_db w)) !! uid = Some u -> us_id u = uid ->
  wp (DeleteAccount c) (fun o _ => w_faults w = [] ->
    match o with Ret r => ar_code r = if rated (w_db w) (us_provider_profile u) then 500 else 200 | _ => False end) w.
Proof.
  intros Hid Hu Huid. unfold wp. intros Hf.
  change (wp (DeleteAccount c) (fun o _ =>
    match o with Ret r => ar_code r = if rated (w_db w) (us_provider_profile u) then 500 else 200 | _ => False end) w).
  unfold DeleteAccount, api_error. rewrite Hid. wp_step. unfold user_by_id. wp_step. eapply wp_read_db_ok; [done|done|].
  simpl. rewrite Hu. wp_step. wp_step. unfold delete_user. rewrite Huid. apply wp_modify_direct_ok; [done|]. rewrite Hu.
  destruct (rated _ _); by wp_step.
Qed.

(** C21: [DeleteAccount] of the user on the context, whatever calls fail: every reference
    in the database still points to a row; the answer 200 means that the provider profile
    of the user has no rating and that exactly the user is erased: its verification
    tokens, its KYB submission, its profiles with their keys, balances, settings and
    bucket memberships, and the orders assigned to its provider profile, in whatever
    status, with their fulfilments; its payment orders stay without a sender, and every
    other row of every table is as it was.  Any other answer has changed nothing.  When
    nothing fails the answer is 200, or 500 for a rated provider. *)
Theorem delete_account_integrity c uid u w :
  parse_uuid (ctx_user_id c) = Some uid -> ac_users (db_accounts (w_db w)) !! uid = Some u -> refs_ok (w_db w) ->
  wp (DeleteAccount c) (fun o w' => exists r, o = Ret r /\ refs_ok (w_db w') /\
    (if (ar_code r =? 200)%Z then rated (w_db w) (us_provider_profile u) = false /\ erased u (w_db w) (w_db w')
     else w_db w' = w_db w) /\
    (w_faults w = [] -> ar_code r = if rated (w_db w) (us_provider_profile u) then 500 else 200)) w.
Proof.
  intros Hid Hu Hrefs. pose proof (ro_filed _ Hrefs _ _ Hu) as Huid.
  enough (H : wp (DeleteAccount c) (fun o w' => exists r, o = Ret r /\ refs_ok (w_db w') /\
    if (ar_code r =? 200)%Z then rated (w_db w) (us_provider_profile u) = false /\ erased u (w_db w) (w_db w')
    else w_db w' = w_db w) w).
  { pose proof (delete_account_decides c uid u w Hid Hu Huid) as H3. unfold wp in *. destruct H as (r & Hr & H1 & H2). exists r. split; [exact Hr|]. split; [exact H1|]. split; [exact H2|]. by rewrite Hr in H3. }
  unfold DeleteAccount, api_error. rewrite Hid.
  wp_step. unfold user_by_id. wp_step. eapply wp_read_db; [done|intros fs|intros fs].
  - simpl. rewrite Hu. wp_step. wp_step. unfold delete_user. rewrite Huid.
    apply wp_modify_direct; intros fs'; simpl; [rewrite Hu|wp_step; by eexists].
    destruct (rated _ _) eqn:Hrt; wp_step; [by eexists|]. eexists. split_and!; [done|..]; simpl.
    + apply drop_user_refs; [done|by rewrite Huid|done].
    + split; [done|apply drop_user_erases].
  - destruct (bool_decide _); wp_step; by eexists.
Qed.

(** [ChangePassword], whatever calls fail: the answer 200 means that the old password
    matched the stored hash, the new one did not, and exactly the password hash of that
    user has changed, to a hash of the new password; any other answer has changed
    nothing. *)
Theorem change_password_correct c oldPassword newPassword w :
  wp (ChangePassword c (Some (oldPassword, newPassword))) (fun o w' => exists r, o = Ret r /\
    if (ar_code r =? 200)%Z then exists uid u hash wh, parse_uuid (ctx_user_id c) = Some uid /\
      ac_users (db_accounts (w_db w)) !! uid = Some u /\
      bcrypt_check (us_password u) oldPassword = true /\ bcrypt_check (us_password u) newPassword = false /\
      bcrypt_hash wh newPassword = Some hash /\
      exists v, ac_users (db_accounts (w_db w)) !! us_id u = Some v /\
        w_db w' = with_users (<[us_id u := us_set_password hash v]>) (w_db w)
    else w_db w' = w_db w) w.
Proof.
  unfold ChangePassword, api_error. destruct (parse_uuid _) as [uid|] eqn:Eid; [|wp_step; by eexists].
  wp_step. unfold user_by_id. wp_step. eapply wp_read_db; [done|intros fs|intros fs; wp_step; by eexists].
  simpl. destruct (ac_users _ !! uid) as [u|] eqn:Eu; wp_step; [|wp_step; by eexists].
  unfold CheckPasswordHash. destruct (bcrypt_check _ oldPassword) eqn:Eo; simpl; [|wp_step; by eexists].
  destruct (bcrypt_check _ newPassword) eqn:En; [wp_step; by eexists|].
  wp_step. unfold update_password. wp_step. wp_step.
  destruct (bcrypt_hash _ newPassword) as [hash|] eqn:Eh; [|wp_step; wp_step; by eexists].
  apply wp_modify_direct; intros fs'; [|wp_step; by eexists]. simpl.
  destruct (ac_users _ !! us_id u) as [v|] eqn:Ev; wp_step; [|by eexists].
  eexists. split; [done|]. simpl. eexists uid, u, hash, _. split_and!; [done..|exact Eh|]. by exists v.
Qed.

(** [ResetPassword], whatever calls fail: the answer 200 means that there is a reset
    token with this text that has not expired, and that the password of its owner is now
    a hash of the new one; apart from that password, users are unchanged, and no token is
    added. *)
Theorem reset_password_needs_token resetToken password w :
  wp (ResetPassword (Some (resetToken, password))) (fun o w' => exists r, o = Ret r /\
    (forall t, t ∈ ac_tokens (db_accounts (w_db w')) -> t ∈ ac_tokens (db_accounts (w_db w))) /\
    if (ar_code r =? 200)%Z then exists t u hash wh, t ∈ ac_tokens (db_accounts (w_db w)) /\
      vt_token t = resetToken /\ vt_scope t = SResetPassword /\ (w_now w <= vt_expiry_at t)%Z /\
      ac_users (db_accounts (w_db w)) !! vt_owner t = Some u /\ bcrypt_hash wh password = Some hash /\
      ac_users (db_accounts (w_db w')) = <[vt_owner t := us_set_password hash u]> (ac_users (db_accounts (w_db w)))
    else ac_users (db_accounts (w_db w')) = ac_users (db_accounts (w_db w))) w.
Proof.
  unfold ResetPassword, api_error. wp_step. wp_step. eapply wp_read_db; [done|intros fs|intros fs; wp_step; by eexists].
  apply only_filter; [|intros _; wp_step; by eexists|wp_step; by eexists].
  intros t Ht [Htok Hsc]%andb_true_iff. apply String.eqb_eq in Htok. apply bool_decide_eq_true in Hsc.
  wp_step. wp_step. destruct (Z.ltb_spec (vt_expiry_at t) (w_now w)) as [Hexp|Hexp]; simpl in *.
  { rewrite (proj2 (Z.ltb_lt _ _) Hexp). wp_step. eapply wp_mono; [apply delete_token_wp|].
    intros o w1 (Hu1 & Ht1 & Hok). destruct o as [x|e|]; [|done|done]; unfold api_error; wp_step; by eexists. }
  rewrite (proj2 (Z.ltb_ge _ _) Hexp). wp_step. unfold update_password. wp_step. wp_step.
  destruct (bcrypt_hash _ password) as [hash|] eqn:Eh; [|wp_step; wp_step; by eexists].
  apply wp_modify_direct; intros fs'; [|wp_step; by eexists]. simpl.
  destruct (ac_users _ !! vt_owner t) as [u|] eqn:Eu; wp_step; [|by eexists].
  eapply wp_mono; [apply delete_token_wp|]. simpl. intros o w1 (Hu1 & Ht1 & Hok).
  assert (Hend : exists r : ApiResponse unit, Ret (mkResponse 200%Z "success" "Password reset was successful" None) = Ret r /\
    (forall t, t ∈ ac_tokens (db_accounts (w_db w1)) -> t ∈ ac_tokens (db_accounts (w_db w))) /\
    if (ar_code r =? 200)%Z then exists t u hash wh, t ∈ ac_tokens (db_accounts (w_db w)) /\
      vt_token t = resetToken /\ vt_scope t = SResetPassword /\ (w_now w <= vt_expiry_at t)%Z /\
      ac_users (db_accounts (w_db w)) !! vt_owner t = Some u /\ bcrypt_hash wh password = Some hash /\
      ac_users (db_accounts (w_db w1)) = <[vt_owner t := us_set_password hash u]> (ac_users (db_accounts (w_db w)))
    else ac_users (db_accounts (w_db w1)) = ac_users (db_accounts (w_db w))).
  { eexists. split_and!; [done|done|]. simpl. by eexists t, u, hash, _. }
  destruct o as [x|e|]; [|done|done]; wp_step; exact Hend.
Qed.

(** [ConfirmEmail] does not look at the scope of the token: a password reset token,
    which anybody can have sent to an address, confirms the e-mail address as well. *)
Theorem reset_token_confirms_email t u w :
  w_faults w = [] -> ac_tokens (db_accounts (w_db w)) = [t] -> vt_scope t = SResetPassword ->
  ac_users (db_accounts (w_db w)) !! vt_owner t = Some u -> (w_now w <= vt_expiry_at t)%Z ->
  wp (ConfirmEmail (Some (vt_token t, us_email u))) (fun o w' =>
    exists r, o = Ret r /\ ar_code r = 200%Z /\
    us_is_email_verified <$> ac_users (db_accounts (w_db w')) !! vt_owner t = Some true) w.
Proof.
  intros Hf Ht Hsc Hu Hexp. unfold ConfirmEmail, token_owner. repeat run_ok. rewrite Ht. simpl.
  rewrite String.eqb_refl, Hu, bool_decide_eq_true_2 by done. simpl. repeat run_ok.
  { match goal with H : (_ <? _)%Z = true |- _ => apply Z.ltb_lt in H end. lia. }
  unfold verify_user. run_ok. rewrite Hu. wp_step.
  eapply wp_mono; [apply delete_token_wp|]. intros o w1 (Hu1 & _ & Hok). destruct o as [x|e|]; [|done|done].
  wp_step. wp_step. eapply wp_mono; [apply send_email_wp|]. intros o w2 [Hd2 Hp2].
  assert (Hend : us_is_email_verified <$> ac_users (db_accounts (w_db w2)) !! vt_owner t = Some true).
  { rewrite Hd2, Hu1. simpl. by rewrite lookup_insert_eq. }
  destruct o as [[]|e|]; [| |done]; wp_step; by eexists.
Qed.

(** Asking for a token for an address no user has panics: the answer 400 is written,
    but the handler goes on and dereferences the user it did not find. *)
Theorem unknown_email_panics email scope w :
  (forall k u, ac_users (db_accounts (w_db w)) !! k = Some u -> us_email u <> email) ->
  (ResetPasswordToken conf (Some email) w).1 = Panic /\ (ResendVerificationToken conf (Some (scope, email)) w).1 = Panic.
Proof.
  intros Hno.
  assert (Hq : wp (user_by_email None email) (fun o _ => exists e, o = Err e) w).
  { unfold user_by_email. wp_step. eapply wp_read_db; [done|intros fs|intros fs; eauto].
    rewrite filter_none; [simpl; wp_step; eauto|]. intros v Hv. apply String.eqb_neq.
    unfold users in Hv. apply list_elem_of_fmap in Hv as ([k v'] & -> & Hv).
    apply elem_of_map_to_list in Hv. by eapply Hno. }
  unfold wp in Hq. destruct Hq as [e Hq]. unfold ResetPasswordToken, ResendVerificationToken, tryM.
  by destruct (user_by_email None email w) as [o w']; simpl in Hq; subst o.
Qed.

(** A refresh token outlives the account: [RefreshJWT] does not look the user up, so
    after the deletion it still gives out access tokens, and they pass the sender routes
    with a nil profile. *)
Theorem deleted_user_refreshes {L : AuthLaws AS} now0 userID refresh access w r :
  jwt_sign (au_Secret conf) (jwt_claims userID "sender" now0 (au_JwtRefreshLifespan conf)) = Some refresh ->
  (unix (w_now w) < unix (now0 + au_JwtRefreshLifespan conf))%Z ->
  GenerateAccessJWT conf (w_now w) userID "sender" = Some access ->
  (unix (w_now w) < unix (w_now w + au_JwtAccessLifespan conf))%Z ->
  ac_users (db_accounts (w_db w)) !! uuid_or_nil userID = None -> w_faults w = [] ->
  GetHeader r "Client-Type" = "web" -> GetHeader r "Authorization" = "Bearer " +:+ access ->
  RefreshJWT conf (Some refresh) w =
    (Ret (mkResponse 200%Z "success" "Successfully refreshed access token" (Some access)), w) /\
  exists c, chain (senderRoutes conf) r (ctx0 r) w = (Ret c, w) /\ cx_aborted c = false /\
    cx_values c !! "sender" = Some (VSender None).
Proof.
  intros Hsign Hlife Hacc Hlife' Hgone Hf Hweb Hh. split.
  - unfold RefreshJWT, bindM, getM, ValidateJWT.
    rewrite (jwt_round_trip _ (jwt_claims userID "sender" now0 (au_JwtRefreshLifespan conf)) _ _ _ eq_refl eq_refl eq_refl Hsign Hlife).
    rewrite (eq_refl : claim (jwt_claims userID "sender" now0 (au_JwtRefreshLifespan conf)) "sub" = Some userID),
      (eq_refl : claim (jwt_claims userID "sender" now0 (au_JwtRefreshLifespan conf)) "scope" = Some "sender"), Hacc. done.
  - eexists. split; [exact (signed_token_opens conf (L := L) _ _ _ _ _ _ Hacc Hlife' Hf Hweb Hh)|].
    split; [done|]. simpl. unfold sender_of_user. by rewrite Hgone.
Qed.

End account_claims.

(** ** Concrete runs *)

#[export] Instance s_account_services : AccountServices := {|
  account_uuid table _ := if String.eqb table "users" then "u1" else table;
  new_provider_id _ := "NewProvi";
  bcrypt_hash _ password := Some ("hash:" +:+ password);
  bcrypt_check hash password := String.eqb hash ("hash:" +:+ password);
  private_key _ := Some "secret";
  encrypt_plain _ s := "nonce-nonce-" +:+ s;
  verification_text _ email := "token of " +:+ email
|}.
Lemma s_account_laws : AccountLaws s_account_services.
Proof. split; [|done]. intros w password hash [= <-]. apply String.eqb_refl. Qed.

Definition s_local_conf : AuthConf :=
  mkAuthConf "server" 901000000000 901000000000 300000000000 300000000000 "slack" "app" "pem" false "" "local".
Definition s_register : RegisterPayload :=
  mkRegister "Ada" "Lovelace" "Ada@Example.com" "analytic" [] ["sender"].
Definition s_registered : World := (Register s_local_conf (Some s_register) (s_world (s_pc 100 0 100) [])).2.

(** A registration, the login under another spelling of the address, a request. *)
Lemma registered_user_authenticates_witness :
  exists c s, chain (senderRoutes s_local_conf) (s_web_request "token") (ctx0 (s_web_request "token")) s_registered =
    (Ret c, s_registered) /\ cx_aborted c = false /\ ctx_sender c = Some s.
Proof.
  pose proof (registered_user_authenticates (L := s_auth_laws) (AL := s_account_laws) s_local_conf s_register
    (s_world (s_pc 100 0 100) []) s_registered
    (mkResponse 201 "success" "User created successfully" (Some (mkRegisterResponse "u1" "Ada" "Lovelace" "")))
    s_registered "ADA@example.com" "token" "token" s_registered (s_web_request "token")) as H.
  rewrite bool_decide_eq_false_2 in H by (intros [E|E]; discriminate E).
  destruct H as [_ (c & s & H1 & H2 & H3 & _)].
  - intros k1 k2 u1 u2 H. change ((∅ : gmap string User) !! k1 = Some u1) in H. by rewrite lookup_empty in H.
  - unfold s_registered. rewrite (surjective_pairing (Register _ _ _)) at 1. f_equal; vm_compute; reflexivity.
  - reflexivity.
  - reflexivity.
  - vm_compute. reflexivity.
  - reflexivity.
  - vm_compute. reflexivity.
  - intros id [= <-]. vm_compute. reflexivity.
  - reflexivity.
  - vm_compute. reflexivity.
  - vm_compute. reflexivity.
  - reflexivity.
  - reflexivity.
  - exists c, s. split; [exact H1|]. split; [exact H2|exact H3].
Defined.

(** A provider with a balance, an order and a fulfilment deletes its account. *)
Definition s_provider_user : User :=
  mkUser "u2" "Acme" "Ltd" "acme@example.com" "hash:old" "provider" true false KApproved None (Some s_prov).
Definition s_account_world : World :=
  set_db (set_accounts (mkAccounts {[ "u2" := s_provider_user ]} ∅
                          [mkVT 1 "reset" SResetPassword 5000 "u2"] ∅ [])
            (set_sender_tokens [] (set_payment_orders ∅ (s_db (s_pc 100 0 100))))) (s_world (s_pc 100 0 100) []).
Definition s_ctx (id : string) : Ctx := mkCtx {[ "user_id" := VString id ]} [] false "".

Lemma s_account_refs : refs_ok (w_db s_account_world).
Proof.
  split; simpl; try (by intros *; rewrite ?lookup_singleton_Some, ?lookup_empty; intuition (subst; simpl in *; simplify_eq; eauto)).
  - by apply map_Forall_singleton.
  - intros t ->%list_elem_of_singleton. simpl. rewrite lookup_singleton_eq. by eexists.
  - intros t ->%list_elem_of_singleton. simpl. rewrite lookup_singleton_eq. by eexists.
  - by intros r ?%elem_of_nil.
  - intros b p ->%list_elem_of_singleton. simpl. intros ->%list_elem_of_singleton. rewrite lookup_singleton_eq. by eexists.
  - intros f ->%list_elem_of_singleton. simpl. rewrite lookup_singleton_eq. by eexists.
  - by intros t ?%elem_of_nil.
Qed.

Lemma delete_account_integrity_witness :
  refs_ok (w_db (DeleteAccount (s_ctx "u2") s_account_world).2) /\
  erased s_provider_user (w_db s_account_world) (w_db (DeleteAccount (s_ctx "u2") s_account_world).2).
Proof.
  destruct (delete_account_integrity (HS := s_http) (s_ctx "u2") "u2" s_provider_user s_account_world eq_refl eq_refl s_account_refs)
    as (r & Hr & H & He).
  assert (E : (DeleteAccount (HS := s_http) (s_ctx "u2") s_account_world).1 =
    Ret (mkResponse 200 "success" "Account deleted successfully" None)) by (vm_compute; reflexivity).
  rewrite E in Hr. injection Hr as <-. split; [exact H|exact (proj2 (proj1 He))].
Defined.

Lemma reset_token_confirms_email_witness :
  us_is_email_verified <$> ac_users (db_accounts (w_db
    (ConfirmEmail (Some ("reset", "acme@example.com")) s_account_world).2)) !! "u2" = Some true.
Proof.
  destruct (reset_token_confirms_email (mkVT 1 "reset" SResetPassword 5000 "u2") s_provider_user s_account_world)
    as (r & _ & _ & H).
  - reflexivity.
  - reflexivity.
  - reflexivity.
  - reflexivity.
  - vm_compute. discriminate.
  - exact H.
Defined.

Lemma unknown_email_panics_witness :
  (ResetPasswordToken s_local_conf (Some "nobody@example.com") s_account_world).1 = Panic.
Proof.
  refine (proj1 (unknown_email_panics s_local_conf "nobody@example.com" SResetPassword s_account_world _)).
  intros k u H. change (({[ "u2" := s_provider_user ]} : gmap string User) !! k = Some u) in H.
  apply lookup_singleton_Some in H as [_ <-]. discriminate.
Defined.

Lemma deleted_user_refreshes_witness :
  exists c, chain (senderRoutes s_local_conf) (s_web_request "token") (ctx0 (s_web_request "token")) s_account_world =
      (Ret c, s_account_world) /\ cx_aborted c = false /\ cx_values c !! "sender" = Some (VSender None).
Proof.
  refine (proj2 (deleted_user_refreshes (L := s_auth_laws) s_local_conf 0 "u1" "token" "token" s_account_world
    (s_web_request "token") _ _ _ _ _ _ _ _)); vm_compute; reflexivity.
Defined.

(** Registering a provider, a taken address, and a wrong password. *)
Example register_provider_runs :
  let run := Register s_local_conf (Some (mkRegister "Acme" "Ltd" "a@b.c" "secret" ["ngn"] ["provider"])) (s_world (s_pc 100 0 100) []) in
  (match run.1 with Ret r => ar_code r | _ => 0 end,
   pc_total_balance <$> db_provider_currencies (w_db run.2) !! ("NewProvi", "NGN"),
   ak_provider_profile <$> ac_api_keys (db_accounts (w_db run.2)) !! "api_keys") =
  (201, Some d_zero, Some (Some "NewProvi")).
Proof. vm_compute. reflexivity. Qed.
Example register_taken_address :
  match (Register s_local_conf (Some s_register) s_registered).1 with Ret r => ar_message r | _ => "" end =
  "User with email already exists".
Proof. vm_compute. reflexivity. Qed.
Example login_wrong_password :
  match (Login s_local_conf (Some ("ada@example.com", "wrong")) s_registered).1 with Ret r => ar_code r | _ => 0 end = 401.
Proof. vm_compute. reflexivity. Qed.
