(* ===== verification/Profiles.v ===== *)
(** * Profile settings (controllers/accounts/profile.go)

    What a sender and a provider read and change of their profiles: the tokens and
    addresses of a sender, the tokens, rates, buckets and availability of a provider.
    Both updates are one transaction.  The profile is what the middleware left on the
    context; formatted messages keep their constant part. *)

From S2P Require Import Prelude Decimal Schema Store Balance Utils Services Queue Orders Rows Payments Http Sender Auth Accounts.
Local Open Scope go_scope.
Local Open Scope string_scope.
Local Open Scope list_scope.

(** ** Payloads (types/types.go) *)

Section payloads.
Context {O : DecimalOps}.

Record SenderOrderAddressPayload := mkSOAP {
  sa_Network : string;
  sa_FeeAddress : string;
  sa_RefundAddress : string
}.
Record SenderOrderTokenPayload := mkSOTP {
  st_Symbol : string;
  st_FeePercent : dec;
  st_Addresses : list SenderOrderAddressPayload
}.
Record SenderProfilePayload := mkSPP {
  sp_WebhookURL : string;
  (** nil when absent *)
  sp_DomainWhitelist : option (list string);
  sp_Tokens : list SenderOrderTokenPayload
}.

Record ProviderOrderTokenPayload := mkPOTP {
  pt_Symbol : string;
  pt_ConversionRateType : RateType;
  pt_FixedConversionRate : dec;
  pt_FloatingConversionRate : dec;
  pt_MaxOrderAmount : dec;
  pt_MinOrderAmount : dec;
  pt_RateSlippage : dec;
  pt_Address : string;
  pt_Network : string
}.
Record ProviderProfilePayload := mkPPP {
  pl_TradingName : string;
  pl_Currency : string;
  pl_HostIdentifier : string;
  pl_IsAvailable : bool;
  pl_Tokens : list ProviderOrderTokenPayload;
  pl_VisibilityMode : string
}.

Record SenderOrderTokenResponse := mkSOTR {
  sr_Symbol : string;
  sr_FeePercent : dec;
  sr_Network : string;
  sr_FeeAddress : string;
  sr_RefundAddress : string
}.
Record SenderProfileResponse := mkSPR {
  spr_ID : string;
  spr_FirstName : string;
  spr_LastName : string;
  spr_Email : string;
  spr_WebhookURL : string;
  spr_DomainWhitelist : list string;
  spr_Tokens : list SenderOrderTokenResponse;
  spr_APIKey : string * string;
  spr_ProviderID : string;
  spr_ProviderCurrencies : list string;
  spr_IsActive : bool;
  spr_KYBVerificationStatus : KybStatus;
  spr_KYBRejectionComment : option string
}.
Record ProviderProfileResponse := mkPPR {
  ppr_ID : string;
  ppr_FirstName : string;
  ppr_LastName : string;
  ppr_Email : string;
  ppr_TradingName : string;
  ppr_Currencies : list string;
  ppr_HostIdentifier : string;
  ppr_CurrencyAvailability : gmap string bool;
  ppr_Tokens : list ProviderOrderTokenPayload;
  ppr_APIKey : string * string;
  ppr_IsActive : bool;
  ppr_VisibilityMode : Visibility;
  ppr_KYBVerificationStatus : KybStatus;
  ppr_KYBRejectionComment : option string
}.
End payloads.

Class ProfileServices `{O : DecimalOps} := {
  (** [url.ParseRequestURI] succeeds; scheme and host of [url.Parse] *)
  request_uri_ok : string -> bool;
  parse_url : string -> option (string * string)
}.

Section profiles.
Context `{O : DecimalOps} {AS : AuthServices} {SS : SenderServices} {PS : ProfileServices}.
Variable conf : Config.
Variable authConf : AuthConf.

(** utils/http.go, utils/utils.go *)
Definition IsURL (s : string) : bool := request_uri_ok s.
Definition IsValidHttpsUrl (urlStr : string) : bool :=
  if negb (HasPrefix (ToLower urlStr) "https://") then false
  else match parse_url urlStr with
       | None => false
       | Some (scheme, host) => String.eqb scheme "https" && negb (String.eqb host "")
       end.

(** [x, ok := ctx.Get("sender")] and the assertion of its type; the pointer may be nil. *)
Definition with_sender {A} (c : Ctx) (k : option SenderProfile -> M (ApiResponse A)) : M (ApiResponse A) :=
  match cx_values c !! "sender" with
  | None => api_error 401 "Invalid API key or token"
  | Some (VSender s) => k s
  | Some _ => panicM
  end.
Definition with_provider {A} (c : Ctx) (k : option ProviderProfile -> M (ApiResponse A)) : M (ApiResponse A) :=
  match cx_values c !! "provider" with
  | None => api_error 401 "Invalid API key or token"
  | Some (VProvider p) => k p
  | Some _ => panicM
  end.

(** ** The sender's settings *)

Definition refuse400 {A} (message : string) : M (ApiResponse unit + A) :=
  retM (inl (mkResponse 400 "error" message None)).
Definition refuse500 {A} : M (ApiResponse unit + A) :=
  retM (inl (mkResponse 500 "error" "Failed to update profile" None)).

Definition fee_address_ok (a : SenderOrderAddressPayload) : bool :=
  String.eqb (sa_FeeAddress a) "" ||
  (if HasPrefix (sa_Network a) "tron" then IsValidTronAddress (sa_FeeAddress a)
   else IsValidEthereumAddress (sa_FeeAddress a)).

Definition token_named (symbol : string) (t : Token) : bool := String.eqb (tk_symbol t) symbol.
Definition token_on (symbol network : string) (t : Token) : bool :=
  String.eqb (nw_identifier (tk_network t)) network && token_named symbol t.

(** The token of each network; [None] when a network has none (or more than one). *)
Fixpoint network_tokens (h : handle) (symbol : string) (networks : list string) : M (option (gmap string Z)) :=
  match networks with
  | [] => retM (Some ∅)
  | network :: networks =>
      let? t := (let! d := read_db h in only (List.filter (token_on symbol network) (db_tokens d)))
      orelse e => retM None in
      let! rest := network_tokens h symbol networks in
      retM (match rest with Some m => Some (<[network := tk_id t]> m) | None => None end)
  end.

(** A setting for a token with this symbol. *)
Definition symbol_of (d : DB) (symbol : string) (so : SenderOrderToken) : bool :=
  existsb (fun t => (tk_id t =? so_token so)%Z && token_named symbol t) (db_tokens d).

(** [SenderOrderToken.Delete().Where(symbol, sender)] *)
Definition delete_sender_tokens (h : handle) (sender symbol : string) : M unit :=
  write_db h (fun d => set_sender_tokens
    (List.filter (fun so => negb (symbol_of d symbol so && String.eqb (so_sender so) sender)) (db_sender_tokens d)) d).

(** [SenderOrderToken.Create()...Save]: one setting for a sender and a token. *)
Definition create_sender_token (h : handle) (row : SenderOrderToken) : M unit :=
  modify_db h (fun d =>
    if existsb (fun so => String.eqb (so_sender so) (so_sender row) && (so_token so =? so_token row)%Z) (db_sender_tokens d)
       || negb (existsb (fun t => (tk_id t =? so_token row)%Z) (db_tokens d))
    then inl constraint
    else inr (set_sender_tokens (db_sender_tokens d ++ [row]) d, tt)).

Definition address_row (sender : string) (fee : dec) (ids : gmap string Z) (a : SenderOrderAddressPayload) : SenderOrderToken :=
  mkSOT fee (sa_FeeAddress a) (sa_RefundAddress a) sender (default 0%Z (ids !! sa_Network a)).
Fixpoint create_sender_tokens (h : handle) (rows : list SenderOrderToken) : M unit :=
  match rows with
  | [] => retM tt
  | row :: rows => do! create_sender_token h row in create_sender_tokens h rows
  end.
Definition configured (a : SenderOrderAddressPayload) : bool :=
  negb (String.eqb (sa_RefundAddress a) "") && negb (String.eqb (sa_FeeAddress a) "").

(** One token of the payload: the answer that ends the request, or whether it is
    configured. *)
Definition update_sender_token (h : handle) (sender : string) (t : SenderOrderTokenPayload)
    : M (ApiResponse unit + bool) :=
  match st_Addresses t with
  | [] => refuse400 "No wallet address provided for token"
  | addresses =>
      let? tk := (let! d := read_db h in first (List.filter (token_named (st_Symbol t)) (db_tokens d)))
      orelse e => refuse400 "Token not supported" in
      if negb (forallb fee_address_ok addresses) then refuse400 "Failed to validate payload" else
      let! ids := network_tokens h (st_Symbol t) (remove_dups (map sa_Network addresses)) in
      match ids with
      | None => refuse400 "Network not supported"
      | Some ids =>
          do? delete_sender_tokens h sender (st_Symbol t) orelse e => refuse500 in
          do? create_sender_tokens h (map (address_row sender (st_FeePercent t) ids) addresses) orelse e => refuse500 in
          retM (inr (existsb configured addresses))
      end
  end.

(** The tokens in turn; [acc] is [hasConfiguredToken]. *)
Fixpoint update_sender_tokens (h : handle) (sender : string) (acc : bool) (tokens : list SenderOrderTokenPayload)
    : M (ApiResponse unit + bool) :=
  match tokens with
  | [] => retM (inr acc)
  | t :: tokens =>
      let** b := update_sender_token h sender t in
      update_sender_tokens h sender (acc || b) tokens
  end.

(** The columns the update sets: the activation follows the tokens of this payload. *)
Definition sender_columns (sender : SenderProfile) (p : SenderProfilePayload) (hasConfiguredToken : bool)
    (row : SenderProfile) : SenderProfile :=
  let url := if negb (String.eqb (sp_WebhookURL p) "") && negb (String.eqb (sp_WebhookURL p) (sp_webhook_url sender))
             then sp_WebhookURL p else sp_webhook_url row in
  let active := if hasConfiguredToken && negb (sp_is_active sender) then true
                else if negb hasConfiguredToken && sp_is_active sender then false
                else sp_is_active row in
  mkSP (sp_id row) url (sp_provider_id row) (sp_is_partner row) active (sp_user_email row) (sp_user_first_name row)
    (sp_api_key row) (default (sp_domain_whitelist row) (sp_DomainWhitelist p)).

(** An early answer leaves the transaction open. *)
Definition UpdateSenderProfile (c : Ctx) (payload : option SenderProfilePayload) : M (ApiResponse unit) :=
  match payload with
  | None => api_error 400 "Failed to validate payload"
  | Some p =>
      if negb (String.eqb (sp_WebhookURL p) "") && negb (IsURL (sp_WebhookURL p))
      then api_error 400 "Failed to validate payload" else
      with_sender c (fun sender =>
        let? tx := begin_tx orelse e => api_error 500 "Failed to update profile" in
        let! sender := deref sender in
        let* hasConfiguredToken := update_sender_tokens (Some tx) (sp_id sender) false (sp_Tokens p) in
        do? write_db (Some tx) (fun d =>
              set_senders (alter (sender_columns sender p hasConfiguredToken) (sp_id sender) (db_senders d)) d)
        orelse e => api_error 500 "Failed to update profile" in
        do? commit_tx tx orelse e => api_error 500 "Failed to update profile" in
        retM (mkResponse 200 "success" "Profile updated successfully" None))
  end.

(** ** The provider's settings *)

Record TokenOperation := mkOp {
  op_payload : ProviderOrderTokenPayload;
  op_token : Token;
  op_currency : FiatCurrency;
  op_rate : dec;
  op_update : bool
}.

Definition pt_set_slippage (s : dec) (t : ProviderOrderTokenPayload) : ProviderOrderTokenPayload :=
  mkPOTP (pt_Symbol t) (pt_ConversionRateType t) (pt_FixedConversionRate t) (pt_FloatingConversionRate t)
    (pt_MaxOrderAmount t) (pt_MinOrderAmount t) s (pt_Address t) (pt_Network t).

(** The setting of a provider for a token, a currency and a network. *)
Definition setting_of (provider : string) (token : Z) (currency network : string) (t : ProviderOrderToken) : bool :=
  (tk_id (pot_token t) =? token)%Z && String.eqb (pot_provider t) provider && String.eqb (pot_currency t) currency &&
  String.eqb (pot_network t) network.

(** What the validation of one token of the payload gives. *)
Inductive verdict := Fatal | Invalid (message : string) | Planned (op : TokenOperation).

Definition payload_rate (t : ProviderOrderTokenPayload) (currency : FiatCurrency) : dec :=
  match pt_ConversionRateType t with
  | RFixed => pt_FixedConversionRate t
  | RFloating => d_add (fc_market_rate currency) (pt_FloatingConversionRate t)
  end.
Definition rate_too_far (t : ProviderOrderTokenPayload) (currency : FiatCurrency) (rate : dec) : bool :=
  match pt_ConversionRateType t with
  | RFloating => d_gt (AbsPercentageDeviation (fc_market_rate currency) rate) (cf_percent_deviation_from_market_rate conf)
  | RFixed => false
  end.
(** The slippage, zero or checked. *)
Definition slippage_error (t : ProviderOrderTokenPayload) (currency : FiatCurrency) (rate : dec) : option string :=
  if d_is_zero (pt_RateSlippage t) then None
  else if d_lt (pt_RateSlippage t) (d_new 1 (-1)) then Some "Rate slippage cannot be less than 0.1%"
  else if d_gt (d_mul rate (d_div (pt_RateSlippage t) (d_int 100))) (d_mul (fc_market_rate currency) (d_new 5 (-2)))
  then Some "Rate slippage is too high"
  else None.

Definition validate_token (provider : option string) (currencyCode : string) (t : ProviderOrderTokenPayload) : M verdict :=
  let? token := (let! d := read_db None in only (List.filter (token_offered (pt_Symbol t) (pt_Network t)) (db_tokens d)))
  orelse e => (if IsNotFound e then retM (Invalid "Token not supported") else retM Fatal) in
  let? currency := (let! d := read_db None in
                    match db_currencies d !! currencyCode with
                    | Some fc => if fc_is_enabled fc then retM fc else errM ENotFound
                    | None => errM ENotFound
                    end)
  orelse e => (if IsNotFound e then retM (Invalid "Currency not supported") else retM Fatal) in
  let rate := payload_rate t currency in
  if rate_too_far t currency rate then retM (Invalid "Rate is too far from market rate") else
  match slippage_error t currency rate with
  | Some message => retM (Invalid message)
  | None =>
      let t := if d_is_zero (pt_RateSlippage t) then pt_set_slippage d_zero t else t in
      let! provider := deref provider in
      let own d := List.filter (setting_of provider (tk_id token) (fc_code currency) (pt_Network t)) (db_order_tokens d) in
      let plan t b := retM (Planned (mkOp t token currency rate b)) in
      let? existing := (let! d := read_db None in only (own d)) orelse e =>
        (if IsNotFound e then plan t false else retM Fatal) in
      let keep :=
        plan (if d_is_zero (pt_RateSlippage t) && d_gt (pot_rate_slippage existing) d_zero
              then pt_set_slippage (pot_rate_slippage existing) t else t) true in
      if negb (String.eqb (pot_network existing) (pt_Network t)) then
        let? d := read_db None orelse e => retM Fatal in
        match own d with [] => keep | _ => retM (Invalid "Token already configured on network") end
      else keep
  end.

(** All tokens are validated before anything is written; [None] after a failed query. *)
Fixpoint validate_tokens (provider : option string) (currencyCode : string) (tokens : list ProviderOrderTokenPayload)
    : M (option (list string * list TokenOperation)) :=
  match tokens with
  | [] => retM (Some ([], []))
  | t :: tokens =>
      let! v := validate_token provider currencyCode t in
      match v with
      | Fatal => retM None
      | Invalid message =>
          let! rest := validate_tokens provider currencyCode tokens in
          retM (match rest with Some (es, ops) => Some (message :: es, ops) | None => None end)
      | Planned op =>
          let! rest := validate_tokens provider currencyCode tokens in
          retM (match rest with Some (es, ops) => Some (es, op :: ops) | None => None end)
      end
  end.

(** The availability of the currency, creating its row when there is none. *)
Definition pc_set_available (b : bool) (now : Z) (pc : ProviderCurrencies) : ProviderCurrencies :=
  mkPC (pc_available_balance pc) (pc_total_balance pc) (pc_reserved_balance pc) b now.
Definition update_availability (tx : nat) (provider : option string) (code : string) (isAvailable : bool) : M (option (Z * string)) :=
  let? d := read_db (Some tx) orelse e => retM (Some (400%Z, "Currency not supported")) in
  match db_currencies d !! code with
  | Some fc =>
      if negb (fc_is_enabled fc) then retM (Some (400%Z, "Currency not supported")) else
      match provider with None => do! rollback_tx tx in panicM | Some provider =>
      let! w := getM in
      do? (let! d := read_db (Some tx) in
           match db_provider_currencies d !! (provider, code) with
           | None => modify_db (Some tx) (fun d =>
               match db_provider_currencies d !! (provider, code) with
               | Some _ => inl constraint
               | None => inr (set_pcs (<[(provider, code) := mkPC d_zero d_zero d_zero isAvailable (w_now w)]>
                                         (db_provider_currencies d)) d, tt)
               end)
           | Some _ => modify_db (Some tx) (fun d =>
               match db_provider_currencies d !! (provider, code) with
               | None => inl ENotFound
               | Some pc => inr (set_pcs (<[(provider, code) := pc_set_available isAvailable (w_now w) pc]>
                                            (db_provider_currencies d)) d, tt)
               end)
           end)
      orelse e => retM (Some (500%Z, "Failed to update availability")) in
      retM None
      end
  | None => retM (Some (400%Z, "Currency not supported"))
  end.

(** The row an operation writes. *)
Definition op_row (provider : string) (op : TokenOperation) : ProviderOrderToken :=
  let t := op_payload op in
  mkPOT (pt_FixedConversionRate t) (pt_FloatingConversionRate t) (pt_ConversionRateType t) (pt_MaxOrderAmount t)
    (pt_MinOrderAmount t) (pt_RateSlippage t) (pt_Address t) (pt_Network t) provider (op_token op) (fc_code (op_currency op)).
Definition op_setting (provider : string) (op : TokenOperation) : ProviderOrderToken -> bool :=
  setting_of provider (tk_id (op_token op)) (fc_code (op_currency op)) (pt_Network (op_payload op)).

(** [UpdateOneID(existing)...Save], or [Create()...Save] under the unique index. *)
Definition write_token (tx : nat) (provider : string) (op : TokenOperation) : M unit :=
  modify_db (Some tx) (fun d =>
    let there := existsb (op_setting provider op) (db_order_tokens d) in
    if op_update op then
      if there then inr (set_order_tokens (map (fun t => if op_setting provider op t then op_row provider op else t)
                                             (db_order_tokens d)) d, tt)
      else inl ENotFound
    else if there then inl constraint
    else inr (set_order_tokens (db_order_tokens d ++ [op_row provider op]) d, tt)).

(** The buckets whose range meets the converted order range, in any currency. *)
Definition meets (op : TokenOperation) (b : ProvisionBucket) : bool :=
  d_le (pb_min_amount b) (d_mul (pt_MaxOrderAmount (op_payload op)) (op_rate op)) &&
  d_ge (pb_max_amount b) (d_mul (pt_MinOrderAmount (op_payload op)) (op_rate op)).

Fixpoint run_operations (tx : nat) (provider : string) (ops : list TokenOperation) : M (list Z) :=
  match ops with
  | [] => retM []
  | op :: ops =>
      do! write_token tx provider op in
      let! d := read_db (Some tx) in
      let! rest := run_operations tx provider ops in
      retM (map pb_id (List.filter (meets op) (db_buckets d)) ++ rest)
  end.

Definition pb_join (provider : string) (ids : list Z) (b : ProvisionBucket) : ProvisionBucket :=
  let members := List.filter (fun q => negb (String.eqb q provider)) (pb_provider_profiles b) in
  pb_set_members (if existsb (Z.eqb (pb_id b)) ids then members ++ [provider] else members) b.

(** An unknown visibility mode fails the validator of the column. *)
Definition parse_visibility (s : string) : option Visibility :=
  if String.eqb s "private" then Some VisPrivate else if String.eqb s "public" then Some VisPublic else None.
Definition profile_columns (p : ProviderProfilePayload) (now : Z) (row : ProviderProfile) : ProviderProfile :=
  mkPP (pp_id row) (if String.eqb (pl_TradingName p) "" then pp_trading_name row else pl_TradingName p)
    (if String.eqb (pl_HostIdentifier p) "" then pp_host_identifier row else pl_HostIdentifier p)
    (pp_auto_provision row) (pp_is_active row) (pp_is_kyb_verified row) now
    (default (pp_visibility_mode row) (parse_visibility (pl_VisibilityMode p)))
    (pp_user_kyb_status row) (pp_api_key row) (pp_user_email row).

(** [txUpdate.Save]: the columns and, when there are buckets, the memberships. *)
Definition save_profile (tx : nat) (provider : string) (p : ProviderProfilePayload) (ids : list Z) : M unit :=
  let! w := getM in
  if (80 <? String.length (pl_TradingName p))%nat ||
     (negb (String.eqb (pl_VisibilityMode p) "") && negb (present (parse_visibility (pl_VisibilityMode p))))
  then errM (EMsg "validator failed")
  else write_db (Some tx) (fun d =>
    let d := set_providers (alter (profile_columns p (w_now w)) provider (db_providers d)) d in
    match ids with [] => d | _ => map_buckets (pb_join provider ids) d end).

(** [defer tx.Rollback()] *)
Definition abandon_update (tx : nat) (code : Z) (message : string) : M (ApiResponse unit) :=
  do! rollback_tx tx in api_error code message.

(** Phase 2: everything in one transaction. *)
Definition execute_update (provider : option string) (p : ProviderProfilePayload) (ops : list TokenOperation)
    : M (ApiResponse unit) :=
  let? tx := begin_tx orelse e => api_error 500 "Failed to update profile" in
  let! stopped := if String.eqb (pl_Currency p) "" then retM None
                  else update_availability tx provider (pl_Currency p) (pl_IsAvailable p) in
  match stopped with
  | Some (code, message) => abandon_update tx code message
  | None =>
      match provider with None => do! rollback_tx tx in panicM | Some provider =>
      let? ids := run_operations tx provider ops orelse e => abandon_update tx 500 "Failed to update profile" in
      do? save_profile tx provider p ids orelse e => abandon_update tx 500 "Failed to update profile" in
      do? commit_tx tx orelse e => abandon_update tx 500 "Failed to update profile" in
      retM (mkResponse 200 "success" "Profile updated successfully" None)
      end
  end.

Definition UpdateProviderProfile (c : Ctx) (payload : option ProviderProfilePayload) : M (ApiResponse unit) :=
  match payload with
  | None => api_error 400 "Failed to validate payload"
  | Some p =>
      with_provider c (fun provider =>
        if negb (String.eqb (pl_HostIdentifier p) "") && negb (IsValidHttpsUrl (pl_HostIdentifier p))
        then api_error 400 "Host identifier must use HTTPS protocol and be a valid URL" else
        let! plan := validate_tokens (pp_id <$> provider) (pl_Currency p) (pl_Tokens p) in
        match plan with
        | None => api_error 500 "Failed to update profile"
        | Some ([message], _) => api_error 400 message
        | Some (_ :: _ :: _, _) => api_error 400 "Validation failed"
        | Some ([], ops) => execute_update (pp_id <$> provider) p ops
        end)
  end.

(** ** Reading the profiles *)

(** [profile.QueryUser().Only(ctx)] *)
Definition query_user (own : User -> bool) : M User :=
  let! d := read_db None in only (List.filter own (users d)).

(** The comment of the KYB profile; errors are ignored. *)
Definition query_kyb_comment (user : string) : M (option string) :=
  let? p := (let! d := read_db None in
             only (List.filter (fun p => bool_decide (ky_user p = Some user)) (map snd (map_to_list (ac_kyb_profiles (db_accounts d))))))
  orelse e => retM None in
  retM (ky_rejection_comment p).

Definition sender_token_response (d : DB) (so : SenderOrderToken) : option SenderOrderTokenResponse :=
  t ← List.find (fun t => (tk_id t =? so_token so)%Z) (db_tokens d);
  Some (mkSOTR (tk_symbol t) (so_fee_percent so) (nw_identifier (tk_network t)) (so_fee_address so) (so_refund_address so)).

(** The currencies of a provider. *)
Definition currencies_of (d : DB) (provider : string) : list (string * ProviderCurrencies) :=
  map (fun row => (snd (fst row), snd row))
    (List.filter (fun row => String.eqb (fst (fst row)) provider) (map_to_list (db_provider_currencies d))).

Definition GetSenderProfile (c : Ctx) : M (ApiResponse SenderProfileResponse) :=
  with_sender c (fun sender =>
    let! sender := deref sender in
    let? user := query_user (fun u => bool_decide (us_sender_profile u = Some (sp_id sender))) orelse e =>
      api_error 500 "Failed to retrieve profile" in
    let? apiKey := GetAPIKey authConf (Some sender) None orelse e => api_error 500 "Failed to retrieve profile" in
    let? d := read_db None orelse e => api_error 500 "Failed to retrieve profile" in
    let settings := List.filter (fun so => String.eqb (so_sender so) (sp_id sender)) (db_sender_tokens d) in
    match mapM (sender_token_response d) settings with
    | None => panicM
    | Some tokens =>
        let! comment := query_kyb_comment (us_id user) in
        let? d := read_db None orelse e => api_error 500 "Failed to retrieve profile" in
        let '(providerID, codes) :=
          match db_providers d !! sp_provider_id sender with
          | Some _ => (sp_provider_id sender, map fst (currencies_of d (sp_provider_id sender)))
          | None => ("", [])
          end in
        api_success 200 "Profile retrieved successfully"
          (mkSPR (sp_id sender) (us_first_name user) (us_last_name user) (us_email user) (sp_webhook_url sender)
             (sp_domain_whitelist sender) tokens apiKey providerID codes (sp_is_active sender)
             (us_kyb_verification_status user) comment)
    end).

Definition provider_token_response (t : ProviderOrderToken) : ProviderOrderTokenPayload :=
  mkPOTP (tk_symbol (pot_token t)) (pot_conversion_rate_type t) (pot_fixed_conversion_rate t)
    (pot_floating_conversion_rate t) (pot_max_order_amount t) (pot_min_order_amount t) (pot_rate_slippage t)
    (pot_address t) (pot_network t).

Definition GetProviderProfile (c : Ctx) (currencyFilter : string) : M (ApiResponse ProviderProfileResponse) :=
  with_provider c (fun provider =>
    let! provider := deref provider in
    let? user := query_user (fun u => bool_decide (us_provider_profile u = Some (pp_id provider))) orelse e =>
      api_error 500 "Failed to retrieve profile" in
    let? d := read_db None orelse e => api_error 500 "Failed to retrieve profile" in
    let rows := currencies_of d (pp_id provider) in
    let? d := read_db None orelse e => api_error 500 "Failed to retrieve profile" in
    let tokens := List.filter (fun t => String.eqb (pot_provider t) (pp_id provider) && tk_is_enabled (pot_token t) &&
                    (String.eqb currencyFilter "" || String.eqb (pot_currency t) currencyFilter)) (db_order_tokens d) in
    let! comment := query_kyb_comment (us_id user) in
    let? apiKey := GetAPIKey authConf None (Some provider) orelse e => api_error 500 "Failed to retrieve profile" in
    api_success 200 "Profile retrieved successfully"
      (mkPPR (pp_id provider) (us_first_name user) (us_last_name user) (us_email user) (pp_trading_name provider)
         (map fst rows) (pp_host_identifier provider) (list_to_map (map (fun r => (fst r, pc_is_available (snd r))) rows))
         (map provider_token_response tokens) apiKey (pp_is_active provider) (pp_visibility_mode provider)
         (us_kyb_verification_status user) comment)).

End profiles.
