(* ===== verification/ProfileClaims.v ===== *)
(** * Theorems about the profile settings

    Each update is all or nothing and equal to a pure function of the database
    ([put_sender_tokens], [put_operations]); the unique indexes of the settings hold
    after it.  An update without tokens deactivates a sender, and a provider joins the
    buckets of every currency. *)

From S2P Require Import Prelude Decimal Schema Store Samples Transactions Balance Utils Services Queue Orders.
From S2P Require Import Rows Payments Http Sender Auth Accounts AuthClaims AccountClaims Profiles.
Local Open Scope go_scope.
Local Open Scope string_scope.
Local Open Scope list_scope.

Section sender_spec.
Context `{O : DecimalOps} {SS : SenderServices} {PS : ProfileServices}.

(** ** The sender's tokens as a function of the database *)

Fixpoint network_ids (d : DB) (symbol : string) (networks : list string) : option (gmap string Z) :=
  match networks with
  | [] => Some ∅
  | n :: ns =>
      match List.filter (token_on symbol n) (db_tokens d) with
      | [t] => m ← network_ids d symbol ns; Some (<[n := tk_id t]> m)
      | _ => None
      end
  end.

(** The settings of this sender for other symbols, and of other senders, stay. *)
Definition kept_settings (d : DB) (sender symbol : string) : list SenderOrderToken :=
  List.filter (fun so => negb (symbol_of d symbol so && String.eqb (so_sender so) sender)) (db_sender_tokens d).
Definition new_settings (d : DB) (sender : string) (t : SenderOrderTokenPayload) : list SenderOrderToken :=
  map (address_row sender (st_FeePercent t) (default ∅ (network_ids d (st_Symbol t) (remove_dups (map sa_Network (st_Addresses t))))))
    (st_Addresses t).
Definition put_sender_token (sender : string) (d : DB) (t : SenderOrderTokenPayload) : DB :=
  set_sender_tokens (kept_settings d sender (st_Symbol t) ++ new_settings d sender t) d.
Definition put_sender_tokens (sender : string) (d : DB) (tokens : list SenderOrderTokenPayload) : DB :=
  fold_left (put_sender_token sender) tokens d.

(** One setting for a sender and a token. *)
Definition sender_key_of (so : SenderOrderToken) : string * Z := (so_sender so, so_token so).
Definition sender_settings_unique (d : DB) : Prop := NoDup (map sender_key_of (db_sender_tokens d)).

Lemma network_tokens_wp w0 tx d symbol networks : forall w,
  in_tx w0 tx d w ->
  wp (network_tokens (Some tx) symbol networks) (fun o w' => in_tx w0 tx d w' /\ exists m, o = Ret m /\
    (m <> None -> network_ids d symbol networks = m)) w.
Proof.
  induction networks as [|n ns IH]; intros w H; simpl.
  { wp_step. eauto. }
  wp_step. wp_step. eapply wp_in_read; [exact H|intros w1 H1|intros w1 H1; wp_step; split; [done|by exists None]].
  destruct (List.filter _ _) as [|t [|t' l]] eqn:Ef; simpl.
  { wp_step. wp_step. split; [done|by exists None]. }
  2:{ wp_step. wp_step. split; [done|by exists None]. }
  wp_step. wp_step. eapply wp_mono; [exact (IH w1 H1)|]. intros o w2 [H2 (m & -> & Hm)]. wp_step.
  split; [done|]. eexists. split; [done|]. destruct m as [m|]; [|done]. intros _. by rewrite (Hm ltac:(done)).
Qed.

Lemma NoDup_snoc {A} (l : list A) a : NoDup l -> a ∉ l -> NoDup (l ++ [a]).
Proof. intros Hl Ha. apply NoDup_app. split; [done|]. split; [|apply NoDup_singleton]. intros x Hx ->%list_elem_of_singleton. done. Qed.

Lemma create_sender_tokens_wp w0 tx rows : forall d w,
  in_tx w0 tx d w -> sender_settings_unique d ->
  wp (create_sender_tokens (Some tx) rows) (fun o w' => match o with
    | Ret _ => in_tx w0 tx (set_sender_tokens (db_sender_tokens d ++ rows) d) w' /\
        sender_settings_unique (set_sender_tokens (db_sender_tokens d ++ rows) d)
    | Err _ => exists d', in_tx w0 tx d' w'
    | Panic => False end) w.
Proof.
  induction rows as [|row rows IH]; intros d w H Huniq; simpl.
  { wp_step. rewrite app_nil_r. assert (set_sender_tokens (db_sender_tokens d) d = d) as -> by by destruct d. done. }
  wp_step. unfold create_sender_token. eapply wp_in_modify; [exact H| |eauto]. simpl.
  destruct (existsb _ (db_sender_tokens d)) eqn:Ex; simpl; [eauto|]. destruct (negb _); [eauto|]. intros w1 H1.
  assert (Huniq1 : sender_settings_unique (set_sender_tokens (db_sender_tokens d ++ [row]) d)).
  { unfold sender_settings_unique. simpl. rewrite map_app. apply NoDup_snoc; [done|].
    intros Hin. apply list_elem_of_fmap in Hin as (so & Hk & Hso).
    pose proof (existsb_false_elem _ _ Ex so Hso) as Hf. simpl in Hf.
    injection Hk as Hs Ht. rewrite Hs, Ht, String.eqb_refl, Z.eqb_refl in Hf. done. }
  eapply wp_mono; [exact (IH _ w1 H1 Huniq1)|]. intros [[]|e|] w2; [|done|done]. simpl.
  rewrite <- app_assoc. done.
Qed.

Lemma unique_kept d sender symbol :
  sender_settings_unique d -> sender_settings_unique (set_sender_tokens (kept_settings d sender symbol) d).
Proof.
  unfold sender_settings_unique, kept_settings. simpl. generalize (db_sender_tokens d). intros l Hl.
  induction l as [|so l IH]; simpl; [done|]. simpl in Hl. apply NoDup_cons in Hl as [Hn Hl].
  destruct (negb _); simpl; [|by apply IH]. apply NoDup_cons. split; [|by apply IH].
  intros Hin. apply Hn. apply list_elem_of_fmap in Hin as (x & -> & Hx).
  apply elem_of_filterb in Hx as [Hx _]. apply list_elem_of_fmap. eauto.
Qed.

(** A part that ended the request: an answer that is no success, and the transaction
    not committed. *)
Definition refused {A} (w0 : World) (o : outcome (ApiResponse unit + A)) (w : World) : Prop :=
  exists r, o = Ret (inl r) /\ ar_code r <> 200%Z /\ w_db w = w_db w0.

Lemma update_sender_token_wp w0 tx sender t d w :
  in_tx w0 tx d w -> sender_settings_unique d ->
  wp (update_sender_token (Some tx) sender t) (fun o w' =>
    refused w0 o w' \/
    (o = Ret (inr (existsb configured (st_Addresses t))) /\ in_tx w0 tx (put_sender_token sender d t) w' /\
     sender_settings_unique (put_sender_token sender d t))) w.
Proof.
  intros H Huniq. unfold update_sender_token, refuse400, refuse500.
  assert (Hrefuse : forall d1 w1 code message, in_tx w0 tx d1 w1 -> code <> 200%Z ->
    refused (A := bool) w0 (Ret (inl (mkResponse code "error" message None))) w1).
  { intros d1 w1 code message H1 Hc. eexists. split; [done|]. split; [done|]. apply H1. }
  destruct (st_Addresses t) as [|a0 l0] eqn:Ea; [wp_step; left; by eapply Hrefuse|]. rewrite <- Ea.
  wp_step. wp_step. eapply wp_in_read; [exact H|intros w1 H1|intros w1 H1; wp_step; left; by eapply Hrefuse].
  destruct (List.filter _ _) as [|tk l]; simpl; wp_step; [wp_step; left; by eapply Hrefuse|].
  destruct (negb _); [wp_step; left; by eapply Hrefuse|].
  wp_step. eapply wp_mono; [exact (network_tokens_wp w0 tx d _ _ w1 H1)|]. intros o w2 [H2 (m & -> & Hm)].
  destruct m as [ids|]; [|wp_step; left; by eapply Hrefuse]. specialize (Hm ltac:(done)).
  wp_step. unfold delete_sender_tokens.
  eapply wp_in_write; [exact H2|intros w3 H3|intros w3 H3; wp_step; left; by eapply Hrefuse].
  wp_step. eapply wp_mono; [exact (create_sender_tokens_wp w0 tx _ _ w3 H3 (unique_kept _ _ _ Huniq))|].
  intros [[]|e|] w4; [|intros [d4 H4]; wp_step; left; by eapply Hrefuse|done].
  simpl. intros [H4 Hu4]. wp_step. right. split; [done|].
  unfold put_sender_token, new_settings. rewrite Hm. simpl. by destruct d.
Qed.

Lemma update_sender_tokens_wp w0 tx sender tokens : forall acc d w,
  in_tx w0 tx d w -> sender_settings_unique d ->
  wp (update_sender_tokens (Some tx) sender acc tokens) (fun o w' =>
    refused w0 o w' \/
    (o = Ret (inr (acc || existsb (fun t => existsb configured (st_Addresses t)) tokens)) /\
     in_tx w0 tx (put_sender_tokens sender d tokens) w' /\
     sender_settings_unique (put_sender_tokens sender d tokens))) w.
Proof.
  induction tokens as [|t tokens IH]; intros acc d w H Huniq; simpl.
  { wp_step. right. by rewrite orb_false_r. }
  wp_step. eapply wp_mono; [exact (update_sender_token_wp w0 tx sender t d w H Huniq)|].
  intros o w1 [(r & -> & Hr & Hd)|(-> & H1 & Hu1)].
  - wp_step. left. by exists r.
  - eapply wp_mono; [exact (IH _ _ w1 H1 Hu1)|]. intros o w2 [Hr|(-> & H2 & Hu2)]; [by left|].
    right. by rewrite orb_assoc.
Qed.

End sender_spec.

Section provider_spec.
Context {O : DecimalOps} {L : DecimalLaws O} {SS : SenderServices} {PS : ProfileServices}.
Variable conf : Config.

(** ** The provider's settings as a function of the database *)

(** One setting for a provider, a token, a currency and a network. *)
Definition setting_key (t : ProviderOrderToken) : string * Z * string * string :=
  (pot_provider t, tk_id (pot_token t), pot_currency t, pot_network t).
Definition provider_settings_unique (d : DB) : Prop := NoDup (map setting_key (db_order_tokens d)).

Definition put_operation (provider : string) (d : DB) (op : TokenOperation) : DB :=
  set_order_tokens
    (if op_update op then map (fun t => if op_setting provider op t then op_row provider op else t) (db_order_tokens d)
     else db_order_tokens d ++ [op_row provider op]) d.
Definition put_operations (provider : string) (d : DB) (ops : list TokenOperation) : DB :=
  fold_left (put_operation provider) ops d.
(** The buckets the operations put the provider in. *)
Definition joined (d : DB) (ops : list TokenOperation) : list Z :=
  flat_map (fun op => map pb_id (List.filter (meets op) (db_buckets d))) ops.
Definition put_availability (provider : string) (p : ProviderProfilePayload) (now : Z) (d : DB) : DB :=
  if String.eqb (pl_Currency p) "" then d
  else set_pcs (<[(provider, pl_Currency p) :=
         match db_provider_currencies d !! (provider, pl_Currency p) with
         | Some pc => pc_set_available (pl_IsAvailable p) now pc
         | None => mkPC d_zero d_zero d_zero (pl_IsAvailable p) now
         end]> (db_provider_currencies d)) d.
Definition put_profile (provider : string) (p : ProviderProfilePayload) (now : Z) (ids : list Z) (d : DB) : DB :=
  let d := set_providers (alter (profile_columns p now) provider (db_providers d)) d in
  match ids with [] => d | _ => map_buckets (pb_join provider ids) d end.
Definition put_provider (provider : string) (p : ProviderProfilePayload) (ops : list TokenOperation) (now : Z) (d : DB) : DB :=
  put_profile provider p now (joined d ops) (put_operations provider (put_availability provider p now d) ops).

(** The setting that the provider has for the token, the currency and the network. *)
Definition setting_now (d : DB) (provider : string) (t : ProviderOrderTokenPayload) (op : TokenOperation)
    : list ProviderOrderToken :=
  List.filter (setting_of provider (tk_id (op_token op)) (fc_code (op_currency op)) (pt_Network t)) (db_order_tokens d).
(** The slippage that is stored: that of the payload, or for a payload with none the
    one of the setting there is already. *)
Definition stored_slippage (t : ProviderOrderTokenPayload) (existing : option ProviderOrderToken) : dec :=
  if d_is_zero (pt_RateSlippage t) then
    match existing with
    | Some e => if d_gt (pot_rate_slippage e) d_zero then pot_rate_slippage e else d_zero
    | None => d_zero
    end
  else pt_RateSlippage t.

(** What the validation of a token of the payload has established: the operation
    updates the one setting there is or creates one, with the columns of the payload and
    the slippage above; the rate is near the market rate and the slippage of the payload
    is allowed. *)
Record plan_of (d : DB) (provider code : string) (t : ProviderOrderTokenPayload) (op : TokenOperation) : Prop := {
  po_write : exists existing, setting_now d provider t op = option_list existing /\ op_update op = present existing /\
    op_payload op = pt_set_slippage (stored_slippage t existing) t;
  po_token_row : op_token op ∈ db_tokens d /\ token_offered (pt_Symbol t) (pt_Network t) (op_token op) = true;
  po_currency_row : db_currencies d !! code = Some (op_currency op) /\ fc_is_enabled (op_currency op) = true;
  po_rate_payload : op_rate op = payload_rate t (op_currency op);
  po_rate_near : rate_too_far conf t (op_currency op) (op_rate op) = false;
  po_slippage : slippage_error t (op_currency op) (op_rate op) = None
}.

Lemma setting_of_key provider token currency network t :
  setting_of provider token currency network t = true -> setting_key t = (provider, token, currency, network).
Proof.
  unfold setting_of, setting_key. rewrite !andb_true_iff, !String.eqb_eq, Z.eqb_eq. by intros [[[-> ->] ->] ->].
Qed.

Lemma op_row_key provider op :
  setting_key (op_row provider op) =
  (provider, tk_id (op_token op), fc_code (op_currency op), pt_Network (op_payload op)).
Proof. done. Qed.

Lemma setting_of_refl provider op : forall t,
  setting_key t = setting_key (op_row provider op) -> op_setting provider op t = true.
Proof.
  intros t. rewrite op_row_key. unfold setting_key, op_setting, setting_of. intros [= -> -> -> ->].
  by rewrite Z.eqb_refl, !String.eqb_refl.
Qed.

Lemma write_token_wp w0 tx provider op d w :
  in_tx w0 tx d w -> provider_settings_unique d ->
  wp (write_token tx provider op) (fun o w' => match o with
    | Ret _ => in_tx w0 tx (put_operation provider d op) w' /\ provider_settings_unique (put_operation provider d op)
    | Err _ => exists d', in_tx w0 tx d' w'
    | Panic => False end) w.
Proof.
  intros H Huniq. unfold write_token. eapply wp_in_modify; [exact H| |eauto]. simpl.
  unfold put_operation, provider_settings_unique. destruct (op_update op), (existsb _ _) eqn:Ex; try (by eauto).
  - intros w' H'. split; [done|]. simpl. rewrite map_map.
    rewrite (map_ext_in _ setting_key); [done|]. intros t _. destruct (op_setting provider op t) eqn:Et; [|done].
    symmetry. rewrite op_row_key. by apply setting_of_key.
  - intros w' H'. split; [done|]. simpl. rewrite map_app. apply NoDup_snoc; [done|].
    intros Hin. apply list_elem_of_fmap in Hin as (t & Hk & Ht).
    pose proof (existsb_false_elem _ _ Ex t Ht) as Hf. rewrite setting_of_refl in Hf; done.
Qed.

Lemma run_operations_wp w0 tx provider ops : forall d w,
  in_tx w0 tx d w -> provider_settings_unique d ->
  wp (run_operations tx provider ops) (fun o w' => match o with
    | Ret ids => in_tx w0 tx (put_operations provider d ops) w' /\
        provider_settings_unique (put_operations provider d ops) /\ ids = joined d ops
    | Err _ => exists d', in_tx w0 tx d' w'
    | Panic => False end) w.
Proof.
  induction ops as [|op ops IH]; intros d w H Huniq; simpl.
  { wp_step. done. }
  wp_step. eapply wp_mono; [exact (write_token_wp w0 tx provider op d w H Huniq)|].
  intros [[]|e|] w1; [|done|done]. intros [H1 Hu1].
  wp_step. eapply wp_in_read; [exact H1|intros w2 H2|by eauto].
  wp_step. eapply wp_mono; [exact (IH _ w2 H2 Hu1)|]. intros [ids|e|] w3; [|done|done].
  intros (H3 & Hu3 & ->). wp_step. done.
Qed.

Lemma update_availability_wp w0 tx provider p d w :
  in_tx w0 tx d w -> w_now w0 = w_now w ->
  wp (if String.eqb (pl_Currency p) "" then retM None
      else update_availability tx (Some provider) (pl_Currency p) (pl_IsAvailable p)) (fun o w' =>
    (exists d' code message, o = Ret (Some (code, message)) /\ in_tx w0 tx d' w' /\ code <> 200%Z) \/
    (o = Ret None /\ in_tx w0 tx (put_availability provider p (w_now w0) d) w')) w.
Proof.
  intros H Hnow. unfold put_availability. destruct (String.eqb _ ""); [wp_step; by right|]. unfold update_availability.
  wp_step. eapply wp_in_read; [exact H|intros w1 H1|intros w1 H1; wp_step; left; eauto 10].
  destruct (db_currencies d !! pl_Currency p) as [fc|]; [|wp_step; left; eauto 10].
  destruct (fc_is_enabled fc); simpl; [|wp_step; left; eauto 10].
  wp_step. wp_step. wp_step. wp_step.
  eapply wp_in_read; [exact H1|intros w2 H2|intros w2 H2; wp_step; left; eauto 10].
  rewrite (it_now _ _ _ _ H1).
  destruct (db_provider_currencies d !! (provider, pl_Currency p)) eqn:Epc;
    (eapply wp_in_modify; [exact H2| |intros w3 H3; wp_step; left; eauto 10]); rewrite Epc;
    intros w3 H3; wp_step; by right.
Qed.

Lemma put_availability_frame provider p now d :
  db_order_tokens (put_availability provider p now d) = db_order_tokens d /\
  db_buckets (put_availability provider p now d) = db_buckets d.
Proof. unfold put_availability. by destruct (String.eqb _ ""). Qed.

Lemma put_profile_unique provider p now ids d :
  provider_settings_unique d -> provider_settings_unique (put_profile provider p now ids d).
Proof. unfold provider_settings_unique, put_profile. by destruct ids. Qed.

Lemma execute_update_wp provider p ops w :
  provider_settings_unique (w_db w) ->
  wp (execute_update (Some provider) p ops) (fun o w' => exists r, o = Ret r /\ provider_settings_unique (w_db w') /\
    if (ar_code r =? 200)%Z then w_db w' = put_provider provider p ops (w_now w) (w_db w)
    else w_db w' = w_db w) w.
Proof.
  intros Huniq. unfold execute_update, api_error. wp_step.
  apply wp_in_begin; [intros tx w1 H1|intros fs; wp_step; by eexists].
  assert (Hstop : forall d1 w2 code message, in_tx w tx d1 w2 -> code <> 200%Z ->
    wp (abandon_update tx code message) (fun o w' => exists r, o = Ret r /\ provider_settings_unique (w_db w') /\
      if (ar_code r =? 200)%Z then w_db w' = put_provider provider p ops (w_now w) (w_db w) else w_db w' = w_db w) w2).
  { intros d1 w2 code message H2 Hc. unfold abandon_update, api_error. wp_step. wp_step. wp_step.
    eexists. split; [done|]. simpl. rewrite (it_db _ _ _ _ H2). split; [done|].
    by rewrite (proj2 (Z.eqb_neq _ _) Hc). }
  wp_step. eapply wp_mono; [apply (update_availability_wp w tx provider p (w_db w)); [exact H1|by rewrite (it_now _ _ _ _ H1)]|].
  intros o w2 [(d2 & code & message & -> & H2 & Hc)|[-> H2]]; [by eapply Hstop|].
  destruct (put_availability_frame provider p (w_now w) (w_db w)) as [Ht Hb].
  assert (Hu2 : provider_settings_unique (put_availability provider p (w_now w) (w_db w)))
    by (unfold provider_settings_unique; by rewrite Ht).
  wp_step. eapply wp_mono; [exact (run_operations_wp w tx provider ops _ w2 H2 Hu2)|].
  intros [ids|e|] w3; [|intros [d3 H3]; by eapply Hstop|done]. intros (H3 & Hu3 & Hids).
  wp_step. unfold save_profile. wp_step. wp_step. destruct (_ || _); [wp_step; by eapply Hstop|].
  eapply wp_in_write; [exact H3|intros w4 H4|intros w4 H4; by eapply Hstop].
  wp_step. eapply wp_in_commit; [exact H4| |].
  - intros w5 Hd5 _ _ _. wp_step. eexists. split; [done|]. simpl.
    assert (w_db w5 = put_provider provider p ops (w_now w) (w_db w)) as ->.
    { rewrite Hd5. unfold put_provider, put_profile. rewrite (it_now _ _ _ _ H3), Hids.
      unfold joined. by rewrite Hb. }
    split; [|done]. unfold put_provider. by apply put_profile_unique.
  - intros w5 Hd5 _ _ _. unfold abandon_update, api_error. wp_step. wp_step. wp_step.
    eexists. split; [done|]. simpl. by rewrite Hd5.
Qed.

(** ** The validation of the tokens *)

Lemma set_slippage_same t : pt_set_slippage (pt_RateSlippage t) t = t.
Proof. by destruct t. Qed.

Lemma zero_is_zero : d_is_zero d_zero = true.
Proof. by apply d_eqb_spec. Qed.

(** The two steps in which the code sets the slippage. *)
Lemma keep_slippage t existing :
  let t1 := if d_is_zero (pt_RateSlippage t) then pt_set_slippage d_zero t else t in
  match existing with
  | Some e => if d_is_zero (pt_RateSlippage t1) && d_gt (pot_rate_slippage e) d_zero
              then pt_set_slippage (pot_rate_slippage e) t1 else t1
  | None => t1
  end = pt_set_slippage (stored_slippage t existing) t.
Proof.
  unfold stored_slippage. destruct (d_is_zero (pt_RateSlippage t)) eqn:E; simpl.
  - destruct existing as [e|]; [|done]. rewrite zero_is_zero. by destruct (d_gt _ _).
  - rewrite E. destruct existing; by rewrite set_slippage_same.
Qed.

(** The end of a validation that read the rows of [w]. *)
Definition planned (provider code : string) (t : ProviderOrderTokenPayload) (w : World) (o : outcome verdict) (w' : World) : Prop :=
  only_faults w w' /\ exists v, o = Ret v /\ match v with Planned op => plan_of (w_db w) provider code t op | _ => True end.

Lemma planned_not provider code t w fs v :
  match v with Planned _ => False | _ => True end -> planned provider code t w (Ret v) (set_faults fs w).
Proof. intros Hv. split; [by exists fs|]. exists v. split; [done|]. by destruct v. Qed.

Lemma validate_token_wp provider code t w :
  wp (validate_token conf (Some provider) code t) (planned provider code t w) w.
Proof.
  unfold validate_token. pose proof (planned_not provider code t w) as Hend.
  wp_step. wp_step. eapply wp_read_db; [done|intros fs|intros fs; wp_step; by apply Hend].
  apply only_filter; [|intros _; simpl; wp_step; by apply Hend|simpl; wp_step; by apply Hend].
  intros tk Htk Hoff. wp_step. wp_step. eapply wp_read_db; [done|intros fs'|intros fs'; simpl; wp_step; by apply (Hend fs')].
  simpl. destruct (db_currencies (w_db w) !! code) as [fc|] eqn:Efc; [|wp_step; simpl; wp_step; by apply (Hend fs')].
  destruct (fc_is_enabled fc) eqn:Een; wp_step; [|simpl; wp_step; by apply (Hend fs')].
  destruct (rate_too_far conf t fc _) eqn:Efar; [wp_step; by apply (Hend fs')|].
  destruct (slippage_error t fc _) as [m|] eqn:Eslip; [wp_step; by apply (Hend fs')|].
  wp_step. simpl. wp_step.
  assert (Hnet : pt_Network (if d_is_zero (pt_RateSlippage t) then pt_set_slippage d_zero t else t) = pt_Network t)
    by (by destruct (d_is_zero _)). rewrite Hnet.
  assert (Hplan : forall fs2 existing t2,
    List.filter (setting_of provider (tk_id tk) (fc_code fc) (pt_Network t)) (db_order_tokens (w_db w)) = option_list existing ->
    t2 = pt_set_slippage (stored_slippage t existing) t ->
    planned provider code t w (Ret (Planned (mkOp t2 tk fc (payload_rate t fc) (present existing)))) (set_faults fs2 w)).
  { intros fs2 existing t2 He ->. split; [by exists fs2|]. eexists. split; [done|]. split; try done. by exists existing. }
  wp_step. wp_step. eapply wp_read_db; [done|intros fs2|intros fs2; simpl; wp_step; by apply (Hend fs2)].
  destruct (List.filter _ _) as [|ex [|]] eqn:El; cbn [only]; wp_step; cbn [IsNotFound];
    [wp_step; apply (Hplan fs2 None); [done|exact (keep_slippage t None)]| |wp_step; by apply (Hend fs2)].
  pose proof (fun fs3 => Hplan fs3 (Some ex) _ eq_refl (keep_slippage t (Some ex))) as Hkeep.
  destruct (negb _); [|wp_step; by apply (Hkeep fs2)].
  wp_step. eapply wp_read_db; [done|intros fs3|intros fs3; wp_step; by apply (Hend fs3)].
  destruct (List.filter _ _); wp_step; [by apply (Hkeep fs3)|by apply (Hend fs3)].
Qed.

Lemma validate_tokens_wp provider code tokens : forall w,
  wp (validate_tokens conf (Some provider) code tokens) (fun o w' => only_faults w w' /\
    exists plan, o = Ret plan /\ forall ops, plan = Some ([], ops) -> Forall2 (plan_of (w_db w) provider code) tokens ops) w.
Proof.
  induction tokens as [|t tokens IH]; intros w; simpl.
  { wp_step. split; [apply only_faults_refl|]. eexists. split; [done|]. intros ops [= <-]. constructor. }
  wp_step. eapply wp_mono; [apply validate_token_wp|]. intros o w1 [[fs1 ->] (v & -> & Hv)].
  destruct v as [|m|op].
  - wp_step. split; [by exists fs1|]. by exists None.
  - wp_step. eapply wp_mono; [apply IH|]. intros o w2 [[fs2 ->] (plan & -> & _)]. wp_step.
    split; [by exists fs2|]. eexists. split; [done|]. intros ops Hops. by destruct plan as [[es ops']|].
  - wp_step. eapply wp_mono; [apply IH|]. intros o w2 [[fs2 ->] (plan & -> & Hp)]. wp_step.
    split; [by exists fs2|]. eexists. split; [done|]. intros ops Hops.
    destruct plan as [[es ops']|]; [|done]. simplify_eq/=. constructor; [done|]. by apply Hp.
Qed.

End provider_spec.

(** ** Claims *)

Section profile_claims.
Context {O : DecimalOps} {L : DecimalLaws O} {AS : AuthServices} {SS : SenderServices} {PS : ProfileServices}.
Variable conf : Config.

Lemma put_sender_tokens_others sender tokens so : so_sender so <> sender -> forall d,
  so ∈ db_sender_tokens (put_sender_tokens sender d tokens) <-> so ∈ db_sender_tokens d.
Proof.
  intros Hne. induction tokens as [|t tokens IH]; intros d; simpl; [done|]. rewrite IH. simpl.
  rewrite elem_of_app. unfold kept_settings. rewrite elem_of_filterb, (proj2 (String.eqb_neq _ _) Hne), andb_false_r.
  split; [|by left]. intros [[H _]|H]; [done|]. unfold new_settings in H.
  apply list_elem_of_fmap in H as (a & -> & _). by destruct Hne.
Qed.

(** [UpdateSenderProfile], whatever calls fail.  The answer 200 means that, in one
    commit, the settings of each symbol of the payload became exactly its addresses,
    the profile got the new columns, and the settings of other senders are as they
    were; any other answer has changed nothing; and a sender keeps at most one setting
    for a token. *)
Theorem update_sender_profile_correct c sender p w :
  cx_values c !! "sender" = Some (VSender (Some sender)) -> sender_settings_unique (w_db w) ->
  wp (UpdateSenderProfile c (Some p)) (fun o w' => exists r, o = Ret r /\ sender_settings_unique (w_db w') /\
    if (ar_code r =? 200)%Z then
      (let d := put_sender_tokens (sp_id sender) (w_db w) (sp_Tokens p) in
       w_db w' = set_senders (alter (sender_columns sender p
         (existsb (fun t => existsb configured (st_Addresses t)) (sp_Tokens p))) (sp_id sender) (db_senders d)) d) /\
      (forall so, so_sender so <> sp_id sender -> so ∈ db_sender_tokens (w_db w') <-> so ∈ db_sender_tokens (w_db w))
    else w_db w' = w_db w) w.
Proof.
  intros Hc Huniq. unfold UpdateSenderProfile, with_sender, api_error. rewrite Hc.
  destruct (_ && _); [wp_step; by eexists|]. wp_step.
  apply wp_in_begin; [intros tx w1 H1|intros fs; wp_step; by eexists].
  wp_step. simpl. wp_step. simpl. wp_step.
  eapply wp_mono; [exact (update_sender_tokens_wp w tx _ _ false _ w1 H1 Huniq)|].
  intros o w2 [(r & -> & Hr & Hd)|(-> & H2 & Hu2)].
  { wp_step. exists r. split; [done|]. rewrite Hd. split; [done|]. by rewrite (proj2 (Z.eqb_neq _ _) Hr). }
  wp_step. eapply wp_in_write; [exact H2|intros w3 H3|intros w3 H3; wp_step; exists (mkResponse 500%Z "error" "Failed to update profile" None);
    simpl; by rewrite (it_db _ _ _ _ H3)].
  wp_step. eapply wp_in_commit; [exact H3|intros w4 Hd _ _ _|intros w4 Hd _ _ _; wp_step;
    exists (mkResponse 500%Z "error" "Failed to update profile" None); simpl; by rewrite Hd].
  wp_step. eexists. split; [done|]. simpl. rewrite Hd. split_and!; [exact Hu2|done|].
  intros so Hso. by apply put_sender_tokens_others.
Qed.

(** An update that only sets the webhook URL deactivates an active sender: the
    activation follows the tokens of the payload, not those that are configured. *)
Theorem webhook_update_deactivates c sender url w :
  cx_values c !! "sender" = Some (VSender (Some sender)) -> db_senders (w_db w) !! sp_id sender = Some sender ->
  sp_is_active sender = true -> url <> "" -> IsURL url = true -> w_faults w = [] ->
  exists w' row, UpdateSenderProfile c (Some (mkSPP url None [])) w =
      (Ret (mkResponse 200%Z "success" "Profile updated successfully" None), w') /\
    db_senders (w_db w') !! sp_id sender = Some row /\ sp_webhook_url row = url /\ sp_is_active row = false /\
    db_sender_tokens (w_db w') = db_sender_tokens (w_db w).
Proof.
  intros Hc Hrow Hact Hurl Hok Hf.
  assert (H : wp (UpdateSenderProfile c (Some (mkSPP url None []))) (fun o w' =>
    o = Ret (mkResponse 200%Z "success" "Profile updated successfully" None) /\
    exists row, db_senders (w_db w') !! sp_id sender = Some row /\ sp_webhook_url row = url /\
      sp_is_active row = false /\ db_sender_tokens (w_db w') = db_sender_tokens (w_db w)) w).
  { unfold UpdateSenderProfile, with_sender. simpl. rewrite (proj2 (String.eqb_neq _ _) Hurl), Hok, Hc. simpl.
    repeat run_ok. split; [done|]. simpl. rewrite lookup_alter_eq, Hrow. eexists. split; [done|].
    unfold sender_columns. simpl. rewrite (proj2 (String.eqb_neq _ _) Hurl), Hact. simpl. split_and!; [|done|done].
    by destruct (String.eqb_spec url (sp_webhook_url sender)) as [->|]. }
  unfold wp in H. destruct (UpdateSenderProfile _ _ w) as [o w']. simpl in H. destruct H as [-> (row & H)].
  by exists w', row.
Qed.

Lemma UpdateProviderProfile_wp c provider p w :
  cx_values c !! "provider" = Some (VProvider (Some provider)) -> provider_settings_unique (w_db w) ->
  wp (UpdateProviderProfile conf c (Some p)) (fun o w' => exists r, o = Ret r /\ provider_settings_unique (w_db w') /\
    if (ar_code r =? 200)%Z then exists ops, Forall2 (plan_of conf (w_db w) (pp_id provider) (pl_Currency p)) (pl_Tokens p) ops /\
      w_db w' = put_provider (pp_id provider) p ops (w_now w) (w_db w)
    else w_db w' = w_db w) w.
Proof.
  intros Hc Huniq. unfold UpdateProviderProfile, with_provider, api_error. rewrite Hc.
  destruct (_ && _); [wp_step; by eexists|]. wp_step. simpl.
  eapply wp_mono; [apply validate_tokens_wp|]. intros o w1 [[fs ->] (plan & -> & Hplan)].
  destruct plan as [[[|m [|m' es]] ops]|]; [|wp_step; by eexists..].
  eapply wp_mono; [apply execute_update_wp; exact Huniq|]. intros o w2 (r & -> & Hu & Hr).
  exists r. split; [done|]. split; [done|]. destruct (ar_code r =? 200)%Z; [|done]. exists ops. split; [by apply Hplan|done].
Qed.

(** Every bucket that an operation meets has the provider after the update. *)
Lemma put_provider_joins provider p ops now d b op :
  b ∈ db_buckets d -> op ∈ ops -> meets op b = true ->
  exists b', b' ∈ db_buckets (put_provider provider p ops now d) /\ pb_id b' = pb_id b /\
    pb_currency b' = pb_currency b /\ provider ∈ pb_provider_profiles b'.
Proof.
  intros Hb Hop Hm.
  assert (Hin : pb_id b ∈ joined d ops).
  { unfold joined. apply list_elem_of_In, in_flat_map. exists op. split; [by apply list_elem_of_In|].
    apply in_map, filter_In. split; [by apply list_elem_of_In|done]. }
  assert (Hbk : forall ops d, db_buckets (put_operations provider d ops) = db_buckets d)
    by (clear; intros ops; induction ops as [|o ops IH]; intros d; simpl; [done|by rewrite IH]).
  exists (pb_join provider (joined d ops) b). unfold put_provider, put_profile.
  destruct (joined d ops) as [|i l] eqn:Ej; [by apply elem_of_nil in Hin|]. rewrite <- Ej in *. simpl. rewrite Hbk.
  split_and!; [|done|done|].
  - apply list_elem_of_fmap. exists b. split; [done|]. by rewrite (proj2 (put_availability_frame provider p now d)).
  - unfold pb_join. simpl. assert (existsb (Z.eqb (pb_id b)) (joined d ops) = true) as ->.
    { apply existsb_exists. exists (pb_id b). split; [by apply list_elem_of_In|apply Z.eqb_refl]. }
    apply elem_of_app. right. by apply list_elem_of_singleton.
Qed.

(** C22: [UpdateProviderProfile], whatever calls fail.  The answer 200 means that every token
    of the payload is offered, a floating rate near the market rate and the slippage of
    the payload zero or allowed, and that in one commit the settings, the availability,
    the columns and the bucket memberships became what the payload says: each setting is
    updated if there is one and created otherwise, with the slippage of the payload, or
    for a payload with none the slippage the setting already had, which is not checked
    against the new rate.  Any other answer has changed nothing; and a provider keeps at
    most one setting for a token, a currency and a network. *)
Theorem update_provider_profile_correct c provider p w :
  cx_values c !! "provider" = Some (VProvider (Some provider)) -> provider_settings_unique (w_db w) ->
  wp (UpdateProviderProfile conf c (Some p)) (fun o w' => exists r, o = Ret r /\ provider_settings_unique (w_db w') /\
    if (ar_code r =? 200)%Z then exists ops, Forall2 (plan_of conf (w_db w) (pp_id provider) (pl_Currency p)) (pl_Tokens p) ops /\
      w_db w' = put_provider (pp_id provider) p ops (w_now w) (w_db w)
    else w_db w' = w_db w) w.
Proof. apply UpdateProviderProfile_wp. Qed.

(** The provider joins every bucket whose range meets the converted order range of one
    of its tokens, also a bucket of another currency: the query for the buckets does not
    name the currency. *)
Theorem provider_joins_every_currency c provider p w :
  cx_values c !! "provider" = Some (VProvider (Some provider)) -> provider_settings_unique (w_db w) ->
  wp (UpdateProviderProfile conf c (Some p)) (fun o w' => forall r, o = Ret r -> ar_code r = 200%Z ->
    exists ops, Forall2 (plan_of conf (w_db w) (pp_id provider) (pl_Currency p)) (pl_Tokens p) ops /\
      forall b op, b ∈ db_buckets (w_db w) -> op ∈ ops -> meets op b = true ->
        exists b', b' ∈ db_buckets (w_db w') /\ pb_id b' = pb_id b /\ pb_currency b' = pb_currency b /\
          pp_id provider ∈ pb_provider_profiles b') w.
Proof.
  intros Hc Huniq. eapply wp_mono; [by apply UpdateProviderProfile_wp|].
  intros o w' (r & -> & _ & H) r' [= <-] H200. rewrite H200 in H. destruct H as (ops & Hplan & Hdb).
  exists ops. split; [done|]. intros b op Hb Hop Hm. rewrite Hdb. by eapply put_provider_joins.
Qed.

End profile_claims.

(** ** Concrete runs *)

#[local] Instance s_profile_senders : SenderServices := {|
  base58check_ok _ := true;
  tron_wallet _ := None;
  insight_answer _ _ _ := mkResp 200 (BObject []);
  account_first _ := false
|}.
#[local] Instance s_profile_services : ProfileServices := {|
  request_uri_ok _ := true;
  parse_url _ := Some ("https", "node.example")
|}.
Definition s_profile_conf : Config := mkConfig 60 60 60 3 (d_int 5) "test" 300 (d_int 1).
(** A bucket of another currency with the same range. *)
Definition s_other_bucket : ProvisionBucket := mkPB 2 (d_int 100) (d_int 100000) 0 "KES" [].
Definition s_profile_world : World :=
  set_db (set_buckets [s_bucket; s_other_bucket] (s_db (s_pc 100 0 100))) (s_world (s_pc 100 0 100) []).
Definition s_profile_ctx : Ctx :=
  mkCtx (<["sender" := VSender (Some s_sender)]> {[ "provider" := VProvider (Some s_provider) ]}) [] false "".
Definition s_provider_payload : ProviderProfilePayload :=
  mkPPP "Acme" s_cur "https://node.example" true
    [mkPOTP "USDT" RFixed (d_int 940) (d_int 0) (d_int 1000) (d_int 1) (d_int 0) "0xaddr" "base"] "public".
Definition s_sender_payload : SenderProfilePayload :=
  mkSPP "" None [mkSOTP "USDT" (d_int 2) [mkSOAP "base" "" "0xrefund"]].

Lemma s_settings_unique : provider_settings_unique (w_db s_profile_world).
Proof. apply NoDup_singleton. Qed.
Lemma s_sender_unique : sender_settings_unique (w_db s_profile_world).
Proof. apply NoDup_singleton. Qed.

Lemma update_sender_profile_correct_witness :
  sender_settings_unique (w_db (UpdateSenderProfile s_profile_ctx (Some s_sender_payload) s_profile_world).2) /\
  map so_refund_address (db_sender_tokens (w_db (UpdateSenderProfile s_profile_ctx (Some s_sender_payload) s_profile_world).2)) = ["0xrefund"].
Proof.
  split; [|vm_compute; reflexivity].
  destruct (update_sender_profile_correct s_profile_ctx s_sender s_sender_payload s_profile_world eq_refl s_sender_unique)
    as (r & _ & H & _). exact H.
Defined.

Lemma webhook_update_deactivates_witness :
  exists w' row, UpdateSenderProfile s_profile_ctx (Some (mkSPP "https://new.example/hook" None [])) s_profile_world =
      (Ret (mkResponse 200 "success" "Profile updated successfully" None), w') /\
    db_senders (w_db w') !! sp_id s_sender = Some row /\ sp_webhook_url row = "https://new.example/hook" /\
    sp_is_active row = false /\ db_sender_tokens (w_db w') = db_sender_tokens (w_db s_profile_world).
Proof. apply webhook_update_deactivates; [reflexivity|reflexivity|reflexivity|discriminate|reflexivity|reflexivity]. Defined.

Lemma update_provider_profile_correct_witness :
  provider_settings_unique (w_db (UpdateProviderProfile s_profile_conf s_profile_ctx (Some s_provider_payload) s_profile_world).2) /\
  map pot_fixed_conversion_rate (db_order_tokens (w_db
    (UpdateProviderProfile s_profile_conf s_profile_ctx (Some s_provider_payload) s_profile_world).2)) = [d_int 940].
Proof.
  split; [|vm_compute; reflexivity].
  destruct (update_provider_profile_correct s_profile_conf s_profile_ctx s_provider s_provider_payload s_profile_world
    eq_refl s_settings_unique) as (r & _ & H & _). exact H.
Defined.

(** The provider offers naira and is in the bucket for Kenyan shillings. *)
Lemma provider_joins_every_currency_witness :
  exists ops, Forall2 (plan_of s_profile_conf (w_db s_profile_world) s_prov s_cur) (pl_Tokens s_provider_payload) ops /\
  map (fun b => (pb_currency b, pb_provider_profiles b))
    (db_buckets (w_db (UpdateProviderProfile s_profile_conf s_profile_ctx (Some s_provider_payload) s_profile_world).2)) =
    [("NGN", [s_prov]); ("KES", [s_prov])].
Proof.
  destruct (provider_joins_every_currency s_profile_conf s_profile_ctx s_provider s_provider_payload s_profile_world
    eq_refl s_settings_unique (mkResponse 200 "success" "Profile updated successfully" None)) as (ops & H & _).
  - vm_compute. reflexivity.
  - reflexivity.
  - exists ops. split; [exact H|vm_compute; reflexivity].
Defined.
