(* ===== verification/Alchemy.v ===== *)
(** * Chain accounts (services/alchemy.go, services/receive_address.go, services/manager.go)

    The creation of smart accounts and of key pairs for receive addresses, and the
    sending of calls from them: as ERC-4337 user operations through the bundler, or as
    signed transactions.  A user operation is the map of its fields, all texts.  The
    nodes, go-ethereum's cryptography and AES-GCM are parameters; [TxCall] is a call
    of a batch. *)

From S2P Require Import Prelude Decimal Schema Store Samples Transactions Balance Utils Ethereum Services Queue Calm Orders Rows Payments Http Tasks Sender Gateway.
From S2P Require Import ChainEvents Insight Auth.
Local Open Scope go_scope.
Local Open Scope string_scope.
Local Open Scope list_scope.

(** ** Bytes and numbers *)

Definition string_to_bytes (s : string) : list Z :=
  map (fun c => Z.of_nat (Ascii.nat_of_ascii c)) (String.list_ascii_of_string s).

(** [strings.TrimPrefix] *)
Definition TrimPrefix (s pre : string) : string :=
  if HasPrefix s pre then substring (String.length pre) (String.length s - String.length pre) s else s.

(** [common.Bytes2Hex] and [common.LeftPadBytes] *)
Definition Bytes2Hex (b : list Z) : string := foldr (fun b s => nibble (b / 16) +:+ nibble (b mod 16) +:+ s) "" b.
Definition LeftPadBytes (b : list Z) (l : nat) : list Z :=
  if (length b <? l)%nat then replicate (l - length b) 0 ++ b else b.

(** [big.Int.Bytes]: the absolute value, big endian, without leading zeros. *)
Fixpoint bytes_fuel (fuel : nat) (z : Z) (acc : list Z) : list Z :=
  match fuel with
  | 0%nat => acc
  | S fuel' => if (z =? 0)%Z then acc else bytes_fuel fuel' (z / 256) (z mod 256 :: acc)
  end.
Definition int_bytes (z : Z) : list Z := bytes_fuel (S (Z.to_nat (Z.log2 (Z.abs z)))) (Z.abs z) [].

(** The digits of a natural number in base 16. *)
Fixpoint hex_fuel (fuel : nat) (z : Z) : string :=
  match fuel with
  | 0%nat => ""
  | S fuel' => (if (z <? 16)%Z then "" else hex_fuel fuel' (z / 16)) +:+ nibble (z mod 16)
  end.
Definition hex_of (z : Z) : string := hex_fuel (S (Z.to_nat (Z.log2 z))) z.
Definition zeros (n : nat) : string := String.string_of_list_ascii (replicate n "0"%char).
(** [fmt.Sprintf("%032x", z)] of a [big.Int]: the sign counts. *)
Definition hex_padded (width : nat) (z : Z) : string :=
  let sign := if (z <? 0)%Z then "-" else "" in
  let ds := hex_of (Z.abs z) in
  sign +:+ zeros (width - String.length sign - String.length ds) +:+ ds.

(** [big.Int.SetString]: digits below the base; underscores only between digits, and
    only when the base is taken from the prefix. *)
Fixpoint scan_digits (base : Z) (underscores prev : bool) (l : list ascii) (acc : Z) : option Z :=
  match l with
  | [] => if prev then Some acc else None
  | c :: r =>
      if underscores && Ascii.eqb c "_" then (if prev then scan_digits base underscores false r acc else None)
      else match hex_digit c with
           | Some d => if (d <? base)%Z then scan_digits base underscores true r (base * acc + d) else None
           | None => None
           end
  end.
Definition signed (scan : list ascii -> option Z) (l : list ascii) : option Z :=
  match l with
  | "-"%char :: r => Z.opp <$> scan r
  | "+"%char :: r => scan r
  | _ => scan l
  end.
Definition SetString16 (s : string) : option Z :=
  signed (fun l => scan_digits 16 false false l 0) (String.list_ascii_of_string s).
Definition SetString0 (s : string) : option Z :=
  signed (fun l =>
    match l with
    | "0"%char :: c :: r =>
        let prefixed (base : Z) := match r with [] => None | _ => scan_digits base true true r 0 end in
        if Ascii.eqb c "x" || Ascii.eqb c "X" then prefixed 16
        else if Ascii.eqb c "b" || Ascii.eqb c "B" then prefixed 2
        else if Ascii.eqb c "o" || Ascii.eqb c "O" then prefixed 8
        else scan_digits 8 true true (c :: r) 0
    | _ => scan_digits 10 true false l 0
    end) (String.list_ascii_of_string s).

(** [strconv.ParseUint(s, 16, 64)] *)
Definition ParseUint16 (s : string) : option Z :=
  z ← scan_digits 16 false false (String.list_ascii_of_string s) 0; if (z <? 2 ^ 64)%Z then Some z else None.

(** ** The services *)

(** config.AlchemyConfiguration and the settings that the services read. *)
Record AlchemyConf := mkAlchemyConf {
  al_APIKey : string;
  al_GasPolicyID : string;
  (** SMART_ACCOUNT_OWNER_ADDRESS and SMART_ACCOUNT_OWNER_PRIVATE_KEY *)
  al_OwnerAddress : string;
  al_OwnerPrivateKey : string;
  (** USE_ALCHEMY_FOR_RECEIVE_ADDRESSES, USE_ALCHEMY_SMART_ACCOUNTS, USE_ALCHEMY_SERVICE *)
  al_ForReceiveAddresses : bool;
  al_SmartAccounts : bool;
  al_UseAlchemy : bool;
  (** DEFAULT_CHAIN_ID *)
  al_DefaultChainID : Z
}.

(** A transaction before it is signed. *)
Record EthTx := mkEthTx {
  et_nonce : Z;
  et_to : list Z;
  et_value : Z;
  et_gas_limit : Z;
  et_gas_price : Z;
  et_data : list Z
}.

Class AlchemyServices `{O : DecimalOps} := {
  (** the answer of a node to a JSON-RPC request: URL, method, parameters *)
  rpc_answer : World -> string -> string -> list json -> HttpResponse;
  (** the engine's answer to the creation of an account with a label *)
  wallet_answer : World -> string -> HttpResponse;
  (** what a failed [SetString] leaves in a [big.Int] *)
  undefined_big : string -> Z;
  keccak256 : list Z -> list Z;
  (** [common.FromHex] *)
  from_hex : string -> list Z;
  (** go-ethereum's crypto: a fresh key, the key of bytes or digits, its address,
      a signature of a hash and a signed and encoded transaction *)
  GenerateKey : World -> option (list Z);
  ToECDSA : list Z -> option (list Z);
  HexToECDSA : string -> option (list Z);
  PubkeyToAddress : list Z -> list Z;
  ecdsa_sign : list Z -> list Z -> option (list Z);
  sign_tx : Z -> list Z -> EthTx -> option (list Z);
  (** a fresh nonce, and [Seal] under the server's secret; [None] for a bad key length *)
  fresh_nonce : World -> string;
  gcm_seal : string -> string -> string -> option string
}.

Section alchemy.
Context {O : DecimalOps} {OS : @OrderServices O} {SV : @Services O} {EC : EthCommon} {AU : AuthServices} {AS : @AlchemyServices O}.
Variable auth : AuthConf.
Variable conf : AlchemyConf.

Definition big_or (z : option Z) (s : string) : Z := match z with Some z => z | None => undefined_big s end.
(** [new(big.Int).SetString(strings.TrimPrefix(s, "0x"), 16)] *)
Definition big16 (s : string) : Z := let d := TrimPrefix s "0x" in big_or (SetString16 d) d.

(** [crypto.EncryptPlain]: the nonce before the ciphertext. *)
Definition EncryptPlain (plaintext : string) : M string :=
  let! w := getM in
  match gcm_seal (au_Secret auth) (fresh_nonce w) plaintext with
  | Some c => retM (fresh_nonce w +:+ c)
  | None => errM (EMsg "crypto/aes: invalid key size")
  end.
Definition decrypt (ciphertext : string) : M string := DecryptPlain auth ciphertext.

(** ** Requests to nodes *)

Definition network_of_chain (chainID : Z) : M Network :=
  let! d := read_db None in only (List.filter (fun n => (nw_chain_id n =? chainID)%Z) (db_networks d)).
Definition rpc_url (n : Network) : string := nw_rpc_endpoint n +:+ "/" +:+ al_APIKey conf.

(** Send, parse, and fail on the error that the answer carries. *)
Definition rpc_parse (url method : string) (ps : list json) : M (list (string * json)) :=
  let! w := getM in
  match ParseJSONResponse (rpc_answer w url method ps) with
  | (Some e, _) => errM (EWrap "failed to parse response" e)
  | (None, data) => if is_nil (json_get "error" data) then retM data else errM (EMsg "RPC error")
  end.
Definition rpc (what url method : string) (ps : list json) : M (list (string * json)) :=
  do! wrapM what ext in rpc_parse url method ps.

(** ** Creating accounts *)

(** [EngineService.CreateServerWallet]; the assertions on the answer panic. *)
Definition engine_wallet (label : string) : M string :=
  do! wrapM "failed to create smart address" ext in
  let! w := getM in
  match ParseJSONResponse (wallet_answer w label) with
  | (Some e, _) => errM (EWrap "failed to parse JSON response" e)
  | (None, data) => let! result := as_map (json_get "result" data) in as_string (json_get "smartAccountAddress" result)
  end.

(** The time in nanoseconds and in microseconds; the two readings of the clock agree. *)
Definition generateUniqueSalt (now : Z) : list Z :=
  keccak256 (string_to_bytes (int_string now) ++
             keccak256 (string_to_bytes (int_string (now / 1000)))).

Definition owner_padded (ownerAddress : string) : string := zeros 24 +:+ TrimPrefix ownerAddress "0x".
Definition factory_address : string := "0x0000000000400CdFef5E2714E63d8040b700BC24".

Definition getSmartAccountInitCode (ownerAddress saltHex : string) : string :=
  let salt := TrimPrefix saltHex "0x" in
  "0x" +:+ "0000000000400CdFef5E2714E63d8040b700BC24" +:+ "5fbfb9cf" +:+ owner_padded ownerAddress +:+
  (zeros (64 - String.length salt) +:+ salt).

(** The factory's answer; every failure gives the empty text. *)
Definition computeSmartAccountAddressWithSalt (ownerAddress : string) (chainID : Z) (salt : list Z) : M string :=
  let? network := network_of_chain chainID orelse _e => (retM "") in
  let callData := "0x" +:+ "8cb84e18" +:+ owner_padded ownerAddress +:+ Bytes2Hex salt in
  let? data := rpc "Failed to call factory getAddress" (rpc_url network) "eth_call"
                 [JObj [("to", JStr (address_hex (HexToAddress factory_address))); ("data", JStr callData)]; JStr "latest"]
  orelse _e => (retM "") in
  let! resultHex := as_string (json_get "result" data) in
  if (String.length resultHex <? 40)%nat then panicM
  else retM ("0x" +:+ substring (String.length resultHex - 40) 40 resultHex).

(** The address, and the encrypted salt. *)
Definition CreateSmartAccount (chainID : Z) (ownerAddress : string) : M (string * string) :=
  let! w := getM in
  let salt := generateUniqueSalt (w_now w) in
  let! smartAccountAddress := computeSmartAccountAddressWithSalt ownerAddress chainID salt in
  let! encryptedSalt := wrapM "failed to encrypt salt" (EncryptPlain (string_of_bytes salt)) in
  retM (smartAccountAddress, encryptedSalt).

(** [ServiceManager.CreateServerWallet] *)
Definition CreateServerWallet (label : string) (chainID : Z) (ownerAddress : string) : M (string * string) :=
  if al_UseAlchemy conf then CreateSmartAccount chainID ownerAddress
  else let! address := engine_wallet label in retM (address, "").

(** The address of a fresh key, and the encrypted key. *)
Definition CreateEVMAddress : M (string * string) :=
  let! w := getM in
  match GenerateKey w with
  | None => errM (EMsg "failed to generate private key")
  | Some privateKey =>
      let! privateKeyEncrypted := wrapM "failed to encrypt private key" (EncryptPlain (string_of_bytes privateKey)) in
      retM (address_hex (PubkeyToAddress privateKey), privateKeyEncrypted)
  end.

Definition CreateSmartAddress (label : string) : M (string * string) :=
  if al_ForReceiveAddresses conf then
    if al_SmartAccounts conf then
      let chainID := if (al_DefaultChainID conf =? 0)%Z then 84532 else al_DefaultChainID conf in
      if String.eqb (al_OwnerAddress conf) "" then errM (EMsg "SMART_ACCOUNT_OWNER_ADDRESS not configured")
      else CreateServerWallet label chainID (al_OwnerAddress conf)
    else CreateEVMAddress
  else let! address := engine_wallet label in retM (address, "").

(** ** Call data *)

Definition pad32 (b : list Z) : list Z := b ++ replicate (if (length b mod 32 =? 0)%nat then 0 else 32 - length b mod 32) 0.
Definition word32 (z : Z) : list Z := LeftPadBytes (int_bytes z) 32.

(** The value of a call: digits in base 16, with or without a prefix. *)
Definition call_value (value : string) : Z :=
  if negb (String.eqb value "0") && negb (String.eqb value "") then big16 value else 0.

(** execute(address target, uint256 value, bytes data) *)
Definition encodeExecuteCallData (target value data : string) : string :=
  let dataBytes := Hex2Bytes (TrimPrefix data "0x") in
  "0x" +:+ "b61d27f6" +:+ Bytes2Hex (LeftPadBytes (HexToAddress target) 32) +:+ Bytes2Hex (word32 (call_value value)) +:+
  Bytes2Hex (word32 96) +:+ Bytes2Hex (word32 (Z.of_nat (length dataBytes))) +:+ Bytes2Hex (pad32 dataBytes).

(** ** User operations *)

Definition op_text (op : gmap string string) (key : string) : M string := deref (op !! key).
(** A field as JSON: null when it is missing. *)
Definition op_json (op : gmap string string) (key : string) : json := match op !! key with Some s => JStr s | None => JNull end.

Definition common_fields : list string :=
  ["sender"; "nonce"; "callData"; "callGasLimit"; "verificationGasLimit"; "preVerificationGas"; "maxFeePerGas";
   "maxPriorityFeePerGas"; "signature"].

(** The factory and its data, when there is code to deploy. *)
Definition init_fields (op : gmap string string) : M (list (string * json)) :=
  match op !! "initCode" with
  | Some initCode =>
      if negb (String.eqb initCode "") && negb (String.eqb initCode "0x") && (2 <? String.length initCode)%nat
      then if (String.length initCode <? 42)%nat then panicM
           else retM [("factory", JStr ("0x" +:+ substring 2 40 initCode));
                      ("factoryData", JStr ("0x" +:+ substring 42 (String.length initCode - 42) initCode))]
      else retM []
  | None => retM []
  end.
Definition paymaster_fields (op : gmap string string) : list (string * json) :=
  match op !! "paymaster" with
  | Some _ => omap (fun k => (fun s => (k, JStr s)) <$> op !! k)
                ["paymaster"; "paymasterVerificationGasLimit"; "paymasterPostOpGasLimit"; "paymasterData"]
  | None => []
  end.
Definition packUserOperationV07 (op : gmap string string) : M (gmap string json) :=
  let! init := init_fields op in
  retM (list_to_map (map (fun k => (k, op_json op k)) common_fields ++ init ++ paymaster_fields op)).

Definition entry_point : string := "0x0000000071727De22E5E9d8baF0edAc6f37da032".

(** The operation reaches the bundler before its answer is read. *)
Definition SendUserOperation (chainID : Z) (op : gmap string string) : M string :=
  let! network := wrapM "failed to get network for chain" (network_of_chain chainID) in
  let! packedUserOp := packUserOperationV07 op in
  do! wrapM "failed to send user operation" ext in
  do! emit (EvUserOperation chainID packedUserOp) in
  let! data := rpc_parse (rpc_url network) "eth_sendUserOperation" [JObj (map_to_list packedUserOp); JStr entry_point] in
  as_string (json_get "result" data).

(** ** Signing *)

Definition op_big (op : gmap string string) (key : string) : M Z := let! s := op_text op key in retM (big16 s).
(** A field of 16 bytes, as digits and as bytes. *)
Definition op_hex16 (op : gmap string string) (key : string) : string :=
  match op !! key with Some s => hex_padded 32 (big16 s) | None => zeros 32 end.
Definition bytes16 (z : Z) : list Z := take 16 (LeftPadBytes (int_bytes z) 16).

(** Packed from its parts, else as it is. *)
Definition paymaster_and_data (op : gmap string string) : list Z :=
  match op !! "paymaster" with
  | Some paymaster =>
      Hex2Bytes (TrimPrefix paymaster "0x" +:+ op_hex16 op "paymasterVerificationGasLimit" +:+
                 op_hex16 op "paymasterPostOpGasLimit" +:+
                 match op !! "paymasterData" with Some d => TrimPrefix d "0x" | None => "" end)
  | None =>
      match op !! "paymasterAndData" with Some d => Hex2Bytes (TrimPrefix d "0x") | None => [] end
  end.

(** The hash of the operation, the entry point and the chain. *)
Definition user_op_hash (chainID : Z) (op : gmap string string) : M (list Z) :=
  let! sender := op_text op "sender" in
  let! nonce := op_big op "nonce" in
  let initCode := match op !! "initCode" with Some s => Hex2Bytes (TrimPrefix s "0x") | None => [] end in
  let! callData := op_text op "callData" in
  let! callGasLimit := op_big op "callGasLimit" in
  let! verificationGasLimit := op_big op "verificationGasLimit" in
  let! preVerificationGas := op_big op "preVerificationGas" in
  let! maxFeePerGas := op_big op "maxFeePerGas" in
  let! maxPriorityFeePerGas := op_big op "maxPriorityFeePerGas" in
  let packed := LeftPadBytes (HexToAddress sender) 32 ++ word32 nonce ++ keccak256 initCode ++
                keccak256 (Hex2Bytes (TrimPrefix callData "0x")) ++
                (bytes16 verificationGasLimit ++ bytes16 callGasLimit) ++ word32 preVerificationGas ++
                (bytes16 maxPriorityFeePerGas ++ bytes16 maxFeePerGas) ++ keccak256 (paymaster_and_data op) in
  retM (keccak256 (keccak256 packed ++ LeftPadBytes (HexToAddress entry_point) 32 ++ word32 chainID)).

(** [accounts.TextHash] of 32 bytes *)
Definition TextHash (h : list Z) : list Z :=
  keccak256 (25 :: string_to_bytes "Ethereum Signed Message:" ++ 10 :: string_to_bytes (int_string (Z.of_nat (length h))) ++ h).

(** The last byte counts from 27. *)
Definition recovery_27 (signature : list Z) : M (list Z) :=
  match signature !! 64%nat with
  | Some v => retM (if (v <? 27)%Z then <[64%nat := (v + 27)]> signature else signature)
  | None => panicM
  end.

Definition signUserOperation (chainID : Z) (op : gmap string string) : M string :=
  if String.eqb (al_OwnerPrivateKey conf) "" then errM (EMsg "SMART_ACCOUNT_OWNER_PRIVATE_KEY not configured")
  else
    match HexToECDSA (TrimPrefix (al_OwnerPrivateKey conf) "0x") with
    | None => errM (EMsg "failed to parse private key")
    | Some privateKey =>
        let! finalHash := user_op_hash chainID op in
        match ecdsa_sign (TextHash finalHash) privateKey with
        | None => errM (EMsg "failed to sign user operation")
        | Some signature => let! s := recovery_27 signature in retM ("0x" +:+ Bytes2Hex (0 :: s))
        end
    end.

(** ** Sponsorship *)

Definition required_fields : list string :=
  ["sender"; "nonce"; "callData"; "callGasLimit"; "verificationGasLimit"; "preVerificationGas"; "maxFeePerGas"; "maxPriorityFeePerGas"].
Definition dummy_signature : string :=
  "0x00fffffffffffffffffffffffffffffff0000000000000000000000000000000007aaaaaaaaaaaaaaaaaaaaaaaaaaaaaaaaaaaaaaaaaaaaaaaaaaaaaaaaaaaaaaa1c".

(** The report of an error cuts the call data after 100 characters. *)
Definition getPaymasterData (chainID : Z) (op : gmap string string) : M (list (string * json)) :=
  if negb (forallb (fun k => bool_decide (is_Some (op !! k))) required_fields) then errM (EMsg "missing required field")
  else
    let! net := wrapM "failed to get network for chain" (network_of_chain chainID) in
    let! v07UserOp := packUserOperationV07 op in
    do! wrapM "failed to get paymaster data" ext in
    let! w := getM in
    match ParseJSONResponse (rpc_answer w (rpc_url net) "alchemy_requestGasAndPaymasterAndData"
            [JObj [("policyId", JStr (al_GasPolicyID conf)); ("entryPoint", JStr entry_point);
                   ("userOperation", JObj (map_to_list v07UserOp)); ("dummySignature", JStr dummy_signature)]]) with
    | (Some _, _) => errM (EMsg "failed to parse paymaster response")
    | (None, data) =>
        if is_nil (json_get "error" data) then as_map (json_get "result" data)
        else if (String.length (default "" (op !! "callData")) <? 100)%nat then panicM
        else errM (EMsg "paymaster request failed")
    end.

(** [if v, ok := result\[key\].(string); ok { userOp\[key\] = v }] *)
Definition apply_text (result : list (string * json)) (op : gmap string string) (key : string) : gmap string string :=
  match json_get key result with Some (JStr s) => <[key := s]> op | _ => op end.
Definition apply_paymaster (result : list (string * json)) (op : gmap string string) : gmap string string :=
  let op := foldl (apply_text result) op
              ["callGasLimit"; "verificationGasLimit"; "preVerificationGas"; "maxFeePerGas"; "maxPriorityFeePerGas"] in
  match json_get "paymaster" result with
  | Some (JStr paymaster) =>
      if String.eqb paymaster "" then op
      else foldl (apply_text result) (<["paymaster" := paymaster]> op)
             ["paymasterVerificationGasLimit"; "paymasterPostOpGasLimit"; "paymasterData"]
  | _ => op
  end.

(** ** Sending a batch *)

Definition rows_at (address : string) (d : DB) : list ReceiveAddress :=
  List.filter (fun a => String.eqb (ra_address a) address || String.eqb (ra_address a) (ToLower address)) (address_rows d).
Definition has_salt (a : ReceiveAddress) : bool := negb (String.eqb (ra_salt a) "").

(** [getSmartAccountNonce]: the low 64 bits of the entry point's answer. *)
Definition getSmartAccountNonce (chainID : Z) (address : string) : M Z :=
  let! net := wrapM "failed to get network for chain" (network_of_chain chainID) in
  let callData := "0x" +:+ "35567e1a" +:+ Bytes2Hex (LeftPadBytes (HexToAddress address) 32) +:+ Bytes2Hex (LeftPadBytes [0] 32) in
  let! data := rpc "failed to fetch nonce" (rpc_url net) "eth_call"
                 [JObj [("to", JStr entry_point); ("data", JStr callData)]; JStr "latest"] in
  match json_get "result" data with
  | Some (JStr result) => retM (Z.abs (big16 result) mod 2 ^ 64)
  | _ => errM (EMsg "invalid nonce response format")
  end.

Definition isAccountDeployed (chainID : Z) (address : string) : M bool :=
  let! rpcURL :=
    (if (chainID =? 84532)%Z then retM "https://sepolia.base.org"
     else if (chainID =? 8453)%Z then retM "https://mainnet.base.org"
     else if (chainID =? 11155111)%Z then retM "https://sepolia.infura.io/v3/9aa3d95b3bc440fa88ea12eaa4456161"
     else if (chainID =? 1)%Z then retM "https://mainnet.infura.io/v3/9aa3d95b3bc440fa88ea12eaa4456161"
     else let! net := wrapM "failed to get network" (network_of_chain chainID) in retM (nw_rpc_endpoint net)) in
  let! data := rpc "failed to check account deployment" rpcURL "eth_getCode" [JStr address; JStr "latest"] in
  match json_get "result" data with
  | Some (JStr code) => retM (negb (String.eqb code "0x") && negb (String.eqb code "") && negb (String.eqb code "0x0"))
  | _ => errM (EMsg "invalid response format")
  end.

(** The row that says whether the account is deployed; a deployed one first. *)
Definition account_row (address : string) : M ReceiveAddress :=
  wrapM "failed to get receive address from database"
    (let! d := read_db None in
     let rows := List.filter (fun a => bool_decide (ra_status a = APoolReady) || ra_is_deployed a) (rows_at address d) in
     first (List.filter ra_is_deployed rows ++ List.filter (fun a => negb (ra_is_deployed a)) rows)).

(** The code that deploys the account of a row; [None] when it is deployed. *)
Definition init_code_of (a : ReceiveAddress) : M (option string) :=
  if ra_is_deployed a then retM None
  else if has_salt a then
    let! salt := wrapM "failed to decrypt salt" (decrypt (ra_salt a)) in
    if String.eqb (al_OwnerAddress conf) "" then errM (EMsg "SMART_ACCOUNT_OWNER_ADDRESS not configured")
    else retM (Some (getSmartAccountInitCode (al_OwnerAddress conf) (Bytes2Hex (string_to_bytes salt))))
  else errM (EMsg "no salt found for smart account").

(** The nonce of a deployed account comes from the chain, and is 0 when that fails. *)
Definition account_nonce (chainID : Z) (address : string) (initCode : option string) : M string :=
  match initCode with
  | None => let? n := getSmartAccountNonce chainID address orelse _e => (retM "0x0") in retM ("0x" +:+ hex_of n)
  | Some _ => retM "0x0"
  end.

Definition base_operation (address nonce callData : string) (initCode : option string) : gmap string string :=
  let op : gmap string string := list_to_map
    [("sender", address); ("nonce", nonce); ("callData", callData); ("callGasLimit", "0x186a0");
     ("verificationGasLimit", match initCode with Some _ => "0x493e0" | None => "0x30d40" end);
     ("preVerificationGas", "0x10000"); ("maxFeePerGas", "0x59682f00"); ("maxPriorityFeePerGas", "0x59682f00");
     ("paymasterAndData", "0x"); ("signature", "0x")] in
  match initCode with Some c => <["initCode" := c]> op | None => op end.
(** What the gas manager is asked about: no signature and no paymaster. *)
Definition minimal_operation (op : gmap string string) : gmap string string := delete "signature" (delete "paymasterAndData" op).

Definition sponsor (chainID : Z) (op : gmap string string) : M (gmap string string) :=
  if String.eqb (al_GasPolicyID conf) "" then retM op
  else
    let? result := getPaymasterData chainID (minimal_operation op) orelse _e => (retM op) in
    retM (apply_paymaster result op).

(** One call, as one operation. *)
Definition send_user_operation (chainID : Z) (address : string) (tx : TxCall) : M string :=
  let callData := encodeExecuteCallData (tc_to tx) (tc_value tx) (tc_data tx) in
  let! receiveAddr := account_row address in
  let! initCode := init_code_of receiveAddr in
  let! nonce := account_nonce chainID address initCode in
  let! op := sponsor chainID (base_operation address nonce callData initCode) in
  let! signature := wrapM "failed to sign user operation" (signUserOperation chainID op) in
  wrapM "failed to send batch transaction" (SendUserOperation chainID (<["signature" := signature]> op)).

(** The calls in order, and the result of the last one; the first error ends the batch. *)
Fixpoint send_each (what : string) (send : TxCall -> M string) (last : string) (txs : list TxCall) : M string :=
  match txs with
  | [] => retM last
  | tx :: rest => let! txHash := wrapM what (send tx) in send_each what send txHash rest
  end.

Definition sendUserOperationBatch (chainID : Z) (address : string) (txPayload : list TxCall) : M string :=
  match txPayload with
  | [] => panicM
  | [tx] => send_user_operation chainID address tx
  | txs => send_each "failed to send transaction" (send_user_operation chainID address) "" txs
  end.

(** *** From a key *)

Definition getNonce (rpcURL address : string) : M Z :=
  let! data := rpc "failed to get nonce" rpcURL "eth_getTransactionCount" [JStr address; JStr "pending"] in
  let! nonceHex := as_string (json_get "result" data) in
  if (String.length nonceHex <? 2)%nat then panicM
  else match ParseUint16 (substring 2 (String.length nonceHex - 2) nonceHex) with
       | Some nonce => retM nonce
       | None => errM (EMsg "failed to parse nonce")
       end.

Definition getGasPrice (rpcURL : string) : M Z :=
  let! data := rpc "failed to get gas price" rpcURL "eth_gasPrice" [] in
  let! gasPriceHex := as_string (json_get "result" data) in
  if (String.length gasPriceHex <? 2)%nat then panicM
  else let d := substring 2 (String.length gasPriceHex - 2) gasPriceHex in retM (big_or (SetString16 d) d).

Definition sendEOATransaction (chainID : Z) (privateKey : list Z) (tx : TxCall) : M string :=
  let! net := wrapM "failed to get network" (network_of_chain chainID) in
  let value := if String.eqb (tc_value tx) "0" then 0 else big_or (SetString0 (tc_value tx)) (tc_value tx) in
  let! nonce := wrapM "failed to get nonce" (getNonce (nw_rpc_endpoint net) (address_hex (PubkeyToAddress privateKey))) in
  let! gasPrice := wrapM "failed to get gas price" (getGasPrice (nw_rpc_endpoint net)) in
  match sign_tx chainID privateKey (mkEthTx nonce (HexToAddress (tc_to tx)) value 300000 gasPrice (from_hex (tc_data tx))) with
  | None => errM (EMsg "failed to sign transaction")
  | Some raw =>
      let rawTxHex := "0x" +:+ Bytes2Hex raw in
      do! wrapM "failed to send transaction" ext in
      do! emit (EvRawTransaction chainID rawTxHex) in
      let! data := rpc_parse (nw_rpc_endpoint net) "eth_sendRawTransaction" [JStr rawTxHex] in
      as_string (json_get "result" data)
  end.

Definition sendEOATransactionBatch (chainID : Z) (fromAddress : string) (txPayload : list TxCall) : M string :=
  match txPayload with
  | [] => errM (EMsg "no transactions to send")
  | txs =>
      let! receiveAddr := wrapM "failed to get receive address from database"
        (let! d := read_db None in
         first (List.filter (fun a => String.eqb (ra_address a) fromAddress && has_salt a) (address_rows d))) in
      if negb (has_salt receiveAddr) then errM (EMsg "no private key found for address")
      else
        let! privateKeyBytes := wrapM "failed to decrypt private key" (decrypt (ra_salt receiveAddr)) in
        match ToECDSA (string_to_bytes privateKeyBytes) with
        | None => errM (EMsg "failed to parse private key")
        | Some privateKey => send_each "failed to send transaction" (sendEOATransaction chainID privateKey) "" txs
        end
  end.

(** A single row that is deployed or has a salt is a smart account; without a single
    row the chain decides, and a failure to ask it means no. *)
Definition is_smart_account (chainID : Z) (address : string) : M bool :=
  let? receiveAddr := (let! d := read_db None in only (rows_at address d))
  orelse _e => (let? isContract := isAccountDeployed chainID address orelse _e => (retM false) in retM isContract) in
  retM (ra_is_deployed receiveAddr || has_salt receiveAddr).

Definition AlchemySendTransactionBatch (chainID : Z) (address : string) (txPayload : list TxCall) : M string :=
  let! isSmartAccount := is_smart_account chainID address in
  if isSmartAccount then sendUserOperationBatch chainID address txPayload
  else sendEOATransactionBatch chainID address txPayload.
End alchemy.
