(* ===== verification/AlchemyClaims.v ===== *)
(** * Theorems about chain accounts

    The call data of an operation decodes to the call it was made from
    ([execute_calldata_roundtrip]), and the hash that is signed is the one that the
    entry point computes from the operation that is sent
    ([signed_hash_of_sent_operation]).  A batch sends its calls in order, each once
    ([batch_sends_in_order]).  An account of a key is never spent from, a shared pool
    address depends on a node, and a failed creation gives an empty address.  The
    service is an instance of what [Gateway] asks of a chain service. *)

From S2P Require Import Prelude Decimal Schema Store Samples Transactions Balance Utils Ethereum Services Queue Calm Orders Rows Payments Http Tasks Sender Gateway.
From S2P Require Import ChainEvents ChainEventClaims Insight Auth AuthClaims Alchemy.
Local Open Scope go_scope.
Local Open Scope string_scope.
Local Open Scope list_scope.

(** ** Code that changes nothing at all *)

Section quiet.
Context {O : DecimalOps}.

(** Only the failures to come are used up; the outcome is in [P]. *)
Definition spent (w w' : World) : Prop := exists fs, w' = set_faults fs w.
Definition quiet {A} (P : outcome A -> Prop) (m : M A) : Prop := forall w, wp m (fun o w' => spent w w' /\ P o) w.

Lemma spent_refl w : spent w w.
Proof. exists (w_faults w). by destruct w. Qed.
Lemma spent_trans w1 w2 w3 : spent w1 w2 -> spent w2 w3 -> spent w1 w3.
Proof. intros [f1 ->] [f2 ->]. by exists f2. Qed.

Lemma quiet_ret {A} (P : outcome A -> Prop) a : P (Ret a) -> quiet P (retM a).
Proof. intros H w. split; [apply spent_refl|done]. Qed.
Lemma quiet_err {A} (P : outcome A -> Prop) e : P (Err e) -> quiet P (errM e).
Proof. intros H w. split; [apply spent_refl|done]. Qed.
Lemma quiet_panic {A} (P : outcome A -> Prop) : P Panic -> quiet P panicM.
Proof. intros H w. split; [apply spent_refl|done]. Qed.
Lemma quiet_get : quiet any getM.
Proof. intros w. split; [apply spent_refl|done]. Qed.
Lemma quiet_deref {A} (p : option A) : quiet any (deref p).
Proof. intros w. destruct p; (split; [apply spent_refl|done]). Qed.
Lemma quiet_only {A} (l : list A) : quiet any (only l).
Proof. intros w. destruct l as [|? []]; (split; [apply spent_refl|done]). Qed.
Lemma quiet_first {A} (l : list A) : quiet any (first l).
Proof. intros w. destruct l; (split; [apply spent_refl|done]). Qed.
Lemma quiet_ext : quiet any ext.
Proof.
  intros w. unfold wp, ext. destruct (w_faults w) as [|[] fs]; (split; [|done]); try (eexists; reflexivity). apply spent_refl.
Qed.
Lemma quiet_bind {A B} (P : outcome B -> Prop) (m : M A) (k : A -> M B) :
  quiet any m -> (forall a, quiet P (k a)) -> (forall e, P (Err e)) -> P Panic -> quiet P (bindM m k).
Proof.
  intros Hm Hk He Hp w. apply wp_bind. eapply wp_mono; [apply Hm|]. intros [a|e|] w1 [H1 _]; [|done|done].
  eapply wp_mono; [apply Hk|]. intros o w2 [H2 HP]. split; [by eapply spent_trans|done].
Qed.
Lemma quiet_try {A B} (P : outcome B -> Prop) (m : M A) (h : error -> M B) (k : A -> M B) :
  quiet any m -> (forall e, quiet P (h e)) -> (forall a, quiet P (k a)) -> P Panic -> quiet P (tryM m h k).
Proof.
  intros Hm Hh Hk Hp w. apply wp_try. eapply wp_mono; [apply Hm|]. intros [a|e|] w1 [H1 _]; [| |done].
  - eapply wp_mono; [apply Hk|]. intros o w2 [H2 HP]. split; [by eapply spent_trans|done].
  - eapply wp_mono; [apply Hh|]. intros o w2 [H2 HP]. split; [by eapply spent_trans|done].
Qed.
Lemma quiet_read : quiet any (read_db None).
Proof. apply quiet_bind; [apply quiet_ext| |done|done]. intros [] w. split; [apply spent_refl|done]. Qed.

Lemma quiet_calm {A} (m : M A) : quiet any m -> calm any m.
Proof. intros H w. eapply wp_mono; [apply H|]. intros o w' [[fs ->] _]. by repeat split. Qed.
End quiet.

Create HintDb quiet.
#[export] Hint Resolve quiet_get quiet_deref quiet_only quiet_first quiet_ext quiet_read : quiet.
Ltac quiet_tac :=
  repeat first
    [ assumption | done | solve [auto with quiet]
    | apply quiet_ret | apply quiet_err | apply quiet_panic
    | apply quiet_bind; [|intros ?|intros ?|]
    | apply quiet_try; [|intros ?|intros ?|]
    | match goal with |- quiet _ (match ?x with _ => _ end) => destruct x end ].

Section quiet_alchemy.
Context {O : DecimalOps} {EC : EthCommon} {AU : AuthServices} {AS : @AlchemyServices O}.
Variable auth : AuthConf.
Variable conf : AlchemyConf.

Lemma quiet_network chainID : quiet any (network_of_chain chainID).
Proof. unfold network_of_chain. quiet_tac. Qed.
Lemma quiet_as_string v : quiet any (as_string v).
Proof. unfold as_string. quiet_tac. Qed.
Lemma quiet_as_map v : quiet any (as_map v).
Proof. unfold as_map. quiet_tac. Qed.
Lemma quiet_parse url method ps : quiet any (rpc_parse url method ps).
Proof. unfold rpc_parse. quiet_tac. Qed.
#[local] Hint Resolve quiet_network quiet_as_string quiet_as_map quiet_parse : quiet.
Lemma quiet_wrap {A} what (m : M A) : quiet any m -> quiet any (wrapM what m).
Proof. intros H. unfold wrapM. apply quiet_try; [done| | |done]; intros ?; [by apply quiet_err|by apply quiet_ret]. Qed.
Lemma quiet_rpc what url method ps : quiet any (rpc what url method ps).
Proof. unfold rpc, wrapM. quiet_tac. Qed.
Lemma quiet_encrypt p : quiet any (EncryptPlain auth p).
Proof. unfold EncryptPlain. quiet_tac. Qed.
Lemma quiet_decrypt c : quiet any (decrypt auth c).
Proof. unfold decrypt, DecryptPlain. quiet_tac. Qed.
#[local] Hint Resolve quiet_rpc quiet_encrypt quiet_decrypt : quiet.
Lemma quiet_row address : quiet any (account_row address).
Proof. unfold account_row, wrapM. quiet_tac. Qed.
Lemma quiet_init a : quiet any (init_code_of auth conf a).
Proof. unfold init_code_of, wrapM. quiet_tac. Qed.
Lemma quiet_nonce chainID address c : quiet any (account_nonce conf chainID address c).
Proof. unfold account_nonce, getSmartAccountNonce, wrapM. quiet_tac. Qed.
Lemma quiet_pack op : quiet any (packUserOperationV07 op).
Proof. unfold packUserOperationV07, init_fields. quiet_tac. Qed.
#[local] Hint Resolve quiet_pack : quiet.
Lemma quiet_paymaster chainID op : quiet any (getPaymasterData conf chainID op).
Proof. unfold getPaymasterData, wrapM. quiet_tac. Qed.
Lemma quiet_hash chainID op : quiet any (user_op_hash chainID op).
Proof. unfold user_op_hash, op_big, op_text. quiet_tac. Qed.
#[local] Hint Resolve quiet_paymaster quiet_hash : quiet.
Lemma quiet_sign chainID op : quiet any (signUserOperation conf chainID op).
Proof. unfold signUserOperation, recovery_27. quiet_tac. Qed.
Lemma quiet_deployed chainID address : quiet any (isAccountDeployed chainID address).
Proof. unfold isAccountDeployed, wrapM. quiet_tac. Qed.
#[local] Hint Resolve quiet_deployed : quiet.
Lemma quiet_smart chainID address : quiet any (is_smart_account chainID address).
Proof. unfold is_smart_account. quiet_tac. Qed.
Lemma quiet_eoa_nonce url a : quiet any (getNonce url a).
Proof. unfold getNonce. quiet_tac. Qed.
Lemma quiet_gas_price url : quiet any (getGasPrice url).
Proof. unfold getGasPrice. quiet_tac. Qed.
Lemma quiet_engine_wallet label : quiet any (engine_wallet label).
Proof. unfold engine_wallet, wrapM. quiet_tac. Qed.
#[local] Hint Resolve quiet_engine_wallet : quiet.
Lemma quiet_create label : quiet any (CreateSmartAddress auth conf label).
Proof.
  unfold CreateSmartAddress, CreateServerWallet, CreateSmartAccount, computeSmartAccountAddressWithSalt, CreateEVMAddress, wrapM.
  quiet_tac.
Qed.
End quiet_alchemy.
#[export] Hint Resolve quiet_network quiet_as_string quiet_as_map quiet_parse quiet_rpc quiet_encrypt quiet_decrypt quiet_row
  quiet_init quiet_nonce quiet_pack quiet_paymaster quiet_hash quiet_sign quiet_deployed quiet_smart quiet_eoa_nonce
  quiet_gas_price quiet_create : quiet.

(** ** What a batch sends *)

Section sends.
Context {O : DecimalOps} {EC : EthCommon} {AU : AuthServices} {AS : @AlchemyServices O}.
Variable auth : AuthConf.
Variable conf : AlchemyConf.

(** No row says that the account exists on the chain. *)
Definition undeployed (address : string) (d : DB) : Prop := Forall (fun a => ra_is_deployed a = false) (rows_at address d).

(** An operation that carries a call: from the account, with the call's data; for an
    account that is not deployed, with the code that deploys it and the first nonce. *)
Record carries (d : DB) (address : string) (tx : TxCall) (op : gmap string json) : Prop := {
  cr_sender : op !! "sender" = Some (JStr address);
  cr_call : op !! "callData" = Some (JStr (encodeExecuteCallData (tc_to tx) (tc_value tx) (tc_data tx)));
  cr_first : undeployed address d -> op !! "nonce" = Some (JStr "0x0") /\ is_Some (op !! "factory")
}.

Lemma quiet_wp {A} (P : outcome A -> Prop) (m : M A) (Q : outcome A -> World -> Prop) w :
  quiet P m -> (forall o w', spent w w' -> P o -> Q o w') -> wp m Q w.
Proof. intros H HQ. eapply wp_mono; [apply H|]. intros o w' [? ?]. by apply HQ. Qed.

Lemma account_row_wp address w :
  wp (account_row address) (fun o w' => spent w w' /\ forall a, o = Ret a -> a ∈ rows_at address (w_db w)) w.
Proof.
  unfold account_row. apply wp_wrap, wp_bind. unfold read_db. apply wp_bind.
  eapply quiet_wp; [apply quiet_ext|]. intros [[]|e|] w1 [fs ->] _; [|split; [by eexists|done]|split; [by eexists|done]].
  unfold wp. cbn [view fst snd set_faults w_db]. match goal with |- context [List.filter ra_is_deployed ?r] => set (rows := r) end.
  assert (Hsub : forall a, a ∈ List.filter ra_is_deployed rows ++ List.filter (fun a => negb (ra_is_deployed a)) rows ->
                 a ∈ rows_at address (w_db w)).
  { intros a. rewrite elem_of_app, !list_elem_of_In, !List.filter_In. unfold rows. rewrite List.filter_In, <- list_elem_of_In. tauto. }
  destruct (_ ++ _) as [|a l]; (split; [by eexists|]); [done|]. intros a' [= <-]. apply Hsub. by left.
Qed.

Lemma init_code_wp a : quiet (fun o => forall c, o = Ret c ->
    match c with Some code => exists owner salt, code = getSmartAccountInitCode owner salt | None => ra_is_deployed a = true end)
  (init_code_of auth conf a).
Proof.
  unfold init_code_of. destruct (ra_is_deployed a) eqn:E; [apply quiet_ret; by intros ? [= <-]|].
  destruct (has_salt a); [|by apply quiet_err].
  apply quiet_bind; [apply quiet_wrap; auto with quiet| |done|done]. intros salt.
  destruct (String.eqb _ _); [by apply quiet_err|]. apply quiet_ret. intros ? [= <-]. eauto.
Qed.

Definition answered_fields : list string :=
  ["callGasLimit"; "verificationGasLimit"; "preVerificationGas"; "maxFeePerGas"; "maxPriorityFeePerGas"; "paymaster";
   "paymasterVerificationGasLimit"; "paymasterPostOpGasLimit"; "paymasterData"].
Lemma apply_text_other result keys k : k ∉ keys -> forall op, foldl (apply_text result) op keys !! k = op !! k.
Proof.
  induction keys as [|key keys IH]; intros Hk op; [done|]. apply not_elem_of_cons in Hk as [Hne Hk]. simpl. rewrite IH by done.
  unfold apply_text. repeat case_match; try done. by rewrite lookup_insert_ne.
Qed.
Lemma apply_paymaster_other result op k : k ∉ answered_fields -> apply_paymaster result op !! k = op !! k.
Proof.
  unfold answered_fields. rewrite !not_elem_of_cons. intros Hk. unfold apply_paymaster.
  assert (H5 : foldl (apply_text result) op ["callGasLimit"; "verificationGasLimit"; "preVerificationGas"; "maxFeePerGas";
                 "maxPriorityFeePerGas"] !! k = op !! k) by (apply apply_text_other; rewrite !not_elem_of_cons; tauto).
  repeat case_match; try done. rewrite apply_text_other by (rewrite !not_elem_of_cons; tauto).
  rewrite lookup_insert_ne by (intros <-; tauto). done.
Qed.
Lemma sponsor_other chainID op : quiet (fun o => forall op', o = Ret op' -> forall k, k ∉ answered_fields -> op' !! k = op !! k)
  (sponsor conf chainID op).
Proof.
  unfold sponsor. destruct (String.eqb _ _); [apply quiet_ret; by intros ? [= <-]|].
  apply quiet_try; [auto with quiet| | |done]; intros ?; apply quiet_ret; intros ? [= <-]; [done|].
  intros k Hk. by apply apply_paymaster_other.
Qed.

(** What the packed form of an operation keeps. *)
Record packed_as (op : gmap string string) (p : gmap string json) : Prop := {
  pa_common : forall k, k ∈ common_fields -> p !! k = Some (op_json op k);
  pa_factory : forall owner salt, op !! "initCode" = Some (getSmartAccountInitCode owner salt) -> is_Some (p !! "factory")
}.
Lemma pack_common op init k : k ∈ common_fields ->
  (list_to_map (map (fun k => (k, op_json op k)) common_fields ++ init) : gmap string json) !! k = Some (op_json op k).
Proof.
  intros Hk. rewrite list_to_map_app. apply lookup_union_Some_l. unfold common_fields in *.
  repeat (apply elem_of_cons in Hk as [->|Hk]; [cbn [map list_to_map foldr curry fst snd]; by simplify_map_eq|]).
  by apply elem_of_nil in Hk.
Qed.
Lemma ret_inj {A} (a b : A) : Ret a = Ret b -> a = b.
Proof. by intros [=]. Qed.
Lemma pack_wp op : quiet (fun o => forall p, o = Ret p -> packed_as op p) (packUserOperationV07 op).
Proof.
  unfold packUserOperationV07, init_fields. destruct (op !! "initCode") as [c|] eqn:Ec.
  2: { apply quiet_bind; [by apply quiet_ret| |done|done]. intros init. apply quiet_ret. intros ? <-%ret_inj.
       split; [intros k; apply pack_common|]. by rewrite Ec. }
  destruct (_ && _ && _) eqn:Eg; [destruct (_ <? 42)%nat eqn:El|].
  - intros w. split; [apply spent_refl|done].
  - intros w. split; [apply spent_refl|]. intros ? <-%ret_inj. split; [intros k; apply pack_common|]. intros ow sa _.
    unfold common_fields. cbn [map app]. by simplify_map_eq.
  - intros w. split; [apply spent_refl|]. intros ? <-%ret_inj. split; [intros k; apply pack_common|]. rewrite Ec. by intros ow sa [= ->].
Qed.

(** Nothing was sent, and the run did not succeed. *)
Definition sent_only (chainID : Z) (address : string) (tx : TxCall) (w : World) (o : outcome string) (w' : World) : Prop :=
  idle w w' /\ exists ops, w_events w' = w_events w ++ map (EvUserOperation chainID) ops /\
    Forall (carries (w_db w) address tx) ops /\ (length ops <= 1)%nat /\ (forall h, o = Ret h -> length ops = 1%nat).
Lemma sent_none chainID address tx w w' o : spent w w' -> (forall h, o <> Ret h) -> sent_only chainID address tx w o w'.
Proof.
  intros [fs ->] Ho. split; [done|]. exists []. rewrite app_nil_r. split_and!; [done|constructor|simpl; lia|].
  intros h ->. by destruct (Ho h).
Qed.
Lemma quiet_before {A} (P : outcome A -> Prop) (m : M A) (k : A -> M string) chainID address tx w0 w :
  spent w0 w -> quiet P m ->
  (forall a w', spent w0 w' -> P (Ret a) -> wp (k a) (sent_only chainID address tx w0) w') ->
  wp (bindM m k) (sent_only chainID address tx w0) w.
Proof.
  intros S0 H HQ. apply wp_bind. eapply quiet_wp; [apply H|]. intros [a|e|] w1 S1 HP.
  - apply HQ; [by eapply spent_trans|done].
  - apply sent_none; [by eapply spent_trans|done].
  - apply sent_none; [by eapply spent_trans|done].
Qed.

(** The bundler gets the packed operation, whatever it answers. *)
Lemma SendUserOperation_wp chainID address tx op w0 w :
  spent w0 w -> (forall p, packed_as op p -> carries (w_db w0) address tx p) ->
  wp (SendUserOperation conf chainID op) (sent_only chainID address tx w0) w.
Proof.
  intros S0 Hop. unfold SendUserOperation.
  eapply quiet_before; [exact S0|apply quiet_wrap, quiet_network|]. intros net w1 S1 _.
  eapply quiet_before; [exact S1|apply pack_wp|]. intros p w2 S2 Hp. specialize (Hop p (Hp p eq_refl)).
  eapply quiet_before; [exact S2|apply quiet_wrap, quiet_ext|]. intros [] w3 [fs ->] _.
  apply wp_bind, wp_emit, wp_bind. eapply quiet_wp; [apply quiet_parse|]. intros o w9 [fs' ->] _.
  assert (Hfin : forall (o : outcome string) fs', sent_only chainID address tx w0 o
                   (set_faults fs' (set_events (w_events w0 ++ [EvUserOperation chainID p]) (set_faults fs w0)))).
  { intros. split; [done|]. exists [p]. split_and!; [done|by constructor|simpl; lia|done]. }
  destruct o as [data|e|]; [|apply Hfin|apply Hfin].
  eapply quiet_wp; [apply quiet_as_string|]. intros o w10 [fs'' ->] _. destruct o; apply Hfin.
Qed.

(** The fields that neither the gas manager nor the signature changes. *)
Lemma base_carries d address tx nonce ic op sig p a :
  a ∈ rows_at address d ->
  match ic with Some code => exists owner salt, code = getSmartAccountInitCode owner salt | None => ra_is_deployed a = true end ->
  (is_Some ic -> nonce = "0x0") ->
  (forall k, k ∉ answered_fields ->
     op !! k = base_operation address nonce (encodeExecuteCallData (tc_to tx) (tc_value tx) (tc_data tx)) ic !! k) ->
  packed_as (<["signature" := sig]> op) p -> carries d address tx p.
Proof.
  intros Ha Hic Hn Hop [Hc Hf].
  assert (Hb : forall k, k ∈ common_fields -> k ≠ "signature" -> k ∉ answered_fields ->
    p !! k = Some (op_json (base_operation address nonce (encodeExecuteCallData (tc_to tx) (tc_value tx) (tc_data tx)) ic) k)).
  { intros k H1 H2 H3. rewrite Hc by done. unfold op_json. by rewrite lookup_insert_ne, Hop. }
  split.
  - rewrite Hb by compute_done. unfold op_json, base_operation. destruct ic; by simplify_map_eq.
  - rewrite Hb by compute_done. unfold op_json, base_operation. destruct ic; by simplify_map_eq.
  - intros Hun. destruct ic as [c|]; [|by rewrite (proj1 (Forall_forall _ _) Hun a Ha) in Hic].
    destruct Hic as (ow & sa & ->). rewrite Hb by compute_done. rewrite (Hn ltac:(eauto)).
    split; [unfold op_json, base_operation; by simplify_map_eq|]. apply (Hf ow sa). rewrite lookup_insert_ne by done.
    rewrite Hop by compute_done. unfold base_operation. by simplify_map_eq.
Qed.

Lemma nonce_wp chainID address ic :
  quiet (fun o => forall n, o = Ret n -> is_Some ic -> n = "0x0") (account_nonce conf chainID address ic).
Proof.
  intros w. destruct ic as [c|]; [split; [apply spent_refl|by intros n [= <-]]|].
  eapply quiet_wp; [apply quiet_nonce|]. intros o w' ? _. split; [done|]. by intros n _ [? ?].
Qed.

Lemma send_user_operation_wp chainID address tx w :
  wp (send_user_operation auth conf chainID address tx) (sent_only chainID address tx w) w.
Proof.
  unfold send_user_operation. apply wp_bind. eapply wp_mono; [apply account_row_wp|].
  intros [a|e|] w1 [S1 Ha]; [|by apply sent_none|by apply sent_none].
  eapply quiet_before; [exact S1|apply init_code_wp|]. intros ic w2 S2 Hic.
  eapply quiet_before; [exact S2|apply nonce_wp|]. intros nonce w3 S3 Hn.
  eapply quiet_before; [exact S3|apply sponsor_other|]. intros op w4 S4 Hop.
  eapply quiet_before; [exact S4|apply quiet_wrap, quiet_sign|]. intros sig w5 S5 _.
  apply wp_wrap. eapply wp_mono; [apply (SendUserOperation_wp chainID address tx _ _ _ S5)|].
  - intros p Hp. exact (base_carries _ _ _ _ _ _ _ _ _ (Ha _ eq_refl) (Hic _ eq_refl) (Hn _ eq_refl) (Hop _ eq_refl) Hp).
  - intros [h|e|] w6 (Hi & ops & He & Hc & Hl & Hr); (split; [done|]); exists ops; split_and!; try done.
Qed.

(** ** The batch *)

(** The operations that were sent carry the first calls of the batch, in order; all of
    them when it succeeds. *)
Definition sent_in_order (chainID : Z) (address : string) (txs : list TxCall) (w : World) (o : outcome string) (w' : World) : Prop :=
  idle w w' /\ exists ops, w_events w' = w_events w ++ map (EvUserOperation chainID) ops /\
    Forall2 (carries (w_db w) address) (take (length ops) txs) ops /\ (forall h, o = Ret h -> length ops = length txs).

Lemma send_each_wp what chainID address txs : forall last w,
  wp (send_each what (send_user_operation auth conf chainID address) last txs) (sent_in_order chainID address txs w) w.
Proof.
  induction txs as [|tx txs IH]; intros last w; cbn [send_each].
  { split; [apply idle_refl|]. exists []. rewrite app_nil_r. split_and!; [done|constructor|done]. }
  apply wp_bind, wp_wrap. eapply wp_mono; [apply send_user_operation_wp|].
  intros o w1 (Hi & ops & He & Hc & Hl & Hr).
  destruct ops as [|p [|? ?]]; [| |simpl in Hl; lia].
  - destruct o as [h|e|]; [by specialize (Hr h eq_refl)|..];
      (split; [done|]; exists []; split_and!; [done|constructor|done]).
  - assert (Hp : carries (w_db w) address tx p) by (by inversion Hc).
    destruct o as [h|e|]; [|split; [done|]; exists [p]; split_and!; [done|cbn [length take]; constructor; [done|by rewrite take_0]|done]..].
    eapply wp_mono; [apply IH|]. intros o w2 (Hi2 & ops & He2 & Hc2 & Hr2). split; [by eapply idle_trans|].
    exists (p :: ops). split_and!.
    + by rewrite He2, He, <- app_assoc.
    + destruct Hi as [Hd _]. rewrite Hd in Hc2. cbn [length take]. by constructor.
    + intros h' Ho. simpl. by rewrite (Hr2 h' Ho).
Qed.

Lemma batch_in_order chainID address txs w :
  wp (sendUserOperationBatch auth conf chainID address txs) (sent_in_order chainID address txs w) w.
Proof.
  destruct txs as [|tx [|tx' txs]]; [| |apply send_each_wp]; cbn [sendUserOperationBatch].
  - split; [apply idle_refl|]. exists []. rewrite app_nil_r. split_and!; [done|constructor|done].
  - eapply wp_mono; [apply send_user_operation_wp|]. intros o w1 (Hi & ops & He & Hc & Hl & Hr). split; [done|].
    exists ops. split_and!; [done| |done]. destruct ops as [|p [|? ?]]; [constructor| |simpl in Hl; lia].
    cbn [length take]. constructor; [by inversion Hc|constructor].
Qed.

(** C24: a batch from a smart account sends its calls in order, each in an operation of its
    own that carries the account and the call: all of them when it succeeds, and the
    first ones when it fails, whatever fails.  Nothing in the database changes. *)
Theorem batch_sends_in_order chainID address txs w :
  wp (sendUserOperationBatch auth conf chainID address txs) (sent_in_order chainID address txs w) w.
Proof. apply batch_in_order. Qed.

(** C26: for an account that no row marks as deployed, every operation of a batch has nonce
    0 and the code that deploys the account, also those after the first, which the
    entry point must refuse: nothing records the deployment between the calls. *)
Theorem batch_repeats_deployment chainID address txs w : undeployed address (w_db w) ->
  wp (sendUserOperationBatch auth conf chainID address txs) (fun _ w' => exists ops,
    w_events w' = w_events w ++ map (EvUserOperation chainID) ops /\
    Forall (fun op => op !! "nonce" = Some (JStr "0x0") /\ is_Some (op !! "factory")) ops) w.
Proof.
  intros Hun. eapply wp_mono; [apply batch_in_order|]. intros o w' (_ & ops & He & Hc & _). exists ops. split; [done|].
  eapply Forall2_Forall_r; [exact Hc|]. apply Forall_forall. intros tx _ op Hop. by apply (cr_first _ _ _ _ Hop).
Qed.
End sends.

(** ** Bytes and digits *)

Lemma be_bytes_zero n : be_bytes n 0 = replicate n 0.
Proof.
  induction n as [|n IH]; [done|]. cbn [be_bytes]. rewrite Z.div_0_l, Z.mod_0_l by lia. rewrite IH.
  by rewrite <- replicate_cons_app.
Qed.
Lemma bytes_fuel_acc f : forall z acc, bytes_fuel f z acc = bytes_fuel f z [] ++ acc.
Proof.
  induction f as [|f IH]; intros z acc; [done|]. cbn [bytes_fuel]. destruct (z =? 0)%Z; [done|].
  rewrite IH, (IH _ [_]), <- app_assoc. done.
Qed.
Lemma pow_succ (b : Z) n : b ^ Z.of_nat (S n) = b * b ^ Z.of_nat n.
Proof. rewrite Nat2Z.inj_succ, Z.pow_succ_r by lia. done. Qed.
Lemma div_below b z n : 0 < b -> 0 <= z < b ^ Z.of_nat (S n) -> 0 <= z / b < b ^ Z.of_nat n.
Proof. intros Hb [H0 H1]. rewrite pow_succ in H1. split; [apply Z.div_pos; lia|apply Z.div_lt_upper_bound; lia]. Qed.

Lemma bytes_fuel_be f : forall z n, 0 <= z < 256 ^ Z.of_nat f -> z < 256 ^ Z.of_nat n ->
  (length (bytes_fuel f z []) <= n)%nat /\ be_bytes n z = replicate (n - length (bytes_fuel f z [])) 0 ++ bytes_fuel f z [].
Proof.
  induction f as [|f IH]; intros z n Hf Hn.
  - assert (z = 0) as -> by (simpl in Hf; lia). cbn [bytes_fuel length]. rewrite Nat.sub_0_r, app_nil_r, be_bytes_zero. split; [lia|done].
  - cbn [bytes_fuel]. destruct (Z.eqb_spec z 0) as [->|Hz].
    { cbn [length]. rewrite Nat.sub_0_r, app_nil_r, be_bytes_zero. split; [lia|done]. }
    destruct n as [|n]; [simpl in Hn; lia|].
    destruct (IH (z / 256) n) as [Hl He]; [apply div_below; lia|apply div_below; lia|].
    rewrite bytes_fuel_acc, length_app. cbn [length]. split; [lia|]. cbn [be_bytes]. rewrite He.
    replace (S n - (length (bytes_fuel f (z / 256) []) + 1))%nat with (n - length (bytes_fuel f (z / 256) []))%nat by lia.
    by rewrite app_assoc.
Qed.
Lemma log2_fuel b z : 2 <= b -> 0 <= z -> 0 <= z < b ^ Z.of_nat (S (Z.to_nat (Z.log2 z))).
Proof.
  intros Hb Hz. split; [done|]. destruct (Z.eq_dec z 0) as [->|]; [apply Z.pow_pos_nonneg; lia|].
  pose proof (Z.log2_spec z ltac:(lia)). pose proof (Z.log2_nonneg z).
  eapply Z.lt_le_trans; [apply H|]. replace (Z.of_nat (S (Z.to_nat (Z.log2 z)))) with (Z.succ (Z.log2 z)) by lia.
  apply Z.pow_le_mono_l. lia.
Qed.
(** Padding on the left gives the number in that many bytes. *)
Lemma left_pad_be n z : 0 <= z < 256 ^ Z.of_nat n -> LeftPadBytes (int_bytes z) n = be_bytes n z.
Proof.
  intros Hz. unfold int_bytes, LeftPadBytes. rewrite (Z.abs_eq z) by lia.
  destruct (bytes_fuel_be (S (Z.to_nat (Z.log2 z))) z n) as [Hl He]; [apply log2_fuel; lia|lia|].
  rewrite He. destruct (Nat.ltb_spec (length (bytes_fuel (S (Z.to_nat (Z.log2 z))) z [])) n); [done|].
  by replace (n - _)%nat with 0%nat by lia.
Qed.
Lemma word32_be z : is_uint z -> word32 z = word z.
Proof. intros Hz. by apply left_pad_be. Qed.
Lemma bytes16_be z : 0 <= z < 2 ^ 128 -> bytes16 z = be_bytes 16 z.
Proof. intros Hz. unfold bytes16. rewrite left_pad_be by exact Hz. apply take_ge. by rewrite be_bytes_length. Qed.
Lemma left_pad_address a : is_address a -> LeftPadBytes a 32 = address_topic a.
Proof. intros [_ Hl]. unfold LeftPadBytes, address_topic. by rewrite Hl. Qed.

Lemma append_assoc s t r : (s +:+ t) +:+ r = s +:+ (t +:+ r).
Proof. induction s as [|c s IH]; [done|]. exact (f_equal (String c) IH). Qed.
Lemma append_empty s : s +:+ "" = s.
Proof. induction s as [|c s IH]; [done|]. exact (f_equal (String c) IH). Qed.
Lemma Bytes2Hex_app a b : Bytes2Hex (a ++ b) = Bytes2Hex a +:+ Bytes2Hex b.
Proof. induction a as [|x a IH]; [done|]. simpl. by rewrite IH, !append_assoc. Qed.
Lemma Bytes2Hex_lower b : Forall byte b -> ToLower (Bytes2Hex b) = Bytes2Hex b.
Proof. intros H. pose proof (hex_string_lower b H) as E. unfold hex_string in E. rewrite lower_app in E. by simplify_eq/=. Qed.

Section digits.
Context {EC : EthCommon} {EL : EthLaws EC}.
(** The digits of bytes, of either case. *)
Definition digits_of (s : string) (b : list Z) : Prop := Forall byte b /\ ToLower s = Bytes2Hex b.
Lemma digits_bytes s b : digits_of s b -> Hex2Bytes s = b.
Proof. intros [Hb Hs]. apply bytes_text; [done|]. rewrite lower_app, Hs. done. Qed.
Lemma digits_hex b : Forall byte b -> digits_of (Bytes2Hex b) b.
Proof. intros H. split; [done|by apply Bytes2Hex_lower]. Qed.
Lemma digits_app s t a b : digits_of s a -> digits_of t b -> digits_of (s +:+ t) (a ++ b).
Proof. intros [Ha Hs] [Hb Ht]. split; [by apply Forall_app|]. by rewrite lower_app, Hs, Ht, Bytes2Hex_app. Qed.
End digits.

(** *** Digits of a number *)

Fixpoint hexn (m : nat) (z : Z) : string :=
  match m with 0%nat => "" | S m => hexn m (z / 16) +:+ nibble (z mod 16) end.
Lemma hexn_zero m : hexn m 0 = zeros m.
Proof.
  induction m as [|m IH]; [done|]. cbn [hexn]. rewrite Z.div_0_l, Z.mod_0_l by lia. rewrite IH. clear IH. unfold zeros.
  induction m as [|m IH]; [done|]. exact (f_equal (String "0"%char) IH).
Qed.
Lemma zeros_length m : String.length (zeros m) = m.
Proof. unfold zeros. induction m as [|m IH]; [done|]. simpl. by rewrite IH. Qed.
Lemma append_length s t : String.length (s +:+ t) = (String.length s + String.length t)%nat.
Proof. induction s as [|c s IH]; [done|]. exact (f_equal S IH). Qed.
Lemma hex_fuel_S f z : hex_fuel (S f) z = (if (z <? 16)%Z then "" else hex_fuel f (z / 16)) +:+ nibble (z mod 16).
Proof. done. Qed.
Lemma hex_fuel_hexn f : forall z m, 0 <= z < 16 ^ Z.of_nat (S f) -> z < 16 ^ Z.of_nat (S m) ->
  (String.length (hex_fuel (S f) z) <= S m)%nat /\ hexn (S m) z = zeros (S m - String.length (hex_fuel (S f) z)) +:+ hex_fuel (S f) z.
Proof.
  induction f as [|f IH]; intros z m Hf Hm.
  - cbn [hex_fuel]. destruct (Z.ltb_spec z 16); [|simpl in Hf; lia]. cbn [hexn]. rewrite Z.div_small by lia. rewrite hexn_zero.
    simpl. rewrite Nat.sub_0_r. split; [lia|done].
  - rewrite (hex_fuel_S (S f) z). destruct (Z.ltb_spec z 16) as [Hs|Hs].
    { cbn [hexn]. rewrite Z.div_small by lia. rewrite hexn_zero. simpl. rewrite Nat.sub_0_r. split; [lia|done]. }
    destruct m as [|m]; [simpl in Hm; lia|].
    destruct (IH (z / 16) m) as [Hl He]; [apply div_below; lia|apply div_below; lia|].
    rewrite append_length. cbn [String.length nibble]. split; [lia|].
    change (hexn (S (S m)) z) with (hexn (S m) (z / 16) +:+ nibble (z mod 16)). rewrite He, append_assoc. do 2 f_equal. lia.
Qed.
Lemma hexn_bytes n : forall z, hexn (2 * n) z = Bytes2Hex (be_bytes n z).
Proof.
  induction n as [|n IH]; intros z; [done|]. replace (2 * S n)%nat with (S (S (2 * n))) by lia. cbn [hexn be_bytes].
  rewrite Bytes2Hex_app, <- IH. simpl. rewrite append_empty, append_assoc, Z.div_div by lia.
  assert (E : z mod 256 = z mod 16 + (z / 16) mod 16 * 16)
    by (change 256 with (16 * 16); rewrite Z.rem_mul_r by lia; apply f_equal, Z.mul_comm).
  rewrite E, Z.div_add, Z.mod_add, Z.mod_mod by lia. by rewrite (Z.div_small (z mod 16)) by (apply Z.mod_pos_bound; lia).
Qed.
(** A number of 16 bytes in 32 digits. *)
Lemma hex_padded_bytes z : 0 <= z < 2 ^ 128 -> hex_padded 32 z = Bytes2Hex (be_bytes 16 z).
Proof.
  intros Hz. rewrite <- (hexn_bytes 16). unfold hex_padded. destruct (Z.ltb_spec z 0); [lia|]. simpl ("" +:+ _).
  rewrite Z.abs_eq by lia. destruct (hex_fuel_hexn (Z.to_nat (Z.log2 z)) z 31) as [_ He]; [apply log2_fuel; lia|exact (proj2 Hz)|].
  change (2 * 16)%nat with 32%nat. by rewrite He.
Qed.

(** ** Call data *)

Lemma substring_0_app s t : substring 0 (String.length s) (s +:+ t) = s.
Proof. induction s as [|c s IH]; [by destruct t|]. exact (f_equal (String c) IH). Qed.
Lemma trim_0x s : TrimPrefix ("0x" +:+ s) "0x" = s.
Proof.
  unfold TrimPrefix. change (HasPrefix ("0x" +:+ s) "0x") with (String.prefix "" s). 
  replace (String.prefix "" s) with true by (by destruct s). 
  change (substring (String.length "0x") (String.length ("0x" +:+ s) - String.length "0x") ("0x" +:+ s))
    with (substring 0 (String.length s - 0) s). rewrite Nat.sub_0_r. apply substring_all.
Qed.

(** What a contract reads from the call data of execute(address, uint256, bytes). *)
Definition selector_execute : list Z := [182; 29; 39; 246].
Definition read_word (b : list Z) (offset : nat) : option Z :=
  let w := take 32 (drop offset b) in if (length w =? 32)%nat then Some (set_bytes w) else None.
Definition abi_execute (calldata : list Z) : option (list Z * Z * list Z) :=
  if bool_decide (take 4 calldata = selector_execute) then
    let args := drop 4 calldata in
    value ← read_word args 32;
    offset ← read_word args 64;
    len ← read_word args (Z.to_nat offset);
    let data := take (Z.to_nat len) (drop (Z.to_nat offset + 32) args) in
    if bool_decide (take 12 args = replicate 12 0) && (length data =? Z.to_nat len)%nat
    then Some (take 20 (drop 12 args), value, data) else None
  else None.

Section calldata.
Context {O : DecimalOps} {EC : EthCommon} {EL : EthLaws EC} {AS : @AlchemyServices O}.

Definition execute_bytes (target : list Z) (value : Z) (data : list Z) : list Z :=
  selector_execute ++ address_topic target ++ word value ++ word 96 ++ word (Z.of_nat (length data)) ++ pad32 data.

Lemma pad32_bytes b : Forall byte b -> Forall byte (pad32 b).
Proof. intros H. apply Forall_app. split; [done|]. apply Forall_replicate. unfold byte. lia. Qed.

Lemma encode_execute_bytes target value data : is_uint (call_value value) ->
  is_uint (Z.of_nat (length (Hex2Bytes (TrimPrefix data "0x")))) ->
  encodeExecuteCallData target value data =
    "0x" +:+ Bytes2Hex (execute_bytes (HexToAddress target) (call_value value) (Hex2Bytes (TrimPrefix data "0x"))).
Proof.
  intros Hv Hl. unfold encodeExecuteCallData, execute_bytes. cbv zeta.
  rewrite !word32_be, (left_pad_address (HexToAddress target)) by (done || apply address_bytes).
  by rewrite !Bytes2Hex_app.
Qed.

Lemma read_word_at a b c : length b = 32%nat -> read_word (a ++ b ++ c) (length a) = Some (set_bytes b).
Proof.
  intros Hb. unfold read_word. rewrite drop_app_length, take_app_length' by done. by rewrite Hb.
Qed.
Lemma execute_decodes target value data : is_address target -> is_uint value -> is_uint (Z.of_nat (length data)) ->
  abi_execute (execute_bytes target value data) = Some (target, value, data).
Proof.
  intros [Ht Hlt] Hv Hl. unfold abi_execute, execute_bytes. rewrite take_app_length' by done.
  rewrite bool_decide_true by done. rewrite drop_app_length' by done. cbv zeta.
  set (T := address_topic target). assert (HT : length T = 32%nat) by (unfold T, address_topic; by rewrite length_app, Hlt).
  rewrite <- HT. rewrite (read_word_at T (word value)) by apply word_length. rewrite HT, word_value by done. cbn [mbind option_bind].
  replace 64%nat with (length (T ++ word value)) by (by rewrite length_app, HT, word_length).
  rewrite (assoc_L (++) T). rewrite (read_word_at _ (word 96)) by apply word_length. rewrite word_value by (split; done).
  cbn [mbind option_bind]. rewrite (assoc_L (++) _ (word 96)). change (Z.to_nat 96) with 96%nat.
  assert (H96 : length ((T ++ word value) ++ word 96) = 96%nat) by (by rewrite !length_app, HT, !word_length).
  rewrite <- H96 at 1. rewrite (read_word_at _ (word _)) by apply word_length. rewrite word_value by done. cbn [mbind option_bind].
  rewrite Nat2Z.id, (assoc_L (++) _ (word (Z.of_nat _))), drop_app_length' by (by rewrite length_app, H96, word_length).
  unfold pad32. rewrite (take_app_length' data) by done. rewrite Nat.eqb_refl, andb_true_r.
  unfold T, address_topic. rewrite <- !app_assoc, take_app_length' by done. rewrite bool_decide_true by done.
  by rewrite drop_app_length', take_app_length' by done.
Qed.

(** C25: the call data of an operation decodes, by the rules of the contract ABI, to the
    target, the value and the data of the call it was made from. *)
Theorem execute_calldata_roundtrip target value data :
  is_uint (call_value value) -> is_uint (Z.of_nat (length (Hex2Bytes (TrimPrefix data "0x")))) ->
  abi_execute (Hex2Bytes (TrimPrefix (encodeExecuteCallData target value data) "0x")) =
    Some (HexToAddress target, call_value value, Hex2Bytes (TrimPrefix data "0x")).
Proof.
  intros Hv Hl. rewrite encode_execute_bytes, trim_0x by done.
  erewrite digits_bytes; [by apply execute_decodes; [apply address_bytes|..]|]. apply digits_hex.
  unfold execute_bytes. rewrite !Forall_app. split_and!; try apply word_is_word; try (apply pad32_bytes, hex_bytes).
  - repeat constructor; done.
  - apply address_topic_is_word, address_bytes.
Qed.
End calldata.

(** ** The signed hash *)

(** The operation as the bundler reads it from the request: the fields of the entry
    point's structure.  The code to deploy is the factory and its data, the paymaster's
    field its parts in a row. *)
Record PackedOp := mkPacked {
  pk_sender : list Z;
  pk_nonce : Z;
  pk_init : list Z;
  pk_call : list Z;
  pk_verification_gas : Z;
  pk_call_gas : Z;
  pk_pre_gas : Z;
  pk_priority_fee : Z;
  pk_max_fee : Z;
  pk_paymaster : list Z
}.

Section hash.
Context {O : DecimalOps} {EC : EthCommon} {EL : EthLaws EC} {AS : @AlchemyServices O}.

(** The fields of a request, as texts, bytes and numbers. *)
Definition f_text (p : gmap string json) (k : string) : option string :=
  match p !! k with Some (JStr s) => Some s | _ => None end.
Definition f_bytes (p : gmap string json) (k : string) : list Z :=
  match f_text p k with Some s => Hex2Bytes (TrimPrefix s "0x") | None => [] end.
Definition f_number (p : gmap string json) (k : string) : option Z :=
  s ← f_text p k; SetString16 (TrimPrefix s "0x").

Definition received (p : gmap string json) : option PackedOp :=
  sender ← f_text p "sender";
  nonce ← f_number p "nonce";
  vg ← f_number p "verificationGasLimit";
  cg ← f_number p "callGasLimit";
  pg ← f_number p "preVerificationGas";
  pf ← f_number p "maxPriorityFeePerGas";
  mf ← f_number p "maxFeePerGas";
  Some (mkPacked (HexToAddress sender) nonce (f_bytes p "factory" ++ f_bytes p "factoryData") (f_bytes p "callData") vg cg pg pf mf
    match f_text p "paymaster" with
    | Some _ => f_bytes p "paymaster" ++ be_bytes 16 (default 0 (f_number p "paymasterVerificationGasLimit")) ++
                be_bytes 16 (default 0 (f_number p "paymasterPostOpGasLimit")) ++ f_bytes p "paymasterData"
    | None => []
    end).

(** getUserOpHash of the entry point, version 0.7. *)
Definition entry_point_hash (chainID : Z) (p : PackedOp) : list Z :=
  keccak256 (keccak256 (address_topic (pk_sender p) ++ word (pk_nonce p) ++ keccak256 (pk_init p) ++ keccak256 (pk_call p) ++
                        (be_bytes 16 (pk_verification_gas p) ++ be_bytes 16 (pk_call_gas p)) ++ word (pk_pre_gas p) ++
                        (be_bytes 16 (pk_priority_fee p) ++ be_bytes 16 (pk_max_fee p)) ++ keccak256 (pk_paymaster p)) ++
             address_topic (HexToAddress entry_point) ++ word chainID).

(** The digits of a text, after its prefix. *)
Definition hex_field (s : string) : Prop := exists d b, s = "0x" +:+ d /\ digits_of d b.
Definition number_below (bits : Z) (s : string) : Prop := exists z, SetString16 (TrimPrefix s "0x") = Some z /\ 0 <= z < 2 ^ bits.

(** An operation whose fields are well formed and fit: the code to deploy, when there is
    any, holds at least a factory, and a paymaster is given by its parts. *)
Record well_formed (op : gmap string string) : Prop := {
  wf_sender : is_Some (op !! "sender");
  wf_call : is_Some (op !! "callData");
  wf_nonce : exists s, op !! "nonce" = Some s /\ number_below 256 s;
  wf_pre : exists s, op !! "preVerificationGas" = Some s /\ number_below 256 s;
  wf_gas : forall k, k ∈ ["callGasLimit"; "verificationGasLimit"; "maxFeePerGas"; "maxPriorityFeePerGas"] ->
    exists s, op !! k = Some s /\ number_below 128 s;
  wf_init : forall s, op !! "initCode" = Some s ->
    hex_field s /\ (s = "0x" \/ (42 <= String.length s)%nat);
  wf_paymaster : match op !! "paymaster" with
    | Some s => hex_field s /\
        (forall k s, k ∈ ["paymasterVerificationGasLimit"; "paymasterPostOpGasLimit"] -> op !! k = Some s -> number_below 128 s) /\
        (forall s, op !! "paymasterData" = Some s -> hex_field s)
    | None => op !! "paymasterAndData" = Some "0x"
    end
}.

(** *** The code to deploy *)

Lemma digits_take n : forall s b, digits_of s b -> digits_of (substring 0 (2 * n) s) (take n b).
Proof.
  induction n as [|n IH]; intros s b [Hb Hs]; [rewrite take_0; split; [constructor|by destruct s]|].
  replace (2 * S n)%nat with (S (S (2 * n))) by lia. destruct b as [|x b]; simpl in Hs.
  { destruct s; [|done]. split; [constructor|done]. }
  destruct s as [|c1 [|c2 s]]; [done|done|]. inversion Hb; subst. injection Hs as H1' H2' Hs.
  destruct (IH s b) as [Ht Hd]; [done|]. split; [by constructor|]. cbn [substring take ToLower Bytes2Hex foldr].
  rewrite Hd. by rewrite H1', H2'.
Qed.
Lemma digits_drop n : forall s b, digits_of s b -> digits_of (substring (2 * n) (String.length s - 2 * n) s) (drop n b).
Proof.
  induction n as [|n IH]; intros s b [Hb Hs].
  { rewrite Nat.sub_0_r, drop_0. split; [done|]. by rewrite substring_all. }
  destruct b as [|x b]; simpl in Hs.
  { destruct s; [|done]. split; [constructor|done]. }
  destruct s as [|c1 [|c2 s]]; [done|done|]. inversion Hb; subst. injection Hs as H1' H2' Hs.
  replace (2 * S n)%nat with (S (S (2 * n))) by lia. cbn [substring String.length drop Nat.sub]. by apply IH.
Qed.

(** *** The request that is sent *)

Definition request (op : gmap string string) (init : list (string * json)) : gmap string json :=
  list_to_map (map (fun k => (k, op_json op k)) common_fields ++ init ++ paymaster_fields op).
Definition factory_fields : list string := ["factory"; "factoryData"].
Definition paymaster_keys : list string := ["paymaster"; "paymasterVerificationGasLimit"; "paymasterPostOpGasLimit"; "paymasterData"].

Lemma lookup_skip (l l' : list (string * json)) k : k ∉ l.*1 -> (list_to_map (l ++ l') : gmap string json) !! k = (list_to_map l' : gmap string json) !! k.
Proof. intros H. rewrite list_to_map_app. apply lookup_union_r. by apply not_elem_of_list_to_map_1. Qed.
Lemma request_common op init k : k ∈ common_fields -> f_text (request op init) k = op !! k.
Proof. intros Hk. unfold f_text, request. rewrite pack_common by done. unfold op_json. by destruct (op !! k). Qed.
Lemma common_keys op : (map (fun k => (k, op_json op k)) common_fields).*1 = common_fields.
Proof. done. Qed.
Lemma paymaster_fields_lookup op k : k ∈ paymaster_keys -> is_Some (op !! "paymaster") ->
  (list_to_map (paymaster_fields op) : gmap string json) !! k = JStr <$> op !! k.
Proof.
  intros Hk [pm Hpm]. unfold paymaster_fields. rewrite Hpm. cbn [omap list_omap]. rewrite Hpm. cbn [fmap option_fmap option_map].
  destruct (op !! "paymasterVerificationGasLimit") eqn:E1, (op !! "paymasterPostOpGasLimit") eqn:E2, (op !! "paymasterData") eqn:E3;
    cbn [fmap option_fmap option_map list_to_map foldr curry fst snd]; unfold paymaster_keys in Hk;
    repeat (apply elem_of_cons in Hk as [->|Hk]; [rewrite ?Hpm, ?E1, ?E2, ?E3; by simplify_map_eq|]); by apply elem_of_nil in Hk.
Qed.
Lemma request_paymaster op init k : k ∈ paymaster_keys -> (forall k', k' ∈ (init.*1) -> k' ∈ factory_fields) ->
  f_text (request op init) k = match op !! "paymaster" with Some _ => op !! k | None => None end.
Proof.
  intros Hk Hi. unfold f_text, request.
  assert (Hn : forall k, k ∈ paymaster_keys -> (k ∉ common_fields) /\ (k ∉ factory_fields)).
  { intros k0 H0. unfold paymaster_keys in H0. repeat (apply elem_of_cons in H0 as [->|H0]; [compute_done|]). by apply elem_of_nil in H0. }
  rewrite !lookup_skip; [|intros H; by apply (proj2 (Hn k Hk)), Hi|rewrite common_keys; by apply Hn].
  destruct (op !! "paymaster") eqn:E; [rewrite paymaster_fields_lookup by (done || by rewrite E); by destruct (op !! k)|].
  unfold paymaster_fields. by rewrite E.
Qed.
Lemma request_factory op (f d : string) :
  f_text (request op [("factory", JStr f); ("factoryData", JStr d)]) "factory" = Some f /\
  f_text (request op [("factory", JStr f); ("factoryData", JStr d)]) "factoryData" = Some d.
Proof. unfold f_text, request. rewrite !lookup_skip by (rewrite common_keys; compute_done). cbn [app list_to_map foldr curry fst snd]. by simplify_map_eq. Qed.
Lemma request_no_factory op k : k ∈ factory_fields -> f_text (request op []) k = None.
Proof.
  intros Hk. unfold f_text, request. rewrite lookup_skip; cycle 1.
  { rewrite common_keys. unfold factory_fields in Hk. repeat (apply elem_of_cons in Hk as [->|Hk]; [compute_done|]). by apply elem_of_nil in Hk. }
  rewrite not_elem_of_list_to_map_1; [done|]. unfold paymaster_fields, factory_fields in *.
  destruct (op !! "paymaster") eqn:E; [|by intros ?%elem_of_nil]. cbn [omap list_omap]. rewrite E.
  destruct (op !! "paymasterVerificationGasLimit"), (op !! "paymasterPostOpGasLimit"), (op !! "paymasterData"); cbn;
    repeat (apply elem_of_cons in Hk as [->|Hk]; [compute_done|]); by apply elem_of_nil in Hk.
Qed.

(** The factory and its data are the code to deploy, cut after twenty bytes. *)
Definition init_bytes (op : gmap string string) : list Z :=
  match op !! "initCode" with Some s => Hex2Bytes (TrimPrefix s "0x") | None => [] end.
Lemma request_init op w : well_formed op -> exists init,
  packUserOperationV07 op w = (Ret (request op init), w) /\ (forall k, k ∈ (init.*1) -> k ∈ factory_fields) /\
  f_bytes (request op init) "factory" ++ f_bytes (request op init) "factoryData" = init_bytes op.
Proof.
  intros Hwf. unfold packUserOperationV07, init_fields, init_bytes. pose proof (wf_init _ Hwf) as Hi.
  destruct (op !! "initCode") as [s|].
  2: { exists []. split; [done|]. split; [by intros ? ?%elem_of_nil|]. unfold f_bytes. by rewrite !request_no_factory by compute_done. }
  destruct (Hi s eq_refl) as [(d & b & -> & Hd) Hl]. rewrite trim_0x.
  destruct Hl as [Hl|Hl].
  { assert (d = "") as -> by (by injection Hl). exists []. split; [done|]. split; [by intros ? ?%elem_of_nil|].
    unfold f_bytes. rewrite !request_no_factory by compute_done.
    rewrite (digits_bytes "" [] ltac:(by split; [constructor|])). done. }
  exists [("factory", JStr ("0x" +:+ substring 0 40 d)); ("factoryData", JStr ("0x" +:+ substring 40 (String.length d - 40) d))].
  rewrite append_length in Hl. cbn [String.length] in Hl. split; [|split].
  - destruct d as [|c1 d]; [simpl in Hl; lia|].
    change ("0x" +:+ String c1 d) with (String "0" (String "x" (String c1 d))).
    replace (String.length _ <? 42)%nat with false by (symmetry; apply Nat.ltb_ge; simpl in *; lia). reflexivity.
  - by intros k Hk.
  - unfold f_bytes. destruct (request_factory op ("0x" +:+ substring 0 40 d) ("0x" +:+ substring 40 (String.length d - 40) d)) as [-> ->].
    rewrite !trim_0x. rewrite (digits_bytes _ _ (digits_take 20 d b Hd)), (digits_bytes _ _ (digits_drop 20 d b Hd)), (digits_bytes _ _ Hd).
    apply take_drop.
Qed.

(** *** The hash *)

Lemma number_big16 bits s : number_below bits s -> exists z,
  SetString16 (TrimPrefix s "0x") = Some z /\ big16 s = z /\ 0 <= z < 2 ^ bits.
Proof. intros (z & Hz & Hr). exists z. split; [done|]. split; [|done]. unfold big16, big_or. cbv zeta. by rewrite Hz. Qed.
Lemma op_hex16_digits (op : gmap string string) k p : f_text p k = op !! k ->
  (forall s, op !! k = Some s -> number_below 128 s) ->
  digits_of (op_hex16 op k) (be_bytes 16 (default 0 (f_number p k))).
Proof.
  intros Hp Hn. unfold op_hex16, f_number. rewrite Hp. destruct (op !! k) as [s|]; cbn [mbind option_bind default].
  - destruct (number_big16 128 s (Hn s eq_refl)) as (z & -> & -> & Hz). cbn [default]. rewrite hex_padded_bytes by done.
    apply digits_hex, be_bytes_bytes.
  - rewrite be_bytes_zero. split; [apply Forall_replicate; unfold byte; lia|done].
Qed.
Lemma request_paymaster_bytes op init : well_formed op -> (forall k, k ∈ (init.*1) -> k ∈ factory_fields) ->
  match f_text (request op init) "paymaster" with
  | Some _ => f_bytes (request op init) "paymaster" ++
              be_bytes 16 (default 0 (f_number (request op init) "paymasterVerificationGasLimit")) ++
              be_bytes 16 (default 0 (f_number (request op init) "paymasterPostOpGasLimit")) ++ f_bytes (request op init) "paymasterData"
  | None => []
  end = paymaster_and_data op.
Proof.
  intros Hwf Hi. pose proof (wf_paymaster _ Hwf) as Hp. unfold paymaster_and_data.
  assert (Hr : forall k, k ∈ paymaster_keys ->
    f_text (request op init) k = match op !! "paymaster" with Some _ => op !! k | None => None end)
    by (intros k Hk; by apply request_paymaster).
  rewrite (Hr "paymaster") by compute_done. destruct (op !! "paymaster") as [s|] eqn:Epm.
  2: { rewrite Hp. symmetry. apply (digits_bytes "" []). by split; [constructor|]. }
  destruct Hp as ((d & b & -> & Hd) & Hn & Hda). unfold f_bytes. rewrite !Hr, Epm by compute_done. rewrite !trim_0x.
  symmetry. apply digits_bytes. rewrite (digits_bytes d b Hd). apply digits_app; [done|].
  apply digits_app; [apply op_hex16_digits; [apply Hr; compute_done|intros s; apply Hn; compute_done]|].
  apply digits_app; [apply op_hex16_digits; [apply Hr; compute_done|intros s; apply Hn; compute_done]|].
  destruct (op !! "paymasterData") as [s|]; [|by split; [constructor|]].
  destruct (Hda s eq_refl) as (d' & b' & -> & Hd'). rewrite trim_0x, (digits_bytes d' b' Hd'). done.
Qed.

Lemma request_number op init bits k : k ∈ common_fields -> (exists s, op !! k = Some s /\ number_below bits s) ->
  exists s z, op !! k = Some s /\ big16 s = z /\ f_number (request op init) k = Some z /\ 0 <= z < 2 ^ bits.
Proof.
  intros Hk (s & Hs & Hn). destruct (number_big16 _ _ Hn) as (z & Hz & Hb & Hr). exists s, z. split_and!; try done; try lia.
  unfold f_number. rewrite request_common by done. by rewrite Hs.
Qed.

(** C23: the hash that is signed is the hash that the entry point computes from the request
    that is sent: sender, nonce, code to deploy, call, gas limits, fees and paymaster
    reach the bundler as they were signed, on the chain they were signed for. *)
Theorem signed_hash_of_sent_operation chainID op w :
  well_formed op -> is_uint chainID ->
  exists request packed, packUserOperationV07 op w = (Ret request, w) /\ received request = Some packed /\
    user_op_hash chainID op w = (Ret (entry_point_hash chainID packed), w).
Proof.
  intros Hwf Hc. destruct (request_init op w Hwf) as (init & Hpack & Hkeys & Hinit).
  exists (request op init). pose proof (request_paymaster_bytes op init Hwf Hkeys) as Hpm.
  destruct (wf_sender _ Hwf) as [sender Hs], (wf_call _ Hwf) as [call Hcall].
  destruct (request_number op init 256 "nonce" ltac:(compute_done) (wf_nonce _ Hwf)) as (n & zn & Hn & Bn & Fn & Rn).
  destruct (request_number op init 256 "preVerificationGas" ltac:(compute_done) (wf_pre _ Hwf)) as (g & zg & Hg & Bg & Fg & Rg).
  pose proof (wf_gas _ Hwf) as Hgas.
  destruct (request_number op init 128 "callGasLimit" ltac:(compute_done) (Hgas "callGasLimit" ltac:(compute_done))) as (c & zc & Hcg & Bc & Fc & Rc).
  destruct (request_number op init 128 "verificationGasLimit" ltac:(compute_done) (Hgas "verificationGasLimit" ltac:(compute_done))) as (v & zv & Hv & Bv & Fv & Rv).
  destruct (request_number op init 128 "maxFeePerGas" ltac:(compute_done) (Hgas "maxFeePerGas" ltac:(compute_done))) as (m & zm & Hm & Bm & Fm & Rm).
  destruct (request_number op init 128 "maxPriorityFeePerGas" ltac:(compute_done) (Hgas "maxPriorityFeePerGas" ltac:(compute_done))) as (r & zr & Hr & Br & Fr & Rr).
  eexists. split; [done|]. split.
  - unfold received. rewrite (request_common _ _ "sender"), Hs by compute_done. cbn [mbind option_bind].
    rewrite Fn, Fv, Fc, Fg, Fr, Fm. cbn [mbind option_bind]. rewrite Hpm, Hinit. reflexivity.
  - unfold user_op_hash, op_big, op_text. rewrite Hs, Hn, Hcall, Hcg, Hv, Hg, Hm, Hr. cbn [bindM deref retM].
    unfold entry_point_hash. cbn [pk_sender pk_nonce pk_init pk_call pk_verification_gas pk_call_gas pk_pre_gas pk_priority_fee
      pk_max_fee pk_paymaster].
    rewrite Bn, Bc, Bv, Bg, Bm, Br, !word32_be, !bytes16_be, !left_pad_address by (done || apply address_bytes).
    unfold f_bytes. rewrite (request_common _ _ "callData"), Hcall by compute_done. done.
Qed.
End hash.

(** ** Accounts *)

(** AES-GCM opens what it sealed; a nonce has twelve bytes. *)
Class AlchemyLaws `{O : DecimalOps} (AU : AuthServices) (AS : AlchemyServices) : Prop := {
  seal_open : forall secret nonce p c, gcm_seal secret nonce p = Some c -> gcm_open secret nonce c = Some p;
  nonce_length : forall w, String.length (fresh_nonce w) = 12%nat
}.

Section accounts.
Context {O : DecimalOps} {EC : EthCommon} {AU : AuthServices} {AS : @AlchemyServices O}.
Variable auth : AuthConf.
Variable conf : AlchemyConf.

Lemma read_ok w : w_faults w = [] -> read_db None w = (Ret (w_db w), w).
Proof. intros H. unfold read_db, bindM, ext. by rewrite H. Qed.
Lemma substring_after s t : substring (String.length s) (String.length (s +:+ t) - String.length s) (s +:+ t) = t.
Proof.
  induction s as [|c s IH]; [|exact IH]. change ("" +:+ t) with t. cbn [String.length]. rewrite Nat.sub_0_r. apply substring_all.
Qed.

Lemma encrypt_decrypt {AL : AlchemyLaws AU AS} p c w w' w'' :
  EncryptPlain auth p w = (Ret c, w') -> decrypt auth c w'' = (Ret p, w'').
Proof.
  unfold EncryptPlain. cbn [bindM getM]. destruct (gcm_seal _ _ _) as [s|] eqn:E; intros H; [|done].
  injection H as <- _. unfold decrypt, DecryptPlain.
  pose proof (substring_0_app (fresh_nonce w) s) as H0. pose proof (substring_after (fresh_nonce w) s) as H1.
  rewrite nonce_length in H0, H1. rewrite H0, H1, (seal_open _ _ _ _ E).
  destruct (Nat.ltb_spec (String.length (fresh_nonce w +:+ s)) 12) as [Hl|]; [|done]. rewrite append_length, nonce_length in Hl. lia.
Qed.

(** A new key account: the stored salt decrypts to the key whose address was given out. *)
Theorem created_key_recovers {AL : AlchemyLaws AU AS} address salt w w' w'' :
  CreateEVMAddress auth w = (Ret (address, salt), w') ->
  exists key, address = address_hex (PubkeyToAddress key) /\ GenerateKey w = Some key /\
    decrypt auth salt w'' = (Ret (string_of_bytes key), w'').
Proof.
  unfold CreateEVMAddress. cbn [bindM getM]. destruct (GenerateKey w) as [key|]; [|done]. unfold bindM, wrapM, tryM.
  destruct (EncryptPlain auth (string_of_bytes key) w) as [[c|e|] w1] eqn:E; [|done|done]. intros [= <- <- _].
  exists key. split_and!; [done|done|]. by eapply encrypt_decrypt.
Qed.

(** The node cannot be asked, or does not answer with an address: the creation of a
    smart account succeeds, with an empty address. *)
Theorem failed_creation_gives_empty_address owner chainID sealed w :
  w_faults w = [] -> List.filter (fun n => (nw_chain_id n =? chainID)%Z) (db_networks (w_db w)) = [] ->
  gcm_seal (au_Secret auth) (fresh_nonce w) (string_of_bytes (generateUniqueSalt (w_now w))) = Some sealed ->
  CreateSmartAccount auth conf chainID owner w = (Ret ("", fresh_nonce w +:+ sealed), w).
Proof.
  intros Hf Hn Hs. unfold CreateSmartAccount, computeSmartAccountAddressWithSalt, network_of_chain, EncryptPlain, wrapM.
  cbn [bindM getM]. unfold bindM, tryM. rewrite (read_ok w Hf). rewrite Hn. cbn [only errM retM getM]. rewrite Hs. done.
Qed.

(** An address whose row holds an encrypted key is taken for a smart account, of which
    there is no row: the batch fails, nothing is sent, and the key is never used. *)
Theorem key_account_never_spends chainID address txs a w :
  w_faults w = [] -> rows_at address (w_db w) = [a] -> has_salt a = true -> ra_is_deployed a = false ->
  ra_status a <> APoolReady -> txs <> [] ->
  exists e, AlchemySendTransactionBatch auth conf chainID address txs w = (Err e, w).
Proof.
  intros Hf Hr Hs Hd Hp Ht.
  assert (Hrow : account_row address w = (Err (EWrap "failed to get receive address from database" ENotFound), w)).
  { unfold account_row, wrapM, tryM, bindM. rewrite (read_ok w Hf), Hr. cbn [List.filter]. rewrite Hd, bool_decide_false by done. done. }
  assert (Hsend : forall tx, exists e, send_user_operation auth conf chainID address tx w = (Err e, w)).
  { intros tx. unfold send_user_operation, bindM at 1. rewrite Hrow. by eexists. }
  assert (Hsmart : is_smart_account chainID address w = (Ret true, w)).
  { unfold is_smart_account, tryM, bindM. rewrite (read_ok w Hf), Hr. cbn [only retM]. by rewrite Hs, orb_true_r. }
  unfold AlchemySendTransactionBatch, bindM at 1. rewrite Hsmart.
  destruct txs as [|tx [|tx' txs]]; [done|apply Hsend|]. cbn [sendUserOperationBatch send_each].
  destruct (Hsend tx) as [e He]. unfold bindM, wrapM, tryM. rewrite He. by eexists.
Qed.

(** A pool address with more than one row, as every assignment to an order makes: the
    rows are not looked at, and when the node cannot be asked the account passes for
    one with a key, which it does not have; the batch fails although every row says
    that the account is deployed. *)
Theorem pool_account_needs_node chainID address txs a b rest w :
  w_faults w = [false; true] -> chainID ∈ [84532; 8453; 11155111; 1] ->
  rows_at address (w_db w) = a :: b :: rest ->
  Forall (fun r => ra_is_deployed r = true /\ has_salt r = false) (a :: b :: rest) -> txs <> [] ->
  exists e, AlchemySendTransactionBatch auth conf chainID address txs w = (Err e, set_faults [] w).
Proof.
  intros Hf Hc Hr Hall Ht.
  assert (Hsmart : is_smart_account chainID address w = (Ret false, set_faults [] w)).
  { unfold is_smart_account, tryM at 1, bindM at 1, read_db, bindM at 1, ext. rewrite Hf. cbn [view]. 
    cbn [set_faults w_db]. rewrite Hr. cbn [only errM].
    repeat (apply elem_of_cons in Hc as [->|Hc]; [reflexivity|]). by apply elem_of_nil in Hc. }
  assert (Hkeys : List.filter (fun r => String.eqb (ra_address r) address && has_salt r) (address_rows (w_db w)) = []).
  { destruct (List.filter _ (address_rows _)) as [|r l] eqn:E; [done|]. exfalso.
    assert (Hin : In r (List.filter (fun r => String.eqb (ra_address r) address && has_salt r) (address_rows (w_db w)))) by (rewrite E; by left).
    apply List.filter_In in Hin as [Hin [Ha Hs]%andb_true_iff].
    assert (Hrow : r ∈ rows_at address (w_db w)) by (apply list_elem_of_In, List.filter_In; by rewrite Ha).
    rewrite Hr in Hrow. rewrite Forall_forall in Hall. destruct (Hall r Hrow) as [_ Hn]. by rewrite Hn in Hs. }
  unfold AlchemySendTransactionBatch, bindM at 1. rewrite Hsmart. destruct txs as [|tx txs]; [done|].
  unfold sendEOATransactionBatch, wrapM at 1, tryM, bindM. rewrite read_ok by done. cbn [set_faults w_db]. rewrite Hkeys. by eexists.
Qed.

(** ** The service behind the gateway *)

Lemma calm_eoa_send chainID key tx : calm any (sendEOATransaction chainID key tx).
Proof.
  unfold sendEOATransaction, wrapM. calm_tac; apply quiet_calm; auto with quiet.
Qed.
Lemma calm_send_each what (send : TxCall -> M string) : (forall tx, calm any (send tx)) -> forall txs last, calm any (send_each what send last txs).
Proof. intros H. induction txs as [|tx txs IH]; intros last; cbn [send_each]; unfold wrapM; calm_tac; apply H. Qed.
Lemma calm_eoa_each what chainID key txs last : calm any (send_each what (sendEOATransaction chainID key) last txs).
Proof. apply calm_send_each, calm_eoa_send. Qed.
#[local] Hint Resolve calm_eoa_each : calm.
Lemma calm_alchemy_batch chainID address txs : calm any (AlchemySendTransactionBatch auth conf chainID address txs).
Proof.
  unfold AlchemySendTransactionBatch. apply calm_bind; [apply quiet_calm; auto with quiet| |done|done]. intros [].
  - intros w. eapply wp_mono; [apply batch_in_order|]. by intros o w' [H _].
  - unfold sendEOATransactionBatch, wrapM. calm_tac; apply quiet_calm; auto with quiet.
Qed.

(** The gateway of [Gateway] with this service in the place of its parameter. *)
Definition alchemy_gateway (G : GatewayServices) : GatewayServices := {|
  use_alchemy := al_UseAlchemy conf;
  aggregator_account := @aggregator_account _ G;
  undefined_int := @undefined_int _ G;
  encrypt_recipient := @encrypt_recipient _ G;
  abi_pack := @abi_pack _ G;
  engine_answer := @engine_answer _ G;
  alchemy_batch := AlchemySendTransactionBatch auth conf
|}.
#[export] Instance alchemy_gateway_laws G : GatewayLaws (alchemy_gateway G).
Proof. split. exact calm_alchemy_batch. Qed.
End accounts.

(** ** Concrete runs *)

(** A node that answers every request with a hash, and a cipher that only adds a nonce. *)
#[export] Instance s_alchemy : AlchemyServices := {|
  rpc_answer _ _ _ _ := mkResp 200 (BObject [("result", JStr "0xhash")]);
  wallet_answer _ _ := mkResp 200 (BObject [("result", JObj [("smartAccountAddress", JStr "0xsmart")])]);
  undefined_big _ := 0;
  keccak256 b := be_bytes 32 (set_bytes b);
  from_hex := FromHex;
  GenerateKey _ := Some (replicate 32 7);
  ToECDSA b := Some b;
  HexToECDSA s := Some [1];
  PubkeyToAddress key := set_length 20 key;
  ecdsa_sign digest key := Some (replicate 64 1 ++ [0]);
  sign_tx chain key tx := Some [et_nonce tx];
  fresh_nonce _ := "nonce-nonce-";
  gcm_seal key nonce p := if String.eqb nonce "nonce-nonce-" then Some p else None
|}.
#[export] Instance s_alchemy_laws : AlchemyLaws s_auth s_alchemy.
Proof. split; [|done]. intros secret nonce p c. cbn. by destruct (String.eqb nonce "nonce-nonce-"). Qed.

Definition s_owner : string := "0x00112233445566778899AABBCCDDEEFF00112233".
Definition s_alchemy_conf : AlchemyConf := mkAlchemyConf "key" "" s_owner "0x01" true true true 84532.
Definition s_account (id : Z) (deployed : bool) (status : AddrStatus) (salt : string) : ReceiveAddress :=
  mkRA id "0xaccount" status deployed "base-sepolia" 84532 0 0 0 0 0 "" 0 salt.
Definition s_chain_world (rows : gmap Z ReceiveAddress) (faults : list bool) : World :=
  set_db (set_receive_addresses rows (s_db (s_pc 100 0 100))) (s_world (s_pc 100 0 100) faults).
Definition s_calls : list TxCall := [mkCall "0x01" "0xa9059cbb" "0"; mkCall "0x02" "0xff" "0"].

Lemma execute_calldata_roundtrip_witness :
  abi_execute (Hex2Bytes (TrimPrefix (encodeExecuteCallData s_owner "0x1f" "0xa9059cbb00ff") "0x")) =
    Some (HexToAddress s_owner, 31, [169; 5; 156; 187; 0; 255]).
Proof. refine (execute_calldata_roundtrip s_owner "0x1f" "0xa9059cbb00ff" _ _); (split; vm_compute; [discriminate|reflexivity]). Defined.

(** An account whose deployment is pending, with the salt of its address. *)
Definition s_pending : World := s_chain_world {[ 1 := s_account 1 false APoolReady "nonce-nonce-salt" ]} [].
(** Both operations of the batch reach the bundler. *)
Example s_batch_sent :
  length (w_events (AlchemySendTransactionBatch s_auth_conf s_alchemy_conf 56 "0xaccount" s_calls s_pending).2) = 0%nat /\
  length (w_events (AlchemySendTransactionBatch s_auth_conf s_alchemy_conf (nw_chain_id s_network) "0xaccount" s_calls s_pending).2) = 2%nat.
Proof. split; vm_refl. Qed.
Lemma batch_repeats_deployment_witness :
  wp (sendUserOperationBatch s_auth_conf s_alchemy_conf (nw_chain_id s_network) "0xaccount" s_calls) (fun _ w' => exists ops,
    w_events w' = w_events s_pending ++ map (EvUserOperation (nw_chain_id s_network)) ops /\
    Forall (fun op => op !! "nonce" = Some (JStr "0x0") /\ is_Some (op !! "factory")) ops) s_pending.
Proof. refine (batch_repeats_deployment _ _ _ _ _ _ _). vm_compute. repeat constructor. Defined.

(** A sponsored operation that deploys its account. *)
Definition s_operation : gmap string string :=
  <["paymasterVerificationGasLimit" := "0x7530"]> (<["paymasterData" := "0xBEEF"]>
    (<["paymaster" := s_owner]> (base_operation s_owner "0x0" "0xb61d27f6" (Some (getSmartAccountInitCode s_owner "2a"))))).
Lemma hex_field_check s : HasPrefix s "0x" = true ->
  ToLower (TrimPrefix s "0x") = Bytes2Hex (hex_prefix (String.list_ascii_of_string (TrimPrefix s "0x"))) ->
  s = "0x" +:+ TrimPrefix s "0x" -> hex_field s.
Proof. intros _ Hd Hs. exists (TrimPrefix s "0x"), (hex_prefix (String.list_ascii_of_string (TrimPrefix s "0x"))). split; [exact Hs|]. split; [apply hex_prefix_byte|exact Hd]. Qed.
Lemma number_check bits s :
  match SetString16 (TrimPrefix s "0x") with Some z => (0 <=? z)%Z && (z <? 2 ^ bits)%Z | None => false end = true -> number_below bits s.
Proof. destruct (SetString16 _) as [z|] eqn:E; [|done]. intros H. exists z. split; [done|]. lia. Qed.
Lemma s_operation_wf : well_formed s_operation.
Proof.
  split.
  - by eexists.
  - by eexists.
  - eexists. split; [vm_compute; reflexivity|]. apply number_check; vm_refl.
  - eexists. split; [vm_compute; reflexivity|]. apply number_check; vm_refl.
  - intros k Hk. repeat (apply elem_of_cons in Hk as [->|Hk]; [eexists; split; [vm_compute; reflexivity|]; apply number_check; vm_refl|]). by apply elem_of_nil in Hk.
  - intros s Hs. assert (s = getSmartAccountInitCode s_owner "2a") as -> by (by injection Hs).
    split; [apply hex_field_check; vm_refl|]. right. apply Nat.leb_le. vm_refl.
  - change (s_operation !! "paymaster") with (Some s_owner). cbv match. split; [apply hex_field_check; vm_refl|]. split.
    + intros k s Hk Hs. apply elem_of_cons in Hk as [->|Hk]; [injection Hs as <-; apply number_check; vm_refl|].
      apply elem_of_cons in Hk as [->|Hk]; [done|by apply elem_of_nil in Hk].
    + intros s [= <-]. apply hex_field_check; vm_refl.
Qed.
Lemma signed_hash_of_sent_operation_witness : exists request packed,
  packUserOperationV07 s_operation s_pending = (Ret request, s_pending) /\ received request = Some packed /\
  user_op_hash 84532 s_operation s_pending = (Ret (entry_point_hash 84532 packed), s_pending).
Proof. refine (signed_hash_of_sent_operation 84532 s_operation s_pending s_operation_wf _). split; vm_compute; [discriminate|reflexivity]. Defined.

Lemma created_key_recovers_witness : exists key,
  hex_string (replicate 20 7) = address_hex (PubkeyToAddress key) /\ GenerateKey s_pending = Some key /\
  decrypt s_auth_conf ("nonce-nonce-" +:+ string_of_bytes (replicate 32 7)) s_pending = (Ret (string_of_bytes key), s_pending).
Proof. exact (created_key_recovers s_auth_conf (hex_string (replicate 20 7)) ("nonce-nonce-" +:+ string_of_bytes (replicate 32 7))
  s_pending s_pending s_pending eq_refl). Defined.

Lemma failed_creation_gives_empty_address_witness :
  CreateSmartAccount s_auth_conf s_alchemy_conf 1 s_owner s_pending =
    (Ret ("", "nonce-nonce-" +:+ string_of_bytes (generateUniqueSalt (w_now s_pending))), s_pending).
Proof. exact (failed_creation_gives_empty_address s_auth_conf s_alchemy_conf s_owner 1 _ s_pending eq_refl ltac:(vm_refl) eq_refl). Defined.

(** A row with an encrypted key. *)
Definition s_key_account : World := s_chain_world {[ 1 := s_account 1 false AUnused "nonce-nonce-key" ]} [].
Lemma key_account_never_spends_witness :
  exists e, AlchemySendTransactionBatch s_auth_conf s_alchemy_conf 84532 "0xaccount" s_calls s_key_account = (Err e, s_key_account).
Proof.
  exact (key_account_never_spends s_auth_conf s_alchemy_conf 84532 "0xaccount" s_calls (s_account 1 false AUnused "nonce-nonce-key")
    s_key_account eq_refl ltac:(vm_refl) eq_refl eq_refl ltac:(discriminate) ltac:(discriminate)).
Defined.

(** The row of the pool and the row of one order. *)
Definition s_shared : World :=
  s_chain_world (<[1 := s_account 1 true APoolReady ""]> {[ 2 := s_account 2 true APoolAssigned "" ]}) [false; true].
Lemma pool_account_needs_node_witness :
  exists e, AlchemySendTransactionBatch s_auth_conf s_alchemy_conf 84532 "0xaccount" s_calls s_shared = (Err e, set_faults [] s_shared).
Proof.
  exact (pool_account_needs_node s_auth_conf s_alchemy_conf 84532 "0xaccount" s_calls (s_account 2 true APoolAssigned "")
    (s_account 1 true APoolReady "") [] s_shared eq_refl ltac:(compute_done) ltac:(vm_refl) ltac:(repeat constructor) ltac:(discriminate)).
Defined.
