(* ===== verification/Public.v ===== *)
(** * Public endpoints (controllers/index.go)

    Currencies, institutions, rates and tokens; the status of an order on a chain; the
    addresses that wallet owners link to bank accounts.  What the middleware left on
    the context and the parameters of the request are arguments; formatted messages
    keep their constant part. *)

From S2P Require Import Prelude Decimal Schema Store Samples Transactions Balance Utils Ethereum Services Queue Calm Orders Rows Payments Http Tasks Sender Gateway.
From S2P Require Import ChainEvents Insight Auth Alchemy.
Local Open Scope go_scope.
Local Open Scope string_scope.
Local Open Scope list_scope.

(** ** Answers (types/types.go) *)

Section answers.
Context {O : DecimalOps}.

Record SupportedCurrencies := mkSupCur {
  sc_Code : string;
  sc_Name : string;
  sc_ShortName : string;
  sc_Decimals : Z;
  sc_Symbol : string;
  sc_MarketRate : dec
}.
Record SupportedInstitutions := mkSupIns { si_Name : string; si_Code : string; si_Type : InstitutionType }.
Record SupportedTokenResponse := mkSupTok {
  sk_Symbol : string;
  sk_ContractAddress : string;
  sk_Decimals : Z;
  sk_BaseCurrency : string;
  sk_Network : string
}.
Record VerifyAccountRequest := mkVAR { va_Institution : string; va_AccountIdentifier : string }.

Record LockPaymentOrderTxReceipt := mkReceipt { rt_Status : LockStatus; rt_TxHash : string; rt_Timestamp : Z }.
Record LockPaymentOrderSplitOrder := mkSplit {
  ss_SplitOrderID : string;
  ss_Amount : dec;
  ss_Rate : dec;
  ss_OrderPercent : dec
}.
Record LockPaymentOrderStatusResponse := mkStatus {
  ls_OrderID : string;
  ls_Amount : dec;
  ls_AmountInUSD : dec;
  ls_Token : string;
  ls_Network : string;
  ls_SettlePercent : dec;
  ls_Status : LockStatus;
  ls_TxHash : string;
  ls_Settlements : list LockPaymentOrderSplitOrder;
  ls_TxReceipts : list LockPaymentOrderTxReceipt;
  ls_UpdatedAt : Z
}.

Record NewLinkedAddressRequest := mkNLA { nl_Institution : string; nl_AccountIdentifier : string; nl_AccountName : string }.
Record NewLinkedAddressResponse := mkNLR {
  nr_LinkedAddress : string;
  nr_Institution : string;
  nr_AccountIdentifier : string;
  nr_AccountName : string;
  nr_UpdatedAt : Z;
  nr_CreatedAt : Z
}.
Record LinkedAddressResponse := mkLAR {
  lr_LinkedAddress : string;
  lr_Currency : string;
  lr_Institution : string;
  lr_AccountIdentifier : string;
  lr_AccountName : string
}.
Record LinkedAddressTransactionRecipient := mkLTR {
  lt_Currency : string;
  lt_Institution : string;
  lt_AccountIdentifier : string;
  lt_AccountName : string
}.
Record LinkedAddressTransaction := mkLAT {
  lx_ID : string;
  lx_Amount : dec;
  lx_Token : string;
  lx_Rate : dec;
  lx_Network : string;
  lx_GatewayID : string;
  lx_Recipient : LinkedAddressTransactionRecipient;
  lx_FromAddress : string;
  lx_ReturnAddress : string;
  lx_CreatedAt : Z;
  lx_UpdatedAt : Z;
  lx_TxHash : string;
  lx_Status : PayStatus
}.
Record LinkedAddressTransactionList := mkLATL {
  ll_TotalRecords : Z;
  ll_Page : Z;
  ll_PageSize : Z;
  ll_Transactions : list LinkedAddressTransaction
}.
End answers.

Section public.
Context {O : DecimalOps} {OS : @OrderServices O} {SV : @Services O} {SS : @SenderServices O}.
Context {EC : EthCommon} {AU : AuthServices} {AS : @AlchemyServices O}.

(** ** Catalogue *)

(** [int8(n)] *)
Definition int8 (z : Z) : Z := ((z + 128) mod 256 - 128)%Z.

Definition currency_rows (d : DB) : list FiatCurrency := map snd (map_to_list (db_currencies d)).
Definition supported_currency (c : FiatCurrency) : SupportedCurrencies :=
  mkSupCur (fc_code c) (fc_name c) (fc_short_name c) (int8 (fc_decimals c)) (fc_symbol c) (fc_market_rate c).
Definition GetFiatCurrencies : M (ApiResponse (list SupportedCurrencies)) :=
  let? d := read_db None orelse _e => (api_error 400 "Failed to fetch FiatCurrencies") in
  api_success 200 "OK" (map supported_currency (List.filter fc_is_enabled (currency_rows d))).

(** The institutions whose currency has the code. *)
Definition in_currency (d : DB) (code : string) (i : Institution) : bool :=
  match c ← in_fiat_currency i; db_currencies d !! c with Some fc => String.eqb (fc_code fc) code | None => false end.
Definition GetInstitutionsByCurrency (currencyCode : string) : M (ApiResponse (list SupportedInstitutions)) :=
  let? d := read_db None orelse _e => (api_error 400 "Failed to fetch institutions") in
  api_success 200 "OK" (map (fun i => mkSupIns (in_name i) (in_code i) (in_type i))
                          (List.filter (in_currency d (ToUpper currencyCode)) (db_institutions d))).

(** The tokens that are enabled, on one network when there is a filter. *)
Definition token_on_network (networkFilter : string) (t : Token) : bool :=
  String.eqb networkFilter "" || String.eqb (nw_identifier (tk_network t)) (ToLower networkFilter).
Definition GetSupportedTokens (networkFilter : string) : M (ApiResponse (list SupportedTokenResponse)) :=
  let? d := read_db None orelse _e => (api_error 500 "Failed to fetch tokens") in
  api_success 200 "Tokens retrieved successfully"
    (map (fun t => mkSupTok (tk_symbol t) (tk_contract_address t) (tk_decimals t) (tk_base_currency t) (nw_identifier (tk_network t)))
       (List.filter (fun t => tk_is_enabled t && token_on_network networkFilter t) (db_tokens d))).

Definition GetAggregatorPublicKey (publicKey : string) : M (ApiResponse string) := api_success 200 "OK" publicKey.

(** The text of an error. *)
Definition no_provider (e : error) : bool := match e with EMsg m => Contains m "no provider available" | _ => false end.

Definition GetTokenRate (token amount fiat network providerID : string) : M (ApiResponse dec) :=
  let tokenSymbol := ToUpper token in
  let? tk := (let! d := read_db None in
              first (List.filter (fun t => String.eqb (tk_symbol t) tokenSymbol && tk_is_enabled t && token_on_network network t) (db_tokens d)))
  orelse e => (if IsNotFound e then api_error 400 (if String.eqb network "" then "Token is not supported"
                                                   else "Token is not supported on network")
               else api_error 500 "Failed to fetch token rate") in
  let? fc := (let! d := read_db None in
              only (List.filter (fun c => fc_is_enabled c && String.eqb (fc_code c) (ToUpper fiat)) (currency_rows d)))
  orelse e => (if IsNotFound e then api_error 400 "Fiat currency is not supported" else api_error 500 "Failed to fetch token rate") in
  if negb (EqualFold (tk_base_currency tk) (fc_code fc)) && negb (EqualFold (tk_base_currency tk) "USD")
  then api_error 400 "Token can only be converted to its base currency"
  else
    match d_parse amount with
    | None => api_error 400 "Invalid amount"
    | Some tokenAmount =>
        let? rateResponse := ValidateRate (scan_buckets (fc_code fc)) tk fc tokenAmount providerID (ToLower network)
        orelse e => (if no_provider e then api_error 404 "no provider available" else api_error 500 "Failed to fetch token rate") in
        api_success 200 "Rate fetched successfully" rateResponse
    end.

(** [payload] is what the body binds to; [None] when it does not. *)
Definition VerifyAccount (payload : option VerifyAccountRequest) : M (ApiResponse string) :=
  match payload with
  | None => api_error 400 "Failed to validate payload"
  | Some payload =>
      let? accountName := ValidateAccount (va_Institution payload) (va_AccountIdentifier payload)
      orelse _e => (api_error 503 "Failed to verify account") in
      api_success 200 "Account name was fetched successfully" accountName
  end.

(** ** The status of an order *)

(** [slices.SortStableFunc] by the latest timestamp: an element goes before the first
    one that is not later. *)
Fixpoint insert_receipt (x : LockPaymentOrderTxReceipt) (l : list LockPaymentOrderTxReceipt) : list LockPaymentOrderTxReceipt :=
  match l with
  | [] => [x]
  | y :: r => if (rt_Timestamp x <? rt_Timestamp y)%Z then y :: insert_receipt x r else x :: l
  end.
Definition sort_receipts (l : list LockPaymentOrderTxReceipt) : list LockPaymentOrderTxReceipt := foldr insert_receipt [] l.

(** A log that makes a receipt, and the status it shows. *)
Definition receipt_status (s : TxLogStatus) : option LockStatus :=
  match s with TOrderCreated => Some LPending | TOrderSettled => Some LSettled | TOrderRefunded => Some LRefunded | _ => None end.
Definition receipt_of (l : TransactionLog) : option LockPaymentOrderTxReceipt :=
  (fun s => mkReceipt s (tl_tx_hash l) (tl_created_at l)) <$> receipt_status (tl_status l).
Definition order_logs (d : DB) (o : LockPaymentOrder) : list TransactionLog :=
  List.filter (fun l => existsb (Z.eqb (tl_id l)) (lo_transactions o)) (db_tx_logs d).
Definition split_of (o : LockPaymentOrder) : LockPaymentOrderSplitOrder :=
  mkSplit (lo_id o) (lo_amount o) (lo_rate o) (lo_order_percent o).

(** What the loop over the orders gathers. *)
Record Gathered := mkGathered {
  gt_settlements : list LockPaymentOrderSplitOrder;
  gt_receipts : list LockPaymentOrderTxReceipt;
  gt_percent : dec;
  gt_amount : dec;
  gt_usd : dec
}.
Definition gather (d : DB) (g : Gathered) (o : LockPaymentOrder) : Gathered :=
  mkGathered (gt_settlements g ++ [split_of o]) (gt_receipts g ++ omap receipt_of (order_logs d o))
    (d_add (gt_percent g) (lo_order_percent o)) (d_add (gt_amount g) (lo_amount o)) (d_add (gt_usd g) (lo_amount_in_usd o)).

Definition on_chain (orderID : string) (chainID : Z) (o : LockPaymentOrder) : bool :=
  String.eqb (lo_gateway_id o) orderID && (nw_chain_id (tk_network (lo_token o)) =? chainID)%Z.

Definition GetLockPaymentOrderStatus (orderID chainParam : string) : M (ApiResponse LockPaymentOrderStatusResponse) :=
  match ParseInt chainParam with
  | None => api_error 400 "Invalid chain ID"
  | Some chainID =>
      let? d := read_db None orelse _e => (api_error 500 "Failed to fetch order status") in
      let orders := List.filter (on_chain orderID chainID) (lock_rows d) in
      let g := foldl (gather d) (mkGathered [] [] d_zero d_zero d_zero) orders in
      let receipts := sort_receipts (gt_receipts g) in
      match orders, receipts with
      | first :: _, latest :: _ =>
          let status := if bool_decide (lo_status first = LCancelled) then LProcessing else lo_status first in
          api_success 200 "Order status fetched successfully"
            (mkStatus (lo_gateway_id first) (gt_amount g) (gt_usd g) (tk_symbol (lo_token first))
               (nw_identifier (tk_network (lo_token first))) (gt_percent g) status (rt_TxHash latest) (gt_settlements g) receipts
               (lo_updated_at first))
      | _, _ => api_error 404 "Order not found"
      end
  end.

(** ** Linked addresses *)

Variable auth : AuthConf.
Variable conf : AlchemyConf.

(** [LinkedAddress.Create()...Save]: the address and the owner are unique; the salt of
    the address is not set. *)
Definition create_linked (address owner : string) (p : NewLinkedAddressRequest) : M LinkedAddress :=
  modify_db None (fun d =>
    let a := mkLA (db_next_id d) address (nl_Institution p) (nl_AccountIdentifier p) (nl_AccountName p) "" owner 0 "" in
    if existsb (fun l => String.eqb (la_address l) address || String.eqb (la_owner_address l) owner) (db_linked_addresses d)
    then inl (EMsg "constraint failed")
    else inr (set_next_id (db_next_id d + 1) (set_linked_addresses (db_linked_addresses d ++ [a]) d), a)).

(** The type assertion on the owner of the context panics. *)
Definition context_owner (c : Ctx) : M string :=
  match cx_values c !! "owner_address" with Some (VString s) => retM s | _ => panicM end.

Definition CreateLinkedAddress (c : Ctx) (payload : option NewLinkedAddressRequest) : M (ApiResponse NewLinkedAddressResponse) :=
  match payload with
  | None => api_error 400 "Failed to validate payload"
  | Some payload =>
      let? created := CreateSmartAddress auth conf "" orelse _e => (api_error 500 "Failed to create linked address") in
      let! owner := context_owner c in
      let! w := getM in
      let? a := create_linked (fst created) owner payload orelse _e => (api_error 500 "Failed to create linked address") in
      api_success 200 "Linked address created successfully"
        (mkNLR (la_address a) (la_institution a) (la_account_identifier a) (la_account_name a) (w_now w) (w_now w))
  end.

(** Whether the context holds an owner. *)
Definition signed_in (c : Ctx) : bool := match cx_values c !! "owner_address" with None | Some VNil => false | _ => true end.

(** The account details are shown when any owner has signed in. *)
Definition GetLinkedAddress (c : Ctx) (owner_address : string) : M (ApiResponse LinkedAddressResponse) :=
  let? a := (let! d := read_db None in
             only (List.filter (fun l => String.eqb (la_owner_address l) owner_address) (db_linked_addresses d)))
  orelse e => (if IsNotFound e then api_error 404 "Linked address not found" else api_error 500 "Failed to fetch linked address") in
  let? ins := GetInstitutionByCode (la_institution a) false orelse _e => (api_error 500 "Failed to fetch linked address") in
  let! fc := deref (snd ins) in
  api_success 200 "Linked address fetched successfully"
    (if signed_in c
     then mkLAR (la_address a) (fc_code fc) (in_name (fst ins)) (la_account_identifier a) (la_account_name a)
     else mkLAR (la_address a) (fc_code fc) "" "" "").

Fixpoint linked_transactions (orders : list PaymentOrder) : M (list LinkedAddressTransaction) :=
  match orders with
  | [] => retM []
  | o :: rest =>
      let! ins := GetInstitutionByCode (re_institution (po_recipient o)) false in
      let! fc := deref (snd ins) in
      let! others := linked_transactions rest in
      retM (mkLAT (po_id o) (po_amount o) (tk_symbol (po_token o)) (po_rate o) (nw_identifier (tk_network (po_token o)))
              (po_gateway_id o)
              (mkLTR (fc_code fc) (in_name (fst ins)) (re_account_identifier (po_recipient o)) (re_account_name (po_recipient o)))
              (po_from_address o) (po_return_address o) (po_created_at o) (po_updated_at o) (po_tx_hash o) (po_status o) :: others)
  end.

Definition GetLinkedAddressTransactions (linked_address : string) (page pageSize : option Z)
    : M (ApiResponse LinkedAddressTransactionList) :=
  let failed {A} : M (ApiResponse A) := api_error 500 "Failed to fetch transactions" in
  let? a := (let! d := read_db None in
             only (List.filter (fun l => String.eqb (la_address l) linked_address) (db_linked_addresses d)))
  orelse e => (if IsNotFound e then api_error 404 "Linked address not found" else api_error 500 "Failed to fetch linked address") in
  let '(page, offset, pageSize) := Paginate page pageSize in
  let rows (d : DB) := List.filter (fun o => bool_decide (po_linked_address o = Some (la_id a))) (payment_rows d) in
  let? d := read_db None orelse _e => (failed) in
  let count := Z.of_nat (length (rows d)) in
  let? paymentOrders := (let! d := read_db None in
                         if (offset <? 0)%Z then errM (EMsg "OFFSET must not be negative")
                         else retM (slice offset pageSize (rows d)))
  orelse _e => (failed) in
  let? orders := linked_transactions paymentOrders orelse _e => (api_error 500 "Failed to fetch payment orders") in
  api_success 200 "Transactions fetched successfully" (mkLATL count page pageSize orders).

End public.
