(* ===== verification/PublicClaims.v ===== *)
(** * Theorems about the public endpoints

    The status of an order sums up its split orders and orders its receipts
    ([order_status_correct]).  Linked addresses stay unique by address and by owner
    ([linked_addresses_unique]).  The bank account behind a linked address is not shown
    to a caller who has not signed in ([linked_account_hidden]), and is shown to
    everyone who has ([linked_account_of_any_owner]).  Reading changes nothing. *)

From stdpp Require Import sorting.
From S2P Require Import Prelude Decimal Schema Store Samples Transactions Balance Utils Ethereum Services Queue Calm Orders Rows Payments Http Tasks Sender Gateway.
From S2P Require Import ChainEvents Insight Auth AuthClaims Alchemy AlchemyClaims SenderClaims Public.
Local Open Scope go_scope.
Local Open Scope string_scope.
Local Open Scope list_scope.

Section order_status.
Context {O : DecimalOps} {L : DecimalLaws O}.

(** ** Receipts *)

Definition later (x y : LockPaymentOrderTxReceipt) : Prop := (rt_Timestamp y <= rt_Timestamp x)%Z.
Definition same_time (t : Z) (l : list LockPaymentOrderTxReceipt) : list LockPaymentOrderTxReceipt :=
  List.filter (fun x => (rt_Timestamp x =? t)%Z) l.

Lemma insert_receipt_perm x l : insert_receipt x l ≡ₚ x :: l.
Proof.
  induction l as [|y l IH]; [done|]. simpl. destruct (_ <? _)%Z; [|done]. rewrite IH. apply Permutation_swap.
Qed.
Lemma sort_receipts_perm l : sort_receipts l ≡ₚ l.
Proof. induction l as [|x l IH]; [done|]. cbn [sort_receipts foldr]. fold (sort_receipts l). by rewrite insert_receipt_perm, IH. Qed.
Lemma insert_receipt_sorted x l : StronglySorted later l -> StronglySorted later (insert_receipt x l).
Proof.
  induction 1 as [|y l Hs IH Hall]; [repeat constructor|]. simpl. destruct (Z.ltb_spec (rt_Timestamp x) (rt_Timestamp y)) as [Hlt|Hge].
  - constructor; [done|]. rewrite insert_receipt_perm. constructor; [unfold later; lia|done].
  - constructor; [by constructor|]. constructor; [exact Hge|]. eapply Forall_impl; [exact Hall|]. unfold later. intros z Hz. simpl in Hz. lia.
Qed.
Lemma sort_receipts_sorted l : StronglySorted later (sort_receipts l).
Proof. induction l as [|x l IH]; [constructor|]. by apply insert_receipt_sorted. Qed.
(** Receipts of the same time keep their order. *)
Lemma insert_receipt_stable t x l : same_time t (insert_receipt x l) = same_time t (x :: l).
Proof.
  induction l as [|y l IH]; [done|]. cbn [insert_receipt]. destruct (Z.ltb_spec (rt_Timestamp x) (rt_Timestamp y)); [|done].
  unfold same_time in *. cbn [List.filter] in *. rewrite IH.
  destruct (Z.eqb_spec (rt_Timestamp x) t), (Z.eqb_spec (rt_Timestamp y) t); try done. lia.
Qed.
Lemma sort_receipts_stable t l : same_time t (sort_receipts l) = same_time t l.
Proof.
  induction l as [|x l IH]; [done|]. cbn [sort_receipts foldr]. fold (sort_receipts l). rewrite insert_receipt_stable.
  unfold same_time in *. cbn [List.filter]. by rewrite IH.
Qed.

(** ** Sums *)

Definition total (f : LockPaymentOrder -> dec) (orders : list LockPaymentOrder) : Q :=
  foldr (fun o q => (d_val (f o) + q)%Q) 0%Q orders.

Lemma gather_fold d orders : forall g,
  let g' := foldl (gather d) g orders in
  gt_settlements g' = gt_settlements g ++ map split_of orders /\
  gt_receipts g' = gt_receipts g ++ concat (map (fun o => omap receipt_of (order_logs d o)) orders) /\
  (d_val (gt_percent g') == d_val (gt_percent g) + total lo_order_percent orders)%Q /\
  (d_val (gt_amount g') == d_val (gt_amount g) + total lo_amount orders)%Q /\
  (d_val (gt_usd g') == d_val (gt_usd g) + total lo_amount_in_usd orders)%Q.
Proof.
  induction orders as [|o orders IH]; intros g; simpl; [rewrite !app_nil_r; split_and!; try done; ring|].
  destruct (IH (gather d g o)) as (H1 & H2 & H3 & H4 & H5). rewrite H1, H2, H3, H4, H5. unfold gather. simpl.
  rewrite !val_add, <- !app_assoc. split_and!; try done; ring.
Qed.

(** ** The endpoint *)

Lemma read_wp (Q : outcome DB -> World -> Prop) w :
  (forall fs, Q (Ret (w_db w)) (set_faults fs w)) ->
  (forall fs, head (w_faults w) = Some true -> Q (Err EFault) (set_faults fs w)) -> wp (read_db None) Q w.
Proof.
  intros H1 H2. unfold wp, read_db, bindM, ext. destruct (w_faults w) as [|[] fs] eqn:E; [|by apply H2|apply H1].
  specialize (H1 []). rewrite <- E in H1. by destruct w.
Qed.

(** What a caller may rely on. *)
Record shows (d : DB) (orderID : string) (chainID : Z) (r : LockPaymentOrderStatusResponse) : Prop := {
  sh_orders : exists first rest, List.filter (on_chain orderID chainID) (lock_rows d) = first :: rest /\
    ls_OrderID r = orderID /\ ls_UpdatedAt r = lo_updated_at first /\
    ls_Status r = (if bool_decide (lo_status first = LCancelled) then LProcessing else lo_status first);
  sh_amount : (d_val (ls_Amount r) == total lo_amount (List.filter (on_chain orderID chainID) (lock_rows d)))%Q;
  sh_usd : (d_val (ls_AmountInUSD r) == total lo_amount_in_usd (List.filter (on_chain orderID chainID) (lock_rows d)))%Q;
  sh_percent : (d_val (ls_SettlePercent r) == total lo_order_percent (List.filter (on_chain orderID chainID) (lock_rows d)))%Q;
  sh_splits : ls_Settlements r = map split_of (List.filter (on_chain orderID chainID) (lock_rows d));
  sh_receipts : let all := concat (map (fun o => omap receipt_of (order_logs d o)) (List.filter (on_chain orderID chainID) (lock_rows d))) in
    ls_TxReceipts r ≡ₚ all /\ StronglySorted later (ls_TxReceipts r) /\ (forall t, same_time t (ls_TxReceipts r) = same_time t all);
  sh_latest : exists x rest, ls_TxReceipts r = x :: rest /\ ls_TxHash r = rt_TxHash x
}.
Definition status_answer (w : World) (orderID chainParam : string) (r : ApiResponse LockPaymentOrderStatusResponse) : Prop :=
  let d := w_db w in
  match ParseInt chainParam with
  | None => ar_code r = 400
  | Some chainID =>
      (ar_code r = 500 /\ head (w_faults w) = Some true) \/
      (ar_code r = 404 /\ (List.filter (on_chain orderID chainID) (lock_rows d) = [] \/
         forall o, o ∈ List.filter (on_chain orderID chainID) (lock_rows d) -> omap receipt_of (order_logs d o) = [])) \/
      (ar_code r = 200 /\ exists res, ar_data r = Some res /\ shows d orderID chainID res)
  end.

Lemma status_shows d orderID chainID first rest latest receipts :
  List.filter (on_chain orderID chainID) (lock_rows d) = first :: rest ->
  let g := foldl (gather d) (mkGathered [] [] d_zero d_zero d_zero) (first :: rest) in
  sort_receipts (gt_receipts g) = latest :: receipts ->
  shows d orderID chainID
    (mkStatus (lo_gateway_id first) (gt_amount g) (gt_usd g) (tk_symbol (lo_token first))
       (nw_identifier (tk_network (lo_token first))) (gt_percent g)
       (if bool_decide (lo_status first = LCancelled) then LProcessing else lo_status first) (rt_TxHash latest) (gt_settlements g)
       (latest :: receipts) (lo_updated_at first)).
Proof.
  intros Ho g Hr. destruct (gather_fold d (first :: rest) (mkGathered [] [] d_zero d_zero d_zero)) as (H1 & H2 & H3 & H4 & H5).
  fold g in H1, H2, H3, H4, H5. cbn [gt_settlements gt_receipts gt_percent gt_amount gt_usd app] in *.
  rewrite val_zero in H3, H4, H5.
  assert (Hid : lo_gateway_id first = orderID).
  { assert (Hin : In first (List.filter (on_chain orderID chainID) (lock_rows d))) by (rewrite Ho; by left).
    apply List.filter_In in Hin as [_ [Hid%String.eqb_eq _]%andb_true_iff]. done. }
  split; cbn [ls_OrderID ls_Amount ls_AmountInUSD ls_SettlePercent ls_Status ls_TxHash ls_Settlements ls_TxReceipts ls_UpdatedAt];
    rewrite ?Ho.
  - exists first, rest. by rewrite Hid.
  - rewrite H4. ring.
  - rewrite H5. ring.
  - rewrite H3. ring.
  - exact H1.
  - rewrite <- Hr, H2. split; [apply sort_receipts_perm|]. split; [apply sort_receipts_sorted|]. intros t. apply sort_receipts_stable.
  - eauto.
Qed.

(** C27: the status of an order on a chain, whatever fails: sums of amount, value and share
    over its split orders, every split order, and every receipt of theirs, the latest
    first and receipts of one time in their order; the hash is the latest receipt's.
    404 exactly stands for no order or no receipt.  The share adds up the shares of all
    split orders, settled or not. *)
Theorem order_status_correct orderID chainParam w :
  wp (GetLockPaymentOrderStatus orderID chainParam)
    (fun o w' => idle w w' /\ exists r, o = Ret r /\ status_answer w orderID chainParam r) w.
Proof.
  unfold GetLockPaymentOrderStatus, status_answer. destruct (ParseInt chainParam) as [chainID|].
  2: { split; [apply idle_refl|]. by eexists. }
  apply wp_try, read_wp; [intros fs|intros fs Hf; split; [done|]; eexists; split; [reflexivity|by left]].
  destruct (List.filter (on_chain orderID chainID) (lock_rows (w_db w))) as [|first rest] eqn:Ho.
  { split; [done|]. eexists. split; [reflexivity|]. right. left. by split; [|left]. }
  destruct (sort_receipts _) as [|latest receipts] eqn:Hr.
  - split; [done|]. eexists. split; [reflexivity|]. right. left. split; [done|]. right. intros o Hin.
    destruct (gather_fold (w_db w) (first :: rest) (mkGathered [] [] d_zero d_zero d_zero)) as (_ & H2 & _).
    pose proof (sort_receipts_perm (gt_receipts (foldl (gather (w_db w)) (mkGathered [] [] d_zero d_zero d_zero) (first :: rest)))) as Hp.
    rewrite Hr in Hp. symmetry in Hp. apply Permutation_nil_r in Hp. rewrite Hp in H2. symmetry in H2. cbn [gt_receipts app] in H2.
    apply concat_nil_Forall in H2. rewrite List.Forall_map in H2. rewrite Forall_forall in H2. by apply H2.
  - split; [done|]. eexists. split; [reflexivity|]. right. right. split; [done|]. eexists. split; [reflexivity|].
    by apply status_shows.
Qed.
End order_status.

(** ** Linked addresses *)

Section linked.
Context {O : DecimalOps} {OS : @OrderServices O} {SV : @Services O} {SS : @SenderServices O}.
Context {EC : EthCommon} {AU : AuthServices} {AS : @AlchemyServices O}.
Variable auth : AuthConf.
Variable conf : AlchemyConf.

(** No two linked addresses share their address or their owner. *)
Definition linked_unique (d : DB) : Prop :=
  NoDup (map la_address (db_linked_addresses d)) /\ NoDup (map la_owner_address (db_linked_addresses d)).

(** The row of a linked address: of the owner on the context, for the account of the
    payload. *)
Definition linked_row (c : Ctx) (p : NewLinkedAddressRequest) (a : LinkedAddress) : Prop :=
  cx_values c !! "owner_address" = Some (VString (la_owner_address a)) /\ la_institution a = nl_Institution p /\
  la_account_identifier a = nl_AccountIdentifier p /\ la_account_name a = nl_AccountName p.

(** Either nothing but the failures changed, or one row was added. *)
Definition linked_effect (c : Ctx) (payload : option NewLinkedAddressRequest) (w : World)
    (o : outcome (ApiResponse NewLinkedAddressResponse)) (w' : World) : Prop :=
  (spent w w' /\ forall r, o = Ret r -> ar_code r <> 200) \/
  (exists p a r, payload = Some p /\ linked_row c p a /\ o = Ret r /\ ar_code r = 200 /\
     (exists res, ar_data r = Some res /\ nr_LinkedAddress res = la_address a) /\
     db_linked_addresses (w_db w') = db_linked_addresses (w_db w) ++ [a] /\
     (linked_unique (w_db w) -> linked_unique (w_db w')) /\ w_events w' = w_events w).

Lemma unique_snoc {A} (f : LinkedAddress -> A) l a : NoDup (map f l) -> (forall x, x ∈ l -> f x <> f a) -> NoDup (map f (l ++ [a])).
Proof.
  intros H Hn. rewrite map_app. apply NoDup_app. split_and!; [done| |apply NoDup_singleton].
  intros y (x & -> & Hx)%list_elem_of_fmap Heq%list_elem_of_singleton. by apply (Hn x Hx).
Qed.
Lemma create_linked_wp c p address owner w0 w :
  cx_values c !! "owner_address" = Some (VString owner) -> spent w0 w ->
  wp (tryM (create_linked address owner p) (fun _ => api_error 500 "Failed to create linked address")
       (fun a => api_success 200 "Linked address created successfully"
          (mkNLR (la_address a) (la_institution a) (la_account_identifier a) (la_account_name a) (w_now w) (w_now w))))
    (linked_effect c (Some p) w0) w.
Proof.
  intros Hc [fs0 ->]. apply wp_try. unfold create_linked. apply wp_modify_direct; [|intros fs; left; split; [by eexists|by intros r [= <-]]].
  intros fs. cbn [set_faults w_db]. destruct (existsb _ _) eqn:E; [left; split; [by eexists|by intros r [= <-]]|].
  right. eexists p, (mkLA (db_next_id (w_db w0)) address (nl_Institution p) (nl_AccountIdentifier p) (nl_AccountName p) "" owner 0 ""), _.
  do 2 (split; [done|]). split; [reflexivity|]. split; [done|]. split; [by eexists|].
  assert (Hx : forall x, x ∈ db_linked_addresses (w_db w0) -> la_address x <> address /\ la_owner_address x <> owner).
  { intros x Hx. apply not_true_iff_false in E. split; intros <-; apply E; apply existsb_exists; exists x;
      (split; [by apply list_elem_of_In|]); rewrite String.eqb_refl; [done|apply orb_true_r]. }
  split; [done|]. split; [|done]. intros [H1 H2]. split; (apply unique_snoc; [done|]); intros x Hin; apply (Hx x Hin).
Qed.

(** Creating a linked address, whatever fails: it answers 200 exactly when it has added
    one row, of the owner who signed in and of the account of the payload, and keeps
    the addresses and the owners unique; else nothing is written. *)
Theorem linked_addresses_unique c payload w : linked_unique (w_db w) ->
  wp (CreateLinkedAddress auth conf c payload) (fun o w' => linked_effect c payload w o w' /\ linked_unique (w_db w')) w.
Proof.
  intros Hu. eapply wp_mono with (P := linked_effect c payload w).
  2: { intros o w' H. split; [done|]. destruct H as [[[fs ->] _]|(p & a & r & _ & _ & _ & _ & _ & _ & H & _)]; [done|by apply H]. }
  unfold CreateLinkedAddress. destruct payload as [p|]; [|left; split; [apply spent_refl|by intros r [= <-]]].
  apply wp_try. eapply quiet_wp; [apply quiet_create|]. intros [created|e|] w1 S1 _.
  2,3: left; split; [done|by intros r [= <-]].
  apply wp_bind. unfold context_owner. destruct (cx_values c !! "owner_address") as [[|owner| |]|] eqn:Hc; try (by left).
  apply wp_ret, wp_bind, wp_getM. by apply create_linked_wp.
Qed.

(** ** The bank account behind an address *)

(** A caller who has not signed in sees the address and the currency, and nothing of
    the bank account. *)
Theorem linked_account_hidden c owner w : signed_in c = false ->
  wp (GetLinkedAddress c owner) (fun o _ => forall r res, o = Ret r -> ar_data r = Some res ->
    lr_Institution res = "" /\ lr_AccountIdentifier res = "" /\ lr_AccountName res = "") w.
Proof.
  intros Hc.
  assert (Hcalm : calm (fun o => forall r res, o = Ret r -> ar_data r = Some res ->
    lr_Institution res = "" /\ lr_AccountIdentifier res = "" /\ lr_AccountName res = "") (GetLinkedAddress c owner)).
  { unfold GetLinkedAddress. rewrite Hc.
    apply calm_try; [calm_tac| | |done]; [intros e; destruct (IsNotFound e); apply calm_ret; by intros r res [= <-]|].
    intros a. apply calm_try; [auto with calm|intros e; apply calm_ret; by intros r res [= <-]| |done].
    intros ins. apply calm_bind; [auto with calm| |done|done]. intros fc. apply calm_ret. intros r res [= <-] [= <-]. done. }
  eapply wp_mono; [apply Hcalm|]. by intros o w' [_ H].
Qed.

(** Whoever has signed in sees the bank account of any owner: the owner in the query is
    not compared with the one on the context. *)
Theorem linked_account_of_any_owner c owner a ins cur fc w :
  w_faults w = [] -> signed_in c = true ->
  List.filter (fun l => String.eqb (la_owner_address l) owner) (db_linked_addresses (w_db w)) = [a] ->
  List.filter (fun i => String.eqb (in_code i) (la_institution a)) (db_institutions (w_db w)) = [ins] ->
  in_fiat_currency ins = Some cur -> db_currencies (w_db w) !! cur = Some fc ->
  GetLinkedAddress c owner w =
    (Ret (mkResponse 200 "success" "Linked address fetched successfully"
       (Some (mkLAR (la_address a) (fc_code fc) (in_name ins) (la_account_identifier a) (la_account_name a)))), w).
Proof.
  intros Hf Hc Ha Hi Hcur Hfc. unfold GetLinkedAddress, GetInstitutionByCode, tryM, bindM. rewrite (read_ok w Hf), Ha. cbn [only retM].
  rewrite (read_ok w Hf), Hi. cbn [only retM fst snd]. rewrite Hcur. cbn [mbind option_bind]. rewrite Hfc. cbn [mbind option_bind].
  cbn [negb orb deref]. by rewrite Hc.
Qed.
End linked.

(** ** Reading *)

Section reading.
Context {O : DecimalOps} {L : DecimalLaws O} {OS : @OrderServices O} {SV : @Services O} {SL : ServicesLaws SV} {SS : @SenderServices O}.
Context {EC : EthCommon} {AU : AuthServices} {AS : @AlchemyServices O}.
#[local] Hint Resolve calm_validate_account : calm.

(** An answer, not an error or a panic. *)
Definition answers {A} (o : outcome (ApiResponse A)) : Prop := exists r, o = Ret r.

Lemma calm_read_answer {A} (r : ApiResponse A) (f : DB -> ApiResponse A) :
  calm answers (tryM (read_db None) (fun _ => retM r) (fun d => retM (f d))).
Proof. intros w. apply wp_try. eapply wp_read_db; [reflexivity| |]; intros fs; (split; [done|by eexists]). Qed.
Lemma calm_linked_transactions l : calm any (linked_transactions l).
Proof. induction l as [|o l IH]; cbn [linked_transactions]; calm_tac. Qed.
#[local] Hint Resolve calm_linked_transactions : calm.
Lemma calm_transactions address page size : calm any (GetLinkedAddressTransactions address page size).
Proof. unfold GetLinkedAddressTransactions, api_error, api_success. calm_tac. Qed.

(** The endpoints of the catalogue answer whatever fails, and they and the readers of
    linked addresses write nothing. *)
Theorem public_endpoints_read c :
  (calm answers GetFiatCurrencies /\ (forall code, calm answers (GetInstitutionsByCurrency code)) /\
   (forall network, calm answers (GetSupportedTokens network))) /\
  (forall token amount fiat network p, calm any (GetTokenRate token amount fiat network p)) /\
  (forall payload, calm any (VerifyAccount payload)) /\
  (forall owner, calm any (GetLinkedAddress c owner)) /\
  (forall address page size, calm any (GetLinkedAddressTransactions address page size)).
Proof.
  split_and!; intros; try (apply calm_read_answer); [..|apply calm_transactions];
    unfold GetTokenRate, VerifyAccount, GetLinkedAddress, api_error, api_success; calm_tac.
Qed.
End reading.

(** ** Concrete runs *)

(** An order in two parts, the first settled, with three receipts. *)
Definition s_part (id : string) (st : LockStatus) (amount percent : Z) (logs : list Z) : LockPaymentOrder :=
  mkLPO id "g1" (d_int amount) (d_int 0) (d_int 950) (d_int percent) "0xsender" "0xtx" st 7
    "ABNGNGLA" "1234567890" "OK" "rent" "{}" 0 [] "mh1" (d_int amount) 0 5 s_token None None logs.
Definition s_tx_log (id : Z) (st : TxLogStatus) (hash : string) (at_ : Z) : TransactionLog := mkTL id "g1" st "base" hash "" at_.
Definition s_status_world : World :=
  let d := set_lock_orders {[ "o1" := s_part "o1" LSettled 3 60 [1; 2]; "o2" := s_part "o2" LPending 2 40 [3] ]} (s_db (s_pc 100 0 100)) in
  mkWorld (set_tx_logs [s_tx_log 1 TOrderCreated "0xa" 10; s_tx_log 2 TOrderSettled "0xb" 20; s_tx_log 3 TOrderCreated "0xc" 10;
                        s_tx_log 4 TOrderProcessing "0xd" 30] d) ∅ 0 s_redis [] 1000 [] [].
(** The share of the settled and of the pending part is shown as settled. *)
Example s_status :
  (fun r => (ar_code r, (fun s => (d_eqb (ls_SettlePercent s) (d_int 100), d_eqb (ls_Amount s) (d_int 5), ls_TxHash s, map rt_TxHash (ls_TxReceipts s)))
    <$> ar_data r)) <$> match (GetLockPaymentOrderStatus "g1" "8453" s_status_world).1 with Ret r => Some r | _ => None end =
  Some (200, Some (true, true, "0xb", ["0xb"; "0xa"; "0xc"])).
Proof. vm_refl. Qed.
Lemma order_status_correct_witness :
  wp (GetLockPaymentOrderStatus "g1" "8453")
    (fun o w' => idle s_status_world w' /\ exists r, o = Ret r /\ status_answer s_status_world "g1" "8453" r) s_status_world.
Proof. exact (order_status_correct "g1" "8453" s_status_world). Defined.

(** Two owners; the second one signs in. *)
Definition s_signed (owner : string) : Ctx := mkCtx {[ "owner_address" := VString owner ]} [] false "".
Definition s_linked_row : LinkedAddress := mkLA 1 "0xlinked" "ABNGNGLA" "1234567890" "Ada" "" "0xowner" 0 "".
Definition s_linked_world : World :=
  set_db (set_linked_addresses [s_linked_row] (s_db (s_pc 100 0 100))) (s_world (s_pc 100 0 100) []).
Definition s_engine_conf : AlchemyConf := mkAlchemyConf "" "" "" "" false false false 0.
Definition s_new_linked : NewLinkedAddressRequest := mkNLA "ABNGNGLA" "999" "Bola".
Example s_linked_created :
  (fun a => (la_address a, la_owner_address a)) <$>
    db_linked_addresses (w_db (CreateLinkedAddress s_auth_conf s_engine_conf (s_signed "0xother") (Some s_new_linked) s_linked_world).2) =
  [("0xlinked", "0xowner"); ("0xsmart", "0xother")].
Proof. vm_refl. Qed.
Lemma linked_addresses_unique_witness :
  wp (CreateLinkedAddress s_auth_conf s_engine_conf (s_signed "0xother") (Some s_new_linked))
    (fun o w' => linked_effect (s_signed "0xother") (Some s_new_linked) s_linked_world o w' /\ linked_unique (w_db w')) s_linked_world.
Proof.
  refine (linked_addresses_unique s_auth_conf s_engine_conf (s_signed "0xother") (Some s_new_linked) s_linked_world _).
  split; apply NoDup_singleton.
Defined.

Lemma linked_account_hidden_witness :
  wp (GetLinkedAddress (mkCtx ∅ [] false "") "0xowner") (fun o _ => forall r res, o = Ret r -> ar_data r = Some res ->
    lr_Institution res = "" /\ lr_AccountIdentifier res = "" /\ lr_AccountName res = "") s_linked_world.
Proof. exact (linked_account_hidden (mkCtx ∅ [] false "") "0xowner" s_linked_world eq_refl). Defined.

Lemma linked_account_of_any_owner_witness :
  GetLinkedAddress (s_signed "0xother") "0xowner" s_linked_world =
    (Ret (mkResponse 200 "success" "Linked address fetched successfully"
       (Some (mkLAR "0xlinked" s_cur "Access Bank" "1234567890" "Ada"))), s_linked_world).
Proof.
  exact (linked_account_of_any_owner (s_signed "0xother") "0xowner" s_linked_row (mkIns "ABNGNGLA" "Access Bank" IBank (Some s_cur))
    s_cur s_currency s_linked_world eq_refl eq_refl eq_refl eq_refl eq_refl eq_refl).
Defined.

Lemma public_endpoints_read_witness :
  calm any (@VerifyAccount _ s_sender_nodes (Some (mkVAR "ABNGNGLA" "1234567890"))).
Proof.
  exact (proj1 (proj2 (proj2 (public_endpoints_read (SV := s_sender_nodes) (SL := s_sender_nodes_laws)
    (s_signed "0xother")))) (Some (mkVAR "ABNGNGLA" "1234567890"))).
Defined.
