(* ===== verification/Kyb.v ===== *)
(** * Review of businesses (controllers/index.go, services/slack.go)

    A user submits the documents of a business ([HandleKYBSubmission], one
    transaction); Slack shows the submission with two buttons; a button opens a dialog
    ([block_actions]) and its confirmation approves or rejects the submission
    ([view_submission]).  The controller remembers in memory which submissions were
    decided: that set is passed along; it is empty when the process starts and is lost
    when it ends, so what is said about it holds within one run, one request at a time.  An answer of the Slack handler is its code and
    text; it is 200 and empty where the code writes none. *)

From S2P Require Import Prelude Decimal Schema Store Balance Utils Services Http Sender ChainEvents Auth Accounts.
Local Open Scope go_scope.
Local Open Scope string_scope.
Local Open Scope list_scope.

Record BeneficialOwnerInput := mkBOI {
  bi_FullName : string;
  bi_ResidentialAddress : string;
  bi_ProofOfResidentialAddressUrl : string;
  bi_GovernmentIssuedIdUrl : string;
  bi_DateOfBirth : string;
  bi_OwnershipPercentage : Q;
  bi_GovernmentIssuedIdType : string
}.
Record KYBSubmissionInput := mkKSI {
  ki_MobileNumber : string;
  ki_CompanyName : string;
  ki_RegisteredBusinessAddress : string;
  ki_CertificateOfIncorporationUrl : string;
  ki_ArticlesOfIncorporationUrl : string;
  ki_BusinessLicenseUrl : option string;
  ki_ProofOfBusinessAddressUrl : string;
  ki_ProofOfResidentialAddressUrl : string;
  ki_AmlPolicyUrl : option string;
  ki_KycPolicyUrl : option string;
  ki_BeneficialOwners : list BeneficialOwnerInput
}.

Class KybServices `{O : DecimalOps} := {
  (** the status of a POST to a Slack webhook *)
  slack_status : World -> string -> list (string * json) -> Z;
  (** the status of views.open, and whether its body says ok *)
  slack_views : World -> list (string * json) -> Z * bool;
  (** [fmt.Sprintf("%.2f", x)] *)
  two_decimals : Q -> string
}.

Record SlackConf := mkSlackConf { sl_WebhookURL : string; sl_BotToken : string }.

Section kyb.
Context `{O : DecimalOps} {HS : HttpServices} {AU : AuthServices} {AC : AccountServices} {KS : KybServices}.
Variable conf : SlackConf.

(** ** Texts *)

Definition nl : string := String (Ascii.ascii_of_nat 10) "".
Definition quoted (s : string) : string := String (Ascii.ascii_of_nat 34) s +:+ String (Ascii.ascii_of_nat 34) "".
(** [strings.TrimSpace] on ASCII *)
Definition is_space (c : ascii) : bool :=
  let n := Ascii.nat_of_ascii c in ((9 <=? n) && (n <=? 13) || (n =? 32))%nat.
Fixpoint trim_left (l : list ascii) : list ascii :=
  match l with c :: r => if is_space c then trim_left r else l | [] => [] end.
Definition TrimSpace (s : string) : string :=
  String.string_of_list_ascii (rev (trim_left (rev (trim_left (String.list_ascii_of_string s))))).
(** What follows a prefix. *)
Definition after (pre s : string) : string := substring (String.length pre) (String.length s - String.length pre) s.

Definition plain_text (t : string) : json := JObj [("type", JStr "plain_text"); ("text", JStr t)].
Definition section (t : string) : json :=
  JObj [("type", JStr "section"); ("text", JObj [("type", JStr "mrkdwn"); ("text", JStr t)])].

(** ** Slack (services/slack.go) *)

Definition post_slack (message : list (string * json)) : M unit :=
  do! ext in
  do! emit (EvPost (sl_WebhookURL conf) message) in
  let! w := getM in
  if (slack_status w (sl_WebhookURL conf) message =? 200)%Z then retM tt else errM (EMsg "slack notification failed with status").

Definition submission_message (firstName email submissionID : string) : list (string * json) :=
  let button (text action style : string) : json :=
    JObj [("type", JStr "button"); ("text", plain_text text); ("action_id", JStr action); ("style", JStr style); ("value", JStr submissionID)] in
  [("blocks", JArr [section "*New KYB Submission*"; section ("First Name: " +:+ firstName); section ("Email: " +:+ email);
                    section ("Submission ID: " +:+ submissionID);
                    JObj [("type", JStr "actions");
                          ("elements", JArr [button "Review" "review_kyb" "primary"; button "Reject" ("reject_kyb_" +:+ submissionID) "danger"])]])].
Definition SendSubmissionNotification (firstName email submissionID : string) : M unit :=
  if String.eqb (sl_WebhookURL conf) "" then retM tt else post_slack (submission_message firstName email submissionID).

Definition SendActionFeedbackNotification (firstName email submissionID actionType reason : string) : M unit :=
  if String.eqb (sl_WebhookURL conf) "" then retM tt
  else if String.eqb actionType "approve" || String.eqb actionType "reject" then
    let actionText := if String.eqb actionType "approve" then "Approved" else "Declined" in
    let reasonText := if String.eqb reason "" then "" else nl +:+ "Reason: " +:+ reason in
    post_slack [("blocks", JArr [section ("*KYB Action Taken*" +:+ nl +:+ "User: " +:+ firstName +:+ nl +:+ "Email: " +:+ email +:+ nl +:+
                                          "Submission ID: " +:+ submissionID +:+ nl +:+ "Action: " +:+ actionText +:+ reasonText)])]
  else errM (EMsg "invalid action type").

(** ** Rows *)

Definition kyb_rows (d : DB) : list KYBProfile := map snd (map_to_list (ac_kyb_profiles (db_accounts d))).

Definition us_set_kyb (st : KybStatus) (u : User) : User :=
  mkUser (us_id u) (us_first_name u) (us_last_name u) (us_email u) (us_password u) (us_scope u) (us_is_email_verified u)
    (us_has_early_access u) st (us_sender_profile u) (us_provider_profile u).
Definition pp_set_user_kyb (st : KybStatus) (p : ProviderProfile) : ProviderProfile :=
  mkPP (pp_id p) (pp_trading_name p) (pp_host_identifier p) (pp_auto_provision p) (pp_is_active p) (pp_is_kyb_verified p)
    (pp_updated_at p) (pp_visibility_mode p) st (pp_api_key p) (pp_user_email p).
(** [SetKybVerificationStatus] for the users of [who]; a provider row shows the status
    of its user. *)
Definition set_kyb_status (who : User -> bool) (st : KybStatus) (d : DB) : DB :=
  let own (p : string) := existsb (fun u => who u && bool_decide (us_provider_profile u = Some p)) (users d) in
  set_providers (map_imap (fun k p => Some (if own k then pp_set_user_kyb st p else p)) (db_providers d))
    (with_users (fmap (fun u => if who u then us_set_kyb st u else u)) d).

Definition ky_set_comment (c : option string) (p : KYBProfile) : KYBProfile :=
  mkKYB (ky_id p) (ky_mobile_number p) (ky_company_name p) (ky_registered_business_address p) (ky_certificate_of_incorporation_url p)
    (ky_articles_of_incorporation_url p) (ky_business_license_url p) (ky_proof_of_business_address_url p) (ky_aml_policy_url p)
    (ky_kyc_policy_url p) c (ky_user p) (ky_beneficial_owners p).
Definition ky_set_owners (l : list BeneficialOwner) (p : KYBProfile) : KYBProfile :=
  mkKYB (ky_id p) (ky_mobile_number p) (ky_company_name p) (ky_registered_business_address p) (ky_certificate_of_incorporation_url p)
    (ky_articles_of_incorporation_url p) (ky_business_license_url p) (ky_proof_of_business_address_url p) (ky_aml_policy_url p)
    (ky_kyc_policy_url p) (ky_rejection_comment p) (ky_user p) l.
(** [KYBProfile.Update().Where(IDEQ(id))...Save]: a missing row is not an error. *)
Definition update_kyb (h : handle) (id : string) (f : KYBProfile -> KYBProfile) : M unit := write_db h (with_kyb (alter f id)).

(** ** Submission *)

(** The columns of a submission over those of a row. *)
Definition ky_submit (i : KYBSubmissionInput) (p : KYBProfile) : KYBProfile :=
  mkKYB (ky_id p) (ki_MobileNumber i) (ki_CompanyName i) (ki_RegisteredBusinessAddress i) (ki_CertificateOfIncorporationUrl i)
    (ki_ArticlesOfIncorporationUrl i) (ki_BusinessLicenseUrl i) (ki_ProofOfBusinessAddressUrl i) (default "" (ki_AmlPolicyUrl i))
    (ki_KycPolicyUrl i) (ky_rejection_comment p) (ky_user p) (ky_beneficial_owners p).
Definition owner_of (o : BeneficialOwnerInput) : BeneficialOwner :=
  mkBO (bi_FullName o) (bi_ResidentialAddress o) (bi_ProofOfResidentialAddressUrl o) (bi_GovernmentIssuedIdUrl o) (bi_DateOfBirth o)
    (bi_OwnershipPercentage o) (bi_GovernmentIssuedIdType o).

(** The existing row, or a new one of the user, whose profile it is the only one. *)
Definition save_submission (tx : nat) (existing : option KYBProfile) (user : User) (i : KYBSubmissionInput) : M KYBProfile :=
  match existing with
  | Some e =>
      modify_db (Some tx) (fun d =>
        match ac_kyb_profiles (db_accounts d) !! ky_id e with
        | Some p => inr (with_kyb (<[ky_id e := ky_submit i p]>) d, ky_submit i p)
        | None => inl ENotFound
        end)
  | None =>
      let! w := getM in
      let p := ky_submit i (mkKYB (account_uuid "kyb_profiles" w) "" "" "" "" "" None "" "" None None (Some (us_id user)) []) in
      modify_db (Some tx) (fun d =>
        if present (ac_kyb_profiles (db_accounts d) !! ky_id p) || existsb (fun q => bool_decide (ky_user q = Some (us_id user))) (kyb_rows d)
        then inl constraint else inr (with_kyb (<[ky_id p := p]>) d, p))
  end.

(** The validators of the name and of the kind of document, and the insert. *)
Definition id_type_ok (s : string) : bool := existsb (String.eqb s) ["passport"; "drivers_license"; "national_id"].
Definition create_owner (tx : nat) (id : string) (o : BeneficialOwnerInput) : M unit :=
  if (160 <? String.length (bi_FullName o))%nat then errM (EMsg "value is greater than the required length")
  else if negb (id_type_ok (bi_GovernmentIssuedIdType o)) then errM (EMsg "invalid enum value for government_issued_id_type field")
  else update_kyb (Some tx) id (fun p => ky_set_owners (ky_beneficial_owners p ++ [owner_of o]) p).
Fixpoint create_owners (tx : nat) (id : string) (l : list BeneficialOwnerInput) : M unit :=
  match l with [] => retM tt | o :: rest => do! create_owner tx id o in create_owners tx id rest end.

Definition store_submission (existing : option KYBProfile) (user : User) (i : KYBSubmissionInput) : M (ApiResponse string + KYBProfile) :=
  let stop (m : M (ApiResponse string)) : M (ApiResponse string + KYBProfile) := let! r := m in retM (inl r) in
  let? tx := begin_tx orelse _e => stop (api_error 500 "Failed to process request") in
  let? p := save_submission tx existing user i orelse _e => stop (abandon tx 500 "Failed to save KYB submission") in
  do? (match existing with Some _ => update_kyb (Some tx) (ky_id p) (ky_set_owners []) | None => retM tt end)
  orelse _e => stop (abandon tx 500 "Failed to update beneficial owners") in
  do? create_owners tx (ky_id p) (ki_BeneficialOwners i) orelse _e => stop (abandon tx 500 "Failed to save beneficial owner") in
  do? write_db (Some tx) (set_kyb_status (fun u => String.eqb (us_id u) (us_id user)) KPending)
  orelse _e => stop (abandon tx 500 "Failed to update user KYB verification status") in
  do? commit_tx tx orelse _e => stop (api_error 500 "Failed to process request") in
  retM (inr p).

Definition existing_submission (user : User) : M (option (KYBProfile * User)) :=
  let? res := (let! d := read_db None in
               let! p := only (List.filter (fun p => bool_decide (ky_user p = Some (us_id user))) (kyb_rows d)) in
               retM (p, ac_users (db_accounts d) !! us_id user))
  orelse e => (if IsNotFound e then retM None else errM e) in
  let! owner := deref (snd res) in retM (Some (fst res, owner)).

Definition HandleKYBSubmission (c : Ctx) (input : option KYBSubmissionInput) : M (ApiResponse string) :=
  match input with
  | None => api_error 400 "Invalid input"
  | Some i =>
      match cx_values c !! "user_id" with
      | None => api_error 401 "User not authenticated"
      | Some (VString id) =>
          match parse_uuid id with
          | None => api_error 401 "Invalid user ID"
          | Some userID =>
              let? userRecord := user_by_id userID
              orelse e => (if IsNotFound e then api_error 404 "User not found" else api_error 500 "Failed to process request") in
              let? existing := existing_submission userRecord orelse _e => (api_error 500 "Failed to process request") in
              if match existing with
                 | Some (_, u) => bool_decide (us_kyb_verification_status u = KPending) || bool_decide (us_kyb_verification_status u = KApproved)
                 | None => false
                 end
              then api_error 409 "KYB submission already submitted for this user"
              else
                let* p := store_submission (fst <$> existing) userRecord i in
                do? SendSubmissionNotification (us_first_name userRecord) (us_email userRecord) (ky_id p)
                orelse _e => (api_error 500 "Error sending Slack notification") in
                api_success 201 (match existing with Some _ => "KYB submission updated successfully"
                                 | None => "KYB submission submitted successfully" end) (ky_id p)
          end
      | Some _ => panicM
      end
  end.

(** ** Dialogs *)

Definition SlackAnswer : Type := Z * string.
Definition reply (code : Z) (text : string) : M SlackAnswer := retM (code, text).

(** The text that the dialog carries: the fields are not escaped. *)
Definition private_metadata (email id firstName : string) : string :=
  "{" +:+ quoted "email" +:+ ":" +:+ quoted email +:+ "," +:+ quoted "kyb_profile_id" +:+ ":" +:+ quoted id +:+ "," +:+
  quoted "firstName" +:+ ":" +:+ quoted firstName +:+ "}".

Definition modal (triggerID callbackID metadata title submit : string) (blocks : list json) : list (string * json) :=
  [("trigger_id", JStr triggerID);
   ("view", JObj [("type", JStr "modal"); ("callback_id", JStr callbackID); ("private_metadata", JStr metadata);
                  ("title", plain_text title); ("submit", plain_text submit); ("blocks", JArr blocks)])].

Fixpoint owner_sections (i : Z) (owners : list BeneficialOwner) : list json :=
  match owners with
  | [] => []
  | o :: rest =>
      let idType := if String.eqb (bo_government_issued_id_type o) "" then "Not specified" else bo_government_issued_id_type o in
      section ("*Owner " +:+ int_string i +:+ "*" +:+ nl +:+ "*Full Name*: " +:+ bo_full_name o +:+ nl +:+
               "*Residential Address*: " +:+ bo_residential_address o +:+ nl +:+
               "*Proof of Address*: " +:+ bo_proof_of_residential_address_url o +:+ nl +:+
               "*Government Issued ID*: " +:+ bo_government_issued_id_url o +:+ nl +:+ "*ID Type*: " +:+ idType +:+ nl +:+
               "*Date of Birth*: " +:+ bo_date_of_birth o +:+ nl +:+
               "*Ownership Percentage*: " +:+ two_decimals (bo_ownership_percentage o) +:+ "%") :: owner_sections (i + 1) rest
  end.
Definition review_blocks (p : KYBProfile) : list json :=
  [section "*KYB Profile Details*";
   section ("*Company Name*: " +:+ ky_company_name p +:+ nl +:+ "*Mobile Number*: " +:+ ky_mobile_number p +:+ nl +:+
            "*Registered Business Address*: " +:+ ky_registered_business_address p +:+ nl +:+
            "*Certificate of Incorporation*: " +:+ ky_certificate_of_incorporation_url p +:+ nl +:+
            "*Articles of Incorporation*: " +:+ ky_articles_of_incorporation_url p +:+ nl +:+
            "*Proof of Business Address*: " +:+ ky_proof_of_business_address_url p)] ++
  (match ky_business_license_url p with Some s => [section ("*Business License*: " +:+ s)] | None => [] end) ++
  (if String.eqb (ky_aml_policy_url p) "" then [] else [section ("*AML Policy*: " +:+ ky_aml_policy_url p)]) ++
  (match ky_kyc_policy_url p with Some s => [section ("*KYC Policy*: " +:+ s)] | None => [] end) ++
  (match ky_beneficial_owners p with [] => [] | owners => section "*Beneficial Owners*" :: owner_sections 1 owners end) ++
  [section ("*Review Complete*" +:+ nl +:+ nl +:+
            "If all information looks correct, click 'Approve' to approve this KYB submission.")].

Definition rejection_reasons : list string :=
  ["Incomplete or falsified documentation"; "Unverifiable business identity"; "Sanctions or watchlist hits";
   "Inability to identify beneficial owners (UBOs)"; "Inconsistent business details across documents"].
Definition reject_blocks : list json :=
  [JObj [("type", JStr "input"); ("block_id", JStr "reason_block");
         ("element", JObj [("type", JStr "static_select"); ("action_id", JStr "reason_select"); ("placeholder", plain_text "Select a reason");
                           ("options", JArr (map (fun r => JObj [("text", plain_text r); ("value", JStr r)]) rejection_reasons))]);
         ("label", plain_text "Reason for Rejection")];
   JObj [("type", JStr "input"); ("block_id", JStr "comment_block");
         ("element", JObj [("type", JStr "plain_text_input"); ("action_id", JStr "comment_input"); ("multiline", JBool true);
                           ("placeholder", plain_text "Add any additional comments or details...")]);
         ("label", plain_text "Rejection Comment"); ("optional", JBool true)]].

Definition views_open (view : list (string * json)) : M SlackAnswer :=
  do? ext orelse _e => (reply 500 "Failed to open modal") in
  do! emit (EvPost "https://slack.com/api/views.open" view) in
  let! w := getM in
  let '(status, ok) := slack_views w view in
  if negb (status =? 200)%Z || negb ok then reply 500 "Failed to open modal" else reply 200 "".

Definition open_review (trigger : option json) (p : KYBProfile) (id email firstName : string) : M SlackAnswer :=
  match trigger with
  | Some (JStr triggerID) =>
      if String.eqb (sl_BotToken conf) "" then reply 500 "Slack bot token not configured"
      else if negb (HasPrefix (sl_BotToken conf) "xoxb-") then reply 500 "Invalid Slack bot token format"
      else views_open (modal triggerID ("approve_modal_" +:+ id) (private_metadata email id firstName) "KYB Review" "Approve" (review_blocks p))
  | _ => reply 400 "Missing trigger_id"
  end.
Definition open_reject (trigger : option json) (id email firstName : string) : M SlackAnswer :=
  match trigger with
  | Some (JStr triggerID) =>
      if String.eqb (sl_BotToken conf) "" then reply 500 "Slack bot token not configured"
      else views_open (modal triggerID ("reject_modal_" +:+ id) (private_metadata email id firstName) "Reject KYB Submission" "Submit" reject_blocks)
  | _ => reply 400 "Missing trigger_id"
  end.

(** The submission that a button names, or the refusal of its id. *)
Definition action_profile (action : list (string * json)) (actionID : string) : string + string :=
  if HasPrefix actionID "approve_kyb_" then inr (after "approve_kyb_" actionID)
  else if HasPrefix actionID "reject_kyb_" then inr (after "reject_kyb_" actionID)
  else if String.eqb actionID "review_kyb" then
    match json_get "value" action with Some (JStr s) => inr s | _ => inl "Missing action value" end
  else if HasPrefix actionID "review_kyb_" then inr (after "review_kyb_" actionID)
  else if HasPrefix actionID "approve_" then inr (after "approve_" actionID)
  else if HasPrefix actionID "reject_" then inr (after "reject_" actionID)
  else inl "Invalid action_id".

(** A click on a button. *)
Definition handle_action (payload : gmap string json) : M SlackAnswer :=
  match payload !! "actions" with
  | Some (JArr (JObj action :: _)) =>
      match json_get "action_id" action with
      | Some (JStr actionID) =>
          match action_profile action actionID with
          | inl refusal => reply 400 refusal
          | inr kybProfileID =>
              match parse_uuid kybProfileID with
              | None => reply 400 "Invalid KYB Profile ID format"
              | Some uuid =>
                  let? res := (let! d := read_db None in
                               match ac_kyb_profiles (db_accounts d) !! uuid with
                               | Some p => retM (p, u ← ky_user p; ac_users (db_accounts d) !! u)
                               | None => errM ENotFound
                               end)
                  orelse e => (if IsNotFound e then reply 404 "KYB Profile not found" else reply 500 "Failed to fetch KYB Profile") in
                  match snd res with
                  | None => reply 400 "KYB Profile has no associated user"
                  | Some user =>
                      let firstName := if String.eqb (us_first_name user) "" then "User" else us_first_name user in
                      if String.eqb (us_email user) "" then reply 400 "Missing email"
                      else if String.eqb actionID "review_kyb"
                      then open_review (payload !! "trigger_id") (fst res) kybProfileID (us_email user) firstName
                      else if HasPrefix actionID "reject_"
                      then open_reject (payload !! "trigger_id") kybProfileID (us_email user) firstName
                      else reply 400 "Unknown action"
                  end
              end
          end
      | _ => reply 400 "Missing action_id"
      end
  | Some (JArr (_ :: _)) => reply 400 "Invalid action format"
  | _ => reply 400 "Invalid actions"
  end.

(** ** Decisions *)

Definition action_key (submissionID actionType : string) : string := submissionID +:+ "_" +:+ actionType.
Definition isActionProcessed (processed : gset string) (submissionID actionType : string) : bool :=
  bool_decide (action_key submissionID actionType ∈ processed).
Definition markActionProcessed (processed : gset string) (submissionID actionType : string) : gset string :=
  {[ action_key submissionID actionType ]} ∪ processed.

(** E-mail and first name of the dialog's text, or the refusal. *)
Definition dialog_metadata (view : list (string * json)) : string + (string * string) :=
  match json_get "private_metadata" view with
  | Some (JStr text) =>
      match unmarshal_map text with
      | None => inl "Invalid metadata"
      | Some metadata =>
          match metadata !! "email" with
          | Some (JStr email) =>
              if String.eqb email "" then inl "Missing email in metadata"
              else inr (email, match metadata !! "firstName" with Some (JStr s) => s | _ => "User" end)
          | _ => inl "Missing email in metadata"
          end
      end
  | _ => inl "Missing private_metadata"
  end.

Definition sub_object (fields : list (string * json)) (key : string) : option (list (string * json)) :=
  match json_get key fields with Some (JObj m) => Some m | _ => None end.
(** The reason that was selected and the comment, or the refusal. *)
Definition dialog_reason (view : list (string * json)) : string + (string * string) :=
  match sub_object view "state" with
  | None => inl "Invalid state"
  | Some state =>
      match sub_object state "values" with
      | None => inl "Invalid values"
      | Some values =>
          match sub_object values "reason_block" with
          | None => inl "Invalid reason_block"
          | Some reasonBlock =>
              match sub_object reasonBlock "reason_select" with
              | None => inl "Invalid reason_select"
              | Some reasonSelect =>
                  match sub_object reasonSelect "selected_option" with
                  | None => inl "No reason selected"
                  | Some selected =>
                      match json_get "value" selected with
                      | Some (JStr reason) =>
                          inr (reason, match b ← sub_object values "comment_block"; i ← sub_object b "comment_input"; json_get "value" i with
                                       | Some (JStr s) => TrimSpace s
                                       | _ => ""
                                       end)
                      | _ => inl "Invalid reason value"
                      end
                  end
              end
          end
      end
  end.

(** The user of the e-mail is rejected; the row of the id gets the comment. *)
Definition reject (view : list (string * json)) (kybProfileID : string) : M SlackAnswer :=
  match dialog_reason view with
  | inl refusal => reply 400 refusal
  | inr (reason, comment) =>
      match dialog_metadata view with
      | inl refusal => reply 400 refusal
      | inr (email, firstName) =>
          match parse_uuid kybProfileID with
          | None => reply 400 "Invalid KYB Profile ID format"
          | Some uuid =>
              do? write_db None (set_kyb_status (fun u => String.eqb (us_email u) email) KRejected)
              orelse _e => (reply 500 "Failed to update user KYB status") in
              let final := if String.eqb comment "" then reason else reason +:+ "::" +:+ comment in
              do! attemptM (update_kyb None uuid (ky_set_comment (Some final))) in
              do! attemptM (send_email "kyb_rejection" reason email) in
              do! attemptM (SendActionFeedbackNotification firstName email kybProfileID "reject" final) in
              reply 200 ""
          end
      end
  end.

(** The user of the row is approved. *)
Definition approve (view : list (string * json)) (kybProfileID : string) : M SlackAnswer :=
  match dialog_metadata view with
  | inl refusal => reply 400 refusal
  | inr (email, firstName) =>
      match parse_uuid kybProfileID with
      | None => reply 400 "Invalid KYB Profile ID format"
      | Some uuid =>
          let failed := reply 500 "Failed to update user KYB status" in
          let? user := (let! d := read_db None in
                        match ac_kyb_profiles (db_accounts d) !! uuid with
                        | Some p => retM (u ← ky_user p; ac_users (db_accounts d) !! u)
                        | None => errM ENotFound
                        end)
          orelse _e => (failed) in
          match user with
          | None => failed
          | Some user =>
              do? modify_db None (fun d =>
                    match ac_users (db_accounts d) !! us_id user with
                    | Some _ => inr (set_kyb_status (fun u => String.eqb (us_id u) (us_id user)) KApproved d, tt)
                    | None => inl ENotFound
                    end)
              orelse _e => (failed) in
              do! attemptM (update_kyb None uuid (ky_set_comment None)) in
              do! attemptM (send_email "kyb_approval" "" email) in
              do! attemptM (SendActionFeedbackNotification firstName email kybProfileID "approve" "KYB submission approved successfully") in
              reply 200 ""
          end
      end
  end.

(** A decision is marked before anything of it is checked, and made at most once. *)
Definition decide_once (actionType : string) (decision : M SlackAnswer) (id : string) (processed : gset string)
    : M (SlackAnswer * gset string) :=
  if isActionProcessed processed id "approve" || isActionProcessed processed id "reject"
  then retM ((200, "This submission has already been processed."), processed)
  else
    let processed := markActionProcessed processed id actionType in
    let! answer := decision in
    retM (answer, processed).

Definition handle_submission (payload : gmap string json) (processed : gset string) : M (SlackAnswer * gset string) :=
  let refuse (text : string) : M (SlackAnswer * gset string) := retM ((400, text), processed) in
  match payload !! "view" with
  | Some (JObj view) =>
      match json_get "callback_id" view with
      | Some (JStr callbackID) =>
          if HasPrefix callbackID "reject_modal_" then
            let id := after "reject_modal_" callbackID in decide_once "reject" (reject view id) id processed
          else if HasPrefix callbackID "approve_modal_" then
            let id := after "approve_modal_" callbackID in decide_once "approve" (approve view id) id processed
          else refuse "Unknown callback_id"
      | _ => refuse "Missing callback_id"
      end
  | _ => refuse "Invalid view format"
  end.

(** The form field, else the body, which may not be readable. *)
Definition SlackInteractionHandler (form : string) (body : option string) (processed : gset string) : M (SlackAnswer * gset string) :=
  match (if String.eqb form "" then body else Some form) with
  | None => retM ((400, "Missing payload"), processed)
  | Some payloadStr =>
      match unmarshal_map payloadStr with
      | None => retM ((400, "Error parsing payload"), processed)
      | Some payload =>
          if bool_decide (payload !! "type" = Some (JStr "block_actions"))
          then let! answer := handle_action payload in retM (answer, processed)
          else if bool_decide (payload !! "type" = Some (JStr "view_submission")) then handle_submission payload processed
          else retM ((400, "Unknown payload type"), processed)
      end
  end.
End kyb.
