(* ===== verification/KybClaims.v ===== *)
(** * Theorems about the review of businesses

    A submission is stored as a whole or not at all, and refused while the stored one is
    pending or approved ([kyb_submission_atomic]).  A user is approved only after the
    dialog of one of its submissions was confirmed ([approved_only_by_review], over every
    sequence of submissions and Slack requests of one run of the server, whose set of
    decided submissions starts empty).  Once a submission was decided no further decision on it is made, also
    after it was submitted again and also when
    the decision failed ([decided_submission_frozen]). *)

From S2P Require Import Prelude Decimal Schema Store Samples Transactions Balance Utils Services Calm Orders Http Sender ChainEvents Auth AuthClaims Accounts Kyb.
From S2P Require Import AccountClaims.
Local Open Scope go_scope.
Local Open Scope string_scope.
Local Open Scope list_scope.

Section submission.
Context `{O : DecimalOps} {HS : HttpServices} {AU : AuthServices} {AC : AccountServices} {KS : KybServices}.
Variable conf : SlackConf.

(** ** A submission *)

Definition blank (id user : string) : KYBProfile := mkKYB id "" "" "" "" "" None "" "" None None (Some user) [].
(** The row that a submission leaves: its columns and its owners over the row before. *)
Definition submitted_row (i : KYBSubmissionInput) (p : KYBProfile) : KYBProfile :=
  ky_set_owners (map owner_of (ki_BeneficialOwners i)) (ky_submit i p).
(** The database after a submission. *)
Definition submitted_db (i : KYBSubmissionInput) (p : KYBProfile) (user : string) (d : DB) : DB :=
  set_kyb_status (fun u => String.eqb (us_id u) user) KPending (with_kyb (<[ky_id p := submitted_row i p]>) d).
(** The row before: the only one of the user, decided against, or a new one. *)
Record open_row (d : DB) (user : User) (p : KYBProfile) : Prop := {
  or_status : us_kyb_verification_status user <> KPending /\ us_kyb_verification_status user <> KApproved \/
              Forall (fun q => ky_user q <> Some (us_id user)) (kyb_rows d);
  or_row : (exists k, ac_kyb_profiles (db_accounts d) !! k = Some p /\ ky_user p = Some (us_id user)) \/
           (p = blank (ky_id p) (us_id user) /\ ac_kyb_profiles (db_accounts d) !! ky_id p = None /\
            Forall (fun q => ky_user q <> Some (us_id user)) (kyb_rows d))
}.

Lemma with_kyb_with f g d : with_kyb f (with_kyb g d) = with_kyb (fun m => f (g m)) d.
Proof. done. Qed.
Lemma with_kyb_ext f g d : f (ac_kyb_profiles (db_accounts d)) = g (ac_kyb_profiles (db_accounts d)) -> with_kyb f d = with_kyb g d.
Proof. unfold with_kyb. by intros ->. Qed.
Lemma update_inserted f id p d : with_kyb (alter f id) (with_kyb (<[id := p]>) d) = with_kyb (<[id := f p]>) d.
Proof. rewrite with_kyb_with. apply with_kyb_ext. by rewrite alter_insert_eq. Qed.

Lemma create_owners_wp w0 tx d id owners : forall p w (Q : outcome unit -> World -> Prop),
  in_tx w0 tx (with_kyb (<[id := p]>) d) w ->
  (forall w', in_tx w0 tx (with_kyb (<[id := ky_set_owners (ky_beneficial_owners p ++ map owner_of owners) p]>) d) w' -> Q (Ret tt) w') ->
  (forall e d' w', in_tx w0 tx d' w' -> Q (Err e) w') -> wp (create_owners tx id owners) Q w.
Proof.
  induction owners as [|o owners IH]; intros p w Q Hin Hok Hbad; cbn [create_owners].
  { apply wp_ret, Hok. cbn [map]. rewrite app_nil_r. by destruct p. }
  apply wp_bind. unfold create_owner. destruct (160 <? _)%nat; [apply wp_err; by eapply Hbad|].
  destruct (negb _); [apply wp_err; by eapply Hbad|].
  unfold update_kyb. eapply wp_in_write; [exact Hin| |]; intros w' Hin'; [|by eapply Hbad].
  rewrite update_inserted in Hin'. eapply IH; [exact Hin'| |exact Hbad]. intros w2 H2. apply Hok.
  simpl in H2. rewrite <- app_assoc in H2. exact H2.
Qed.

(** The row that a submission is stored over. *)
Definition saved (d : DB) (existing : option KYBProfile) (user : User) (row : KYBProfile) : Prop :=
  match existing with
  | Some e => ac_kyb_profiles (db_accounts d) !! ky_id e = Some row /\ ky_id row = ky_id e
  | None => row = blank (ky_id row) (us_id user) /\ ac_kyb_profiles (db_accounts d) !! ky_id row = None /\
            Forall (fun q => ky_user q <> Some (us_id user)) (kyb_rows d)
  end.
(** What storing a submission does: all of it, or nothing. *)
Definition stored (w : World) (existing : option KYBProfile) (user : User) (i : KYBSubmissionInput)
    (o : outcome (ApiResponse string + KYBProfile)) (w' : World) : Prop :=
  w_now w' = w_now w /\ w_events w' = w_events w /\
  match o with
  | Ret (inl r) => w_db w' = w_db w /\ ar_code r = 500
  | Ret (inr p) => exists row, ky_id p = ky_id row /\ w_db w' = submitted_db i row (us_id user) (w_db w) /\
      saved (w_db w) existing user row
  | _ => False
  end.
Lemma abandon_stored w existing user i tx d msg w1 : in_tx w tx d w1 ->
  wp (bindM (abandon tx 500 msg) (fun r => retM (inl r))) (stored w existing user i) w1.
Proof.
  intros []. unfold abandon. apply wp_bind, wp_bind, wp_rollback. apply wp_ret, wp_ret. by repeat split.
Qed.

(** Rows are filed under their ids. *)
Definition kyb_filed (d : DB) : Prop := map_Forall (fun k p => ky_id p = k) (ac_kyb_profiles (db_accounts d)).
Lemma kyb_rows_lookup d p : kyb_filed d -> p ∈ kyb_rows d -> ac_kyb_profiles (db_accounts d) !! ky_id p = Some p.
Proof.
  intros Hf Hp. unfold kyb_rows in Hp. apply list_elem_of_fmap in Hp as ([k q] & -> & Hq%elem_of_map_to_list). simpl.
  by rewrite (Hf k q Hq).
Qed.

Lemma save_submission_wp w0 tx existing user i w (Q : outcome KYBProfile -> World -> Prop) : kyb_filed (w_db w0) ->
  in_tx w0 tx (w_db w0) w ->
  (forall row w', saved (w_db w0) existing user row ->
     in_tx w0 tx (with_kyb (<[ky_id row := ky_submit i row]>) (w_db w0)) w' -> Q (Ret (ky_submit i row)) w') ->
  (forall e w', in_tx w0 tx (w_db w0) w' -> Q (Err e) w') -> wp (save_submission tx existing user i) Q w.
Proof.
  intros Hf Hin Hok Hbad. unfold save_submission. destruct existing as [e|].
  - eapply wp_in_modify; [exact Hin| |by intros; eapply Hbad].
    destruct (ac_kyb_profiles _ !! ky_id e) as [row|] eqn:E; [|by intros; eapply Hbad].
    assert (Hid : ky_id row = ky_id e) by (by apply Hf). intros w' Hin'. apply Hok; [done|]. by rewrite Hid.
  - apply wp_bind, wp_getM. eapply wp_in_modify; [exact Hin| |by intros; eapply Hbad].
    set (row := blank (account_uuid "kyb_profiles" w) (us_id user)). cbn [ky_id ky_submit].
    destruct (present _ || _) eqn:E; [by intros; eapply Hbad|]. apply orb_false_iff in E as [E1 E2].
    intros w' Hin'. apply (Hok row); [|exact Hin']. split; [done|]. split; [by destruct (ac_kyb_profiles _ !! _)|].
    apply Forall_forall. intros q Hq Hu. apply not_true_iff_false in E2. apply E2. apply existsb_exists. exists q.
    split; [by apply list_elem_of_In|]. by apply bool_decide_eq_true.
Qed.

Lemma store_submission_wp existing user i w : kyb_filed (w_db w) ->
  wp (store_submission existing user i) (stored w existing user i) w.
Proof.
  intros Hf. unfold store_submission. apply wp_try, wp_in_begin; [intros tx w1 H1|intros fs; by repeat split].
  apply wp_try. eapply save_submission_wp; [done|exact H1| |intros; by eapply abandon_stored]. intros row w2 Hrow H2.
  apply wp_try. cbn [ky_id ky_submit].
  assert (Hown : forall w3 p, in_tx w tx (with_kyb (<[ky_id row := p]>) (w_db w)) w3 -> ky_beneficial_owners p = [] ->
    ky_set_owners [] p = ky_set_owners [] (ky_submit i row) -> 
    wp (tryM (create_owners tx (ky_id row) (ki_BeneficialOwners i)) (fun _ => bindM (abandon tx 500 "Failed to save beneficial owner") (fun r => retM (inl r)))
      (fun _ => tryM (write_db (Some tx) (set_kyb_status (fun u => String.eqb (us_id u) (us_id user)) KPending))
        (fun _ => bindM (abandon tx 500 "Failed to update user KYB verification status") (fun r => retM (inl r)))
        (fun _ => tryM (commit_tx tx) (fun _ => bindM (api_error 500 "Failed to process request") (fun r => retM (inl r)))
          (fun _ => retM (inr (ky_submit i row)))))) (stored w existing user i) w3).
  { intros w3 p H3 Ho Hp. apply wp_try. eapply create_owners_wp; [exact H3| |intros; by eapply abandon_stored].
    intros w4 H4. rewrite Ho in H4. apply wp_try. eapply wp_in_write; [exact H4| |intros; by eapply abandon_stored].
    intros w5 H5. apply wp_try. eapply wp_in_commit; [exact H5| |]; intros w6 Hd Hn _ He; [apply wp_ret|by repeat split].
    split; [done|]. split; [done|]. exists row. split; [done|]. split; [|exact Hrow]. rewrite Hd. unfold submitted_db, submitted_row.
    do 2 f_equal. destruct p, row. simpl in *. by simplify_eq/=. }
  destruct existing as [e|].
  - unfold update_kyb. eapply wp_in_write; [exact H2| |intros; by eapply abandon_stored]. intros w3 H3.
    rewrite update_inserted in H3. eapply Hown; [exact H3|done|done].
  - apply wp_ret. eapply Hown; [exact H2| |done]. destruct Hrow as [-> _]. done.
Qed.

Lemma calm_post message : calm any (post_slack conf message).
Proof. unfold post_slack. calm_tac. Qed.
Lemma submission_note_wp f e id w : wp (SendSubmissionNotification conf f e id) (fun o w' => w_db w' = w_db w /\ o <> Panic) w.
Proof.
  unfold SendSubmissionNotification. destruct (String.eqb _ _); [done|]. unfold post_slack. apply wp_bind, wp_ext; intros fs; [|done].
  apply wp_bind, wp_emit, wp_bind, wp_getM. by destruct (_ =? 200)%Z.
Qed.
Lemma calm_feedback f e id a r : calm any (SendActionFeedbackNotification conf f e id a r).
Proof.
  unfold SendActionFeedbackNotification. destruct (String.eqb _ _); [by apply calm_ret|].
  destruct (_ || _); [apply calm_post|by apply calm_err].
Qed.

(** Users and submissions are filed under their ids. *)
Definition filed (d : DB) : Prop := map_Forall (fun k u => us_id u = k) (ac_users (db_accounts d)) /\ kyb_filed d.

(** The open submission of a user that has none or was decided against. *)
Definition open_submission (d : DB) (user : User) (existing : option (KYBProfile * User)) : Prop :=
  match existing with
  | Some (p, owner) => p ∈ kyb_rows d /\ ky_user p = Some (us_id user) /\ ac_users (db_accounts d) !! us_id user = Some owner
  | None => Forall (fun q => ky_user q <> Some (us_id user)) (kyb_rows d)
  end.
Lemma existing_wp user w :
  wp (existing_submission user) (fun o w' => w_db w' = w_db w /\ match o with Ret e => open_submission (w_db w) user e | _ => True end) w.
Proof.
  unfold existing_submission. apply wp_try, wp_bind. eapply wp_read_db; [reflexivity| |]; intros fs; [|done].
  apply wp_bind. apply only_filter; [intros p Hp Hu|intros Hno|done].
  - apply wp_ret, wp_bind, wp_deref. cbn [snd]. destruct (ac_users _ !! us_id user) as [owner|] eqn:Hown; [|done].
    apply wp_ret. split; [done|]. apply bool_decide_eq_true in Hu. done.
  - simpl. apply wp_ret. split; [done|]. apply Forall_forall. intros q Hq Hu. specialize (Hno q Hq). by apply bool_decide_eq_false in Hno.
Qed.

(** What a submission does to the database, and when it answers 201. *)
Definition submission_effect (c : Ctx) (input : option KYBSubmissionInput) (w : World) (o : outcome (ApiResponse string)) (w' : World) : Prop :=
  (w_db w' = w_db w /\ forall r, o = Ret r -> ar_code r <> 201) \/
  (exists i user row id r, input = Some i /\ cx_values c !! "user_id" = Some (VString id) /\ parse_uuid id = Some (us_id user) /\
     ac_users (db_accounts (w_db w)) !! us_id user = Some user /\ open_row (w_db w) user row /\
     w_db w' = submitted_db i row (us_id user) (w_db w) /\ o = Ret r /\
     (ar_code r = 201 /\ ar_data r = Some (ky_id row) \/
      ar_code r = 500 /\ ar_message r = "Error sending Slack notification")).

Lemma submission_open d user existing row : filed d -> ac_users (db_accounts d) !! us_id user = Some user ->
  open_submission d user existing ->
  match existing with
  | Some (_, u) => bool_decide (us_kyb_verification_status u = KPending) || bool_decide (us_kyb_verification_status u = KApproved)
  | None => false
  end = false ->
  saved d (fst <$> existing) user row -> open_row d user row.
Proof.
  intros [Hu Hk] Huser Hopen Hst Hsaved. destruct existing as [[p owner]|]; simpl in *.
  - destruct Hopen as (Hp & Hown & Ho). assert (owner = user) as -> by congruence.
    apply orb_false_iff in Hst as [H1%bool_decide_eq_false H2%bool_decide_eq_false].
    destruct Hsaved as [Hs _]. rewrite (kyb_rows_lookup d p Hk Hp) in Hs. simplify_eq.
    split; [by left|]. left. exists (ky_id row). split; [by apply kyb_rows_lookup|done].
  - destruct Hsaved as (H1 & H2 & H3). split; [by right|]. right. done.
Qed.

Lemma user_by_id_wp id w :
  wp (user_by_id id) (fun o w' => w_db w' = w_db w /\ forall u, o = Ret u -> ac_users (db_accounts (w_db w)) !! id = Some u) w.
Proof.
  unfold user_by_id. apply wp_bind. eapply wp_read_db; [reflexivity| |]; intros fs; [|done].
  destruct (ac_users _ !! id) as [u|] eqn:E; split; try done. by intros ? [= <-].
Qed.

Lemma handle_submission_wp c input w : filed (w_db w) ->
  wp (HandleKYBSubmission conf c input) (submission_effect c input w) w.
Proof.
  intros Hf. unfold HandleKYBSubmission. destruct input as [i|]; [|left; split; [done|by intros r [= <-]]].
  destruct (cx_values c !! "user_id") as [[|id| |]|] eqn:Hc; try (left; split; [done|by intros r [= <-]]).
  destruct (parse_uuid id) as [userID|] eqn:Hp; [|left; split; [done|by intros r [= <-]]].
  apply wp_try. eapply wp_mono; [apply user_by_id_wp|]. intros [user|e|] w1 [D1 Hu].
  2: { destruct (IsNotFound e); left; (split; [done|by intros r [= <-]]). }
  2: { left. by split. }
  specialize (Hu user eq_refl). assert (Hid : us_id user = userID) by (by apply (proj1 Hf)). subst userID.
  apply wp_try. eapply wp_mono; [apply existing_wp|]. intros [existing|e|] w2 [D2 Hex]; [|left; split; [simpl; congruence|by intros r [= <-]]|].
  2: { left. split; [simpl; congruence|done]. }
  rewrite D1 in D2, Hex. destruct (match existing with Some _ => _ | None => false end) eqn:Hst; [left; split; [done|by intros r [= <-]]|].
  apply wp_bind. eapply wp_mono; [apply store_submission_wp; rewrite D2; apply Hf|].
  intros [[r|p]|e|] w3 (_ & _ & H3); [| |done|done].
  { destruct H3 as [D3 Hr]. left. split; [simpl; congruence|]. intros r' [= <-]. by rewrite Hr. }
  destruct H3 as (row & Hrow & D3 & Hsaved). rewrite D2 in D3, Hsaved.
  pose proof (submission_open _ _ _ _ Hf Hu Hex Hst Hsaved) as Hopen.
  apply wp_try. eapply wp_mono; [apply submission_note_wp|]. intros [[]|e|] w4 [D4 Hnp]; [| |done].
  - right. exists i, user, row, id. eexists. split_and!; try done; [simpl; congruence|]. left. split; [done|]. simpl. by rewrite Hrow.
  - right. exists i, user, row, id. eexists. split_and!; try done; [simpl; congruence|]. by right.
Qed.

(** The user of the request has a submission and is pending or approved. *)
Record under_review (d : DB) (c : Ctx) (user : User) (p : KYBProfile) : Prop := {
  ur_request : exists id, cx_values c !! "user_id" = Some (VString id) /\ parse_uuid id = Some (us_id user);
  ur_user : ac_users (db_accounts d) !! us_id user = Some user;
  ur_row : List.filter (fun p => bool_decide (ky_user p = Some (us_id user))) (kyb_rows d) = [p];
  ur_status : us_kyb_verification_status user = KPending \/ us_kyb_verification_status user = KApproved
}.

Lemma under_review_409 c i user p w : under_review (w_db w) c user p -> w_faults w = [] ->
  wp (HandleKYBSubmission conf c (Some i)) (fun o w' => exists r, o = Ret r /\ ar_code r = 409) w.
Proof.
  intros [(id & Hc & Hid) Hu Hrow Hst] E. unfold HandleKYBSubmission, user_by_id, existing_submission. rewrite Hc, Hid.
  repeat run_ok. rewrite Hu. repeat run_ok. rewrite Hrow. cbn [only]. do 4 run_ok. cbn [snd].
  rewrite Hu. apply wp_ret.
  assert (bool_decide (us_kyb_verification_status user = KPending) || bool_decide (us_kyb_verification_status user = KApproved) = true) as ->.
  { apply orb_true_iff. destruct Hst as [->| ->]; [left|right]; by apply bool_decide_eq_true. }
  unfold api_error. wp_step. by eexists.
Qed.

Lemma under_review_unchanged c input user p w o w' : under_review (w_db w) c user p ->
  submission_effect c input w o w' -> w_db w' = w_db w.
Proof.
  intros [(id & Hc & Hid) Hu Hrow Hst] [[H _]|(i & user' & row & id' & r & _ & Hc' & Hid' & Hu' & Hopen & _)]; [done|exfalso].
  assert (user' = user) as -> by congruence. destruct (or_status _ _ _ Hopen) as [[H1 H2]|Hno]; [by destruct Hst|].
  assert (Hp : p ∈ List.filter (fun p => bool_decide (ky_user p = Some (us_id user))) (kyb_rows (w_db w)))
    by (rewrite Hrow; by left).
  apply list_elem_of_In, filter_In in Hp as [Hp Hown%bool_decide_eq_true]. rewrite Forall_forall in Hno.
  by apply (Hno p); [apply list_elem_of_In|].
Qed.

(** C29: a submission, whatever fails: the answer is 201 only after the row of the user holds
    the columns and exactly the owners of the payload and the user is pending; the row
    is the one that was decided against, or a new one.  Every other answer leaves the
    database as it was, but for the one that reports a failed notification.  A pending
    or approved user with a stored submission is refused: the database stays as it was,
    and the answer is 409 when no call fails.  (Without a stored submission the status
    is not looked at.) *)
Theorem kyb_submission_atomic c input w : filed (w_db w) ->
  wp (HandleKYBSubmission conf c input) (fun o w' => submission_effect c input w o w' /\
    forall user p, under_review (w_db w) c user p -> w_db w' = w_db w /\
      (input <> None -> w_faults w = [] -> exists r, o = Ret r /\ ar_code r = 409)) w.
Proof.
  intros Hf. pose proof (handle_submission_wp c input w Hf) as H. unfold wp in *. split; [exact H|].
  intros user p Hr. split; [by eapply under_review_unchanged|]. intros Hi E. destruct input as [i|]; [|done].
  exact (under_review_409 c i user p w Hr E).
Qed.

(** ** Decisions *)

(** The database after a decision; the comment may have failed to be written. *)
Definition decided (who : User -> bool) (st : KybStatus) (d d' : DB) : Prop :=
  d' = set_kyb_status who st d \/ exists uuid c, d' = with_kyb (alter (ky_set_comment c) uuid) (set_kyb_status who st d).
(** The submission that an approval is about. *)
Record reviewed (d : DB) (pr : gset string) (user : string) : Prop := {
  rv_review : exists id uuid p, action_key id "approve" ∈ pr /\ parse_uuid id = Some uuid /\
    ac_kyb_profiles (db_accounts d) !! uuid = Some p /\ ky_user p = Some user
}.
Definition slack_effect (w : World) (pr : gset string) (w' : World) (pr' : gset string) : Prop :=
  pr ⊆ pr' /\
  (w_db w' = w_db w \/ (exists email, decided (fun u => String.eqb (us_email u) email) KRejected (w_db w) (w_db w')) \/
   (exists k user, ac_users (db_accounts (w_db w)) !! k = Some user /\ reviewed (w_db w) pr' k /\
      decided (fun u => String.eqb (us_id u) (us_id user)) KApproved (w_db w) (w_db w'))).

(** The tail of a decision: the comment, the e-mail, the notification. *)
Lemma decision_tail who st d uuid c email t id f a text r w (Q : outcome SlackAnswer -> World -> Prop) :
  w_db w = set_kyb_status who st d -> (forall w' o, decided who st d (w_db w') -> Q o w') ->
  wp (bindM (attemptM (update_kyb None uuid (ky_set_comment c))) (fun _ =>
      bindM (attemptM (send_email t text email)) (fun _ =>
      bindM (attemptM (SendActionFeedbackNotification conf f email id a r)) (fun _ => reply 200 "")))) Q w.
Proof.
  intros Hd HQ. assert (Hcalm : calm any (bindM (attemptM (send_email t text email)) (fun _ =>
    bindM (attemptM (SendActionFeedbackNotification conf f email id a r)) (fun _ => reply 200 "")))).
  { unfold send_email, reply. pose proof calm_feedback. calm_tac; auto. }
  assert (Hrest : forall w1, decided who st d (w_db w1) -> wp (bindM (attemptM (send_email t text email)) (fun _ =>
    bindM (attemptM (SendActionFeedbackNotification conf f email id a r)) (fun _ => reply 200 ""))) Q w1).
  { intros w1 H1. eapply wp_mono; [apply Hcalm|]. intros o w2 [(D2 & _) _]. apply HQ. by rewrite D2. }
  apply wp_bind, wp_attempt. unfold update_kyb. apply wp_write_direct; intros fs; apply Hrest.
  - right. exists uuid, c. simpl. by rewrite Hd.
  - left. exact Hd.
Qed.

Lemma reject_wp view id w (Q : outcome SlackAnswer -> World -> Prop) :
  (forall w' o, w_db w' = w_db w -> Q o w') ->
  (forall w' o email, decided (fun u => String.eqb (us_email u) email) KRejected (w_db w) (w_db w') -> Q o w') ->
  wp (reject conf view id) Q w.
Proof.
  intros Hno Hyes. unfold reject. destruct (dialog_reason view) as [e|[reason comment]]; [by apply wp_ret, Hno|].
  destruct (dialog_metadata view) as [e|[email firstName]]; [by apply wp_ret, Hno|].
  destruct (parse_uuid id) as [uuid|]; [|by apply wp_ret, Hno].
  apply wp_try. apply wp_write_direct; intros fs; [|by apply wp_ret, Hno].
  eapply decision_tail; [reflexivity|]. intros w' o H. by eapply Hyes.
Qed.

Lemma approve_wp view id w (Q : outcome SlackAnswer -> World -> Prop) :
  (forall w' o, w_db w' = w_db w -> Q o w') ->
  (forall w' o uuid p k user, parse_uuid id = Some uuid -> ac_kyb_profiles (db_accounts (w_db w)) !! uuid = Some p ->
     ky_user p = Some k -> ac_users (db_accounts (w_db w)) !! k = Some user ->
     decided (fun u => String.eqb (us_id u) (us_id user)) KApproved (w_db w) (w_db w') -> Q o w') ->
  wp (approve conf view id) Q w.
Proof.
  intros Hno Hyes. unfold approve. destruct (dialog_metadata view) as [e|[email firstName]]; [by apply wp_ret, Hno|].
  destruct (parse_uuid id) as [uuid|] eqn:Hid; [|by apply wp_ret, Hno].
  apply wp_try, wp_bind. eapply wp_read_db; [reflexivity| |]; intros fs; [|by apply wp_ret, Hno].
  destruct (ac_kyb_profiles _ !! uuid) as [p|] eqn:Hp; [|by apply wp_ret, Hno]. apply wp_ret.
  destruct (ky_user p) as [k|] eqn:Hk; [|by apply wp_ret, Hno]. cbn [mbind option_bind].
  destruct (ac_users _ !! k) as [user|] eqn:Hu; [|by apply wp_ret, Hno].
  apply wp_try. apply wp_modify_direct; intros fs2; [|by apply wp_ret, Hno]. cbn [set_faults w_db].
  destruct (ac_users _ !! us_id user); [|by apply wp_ret, Hno].
  eapply decision_tail; [reflexivity|]. intros w' o H. by eapply Hyes.
Qed.

Lemma calm_action payload : calm any (handle_action conf payload).
Proof. unfold handle_action, open_review, open_reject, views_open, reply. calm_tac. Qed.

Lemma slack_wp form body pr w :
  wp (SlackInteractionHandler conf form body pr) (fun o w' => forall a pr', o = Ret (a, pr') -> slack_effect w pr w' pr') w.
Proof.
  assert (Hsame : forall w', w_db w' = w_db w -> slack_effect w pr w' pr) by (intros w' Hd; split; [done|by left]).
  unfold SlackInteractionHandler. destruct (if String.eqb form "" then body else Some form) as [text|]; [|by intros a pr' [= <- <-]; apply Hsame].
  destruct (unmarshal_map text) as [payload|]; [|by intros a pr' [= <- <-]; apply Hsame].
  destruct (bool_decide _).
  { apply wp_bind. eapply wp_mono; [apply calm_action|]. intros [a|e|] w1 [(D & _) _]; [|done|done]. intros a' pr' [= <- <-]. by apply Hsame. }
  destruct (bool_decide _); [|by intros a pr' [= <- <-]; apply Hsame].
  unfold handle_submission. destruct (payload !! "view") as [[]|]; try (by intros a pr' [= <- <-]; apply Hsame).
  destruct (json_get "callback_id" fields) as [[]|]; try (by intros a pr' [= <- <-]; apply Hsame).
  assert (Hmark : forall id t, pr ⊆ markActionProcessed pr id t) by (intros; unfold markActionProcessed; set_solver).
  destruct (HasPrefix s "reject_modal_"); [|destruct (HasPrefix s "approve_modal_"); [|by intros a pr' [= <- <-]; apply Hsame]];
    unfold decide_once; (destruct (_ || _); [by intros a pr' [= <- <-]; apply Hsame|]); apply wp_bind.
  - apply reject_wp.
    + intros w' [a|e|] Hd; [|done|done]. intros a' pr' [= <- <-]. split; [apply Hmark|]. by left.
    + intros w' [a|e|] email Hd; [|done|done]. intros a' pr' [= <- <-]. split; [apply Hmark|]. right. left. eauto.
  - apply approve_wp.
    + intros w' [a|e|] Hd; [|done|done]. intros a' pr' [= <- <-]. split; [apply Hmark|]. by left.
    + intros w' [a|e|] uuid p k user Hid Hp Hk Hu Hd; [|done|done]. intros a' pr' [= <- <-]. split; [apply Hmark|]. right. right.
      exists k, user. split; [done|]. split; [|done]. split. eexists _, uuid, p. split_and!; [|exact Hid|done|done].
      unfold markActionProcessed. set_solver.
Qed.

(** ** Runs *)

(** A submission, a request of Slack, or what happens outside: time passes, services
    fail. *)
Inductive kyb_step : World * gset string -> World * gset string -> Prop :=
  | ks_submit c input w pr : kyb_step (w, pr) ((HandleKYBSubmission conf c input w).2, pr)
  | ks_slack form body w pr a pr' w' :
      SlackInteractionHandler conf form body pr w = (Ret (a, pr'), w') -> kyb_step (w, pr) (w', pr')
  | ks_outside w pr w' : w_db w' = w_db w -> kyb_step (w, pr) (w', pr).

(** Whoever is approved has a submission whose approval was confirmed. *)
Definition approvals_reviewed (s : World * gset string) : Prop :=
  filed (w_db s.1) /\
  forall k u, ac_users (db_accounts (w_db s.1)) !! k = Some u -> us_kyb_verification_status u = KApproved -> reviewed (w_db s.1) s.2 k.

Lemma filed_status who st d : filed d -> filed (set_kyb_status who st d).
Proof.
  intros [Hu Hk]. split; [|exact Hk]. intros k u Hl. simpl in Hl. rewrite lookup_fmap in Hl.
  destruct (ac_users (db_accounts d) !! k) as [v|] eqn:E; simplify_eq/=. rewrite <- (Hu k v E). by destruct (who v).
Qed.
Lemma filed_kyb f d : filed d -> (forall m k p, map_Forall (fun k p => ky_id p = k) m -> f m !! k = Some p -> ky_id p = k) -> filed (with_kyb f d).
Proof. intros [Hu Hk] Hf. split; [exact Hu|]. intros k p Hl. exact (Hf _ k p Hk Hl). Qed.
Lemma alter_comment (m : gmap string KYBProfile) c uuid k p : alter (ky_set_comment c) uuid m !! k = Some p ->
  exists q, m !! k = Some q /\ ky_id p = ky_id q /\ ky_user p = ky_user q.
Proof.
  rewrite lookup_alter. case_decide as E; [|by eauto]. subst. destruct (m !! k) as [q|]; [|done]. intros [= <-]. by exists q.
Qed.
Lemma comment_alter (m : gmap string KYBProfile) c uuid k q : m !! k = Some q ->
  exists p, alter (ky_set_comment c) uuid m !! k = Some p /\ ky_user p = ky_user q.
Proof. intros Hq. rewrite lookup_alter. case_decide as E; [subst|by eauto]. rewrite Hq. by eexists. Qed.

(** A decision keeps the submissions, and changes the users it is about. *)
Lemma decided_keeps who st d d' : decided who st d d' -> filed d ->
  filed d' /\ (forall pr k, reviewed d pr k -> reviewed d' pr k) /\
  (forall k u, ac_users (db_accounts d') !! k = Some u -> exists v, ac_users (db_accounts d) !! k = Some v /\
     u = if who v then us_set_kyb st v else v).
Proof.
  intros Hd Hf.
  assert (Husers : forall k u, ac_users (db_accounts (set_kyb_status who st d)) !! k = Some u ->
    exists v, ac_users (db_accounts d) !! k = Some v /\ u = if who v then us_set_kyb st v else v).
  { intros k u Hl. simpl in Hl. rewrite lookup_fmap in Hl. destruct (ac_users (db_accounts d) !! k) as [v|]; simplify_eq/=. by eexists. }
  destruct Hd as [->|(uuid & c & ->)].
  - split; [by apply filed_status|]. split; [|exact Husers]. intros pr k [(id & u & p & H)]. split. by exists id, u, p.
  - split; [|split].
    + apply filed_kyb; [by apply filed_status|]. intros m k p Hm (q & Hq & -> & _)%alter_comment. by apply Hm.
    + intros pr k [(id & u & p & H1 & H2 & H3 & H4)].
      destruct (comment_alter _ c uuid _ _ H3) as (q & Hq & Hu). split. exists id, u, q. split_and!; try done. congruence.
    + exact Husers.
Qed.

Lemma submitted_keeps d i row user : filed d -> ac_users (db_accounts d) !! us_id user = Some user -> open_row d user row ->
  filed (submitted_db i row (us_id user) d) /\ (forall pr k, reviewed d pr k -> reviewed (submitted_db i row (us_id user) d) pr k).
Proof.
  intros Hf Hu Hopen. split.
  - apply filed_status, filed_kyb; [done|]. intros m k p Hm Hl. apply lookup_insert_Some in Hl as [[<- <-]|[_ Hl]]; [done|by apply Hm].
  - intros pr k [(id & uuid & p & H1 & H2 & H3 & H4)]. split. destruct (decide (uuid = ky_id row)) as [->|Hne].
    + exists id, (ky_id row), (submitted_row i row). split_and!; [done|done|simpl; by rewrite lookup_insert_eq|].
      destruct Hopen as [_ [(k' & Hk & Huser)|(_ & Hn & _)]]; [|congruence].
      assert (ky_id row = k') as Hid by (by apply (proj2 Hf)). subst k'. assert (row = p) as -> by congruence. done.
    + exists id, uuid, p. split_and!; try done. simpl. by rewrite lookup_insert_ne.
Qed.

Lemma kyb_step_inv s s' : kyb_step s s' -> approvals_reviewed s -> approvals_reviewed s'.
Proof.
  intros Hstep [Hf Hinv]. destruct Hstep as [c input w pr|form body w pr a pr' w' Hrun|w pr w' Hd]; cbn [fst snd] in *.
  - pose proof (handle_submission_wp c input w Hf) as Hw. unfold wp in Hw.
    destruct Hw as [[Hd _]|(i & user & row & id & r & _ & _ & _ & Hu & Hopen & Hd & _)]; [unfold approvals_reviewed; cbn [fst snd]; by rewrite Hd|].
    unfold approvals_reviewed; cbn [fst snd]; rewrite Hd. destruct (submitted_keeps _ i row user Hf Hu Hopen) as [Hf' Hk]. split; [done|].
    intros k u Hl Hst. simpl in Hl. rewrite lookup_fmap in Hl. destruct (ac_users _ !! k) as [v|] eqn:E; simplify_eq/=.
    apply Hk, (Hinv k v E). by destruct (String.eqb (us_id v) (us_id user)).
  - pose proof (slack_wp form body pr w) as Hw. unfold wp in Hw. rewrite Hrun in Hw. destruct (Hw a pr' eq_refl) as [Hsub He].
    unfold approvals_reviewed; cbn [fst snd] in *.
    assert (Hmono : forall d k, reviewed d pr k -> reviewed d pr' k).
    { intros d k [(id & uuid & p & H1 & H)]. split. exists id, uuid, p. split; [by apply Hsub|done]. }
    destruct He as [->|[(email & Hd)|(k0 & user & Hu & Hrev & Hd)]]; [split; [done|]; intros; by eapply Hmono, Hinv|..];
      destruct (decided_keeps _ _ _ _ Hd Hf) as (Hf' & Hk & Husers); (split; [done|]); intros k u Hl Hst; apply Hk;
      destruct (Husers k u Hl) as (v & Hv & ->).
    + apply Hmono, (Hinv k v Hv). by destruct (String.eqb (us_email v) email).
    + destruct (String.eqb_spec (us_id v) (us_id user)) as [E|]; [|by apply Hmono, (Hinv k v Hv)].
      rewrite (proj1 Hf k v Hv), (proj1 Hf k0 user Hu) in E. by subst.
  - unfold approvals_reviewed; cbn [fst snd]. by rewrite Hd.
Qed.

(** C28: over every sequence of submissions, Slack requests and failures, from a database in
    which nobody is approved: a user is approved only when the approval dialog of one
    of its own submissions was confirmed. *)
Theorem approved_only_by_review w0 w pr k u :
  rtc kyb_step (w0, ∅) (w, pr) -> filed (w_db w0) ->
  (forall k u, ac_users (db_accounts (w_db w0)) !! k = Some u -> us_kyb_verification_status u <> KApproved) ->
  ac_users (db_accounts (w_db w)) !! k = Some u -> us_kyb_verification_status u = KApproved -> reviewed (w_db w) pr k.
Proof.
  intros Hrun Hf Hno Hk Hst.
  assert (Hinv : approvals_reviewed (w, pr)).
  { eapply (rtc_ind_r (fun s => approvals_reviewed s) (w0, ∅)); [|by intros ? ? _; apply kyb_step_inv|exact Hrun].
    split; [done|]. intros k' u' Hl Hs. by destruct (Hno k' u' Hl). }
  by apply (proj2 Hinv k u).
Qed.

(** ** Decisions are made once *)

(** A confirmed dialog of a submission: of its approval or of its rejection. *)
Definition dialog_prefix (pre : string) : Prop := pre = "reject_modal_" \/ pre = "approve_modal_".
Record confirms (form : string) (body : option string) (id : string) : Prop := {
  cf_request : exists text payload view pre, (if String.eqb form "" then body else Some form) = Some text /\
    unmarshal_map text = Some payload /\ payload !! "type" = Some (JStr "view_submission") /\
    payload !! "view" = Some (JObj view) /\ dialog_prefix pre /\ json_get "callback_id" view = Some (JStr (pre +:+ id))
}.
Definition is_decided (pr : gset string) (id : string) : bool := isActionProcessed pr id "approve" || isActionProcessed pr id "reject".

Lemma after_append pre s : after pre (pre +:+ s) = s.
Proof.
  unfold after. induction pre as [|a pre IH]; [|exact IH]. change ("" +:+ s) with s. rewrite Nat.sub_0_r. apply substring_all.
Qed.

(** What confirming a dialog runs. *)
Lemma confirm_runs form body id : confirms form body id -> exists view t, (t = "approve" \/ t = "reject") /\ forall pr,
  SlackInteractionHandler conf form body pr =
  decide_once t (if String.eqb t "reject" then reject conf view id else approve conf view id) id pr.
Proof.
  intros [(text & payload & view & pre & Ht & Hp & Hty & Hv & Hpre & Hc)]. unfold SlackInteractionHandler. rewrite Ht, Hp, Hty.
  exists view. unfold handle_submission. rewrite Hv, Hc.
  destruct Hpre as [-> | ->]; [exists "reject"|exists "approve"]; (split; [tauto|]); intros pr;
    [rewrite HasPrefix_append|change (HasPrefix _ "reject_modal_") with false; rewrite HasPrefix_append]; by rewrite after_append.
Qed.

Lemma decided_step s s' id : kyb_step s s' -> is_decided s.2 id = true -> is_decided s'.2 id = true.
Proof.
  intros Hstep Hd. destruct Hstep as [|form body w pr a pr' w' Hrun|]; [done| |done].
  pose proof (slack_wp form body pr w) as Hw. unfold wp in Hw. rewrite Hrun in Hw. destruct (Hw a pr' eq_refl) as [Hsub _].
  unfold is_decided, isActionProcessed in *. simpl in *. apply orb_true_iff in Hd as [H|H]; apply bool_decide_eq_true in H; apply Hsub in H;
    rewrite (bool_decide_eq_true_2 _ H); by rewrite ?orb_true_r.
Qed.
Lemma decided_run s s' id : rtc kyb_step s s' -> is_decided s.2 id = true -> is_decided s'.2 id = true.
Proof. intros Hrun. induction Hrun as [|s1 s2 s3 H1 _ IH]; [done|]. intros Hd. by eapply IH, decided_step. Qed.

Lemma confirm_marks form body id pr w a pr' w' : confirms form body id ->
  SlackInteractionHandler conf form body pr w = (Ret (a, pr'), w') -> is_decided pr' id = true.
Proof.
  intros Hc. destruct (confirm_runs form body id Hc) as (view & t & Ht & ->). unfold decide_once.
  destruct (isActionProcessed pr id "approve" || _) eqn:Hd; [by intros [= <- <- <-]|]. unfold bindM.
  destruct ((if String.eqb t "reject" then reject conf view id else approve conf view id) w) as [[a1|e|] w1]; [|done|done]. intros [= <- <- <-].
  unfold is_decided, isActionProcessed, markActionProcessed.
  destruct Ht as [-> | ->]; [rewrite bool_decide_eq_true_2 by set_solver; done|].
  apply orb_true_iff. right. apply bool_decide_eq_true. set_solver.
Qed.

(** A refused decision stores nothing. *)
Definition refused_unchanged (d : DB) (o : outcome SlackAnswer) (w' : World) : Prop :=
  forall a, o = Ret a -> a.1 <> 200%Z -> w_db w' = d.
Lemma wp_any {A} (m : M A) (Q : outcome A -> World -> Prop) w : (forall o w', Q o w') -> wp m Q w.
Proof. intros HQ. apply HQ. Qed.
Lemma tail_answers m1 m2 m3 w (d : DB) :
  wp (bindM (attemptM m1) (fun _ : error + unit => bindM (attemptM m2) (fun _ : error + unit =>
      bindM (attemptM m3) (fun _ : error + unit => reply 200 "")))) (refused_unchanged d) w.
Proof.
  repeat (apply wp_bind, wp_attempt, wp_any; intros [?|?|] ?; [| |done]); by intros ? [= <-].
Qed.

Lemma refused_wp view id t w :
  wp (if String.eqb t "reject" then reject conf view id else approve conf view id) (refused_unchanged (w_db w)) w.
Proof.
  assert (Hno : forall fs a, wp (retM a) (refused_unchanged (w_db w)) (set_faults fs w)) by done.
  destruct (String.eqb t "reject").
  - unfold reject. destruct (dialog_reason view) as [e|[reason comment]]; [done|].
    destruct (dialog_metadata view) as [e|[email firstName]]; [done|]. destruct (parse_uuid id) as [uuid|]; [|done].
    apply wp_try. apply wp_write_direct; intros fs; [apply tail_answers|done].
  - unfold approve. destruct (dialog_metadata view) as [e|[email firstName]]; [done|]. destruct (parse_uuid id) as [uuid|]; [|done].
    apply wp_try, wp_bind. eapply wp_read_db; [reflexivity| |]; intros fs; [|done].
    destruct (ac_kyb_profiles _ !! uuid) as [p|]; [|done]. apply wp_ret.
    destruct (ky_user p) as [k|]; [|done]. cbn [mbind option_bind]. destruct (ac_users _ !! k) as [user|]; [|done].
    apply wp_try. apply wp_modify_direct; intros fs2; [|done]. cbn [set_faults w_db].
    destruct (ac_users _ !! us_id user); [apply tail_answers|done].
Qed.

(** C30: once a dialog of a submission was confirmed, confirming the same or the other dialog
    of it does nothing, whatever happened in between: also when the submission was
    rejected and sent in again, and also when the first decision was refused or failed,
    which stored nothing. *)
Theorem decided_submission_frozen form1 body1 form2 body2 id pr w a pr1 w1 w2 pr2 :
  confirms form1 body1 id -> SlackInteractionHandler conf form1 body1 pr w = (Ret (a, pr1), w1) ->
  rtc kyb_step (w1, pr1) (w2, pr2) -> confirms form2 body2 id ->
  SlackInteractionHandler conf form2 body2 pr2 w2 = (Ret ((200%Z, "This submission has already been processed."), pr2), w2) /\
  (a.1 <> 200%Z -> w_db w1 = w_db w).
Proof.
  intros H1 Hrun Hsteps H2. split.
  - pose proof (decided_run _ _ id Hsteps (confirm_marks _ _ _ _ _ _ _ _ H1 Hrun)) as Hd. simpl in Hd.
    destruct (confirm_runs _ _ _ H2) as (view & t & _ & ->). unfold decide_once. unfold is_decided in Hd. by rewrite Hd.
  - intros Ha. destruct (confirm_runs _ _ _ H1) as (view & t & _ & Heq). rewrite Heq in Hrun. unfold decide_once in Hrun.
    destruct (_ || _); [by injection Hrun as <- _ _|]. unfold bindM in Hrun. pose proof (refused_wp view id t w) as Hw. unfold wp in Hw.
    destruct ((if String.eqb t "reject" then reject conf view id else approve conf view id) w) as [[a1|e|] w1']; [|done|done].
    injection Hrun as <- _ <-. by apply (Hw a1).
Qed.
End submission.

(** ** Concrete runs *)

(** Slack's texts: the confirmed dialogs of the first submission. *)
Definition s_dialog (pre : string) : gmap string json :=
  <["view" := JObj [("callback_id", JStr (pre +:+ "kyb_profiles")); ("private_metadata", JStr "metadata");
                    ("state", JObj [("values", JObj [("reason_block", JObj [("reason_select", JObj [("selected_option",
                       JObj [("value", JStr "Unverifiable business identity")])])])])])]]>
  {[ "type" := JStr "view_submission" ]}.
Definition s_kyb_auth : AuthServices := {|
  ParseFloat := s_float;
  int64_unrepresentable _ := (- 2 ^ 63)%Z;
  unmarshal_map s :=
    if String.eqb s "approve" then Some (s_dialog "approve_modal_")
    else if String.eqb s "reject" then Some (s_dialog "reject_modal_")
    else if String.eqb s "metadata" then Some {[ "email" := JStr "ada@example.com" ]} else None;
  marshal_map _ := None;
  hmac_sha256_hex k m := k +:+ "/" +:+ m;
  base64_decode := Some;
  gcm_open _ _ _ := None;
  jwt_sign _ _ := None;
  jwt_parse _ _ _ := None;
  privy_parse _ _ := None;
  unmarshal_accounts _ := None;
  turnstile_success _ _ := true
|}.
Definition s_kyb_services : KybServices := {| slack_status _ _ _ := 200%Z; slack_views _ _ := (200%Z, true); two_decimals _ := "" |}.
Definition s_slack : SlackConf := mkSlackConf "https://hooks.slack.com/services/x" "xoxb-token".
Definition s_input : KYBSubmissionInput :=
  mkKSI "+2348000000000" "Acme" "1 Main Street" "https://docs/cert" "https://docs/articles" None "https://docs/address" "https://docs/home" (Some "https://docs/aml")
    None [mkBOI "Ada L" "2 Side Street" "https://docs/home" "https://docs/id" "1990-01-01" 60 "passport"].
Definition s_kyb_world : World := s_auth_world ∅.

Definition s_submitted : World := (HandleKYBSubmission (KS := s_kyb_services) s_slack (s_ctx "u1") (Some s_input) s_kyb_world).2.
Definition run_slack (text : string) (w : World) (pr : gset string) : outcome (SlackAnswer * gset string) * World :=
  SlackInteractionHandler (AU := s_kyb_auth) (KS := s_kyb_services) s_slack text None pr w.
Definition s_approved : World := (run_slack "approve" s_submitted ∅).2.
Definition s_rejected : World := (run_slack "reject" s_submitted ∅).2.
Definition s_again : World := (HandleKYBSubmission (KS := s_kyb_services) s_slack (s_ctx "u1") (Some s_input) s_rejected).2.
Definition status_of (w : World) : option KybStatus := us_kyb_verification_status <$> ac_users (db_accounts (w_db w)) !! "u1".
Definition s_mark (t : string) : gset string := markActionProcessed ∅ "kyb_profiles" t.

Lemma run_slack_is text w pr a pr' : (run_slack text w pr).1 = Ret (a, pr') -> run_slack text w pr = (Ret (a, pr'), (run_slack text w pr).2).
Proof. intros <-. apply surjective_pairing. Qed.
Lemma s_kyb_filed : filed (w_db s_kyb_world).
Proof. split; [by apply map_Forall_singleton|by apply map_Forall_empty]. Qed.
Lemma s_confirms t : t = "approve" \/ t = "reject" -> confirms (AU := s_kyb_auth) t None "kyb_profiles".
Proof.
  intros Ht. split. destruct Ht as [-> | ->];
    [eexists _, (s_dialog "approve_modal_"), _, "approve_modal_"|eexists _, (s_dialog "reject_modal_"), _, "reject_modal_"];
    (split; [reflexivity|]); (split; [reflexivity|]); (split; [reflexivity|]); (split; [reflexivity|]);
    (split; [by (left + right)|reflexivity]).
Qed.

Lemma kyb_submission_atomic_witness :
  submission_effect (s_ctx "u1") (Some s_input) s_kyb_world
    (HandleKYBSubmission (KS := s_kyb_services) s_slack (s_ctx "u1") (Some s_input) s_kyb_world).1 s_submitted /\
  status_of s_submitted = Some KPending.
Proof.
  split; [|vm_compute; reflexivity].
  exact (proj1 (kyb_submission_atomic (KS := s_kyb_services) s_slack (s_ctx "u1") (Some s_input) s_kyb_world s_kyb_filed)).
Defined.

(** A submission is confirmed, and its user approved. *)
Lemma approved_only_by_review_witness :
  status_of s_approved = Some KApproved /\ reviewed (w_db s_approved) (s_mark "approve") "u1".
Proof.
  split; [vm_compute; reflexivity|].
  destruct (ac_users (db_accounts (w_db s_approved)) !! "u1") as [u|] eqn:Hu; [|vm_compute in Hu; discriminate].
  apply (approved_only_by_review (AU := s_kyb_auth) (KS := s_kyb_services) s_slack s_kyb_world s_approved (s_mark "approve") "u1" u).
  - eapply rtc_l; [apply (ks_submit s_slack (s_ctx "u1") (Some s_input))|]. apply rtc_once.
    eapply (ks_slack s_slack "approve" None). apply (run_slack_is "approve" s_submitted ∅). vm_compute. reflexivity.
  - exact s_kyb_filed.
  - intros k v. change (({[ "u1" := s_user ]} : gmap string User) !! k = Some v -> us_kyb_verification_status v <> KApproved).
    intros [_ <-]%lookup_singleton_Some. discriminate.
  - exact Hu.
  - assert (Hs : status_of s_approved = Some KApproved) by (vm_compute; reflexivity). unfold status_of in Hs. rewrite Hu in Hs.
    by injection Hs.
Defined.

(** A rejected submission that is sent in again stays pending: its approval is ignored. *)
Lemma decided_submission_frozen_witness :
  status_of s_rejected = Some KRejected /\ status_of s_again = Some KPending /\
  run_slack "approve" s_again (s_mark "reject") =
    (Ret ((200%Z, "This submission has already been processed."), s_mark "reject"), s_again).
Proof.
  split; [vm_compute; reflexivity|]. split; [vm_compute; reflexivity|].
  apply (decided_submission_frozen (AU := s_kyb_auth) (KS := s_kyb_services) s_slack "reject" None "approve" None "kyb_profiles" ∅ s_submitted
    (200%Z, "") (s_mark "reject") s_rejected).
  - apply s_confirms. by right.
  - apply (run_slack_is "reject" s_submitted ∅). vm_compute. reflexivity.
  - apply rtc_once. apply (ks_submit s_slack (s_ctx "u1") (Some s_input)).
  - apply s_confirms. by left.
Defined.
