(* ===== verification/Kyc.v ===== *)
(** * Identity checks of wallets (controllers/index.go, services/kyc)

    A wallet asks for a check with a signed message ([RequestIDVerification]), gets the
    link of an identity provider (services/kyc/smile/index.go), and the provider reports
    the result ([KYCWebhook]).  The requests are kept in a table of their own that
    nothing else reads: it is passed along, filed under the wallet, whose column is
    unique.  An answer of the webhook is its code and text. *)

From S2P Require Import Prelude Decimal Schema Store Samples Balance Utils Ethereum Services Http Alchemy.
Local Open Scope go_scope.
Local Open Scope string_scope.
Local Open Scope list_scope.

Record VerificationRequest := mkVReq { vq_WalletAddress : string; vq_Signature : string; vq_Nonce : string }.
Record VerificationResponse := mkVResp { vs_URL : string; vs_ExpiresAt : Z }.
Record VerificationStatus := mkVStat { vt_URL : string; vt_Status : string }.

Inductive CheckState := CPending | CSuccess | CFailed.
#[export] Instance CheckState_eq_dec : EqDecision CheckState.
Proof. solve_decision. Defined.
Record IdentityVerificationRequest := mkIVR {
  iv_wallet_address : string;
  iv_wallet_signature : string;
  iv_platform_ref : string;
  iv_verification_url : string;
  iv_status : CheckState;
  iv_last_url_created_at : Z
}.
Abbreviation Requests := (gmap string IdentityVerificationRequest).

Inductive KycError :=
  | ErrSignatureAlreadyUsed | ErrAlreadyVerified | ErrProviderUnreachable | ErrProviderResponse | ErrDatabase | ErrNotFound
  | ErrOther (message : string).

Record IDType := mkIDType { it_Type : string; it_VerificationMethod : string }.
Record Country := mkCountry { co_Name : string; co_Code : string; co_IDTypes : list IDType }.
Record Continent := mkContinent { cn_Name : string; cn_Countries : list Country }.

Record SmileIDWebhookPayload := mkSmile {
  sw_ResultCode : string;
  sw_UserID : string;
  sw_Signature : string;
  sw_Timestamp : string
}.

(** The settings; the embedded list of documents, when it can be parsed. *)
Record KycConf := mkKycConf {
  kc_BaseUrl : string;
  kc_ApiKey : string;
  kc_PartnerId : string;
  kc_ServerURL : string;
  kc_id_types : option (list Continent)
}.

Class KycServices `{O : DecimalOps} := {
  (** the provider's answer to the request for a link *)
  smile_answer : World -> list (string * json) -> HttpResponse;
  (** base64 of the HMAC-SHA256 of a message under a key *)
  smile_mac : string -> string -> string;
  (** [crypto.SigToPub] and [crypto.PubkeyToAddress]: the signer of a hash *)
  recover_address : list Z -> list Z -> option (list Z);
  (** [Format(time.RFC3339Nano)] *)
  rfc3339nano : Z -> string
}.

Section kyc.
Context {O : DecimalOps} {EC : EthCommon} {AS : @AlchemyServices O} {KY : @KycServices O}.
Variable conf : KycConf.

(** ** Signatures of wallets *)

Definition consent (walletAddress nonce : string) : string :=
  "I accept the KYC Policy and hereby request an identity verification check for " +:+ walletAddress +:+ " with nonce " +:+ nonce.
Definition verifyWalletSignature (walletAddress signature nonce : string) : option string :=
  match hex_decode (String.list_ascii_of_string signature) with
  | None => Some "invalid signature: signature is not in the correct format"
  | Some sig =>
      if negb (length sig =? 65)%nat then Some "invalid signature: signature length is not correct"
      else
        match sig !! 64%nat with
        | Some v =>
            if negb (v =? 27)%Z && negb (v =? 28)%Z then Some "invalid signature: invalid recovery ID"
            else
              match recover_address (TextHash (string_to_bytes (consent walletAddress nonce))) (<[64%nat := (v - 27)%Z]> sig) with
              | None => Some "invalid signature"
              | Some recovered => if EqualFold (address_hex recovered) walletAddress then None else Some "invalid signature"
              end
        | None => Some "invalid signature: signature length is not correct"
        end
  end.

(** ** The provider (services/kyc/smile/index.go) *)

Definition getSmileIDSignature (timestamp : string) : string :=
  smile_mac (kc_ApiKey conf) (timestamp +:+ kc_PartnerId conf +:+ "sid_request").
Definition verifySmileIDWebhookSignature (p : SmileIDWebhookPayload) (receivedSignature : string) : bool :=
  String.eqb (getSmileIDSignature (sw_Timestamp p)) receivedSignature.

Definition flattenSmileIDConfig (continents : list Continent) : option (list json) :=
  match concat (map (fun continent => concat (map (fun country =>
          map (fun t => JObj [("country", JStr (co_Code country)); ("id_type", JStr (it_Type t)); ("verification_method", JStr (it_VerificationMethod t))])
            (co_IDTypes country)) (cn_Countries continent))) continents) with
  | [] => None
  | idTypes => Some idTypes
  end.
Definition loadSmileIDConfig : option (list json) := c ← kc_id_types conf; flattenSmileIDConfig c.

Definition minutes (n : Z) : Z := (n * 60 * 1000000000)%Z.

Definition link_request (req : VerificationRequest) (now : Z) (idTypes : list json) : list (string * json) :=
  [("partner_id", JStr (kc_PartnerId conf)); ("signature", JStr (getSmileIDSignature (rfc3339nano now)));
   ("timestamp", JStr (rfc3339nano now)); ("name", JStr "Aggregator KYC"); ("company_name", JStr "Paycrest");
   ("id_types", JArr idTypes); ("callback_url", JStr (kc_ServerURL conf +:+ "/v1/kyc/webhook"));
   ("data_privacy_policy_url", JStr "https://paycrest.notion.site/KYC-Policy-10e2482d45a280e191b8d47d76a8d242");
   ("logo_url", JStr "https://res.cloudinary.com/de6e0wihu/image/upload/v1738088043/xxhlrsld2wy9lzekahur.png");
   ("is_single_use", JBool true); ("user_id", JStr (vq_WalletAddress req));
   ("expires_at", JStr (rfc3339nano (now + minutes 60)))].

Definition Kyc (A : Type) : Type := M ((KycError + A) * Requests).
Definition fails {A} (e : KycError) (t : Requests) : Kyc A := retM (inl e, t).

(** The column of signatures is unique. *)
Definition signature_taken (t : Requests) (signature : string) : bool :=
  existsb (fun v => String.eqb (iv_wallet_signature v) signature) (map snd (map_to_list t)).

(** A new link, and its row; the assertions on the answer panic, which leaves the table
    of [panicked_request]. *)
Definition create_request (req : VerificationRequest) (t : Requests) : Kyc VerificationResponse :=
  let! w := getM in
  match loadSmileIDConfig with
  | None => fails (ErrOther "failed to load ID types") t
  | Some idTypes =>
      do? ext orelse _e => (fails ErrProviderUnreachable t) in
      let payload := link_request req (w_now w) idTypes in
      do! emit (EvPost (kc_BaseUrl conf +:+ "/v1/smile_links") payload) in
      match ParseJSONResponse (smile_answer w payload) with
      | (Some _, _) => fails ErrProviderResponse t
      | (None, data) =>
          match json_get "ref_id" data, json_get "link" data with
          | Some (JStr ref), Some (JStr link) =>
              do? ext orelse _e => (fails ErrDatabase t) in
              if bool_decide (is_Some (t !! vq_WalletAddress req)) || signature_taken t (vq_Signature req) then fails ErrDatabase t
              else retM (inr (mkVResp link (w_now w)),
                         <[vq_WalletAddress req := mkIVR (vq_WalletAddress req) (vq_Signature req) ref link CPending (w_now w)]> t)
          | _, _ => panicM
          end
      end
  end.

Definition iv_set_signature (s : string) (v : IdentityVerificationRequest) : IdentityVerificationRequest :=
  mkIVR (iv_wallet_address v) s (iv_platform_ref v) (iv_verification_url v) (iv_status v) (iv_last_url_created_at v).
Definition iv_set_status (st : CheckState) (v : IdentityVerificationRequest) : IdentityVerificationRequest :=
  mkIVR (iv_wallet_address v) (iv_wallet_signature v) (iv_platform_ref v) (iv_verification_url v) st (iv_last_url_created_at v).

(** A failed or expired request is deleted and made again; the link of a fresh one is
    given out again under the new signature. *)
Definition RequestVerification (req : VerificationRequest) (t : Requests) : Kyc VerificationResponse :=
  do? ext orelse _e => (fails ErrDatabase t) in
  let! w := getM in
  match t !! vq_WalletAddress req with
  | None => create_request req t
  | Some ivr =>
      if String.eqb (iv_wallet_signature ivr) (vq_Signature req) then fails ErrSignatureAlreadyUsed t
      else
        let expired := (iv_last_url_created_at ivr + minutes 15 <? w_now w)%Z in
        match iv_status ivr with
        | CSuccess => fails ErrAlreadyVerified t
        | CFailed => do? ext orelse _e => (fails ErrDatabase t) in create_request req (delete (vq_WalletAddress req) t)
        | CPending =>
            if expired then do? ext orelse _e => (fails ErrDatabase t) in create_request req (delete (vq_WalletAddress req) t)
            else
              do? ext orelse _e => (fails ErrDatabase t) in
              if signature_taken t (vq_Signature req) then fails ErrDatabase t
              else retM (inr (mkVResp (iv_verification_url ivr) (iv_last_url_created_at ivr)),
                         <[vq_WalletAddress req := iv_set_signature (vq_Signature req) ivr]> t)
        end
  end.

(** The table after a request that panicked: the row of the wallet, if it had one, has
    been deleted before. *)
Definition panicked_request (req : VerificationRequest) (t : Requests) : Requests := delete (vq_WalletAddress req) t.

Definition check_text (st : CheckState) : string :=
  match st with CPending => "pending" | CSuccess => "success" | CFailed => "failed" end.
Definition CheckStatus (walletAddress : string) (t : Requests) : M (KycError + VerificationStatus) :=
  do? ext orelse _e => (retM (inl ErrDatabase)) in
  let! w := getM in
  match t !! walletAddress with
  | None => retM (inl ErrNotFound)
  | Some ivr =>
      let expired := (iv_last_url_created_at ivr + minutes 60 <? w_now w)%Z && bool_decide (iv_status ivr = CPending) in
      retM (inr (mkVStat (iv_verification_url ivr) (if expired then "expired" else check_text (iv_status ivr))))
  end.

Definition success_codes : list string := ["0810"; "1020"; "1012"; "0820"; "0840"].
Definition failed_codes : list string :=
  ["0811"; "0812"; "0813"; "1022"; "1023"; "1011"; "1013"; "1014"; "0821"; "0911"; "0912"; "0921"; "0922"; "0841"; "0941"; "0942"].
Definition code_status (code : string) : CheckState :=
  if existsb (String.eqb code) failed_codes then CFailed
  else if existsb (String.eqb code) success_codes then CSuccess else CPending.

(** The pending request of the wallet gets the status; a missing one is no error. *)
Definition report_status (wallet : string) (st : CheckState) : Requests -> Requests :=
  alter (fun v => if decide (iv_status v = CPending) then iv_set_status st v else v) wallet.
Definition HandleWebhook (payload : option SmileIDWebhookPayload) (t : Requests) : Kyc unit :=
  match payload with
  | None => fails (ErrOther "invalid payload") t
  | Some p =>
      if negb (verifySmileIDWebhookSignature p (sw_Signature p)) then fails (ErrOther "invalid signature") t
      else
        do? ext orelse _e => (fails ErrDatabase t) in
        retM (inr tt, report_status (sw_UserID p) (code_status (sw_ResultCode p)) t)
  end.

(** ** Endpoints *)

Definition kyc_answer {A} (code : Z) (status message : string) (data : option A) (t : Requests) : M (ApiResponse A * Requests) :=
  retM (mkResponse code status message data, t).
Definition RequestIDVerification (payload : option VerificationRequest) (t : Requests) : M (ApiResponse VerificationResponse * Requests) :=
  match payload with
  | None => kyc_answer 400 "error" "Failed to validate payload" None t
  | Some p =>
      match verifyWalletSignature (vq_WalletAddress p) (vq_Signature p) (vq_Nonce p) with
      | Some _ => kyc_answer 400 "error" "Invalid signature" None t
      | None =>
          let! res := RequestVerification p t in
          let t := res.2 in
          let failed (code : Z) (status : string) := kyc_answer code status "Failed to request identity verification" None t in
          match res.1 with
          | inl ErrSignatureAlreadyUsed => kyc_answer 400 "error" "Signature already used for identity verification" None t
          | inl ErrAlreadyVerified => failed 400 "success"
          | inl (ErrProviderUnreachable | ErrProviderResponse) => failed 502 "error"
          | inl _ => failed 500 "error"
          | inr r => kyc_answer 200 "success" "Identity verification requested successfully" (Some r) t
          end
      end
  end.

Definition GetIDVerificationStatus (walletAddress : string) (t : Requests) : M (ApiResponse VerificationStatus) :=
  let! res := CheckStatus walletAddress t in
  match res with
  | inl ErrNotFound => api_error 404 "No verification request found for this wallet address"
  | inl _ => api_error 500 "Failed to fetch identity verification status"
  | inr r => api_success 200 "Identity verification status fetched successfully" r
  end.

(** [readable] tells whether the body could be read, [payload] what it unmarshals to. *)
Definition KYCWebhook (readable : bool) (payload : option SmileIDWebhookPayload) (t : Requests) : M ((Z * string) * Requests) :=
  if negb readable then retM ((400, "Invalid payload"), t)
  else
    let! res := HandleWebhook payload t in
    retM (match res.1 with
          | inr _ => (200, "Webhook processed successfully")
          | inl (ErrOther m) =>
              if String.eqb m "invalid payload" then (400, "Invalid payload")
              else if String.eqb m "invalid signature" then (401, "Invalid signature") else (500, "Failed to process webhook")
          | inl _ => (500, "Failed to process webhook")
          end, res.2).
End kyc.
