(* ===== verification/KycClaims.v ===== *)
(** * Theorems about identity checks

    A request for a check needs the wallet's signature, and leaves its own row pending
    or, at worst, removed ([request_verification_correct]).  Over every sequence of
    requests, reports and failures a wallet is verified only by a report with the right
    signature and a success code, and stays so ([verified_by_report_forever]); rows
    never share a signature ([wallet_signatures_unique]).  The signature of a report
    covers only its timestamp: it serves for any wallet and any result
    ([report_signature_transfers]). *)

From S2P Require Import Prelude Decimal Schema Store Samples Balance Utils Ethereum Services Http Alchemy AlchemyClaims Kyc.
Local Open Scope go_scope.
Local Open Scope string_scope.
Local Open Scope list_scope.

Section claims.
Context {O : DecimalOps} {EC : EthCommon} {AS : @AlchemyServices O} {KY : @KycServices O}.
Variable conf : KycConf.

(** ** Requests *)

(** Rows are filed under their wallets, and no two have the same signature. *)
Record table_ok (t : Requests) : Prop := {
  to_filed : map_Forall (fun k v => iv_wallet_address v = k) t;
  to_signatures : forall k1 k2 v1 v2, t !! k1 = Some v1 -> t !! k2 = Some v2 ->
    iv_wallet_signature v1 = iv_wallet_signature v2 -> k1 = k2
}.

(** A row that may be requested again: none, a failed or an unfinished one. *)
Definition reopened (t : Requests) (wallet : string) : Prop := forall v, t !! wallet = Some v -> iv_status v <> CSuccess.
(** The row that a request leaves for its wallet. *)
Definition row_requested (req : VerificationRequest) (r : VerificationResponse) (v : IdentityVerificationRequest) : Prop :=
  iv_wallet_address v = vq_WalletAddress req /\ iv_wallet_signature v = vq_Signature req /\ iv_status v = CPending /\
  iv_verification_url v = vs_URL r /\ iv_last_url_created_at v = vs_ExpiresAt r.
(** What a request does to the table. *)
Definition request_effect (req : VerificationRequest) (t : Requests) (res : KycError + VerificationResponse) (t' : Requests) : Prop :=
  match res with
  | inl _ => t' = t \/ reopened t (vq_WalletAddress req) /\ t' = delete (vq_WalletAddress req) t
  | inr r => reopened t (vq_WalletAddress req) /\
      exists v, row_requested req r v /\ signature_taken (delete (vq_WalletAddress req) t) (vq_Signature req) = false /\
        t' = <[vq_WalletAddress req := v]> t
  end.

Lemma signature_taken_spec t s : signature_taken t s = true <-> exists k v, t !! k = Some v /\ iv_wallet_signature v = s.
Proof.
  unfold signature_taken. rewrite existsb_exists. split.
  - intros (v & Hin & Hs%String.eqb_eq). apply list_elem_of_In, list_elem_of_fmap in Hin as ([k v'] & -> & Hk%elem_of_map_to_list).
    by exists k, v'.
  - intros (k & v & Hk & Hs). exists v. split; [|by apply String.eqb_eq].
    apply list_elem_of_In, list_elem_of_fmap. exists (k, v). split; [done|]. by apply elem_of_map_to_list.
Qed.
Lemma signature_free t s k v : signature_taken t s = false -> t !! k = Some v -> iv_wallet_signature v <> s.
Proof. intros Hf Hk Hs. apply not_true_iff_false in Hf. apply Hf, signature_taken_spec. by exists k, v. Qed.
Lemma taken_delete t w s : signature_taken t s = false -> signature_taken (delete w t) s = false.
Proof.
  intros H. apply not_true_iff_false. intros (k & v & Hk & Hs)%signature_taken_spec. apply lookup_delete_Some in Hk as [_ Hk].
  by apply (signature_free t s k v).
Qed.

Lemma create_wp req t w (Q : outcome ((KycError + VerificationResponse) * Requests) -> World -> Prop) :
  t !! vq_WalletAddress req = None ->
  (forall e w', Q (Ret (inl e, t)) w') -> (forall w', Q Panic w') ->
  (forall r v w', row_requested req r v -> signature_taken t (vq_Signature req) = false ->
     Q (Ret (inr r, <[vq_WalletAddress req := v]> t)) w') ->
  wp (create_request conf req t) Q w.
Proof.
  intros Hno Hbad Hpanic Hok. unfold create_request, fails. apply wp_bind, wp_getM.
  destruct (loadSmileIDConfig conf) as [idTypes|]; [|by apply wp_ret].
  apply wp_try, wp_ext; intros fs; [|by apply wp_ret]. apply wp_bind, wp_emit.
  destruct (ParseJSONResponse _) as [[e|] data]; [by apply wp_ret|].
  destruct (json_get "ref_id" data) as [[]|]; try (by apply wp_panic). destruct (json_get "link" data) as [[]|]; try (by apply wp_panic).
  apply wp_try, wp_ext; intros fs2; [|by apply wp_ret].
  destruct (bool_decide _ || signature_taken t _) eqn:E; [by apply wp_ret|]. apply orb_false_iff in E as [_ E].
  apply wp_ret, Hok; [|done]. by repeat split.
Qed.

(** A request that panics had no row of a verified wallet to delete. *)
Definition request_post (req : VerificationRequest) (t : Requests)
    (o : outcome ((KycError + VerificationResponse) * Requests)) : Prop :=
  match o with
  | Ret (res, t') => request_effect req t res t'
  | Err _ => False
  | Panic => reopened t (vq_WalletAddress req)
  end.

Lemma request_wp req t w : table_ok t -> wp (RequestVerification conf req t) (fun o _ => request_post req t o) w.
Proof.
  intros [Hfiled Hsig]. unfold RequestVerification, fails.
  apply wp_try, wp_ext; intros fs; [|apply wp_ret; by left]. apply wp_bind, wp_getM.
  destruct (t !! vq_WalletAddress req) as [v|] eqn:Hv.
  2: { assert (Hre : reopened t (vq_WalletAddress req)) by (intros v' Hv'; congruence).
       apply create_wp; [done|by left|done|].
       intros r v w' Hr Hs. split; [done|]. exists v. split; [done|]. split; [by apply taken_delete|done]. }
  destruct (String.eqb _ _); [apply wp_ret; by left|].
  assert (Hagain : iv_status v <> CSuccess -> forall w1,
    wp (tryM ext (fun _ => retM (inl ErrDatabase, t)) (fun _ => create_request conf req (delete (vq_WalletAddress req) t)))
      (fun o _ => request_post req t o) w1).
  { intros Hst w1. assert (Hre : reopened t (vq_WalletAddress req)) by (intros v' Hv'; congruence).
    apply wp_try, wp_ext; intros fs1; [|apply wp_ret; by left].
    apply create_wp; [by rewrite lookup_delete_eq|by right|done|].
    intros r v' w' Hr Hs. split; [done|]. exists v'. by rewrite insert_delete_eq. }
  destruct (iv_status v) eqn:Hst; [|apply wp_ret; by left|by apply Hagain].
  destruct (_ <? _)%Z; [by apply Hagain|].
  apply wp_try, wp_ext; intros fs1; [|apply wp_ret; by left].
  destruct (signature_taken t _) eqn:Hs; [apply wp_ret; by left|].
  apply wp_ret. split; [intros v' Hv'; congruence|]. eexists. split; [|split; [by apply taken_delete|reflexivity]].
  split; [exact (Hfiled _ _ Hv)|]. done.
Qed.

(** What the endpoint does, by its end. *)
Definition endpoint_post (p : VerificationRequest) (t : Requests)
    (o : outcome (ApiResponse VerificationResponse * Requests)) : Prop :=
  let signed := verifyWalletSignature (vq_WalletAddress p) (vq_Signature p) (vq_Nonce p) = None in
  match o with
  | Ret (r, t') =>
      (~ signed /\ ar_code r = 400%Z /\ t' = t) \/
      (signed /\ exists res, request_effect p t res t' /\
         match res with inl _ => ar_code r <> 200%Z | inr d => ar_code r = 200%Z /\ ar_data r = Some d end)
  | Err _ => False
  | Panic => signed /\ reopened t (vq_WalletAddress p)
  end.
Lemma request_endpoint_wp p t w : table_ok t ->
  wp (RequestIDVerification conf (Some p) t) (fun o _ => endpoint_post p t o) w.
Proof.
  intros Hok. unfold RequestIDVerification, kyc_answer, endpoint_post.
  destruct (verifyWalletSignature _ _ _) as [m|] eqn:Hs; [apply wp_ret; by left|].
  apply wp_bind. eapply wp_mono; [by apply request_wp|]. intros [[res t1]|e|] w1 He; [|done|done].
  cbn [fst snd]. destruct res as [[]|d]; apply wp_ret; right; (split; [done|]); eexists; (split; [exact He|]); done.
Qed.

(** A request for a check, whatever fails.  Without the wallet's own signature over the
    consent and the nonce the answer is 400 and nothing changes.  The answer 200 means
    that the wallet was not verified, that its row is now pending under this signature,
    which no other wallet uses, and carries the link of the answer; any other answer has
    at most removed a row of this wallet that was not verified, and so has a panic. *)
Theorem request_verification_correct p t w : table_ok t ->
  wp (RequestIDVerification conf (Some p) t) (fun o _ => endpoint_post p t o) w.
Proof. apply request_endpoint_wp. Qed.

(** ** Runs *)

(** A report that counts: signed, with a success code. *)
Definition confirming (p : SmileIDWebhookPayload) : bool :=
  verifySmileIDWebhookSignature conf p (sw_Signature p) && bool_decide (code_status (sw_ResultCode p) = CSuccess).
Definition confirmed_by (payload : option SmileIDWebhookPayload) : gset string :=
  match payload with Some p => if confirming p then {[ sw_UserID p ]} else ∅ | None => ∅ end.

(** The world, the table, and the wallets of the reports that counted. *)
Definition KycState : Type := World * Requests * gset string.
Inductive kyc_step : KycState -> KycState -> Prop :=
  | kc_request payload w t rs r t' w' :
      RequestIDVerification conf payload t w = (Ret (r, t'), w') -> kyc_step (w, t, rs) (w', t', rs)
  | kc_panic p w t rs w' :
      RequestIDVerification conf (Some p) t w = (Panic, w') -> kyc_step (w, t, rs) (w', panicked_request p t, rs)
  | kc_report readable payload w t rs a t' w' :
      KYCWebhook conf readable payload t w = (Ret (a, t'), w') -> kyc_step (w, t, rs) (w', t', confirmed_by payload ∪ rs)
  | kc_outside w t rs w' : kyc_step (w, t, rs) (w', t, rs).

Definition verified_reported (t : Requests) (rs : gset string) : Prop :=
  forall a v, t !! a = Some v -> iv_status v = CSuccess -> a ∈ rs.
(** What one step keeps: the invariant, and every verified row. *)
Definition kyc_inv (s : KycState) : Prop := table_ok s.1.2 /\ verified_reported s.1.2 s.2.
Definition keeps_verified (t t' : Requests) : Prop := forall a v, t !! a = Some v -> iv_status v = CSuccess -> t' !! a = Some v.

Lemma keeps_refl t : keeps_verified t t.
Proof. by intros a v. Qed.
#[local] Hint Resolve keeps_refl : core.

Lemma table_delete t w : table_ok t -> table_ok (delete w t).
Proof.
  intros [Hf Hs]. split; [by apply map_Forall_delete|].
  intros k1 k2 v1 v2 [_ H1]%lookup_delete_Some [_ H2]%lookup_delete_Some. by apply Hs.
Qed.
Lemma table_insert t w v : table_ok t -> iv_wallet_address v = w -> signature_taken (delete w t) (iv_wallet_signature v) = false ->
  table_ok (<[w := v]> t).
Proof.
  intros [Hf Hs] Hw Hfree. split; [by apply map_Forall_insert_2|].
  assert (Hother : forall k u, w <> k -> t !! k = Some u -> iv_wallet_signature u <> iv_wallet_signature v).
  { intros k u Hne Hk. eapply signature_free; [exact Hfree|]. by apply lookup_delete_Some. }
  intros k1 k2 v1 v2 [[<- <-]|[Hn1 H1]]%lookup_insert_Some [[<- <-]|[Hn2 H2]]%lookup_insert_Some He; [done|..].
  - by destruct (Hother k2 v2 Hn2 H2).
  - by destruct (Hother k1 v1 Hn1 H1).
  - by eapply Hs.
Qed.

Lemma request_keeps p t res t' rs : request_effect p t res t' -> table_ok t -> verified_reported t rs ->
  (table_ok t' /\ verified_reported t' rs) /\ keeps_verified t t'.
Proof.
  intros He Hok Hv. destruct res as [e|r].
  - destruct He as [-> |[Hre ->]]; [by auto|]. split; [split; [by apply table_delete|]|].
    + intros a v [_ Ha]%lookup_delete_Some. by apply Hv.
    + intros a v Ha Hst. apply lookup_delete_Some. split; [|done]. intros <-. by apply (Hre v).
  - destruct He as (Hre & v & (H1 & H2 & H3 & _) & Hfree & ->). split; [split|].
    + apply table_insert; [done|done|by rewrite H2].
    + intros a u [[_ <-]|[_ Ha]]%lookup_insert_Some Hst; [congruence|by eapply Hv].
    + intros a u Ha Hst. rewrite lookup_insert_ne; [done|]. intros <-. by apply (Hre u).
Qed.

Lemma report_keeps wallet st t rs : table_ok t -> verified_reported t rs ->
  table_ok (report_status wallet st t) /\ keeps_verified t (report_status wallet st t) /\
  verified_reported (report_status wallet st t) (if bool_decide (st = CSuccess) then {[ wallet ]} ∪ rs else rs).
Proof.
  intros [Hf Hs] Hv.
  assert (Hrow : forall k v, report_status wallet st t !! k = Some v -> exists u, t !! k = Some u /\
    iv_wallet_address v = iv_wallet_address u /\ iv_wallet_signature v = iv_wallet_signature u /\
    (v = u \/ k = wallet /\ iv_status v = st)).
  { intros k v. unfold report_status. rewrite lookup_alter. case_decide as E; [subst|by eauto 10].
    destruct (t !! k) as [u|]; [|done]. intros [= <-]. exists u. destruct (decide (iv_status u = CPending)); by auto 10. }
  split; [split|split].
  - intros k v (u & Hu & -> & _)%Hrow. by apply Hf.
  - intros k1 k2 v1 v2 (u1 & H1 & _ & E1 & _)%Hrow (u2 & H2 & _ & E2 & _)%Hrow He. eapply Hs; [done..|congruence].
  - intros a v Ha Hst. unfold report_status. rewrite lookup_alter. case_decide as E; [subst|done]. rewrite Ha. simpl.
    destruct (decide (iv_status v = CPending)); [congruence|done].
  - intros a v (u & Hu & _ & _ & [-> |[-> Hst]])%Hrow Hsuc.
    + specialize (Hv a u Hu Hsuc). destruct (bool_decide _); set_solver.
    + assert (st = CSuccess) as Hst' by congruence. rewrite (bool_decide_eq_true_2 _ Hst'). set_solver.
Qed.

Lemma webhook_wp readable payload t w rs : table_ok t -> verified_reported t rs ->
  wp (KYCWebhook conf readable payload t) (fun o _ => forall a t', o = Ret (a, t') ->
    (table_ok t' /\ verified_reported t' (confirmed_by payload ∪ rs)) /\ keeps_verified t t') w.
Proof.
  intros Hok Hv. assert (Hmore : forall X, verified_reported t (X ∪ rs)) by (intros X a v Ha Hst; specialize (Hv a v Ha Hst); set_solver).
  unfold KYCWebhook. destruct (negb readable); [apply wp_ret; by intros a t' [= <- <-]|].
  apply wp_bind. unfold HandleWebhook, fails. destruct payload as [p|]; [|do 2 apply wp_ret; by intros a t' [= <- <-]].
  cbn [confirmed_by]. unfold confirming. destruct (verifySmileIDWebhookSignature _ _ _); cbn [negb andb].
  2: { do 2 apply wp_ret. by intros a t' [= <- <-]. }
  apply wp_try, wp_ext; intros fs; [|do 2 apply wp_ret; by intros a t' [= <- <-]]. do 2 apply wp_ret. intros a t' [= <- <-].
  destruct (report_keeps (sw_UserID p) (code_status (sw_ResultCode p)) t rs Hok Hv) as (H1 & H2 & H3). split; [split; [done|]|done].
  destruct (bool_decide _); [done|]. by rewrite (left_id_L ∅ (∪)).
Qed.

Lemma kyc_step_keeps s s' : kyc_step s s' -> kyc_inv s -> kyc_inv s' /\ keeps_verified s.1.2 s'.1.2.
Proof.
  unfold kyc_inv. intros Hstep [Hok Hv]. destruct Hstep as [payload w t rs r t' w' Hrun|p w t rs w' Hrun|readable payload w t rs a t' w' Hrun|];
    cbn [fst snd] in *; [| | |done].
  - destruct payload as [p|]; [|by injection Hrun as _ <- _].
    pose proof (request_endpoint_wp p t w Hok) as Hw. unfold wp in Hw. rewrite Hrun in Hw.
    destruct Hw as [(_ & _ & ->)|(_ & res & He & _)]; [done|]. by eapply request_keeps.
  - pose proof (request_endpoint_wp p t w Hok) as Hw. unfold wp in Hw. rewrite Hrun in Hw. destruct Hw as [_ Hre].
    apply (request_keeps p t (inl ErrDatabase)); [by right|done|done].
  - pose proof (webhook_wp readable payload t w rs Hok Hv) as Hw. unfold wp in Hw. rewrite Hrun in Hw. by apply (Hw a t').
Qed.
Lemma kyc_run_keeps s s' : rtc kyc_step s s' -> kyc_inv s -> kyc_inv s' /\ keeps_verified s.1.2 s'.1.2.
Proof.
  induction 1 as [s|s1 s2 s3 H1 _ IH]; intros Hinv; [by split|]. destruct (kyc_step_keeps _ _ H1 Hinv) as [H2 K2].
  destruct (IH H2) as [H3 K3]. split; [done|]. intros a v Ha Hst. apply K3; [|done]. by apply K2.
Qed.
Lemma kyc_inv_empty w : kyc_inv (w, ∅, ∅).
Proof.
  split; [split; [by apply map_Forall_empty|]|]; cbn [fst snd].
  - intros k1 k2 v1 v2 H. by rewrite lookup_empty in H.
  - intros a v H. by rewrite lookup_empty in H.
Qed.

(** C31: over every sequence of requests, reports and failures from an empty table: a wallet
    is verified only when a report about it came with the right signature and a success
    code, and whatever happens afterwards its row stays as it is. *)
Theorem verified_by_report_forever w0 w t rs w2 t2 rs2 a v :
  rtc kyc_step (w0, ∅, ∅) (w, t, rs) -> rtc kyc_step (w, t, rs) (w2, t2, rs2) ->
  t !! a = Some v -> iv_status v = CSuccess -> a ∈ rs /\ t2 !! a = Some v.
Proof.
  intros H1 H2 Ha Hst. destruct (kyc_run_keeps _ _ H1 (kyc_inv_empty w0)) as [Hinv _].
  destruct (kyc_run_keeps _ _ H2 Hinv) as [_ Hk]. split; [by apply (proj2 Hinv a v)|by apply Hk].
Qed.

(** In every reachable table a row is filed under its wallet, and no two rows have the
    same signature. *)
Theorem wallet_signatures_unique w0 w t rs a b u v :
  rtc kyc_step (w0, ∅, ∅) (w, t, rs) -> t !! a = Some u -> t !! b = Some v ->
  iv_wallet_address u = a /\ (iv_wallet_signature u = iv_wallet_signature v -> a = b).
Proof.
  intros H1 Ha Hb. destruct (kyc_run_keeps _ _ H1 (kyc_inv_empty w0)) as [[[Hf Hs] _] _]. split; [by apply Hf|by apply Hs].
Qed.

(** The signature of one genuine report, about any wallet and any result, lets anyone
    report any result about any wallet: it covers the timestamp only, whose age is not
    looked at. *)
Theorem report_signature_transfers p code user t w :
  verifySmileIDWebhookSignature conf p (sw_Signature p) = true -> w_faults w = [] ->
  KYCWebhook conf true (Some (mkSmile code user (sw_Signature p) (sw_Timestamp p))) t w =
    (Ret ((200%Z, "Webhook processed successfully"), report_status user (code_status code) t), w).
Proof.
  intros Hs Hf. unfold KYCWebhook, HandleWebhook, bindM, tryM. unfold verifySmileIDWebhookSignature in *. cbn [sw_Timestamp sw_Signature sw_UserID sw_ResultCode].
  rewrite Hs. cbn [negb]. unfold ext. rewrite Hf. reflexivity.
Qed.
End claims.

(** ** Concrete runs *)

(** One wallet, which signs with itself; the provider gives one link. *)
Definition s_wallet : string := hex_string (replicate 20 (171%Z)).
Definition s_wallet_signature : string := String.string_of_list_ascii (digits (replicate 64 1%Z ++ [27%Z])).
Definition s_kyc_services : KycServices := {|
  smile_answer _ _ := mkResp 200 (BObject [("ref_id", JStr "ref"); ("link", JStr "https://links.usesmileid.com/x")]);
  smile_mac key message := key +:+ "/" +:+ message;
  recover_address _ sig := if bool_decide (sig = replicate 64 1%Z ++ [0%Z]) then Some (replicate 20 171%Z) else None;
  rfc3339nano _ := "2025-11-18T00:00:00Z"
|}.
Definition s_kyc_conf : KycConf :=
  mkKycConf "https://api.smileidentity.com" "key" "partner" "https://server"
    (Some [mkContinent "Africa" [mkCountry "Nigeria" "NG" [mkIDType "NIN_V2" "biometric_kyc"]]]).
Definition s_vreq : VerificationRequest := mkVReq s_wallet s_wallet_signature "1".
Definition s_report (code user : string) : SmileIDWebhookPayload := mkSmile code user "key/nowpartnersid_request" "now".
Definition s_kyc_world : World := s_world (s_pc 100 0 100) [].

Definition run_request (t : Requests) (w : World) : outcome (ApiResponse VerificationResponse * Requests) * World :=
  RequestIDVerification (KY := s_kyc_services) s_kyc_conf (Some s_vreq) t w.
Definition run_report (code : string) (t : Requests) (w : World) : outcome ((Z * string) * Requests) * World :=
  KYCWebhook (KY := s_kyc_services) s_kyc_conf true (Some (s_report code s_wallet)) t w.
Definition s_row (st : CheckState) : IdentityVerificationRequest :=
  mkIVR s_wallet s_wallet_signature "ref" "https://links.usesmileid.com/x" st (w_now s_kyc_world).
Definition s_requested : World := (run_request ∅ s_kyc_world).2.
Definition s_verified : World := (run_report "0810" {[ s_wallet := s_row CPending ]} s_requested).2.

Lemma run_request_is t w r t' : (run_request t w).1 = Ret (r, t') -> run_request t w = (Ret (r, t'), (run_request t w).2).
Proof. intros <-. apply surjective_pairing. Qed.
Lemma run_report_is code t w a t' : (run_report code t w).1 = Ret (a, t') -> run_report code t w = (Ret (a, t'), (run_report code t w).2).
Proof. intros <-. apply surjective_pairing. Qed.
Lemma s_request_answers : (run_request ∅ s_kyc_world).1 =
  Ret (mkResponse 200 "success" "Identity verification requested successfully"
         (Some (mkVResp "https://links.usesmileid.com/x" (w_now s_kyc_world))), {[ s_wallet := s_row CPending ]}).
Proof. vm_compute. reflexivity. Qed.
Lemma s_report_answers : (run_report "0810" {[ s_wallet := s_row CPending ]} s_requested).1 =
  Ret ((200%Z, "Webhook processed successfully"), {[ s_wallet := s_row CSuccess ]}).
Proof. vm_compute. reflexivity. Qed.
Lemma s_request_steps : rtc (kyc_step (KY := s_kyc_services) s_kyc_conf) (s_kyc_world, ∅, ∅)
  (s_requested, {[ s_wallet := s_row CPending ]}, ∅).
Proof. apply rtc_once. eapply (kc_request s_kyc_conf (Some s_vreq)). apply run_request_is, s_request_answers. Qed.
Lemma s_report_steps : rtc (kyc_step (KY := s_kyc_services) s_kyc_conf) (s_kyc_world, ∅, ∅)
  (s_verified, {[ s_wallet := s_row CSuccess ]}, {[ s_wallet ]} ∪ ∅).
Proof.
  eapply rtc_r; [exact s_request_steps|].
  apply (kc_report (KY := s_kyc_services) s_kyc_conf true (Some (s_report "0810" s_wallet)) _ _ _ (200%Z, "Webhook processed successfully")).
  apply run_report_is, s_report_answers.
Qed.

(** A request, a success, and a later report of a failure. *)
Lemma verified_by_report_forever_witness :
  s_wallet ∈ ({[ s_wallet ]} ∪ ∅ : gset string) /\ ({[ s_wallet := s_row CSuccess ]} : Requests) !! s_wallet = Some (s_row CSuccess).
Proof.
  apply (verified_by_report_forever (KY := s_kyc_services) s_kyc_conf s_kyc_world s_verified {[ s_wallet := s_row CSuccess ]}
    ({[ s_wallet ]} ∪ ∅) (run_report "0811" {[ s_wallet := s_row CSuccess ]} s_verified).2 {[ s_wallet := s_row CSuccess ]}
    ({[ s_wallet ]} ∪ ∅)).
  - exact s_report_steps.
  - apply rtc_once. rewrite <- (left_id_L ∅ (∪) ({[ s_wallet ]} ∪ ∅ : gset string)) at 2.
    apply (kc_report (KY := s_kyc_services) s_kyc_conf true (Some (s_report "0811" s_wallet)) _ _ _ (200%Z, "Webhook processed successfully")).
    apply run_report_is. vm_compute. reflexivity.
  - apply lookup_singleton_eq.
  - reflexivity.
Defined.

Lemma wallet_signatures_unique_witness :
  iv_wallet_address (s_row CPending) = s_wallet /\ (iv_wallet_signature (s_row CPending) = iv_wallet_signature (s_row CPending) -> s_wallet = s_wallet).
Proof.
  apply (wallet_signatures_unique (KY := s_kyc_services) s_kyc_conf s_kyc_world s_requested {[ s_wallet := s_row CPending ]} ∅).
  - exact s_request_steps.
  - apply lookup_singleton_eq.
  - apply lookup_singleton_eq.
Defined.

Lemma request_verification_correct_witness :
  exists res, request_effect s_vreq ∅ res {[ s_wallet := s_row CPending ]} /\
    match res with inl _ => False | inr d => vs_URL d = "https://links.usesmileid.com/x" end.
Proof.
  pose proof (request_verification_correct (KY := s_kyc_services) s_kyc_conf s_vreq ∅ s_kyc_world (proj1 (kyc_inv_empty s_kyc_world))) as H.
  unfold wp in H. change (RequestIDVerification _ (Some s_vreq) ∅ s_kyc_world) with (run_request ∅ s_kyc_world) in H.
  rewrite s_request_answers in H. destruct H as [(Hs & _)|(_ & res & He & Hr)].
  - exfalso. apply Hs. vm_compute. reflexivity.
  - exists res. split; [exact He|]. destruct res as [e|d]; [by apply Hr|]. destruct Hr as [_ Hd]. by injection Hd as <-.
Defined.

(** The signature of a report about one wallet, used for another. *)
Lemma report_signature_transfers_witness :
  KYCWebhook (KY := s_kyc_services) s_kyc_conf true (Some (mkSmile "0810" s_wallet "key/nowpartnersid_request" "now"))
    {[ s_wallet := s_row CPending ]} s_kyc_world =
  (Ret ((200%Z, "Webhook processed successfully"), report_status s_wallet CSuccess {[ s_wallet := s_row CPending ]}), s_kyc_world).
Proof.
  apply (report_signature_transfers (KY := s_kyc_services) s_kyc_conf (s_report "0811" "0xother") "0810" s_wallet); reflexivity.
Defined.
